(** * The sudoku state engine of [engine/datamodule.c], embedded in Rocq

    The C extension module keeps a 9x9 grid of cells together with redundant
    per-house counters.  This development translates the functions of
    [datamodule.c] into Rocq functions over explicit state and proves (or
    refutes) the properties the specification states about them.

    Conventions of the embedding:
    - C arrays are lists, read with stdpp's total lookup [!!!] and written
      with [alter]; an index outside the array reads the default element and
      writes nothing (in C both are undefined behaviour);
    - [uint16_t] fields are integers reduced modulo 2^16 where the C code
      stores into them; [Py_ssize_t] counters are unbounded integers (signed
      overflow is undefined in C and needs 2^63 increments);
    - a function that reports an error after changing the object returns the
      changed object next to its outcome;
    - Python exceptions are named by the error kinds of the specification. *)

From stdpp Require Import base list gmap sorting strings.
From Stdlib Require Import ZArith Lia Ascii.

Local Open Scope Z_scope.

(** ** Constants and macros *)

Definition NUMROWS : Z := 9.
Definition GRIDSIZE : Z := 81.
Definition TERMS : Z := 0x01FF.
Definition ERRORBIT : Z := 0x8000.
Definition MAXRECT : Z := 1296.

Definition ROWOFFSET : Z := NUMROWS * 2.
Definition COLOFFSET : Z := NUMROWS.
Definition GROFFSET : Z := 0.

(** Conversion to [uint16_t]. *)
Definition uint16 (z : Z) : Z := z mod 65536.
(** Conversion to [uint32_t]. *)
Definition uint32 (z : Z) : Z := z mod 4294967296.
(** Conversion to [uint8_t]. *)
Definition uint8 (z : Z) : Z := z mod 256.

Definition INDEX (x y : Z) : Z := x * NUMROWS + y.
Definition ROW (i : Z) : Z := Z.quot i NUMROWS.
Definition COL (i : Z) : Z := Z.rem i NUMROWS.

(** [set |= (1 << bit)] on a [uint16_t] variable. *)
Definition SET_BIT (set bit : Z) : Z := uint16 (Z.lor set (Z.shiftl 1 bit)).

(** [x & (1 << i)] used as a C truth value. *)
Definition has_bit (set i : Z) : bool := negb (Z.land set (Z.shiftl 1 i) =? 0).

(** [SUBSET(x,y)]: true if x is a subset of y. *)
Definition SUBSET (x y : Z) : bool := Z.lor x y =? y.

(** Array access with a C index.  An index below 0 or past the end is
    undefined behaviour in C; here it reads the default element and writes
    nothing. *)
Definition zget `{Inhabited A} (l : list A) (i : Z) : A :=
  if i <? 0 then inhabitant else l !!! Z.to_nat i.

Definition zupd {A} (l : list A) (i : Z) (f : A → A) : list A :=
  if i <? 0 then l else alter f (Z.to_nat i) l.

(** [for (i = lo; i < hi; i++) body], without early exit. *)
Definition for_loop {S} (lo hi : Z) (body : Z → S → S) (s : S) : S :=
  fold_left (λ acc i, body i acc) (seqZ lo (hi - lo)) s.

(** ** Errors and results *)

(** The error kinds of the specification, with the exception the C code
    raises for each:
    [BadKey] TypeError from [UNPACK_KEY]; [BadDigit], [BadCount],
    [BadCorner], [BadState] ValueError; [KeyConflict] KeyError;
    [Contradiction] ContradictionError; [TypeMismatch] TypeError for a value
    that is not a CandidateSet; [InternalError] SystemError raised inside
    the C API. *)
Inductive error : Type :=
  | BadKey
  | BadDigit
  | BadCount
  | BadCorner
  | BadState
  | KeyConflict
  | Contradiction (x y : Z)
  | TypeMismatch
  | OsRngUnavailable
  | ConfigError
  | InternalError.

Inductive result (A : Type) : Type :=
  | Ok (a : A)
  | Err (e : error).
Arguments Ok {A} a.
Arguments Err {A} e.

Definition is_ok {A} (r : result A) : bool :=
  match r with Ok _ => true | Err _ => false end.

#[global] Instance error_eq_dec : EqDecision error.
Proof. solve_decision. Defined.

#[global] Instance result_eq_dec `{EqDecision A} : EqDecision (result A).
Proof. solve_decision. Defined.

(** A grid key as [UNPACK_KEY] sees it after [PyLong_AsSsize_t]: two machine
    integers.  Keys that are not 2-tuples of ints are outside the model. *)
Definition key : Type := (Z * Z)%type.

(** The range test of [UNPACK_KEY]. *)
Definition UNPACK_KEY (k : key) : result (Z * Z) :=
  let '(x, y) := k in
  if (x >=? NUMROWS) || (y >=? NUMROWS) || (x <? 0) || (y <? 0)
  then Err BadKey
  else Ok (x, y).

(** ** CandidateSet *)

Record CandidateSetObject : Type := mkCandidateSet {
  cs_iterpos : Z;
  cs_set : Z
}.

#[global] Instance CandidateSetObject_eq_dec : EqDecision CandidateSetObject.
Proof. solve_decision. Defined.

Definition build_set (set : Z) : CandidateSetObject :=
  {| cs_set := Z.land set TERMS; cs_iterpos := 0 |}.

(** [count_ones]: the parallel bit count on a 32-bit word.  The source writes
    the masks in octal: 033333333333 = 0xDB6DB6DB, 011111111111 = 0x49249249
    and 030707070707 = 0xC71C71C7. *)
Definition count_ones (u : Z) : Z :=
  let uCount :=
    uint32 (u - Z.land (Z.shiftr u 1) 0xDB6DB6DB
              - Z.land (Z.shiftr u 2) 0x49249249) in
  Z.rem (Z.land (uint32 (uCount + Z.shiftr uCount 3)) 0xC71C71C7) 63.

(** [isizes]: the interned sizes filled in by [PyInit_data]. *)
Definition isizes : list Z := count_ones <$> seqZ 0 512.

(** The public constructor [CandidateSet(bits...)]. *)
Fixpoint data_CandidateSet___new___loop (args : list Z) (set : Z) : result Z :=
  match args with
  | [] => Ok set
  | bit :: rest =>
      if (bit >=? 9) || (bit <? 0) then Err BadDigit
      else data_CandidateSet___new___loop rest (SET_BIT set bit)
  end.

Definition data_CandidateSet___new__ (args : list Z) : result CandidateSetObject :=
  match data_CandidateSet___new___loop args 0 with
  | Ok set => Ok (build_set set)
  | Err e => Err e
  end.

Definition cs_seq_length (self : CandidateSetObject) : Z :=
  zget isizes (cs_set self).

Definition data_CandidateSet___getstate___impl (self : CandidateSetObject) : Z * Z :=
  (cs_set self, cs_iterpos self).

(** [__setstate__]: [state] is the pair of ints [PyArg_ParseTuple] reads. *)
Definition data_CandidateSet___setstate__ (self : CandidateSetObject) (state : Z * Z)
  : CandidateSetObject * result unit :=
  let '(x, y) := state in
  if (x >=? NUMROWS) || (x <? 0) || (y <? 0) then (self, Err BadState)
  else ({| cs_iterpos := y; cs_set := uint16 x |}, Ok tt).

(** ** The state object *)

(** [cell_info]: information about each cell. *)
Record cell_info : Type := mkCell {
  ci_group : Z;        (* offset into the house_info array for this cell's group *)
  ci_value : Z;        (* uint16_t; ERRORBIT is set if the cell is unsolved *)
  ci_candidates : Z    (* uint16_t; bits 0-8 *)
}.

(** [house_info]: information for a house.  The borrowed pointer [hi_keyset]
    is not read by any function below and is left out. *)
Record house_info : Type := mkHouse {
  hi_solved : Z;
  hi_cand_count : list Z
}.

#[global] Instance cell_info_eq_dec : EqDecision cell_info.
Proof. solve_decision. Defined.
#[global] Instance house_info_eq_dec : EqDecision house_info.
Proof. solve_decision. Defined.
#[global] Instance cell_info_inhabited : Inhabited cell_info :=
  populate (mkCell 0 0 0).
#[global] Instance house_info_inhabited : Inhabited house_info :=
  populate (mkHouse 0 []).

(** A Python object handed to the state as a dictionary value: either a
    CandidateSet or an object of another type ([CandidateSet_Check] fails). *)
Inductive pyobject : Type :=
  | PyCandidateSet (c : CandidateSetObject)
  | PyOther.

#[global] Instance pyobject_eq_dec : EqDecision pyobject.
Proof. solve_decision. Defined.

(** [SudokuStateObject].  A group configuration is the list of the 81 group
    labels in row-major order, a label standing for the identity of the
    group object the dictionary maps the key to.  [ss_peers] keeps, for each
    cell, item 0 of its peers tuple (the keys of its group).  The opaque
    objects are integers.  The tables [ss_subgroups], [ss_housekeys] and
    [ss_oneset] and [ss_weakref] are handed out unchanged and left out. *)
Record SudokuStateObject : Type := mkState {
  ss_solved : Z;
  ss_digits : list Z;
  ss_grconfig : list Z;
  ss_peers : list (list key);
  ss_movehook : option Z;
  ss_skeys : gset key;
  ss_dict : option (list (Z * Z));
  ss_houses : list house_info;
  ss_grid : list cell_info
}.

Definition set_ss_solved (s : SudokuStateObject) (v : Z) : SudokuStateObject :=
  mkState v (ss_digits s) (ss_grconfig s) (ss_peers s) (ss_movehook s)
          (ss_skeys s) (ss_dict s) (ss_houses s) (ss_grid s).
Definition set_ss_digits (s : SudokuStateObject) (v : list Z) : SudokuStateObject :=
  mkState (ss_solved s) v (ss_grconfig s) (ss_peers s) (ss_movehook s)
          (ss_skeys s) (ss_dict s) (ss_houses s) (ss_grid s).
Definition set_ss_config (s : SudokuStateObject) (g : list Z) (p : list (list key))
  : SudokuStateObject :=
  mkState (ss_solved s) (ss_digits s) g p (ss_movehook s)
          (ss_skeys s) (ss_dict s) (ss_houses s) (ss_grid s).
Definition set_ss_movehook (s : SudokuStateObject) (v : option Z) : SudokuStateObject :=
  mkState (ss_solved s) (ss_digits s) (ss_grconfig s) (ss_peers s) v
          (ss_skeys s) (ss_dict s) (ss_houses s) (ss_grid s).
Definition set_ss_skeys (s : SudokuStateObject) (v : gset key) : SudokuStateObject :=
  mkState (ss_solved s) (ss_digits s) (ss_grconfig s) (ss_peers s) (ss_movehook s)
          v (ss_dict s) (ss_houses s) (ss_grid s).
Definition set_ss_dict (s : SudokuStateObject) (v : option (list (Z * Z)))
  : SudokuStateObject :=
  mkState (ss_solved s) (ss_digits s) (ss_grconfig s) (ss_peers s) (ss_movehook s)
          (ss_skeys s) v (ss_houses s) (ss_grid s).
Definition set_ss_houses (s : SudokuStateObject) (v : list house_info)
  : SudokuStateObject :=
  mkState (ss_solved s) (ss_digits s) (ss_grconfig s) (ss_peers s) (ss_movehook s)
          (ss_skeys s) (ss_dict s) v (ss_grid s).
Definition set_ss_grid (s : SudokuStateObject) (v : list cell_info)
  : SudokuStateObject :=
  mkState (ss_solved s) (ss_digits s) (ss_grconfig s) (ss_peers s) (ss_movehook s)
          (ss_skeys s) (ss_dict s) (ss_houses s) v.

(** Cell macros. *)
Definition CELL_VALUE (grid : list cell_info) (x y : Z) : Z :=
  ci_value (zget grid (INDEX x y)).
Definition CELL_CANDS (grid : list cell_info) (x y : Z) : Z :=
  ci_candidates (zget grid (INDEX x y)).
Definition CELL_FILLED (grid : list cell_info) (x y : Z) : bool :=
  Z.land (CELL_VALUE grid x y) ERRORBIT =? 0.
(** The index [CELL_GROUP] selects in [ss_houses]. *)
Definition CELL_GROUP (s : SudokuStateObject) (x y : Z) : Z :=
  ci_group (zget (ss_grid s) (INDEX x y)).

Definition set_CELL_VALUE (s : SudokuStateObject) (x y v : Z) : SudokuStateObject :=
  set_ss_grid s (zupd (ss_grid s) (INDEX x y)
    (λ c, mkCell (ci_group c) (uint16 v) (ci_candidates c))).
Definition set_CELL_CANDS (s : SudokuStateObject) (x y v : Z) : SudokuStateObject :=
  set_ss_grid s (zupd (ss_grid s) (INDEX x y)
    (λ c, mkCell (ci_group c) (ci_value c) (uint16 v))).

(** The object [PyType_GenericNew] allocates: zero-filled memory. *)
Definition zero_house : house_info := mkHouse 0 (replicate 9 0).
Definition zero_houses : list house_info := replicate 27 zero_house.
Definition State_alloc : SudokuStateObject :=
  {| ss_solved := 0; ss_digits := replicate 9 0; ss_grconfig := [];
     ss_peers := []; ss_movehook := None; ss_skeys := ∅; ss_dict := None;
     ss_houses := zero_houses; ss_grid := replicate 81 (mkCell 0 0 0) |}.

(** *** External configuration *)

(** The keys of the grid in row-major order. *)
Definition all_keys : list key := (λ i, (ROW i, COL i)) <$> seqZ 0 GRIDSIZE.

(** Modelled from the spec: [default_grconfig] is built by
    [engine.config.build_config], which is not under src/.  The glossary
    describes the default groups as the 3x3 boxes. *)
Definition default_grconfig : list Z :=
  (λ i, 3 * (ROW i / 3) + COL i / 3) <$> seqZ 0 GRIDSIZE.

(** Modelled from the spec: [engine.config.calculate_peers] is not under
    src/.  The peers of a cell in its box are the cells sharing its box,
    excluding itself; only this item of the peers tuple is read here. *)
Definition do_calculate_peers (grconfig : list Z) : list (list key) :=
  (λ i, filter (λ k : key, k ≠ (ROW i, COL i)
                   ∧ grconfig !! Z.to_nat (INDEX k.1 k.2) = grconfig !! Z.to_nat i)
               all_keys) <$> seqZ 0 GRIDSIZE.

Definition default_peers : list (list key) := do_calculate_peers default_grconfig.

(** [set_python_calculated_attrs]: no configuration or one equal to the
    default installs the default tables. *)
Definition set_python_calculated_attrs (self : SudokuStateObject)
    (grconfig : option (list Z)) : SudokuStateObject :=
  match grconfig with
  | None => set_ss_config self default_grconfig default_peers
  | Some g =>
      if decide (g = default_grconfig)
      then set_ss_config self default_grconfig default_peers
      else set_ss_config self g (do_calculate_peers g)
  end.

(** [set_defaults]: init the cell_info structs. *)
Definition set_defaults (grid : list cell_info) : list cell_info :=
  for_loop 0 GRIDSIZE
    (λ i grid, zupd grid i (λ c, mkCell (ci_group c) ERRORBIT 0)) grid.

(** The position of [value] in [found_vals], or their number when absent:
    the value of [k] after the search loop of [set_groups_in_cells]. *)
Fixpoint found_index (value : Z) (found_vals : list Z) (k : Z) : Z * bool :=
  match found_vals with
  | [] => (k, false)
  | v :: rest => if value =? v then (k, true) else found_index value rest (k + 1)
  end.

(** [set_groups_in_cells].  [found_vals] grows by one for each new group
    object; the C array holds nine, a tenth group overruns it. *)
Fixpoint set_groups_in_cells_loop (idx : list Z) (grconfig : list Z)
    (grid : list cell_info) (found_vals : list Z) : result (list cell_info) :=
  match idx with
  | [] => Ok grid
  | i :: rest =>
      match grconfig !! Z.to_nat i with
      | None => Err BadKey
      | Some value =>
          let '(k, seen) := found_index value found_vals 0 in
          let grid := zupd grid i
            (λ c, mkCell (k + GROFFSET) (ci_value c) (ci_candidates c)) in
          set_groups_in_cells_loop rest grconfig grid
            (if seen then found_vals else found_vals ++ [value])
      end
  end.

Definition set_groups_in_cells (grid : list cell_info) (grconfig : list Z)
  : result (list cell_info) :=
  set_groups_in_cells_loop (seqZ 0 GRIDSIZE) grconfig grid [].

(** *** House counters *)

Definition upd_house (self : SudokuStateObject) (h : Z) (f : house_info → house_info)
  : SudokuStateObject :=
  set_ss_houses self (zupd (ss_houses self) h f).

Definition solved_add (delta : Z) (h : house_info) : house_info :=
  mkHouse (hi_solved h + delta) (hi_cand_count h).
Definition cand_add (i delta : Z) (h : house_info) : house_info :=
  mkHouse (hi_solved h) (zupd (hi_cand_count h) i (λ n, n + delta)).

(** [house_adjust_solved_up] and [house_adjust_solved_down]. *)
Definition house_adjust_solved_up (self : SudokuStateObject) (x y : Z)
  : SudokuStateObject :=
  let self := upd_house self (x + ROWOFFSET) (solved_add 1) in
  let self := upd_house self (y + COLOFFSET) (solved_add 1) in
  upd_house self (CELL_GROUP self x y) (solved_add 1).

Definition house_adjust_solved_down (self : SudokuStateObject) (x y : Z)
  : SudokuStateObject :=
  let self := upd_house self (x + ROWOFFSET) (solved_add (-1)) in
  let self := upd_house self (y + COLOFFSET) (solved_add (-1)) in
  upd_house self (CELL_GROUP self x y) (solved_add (-1)).

(** One round of the loop of [house_adjust_cand_count_up] (delta 1) and
    [house_adjust_cand_count_down] (delta -1). *)
Definition house_adjust_cand_count_step (delta x y set i : Z)
    (self : SudokuStateObject) : SudokuStateObject :=
  if has_bit set i then
    let self := upd_house self (x + ROWOFFSET) (cand_add i delta) in
    let self := upd_house self (y + COLOFFSET) (cand_add i delta) in
    upd_house self (CELL_GROUP self x y) (cand_add i delta)
  else self.

Definition house_adjust_cand_count_up (self : SudokuStateObject) (x y set : Z)
  : SudokuStateObject :=
  for_loop 0 NUMROWS (house_adjust_cand_count_step 1 x y set) self.

Definition house_adjust_cand_count_down (self : SudokuStateObject) (x y set : Z)
  : SudokuStateObject :=
  for_loop 0 NUMROWS (house_adjust_cand_count_step (-1) x y set) self.

(** *** Pencil marks *)

(** [find_clues_in_keyset]: the clues of the solved keys of a keyset, with
    ERRORBIT set when a key is rejected. *)
Fixpoint find_clues_in_keyset_loop (grid : list cell_info) (keyset : list key)
    (clues : Z) : Z * bool :=
  match keyset with
  | [] => (clues, false)
  | k :: rest =>
      match UNPACK_KEY k with
      | Err _ => (clues, true)
      | Ok (x, y) =>
          find_clues_in_keyset_loop grid rest
            (if CELL_FILLED grid x y then SET_BIT clues (CELL_VALUE grid x y)
             else clues)
      end
  end.

Definition find_clues_in_keyset (grid : list cell_info) (keyset : list key) : Z :=
  let '(clues, err) := find_clues_in_keyset_loop grid keyset 0 in
  if err then Z.lor clues ERRORBIT else clues.

(** [for] loop whose body may return an error from the function. *)
Definition for_loop_r {S} (lo hi : Z) (body : Z → S → S * result unit) (s : S)
  : S * result unit :=
  fold_left (λ acc i, match acc with
                      | (s, Ok _) => body i s
                      | (_, Err _) => acc
                      end)
            (seqZ lo (hi - lo)) (s, Ok tt).

(** The clues of the solved peers in row [n], the cell itself excluded. *)
Definition row_clues (grid : list cell_info) (n m : Z) (notcandidates : Z) : Z :=
  for_loop 0 NUMROWS
    (λ z acc, if (z =? m) || negb (CELL_FILLED grid n z) then acc
              else SET_BIT acc (CELL_VALUE grid n z)) notcandidates.

(** The clues of the solved peers in column [m], the cell itself excluded. *)
Definition col_clues (grid : list cell_info) (n m : Z) (notcandidates : Z) : Z :=
  for_loop 0 NUMROWS
    (λ z acc, if (z =? n) || negb (CELL_FILLED grid z m) then acc
              else SET_BIT acc (CELL_VALUE grid z m)) notcandidates.

(** The body of the double loop of [fill_in_pencilmarks] at cell (n, m). *)
Definition fill_in_pencilmarks_cell (n m : Z) (self : SudokuStateObject)
  : SudokuStateObject * result unit :=
  if CELL_FILLED (ss_grid self) n m then (self, Ok tt)
  else
    let notcandidates := row_clues (ss_grid self) n m 0 in
    let notcandidates := col_clues (ss_grid self) n m notcandidates in
    match ss_peers self !! Z.to_nat (INDEX n m) with
    | None => (self, Err BadKey)
    | Some keyset =>
        let q := find_clues_in_keyset (ss_grid self) keyset in
        if negb (Z.land q ERRORBIT =? 0) then (self, Err BadKey)
        else
          let notcandidates := Z.lor notcandidates q in
          let self := set_CELL_CANDS self n m
                        (Z.land (Z.lnot notcandidates) TERMS) in
          (house_adjust_cand_count_up self n m (CELL_CANDS (ss_grid self) n m),
           Ok tt)
    end.

(** [fill_in_pencilmarks].  The [memset] at its head clears
    [sizeof(Py_ssize_t)] bytes of each [hi_cand_count], that is, entry 0. *)
Definition fill_in_pencilmarks (self : SudokuStateObject)
  : SudokuStateObject * result unit :=
  let self := for_loop 0 (NUMROWS * 3)
    (λ n self, upd_house self n
       (λ h, mkHouse (hi_solved h) (zupd (hi_cand_count h) 0 (λ _, 0)))) self in
  for_loop_r 0 NUMROWS
    (λ n self, for_loop_r 0 NUMROWS (λ m self, fill_in_pencilmarks_cell n m self) self)
    self.

(** *** Construction *)

(** The loop of [__init__] that puts the givens in the grid.  [clues] is the
    dictionary in iteration order; its values are the ints
    [PyLong_AsSsize_t] returns.  The range test lets the clue 9 through; its
    increment [ss_digits[9]++] falls one past the array, and [ss_digits]
    itself stays as it is. *)
Fixpoint put_givens (self : SudokuStateObject) (clues : list (key * Z))
  : SudokuStateObject * result unit :=
  match clues with
  | [] => (self, Ok tt)
  | (k, cl) :: rest =>
      if (cl <? 0) || (cl >? NUMROWS) then (self, Err BadDigit)
      else
        let self := set_ss_skeys self ({[ k ]} ∪ ss_skeys self) in
        match UNPACK_KEY k with
        | Err e => (self, Err e)
        | Ok (x, y) =>
            let self := set_CELL_VALUE self x y cl in
            let self := house_adjust_solved_up self x y in
            let self := set_ss_digits self (zupd (ss_digits self) cl (λ n, n + 1)) in
            put_givens self rest
        end
  end.

(** [data_State___init___impl]. *)
Definition data_State___init___impl (self : SudokuStateObject)
    (clues : list (key * Z)) (dofill : bool) (grconfig : option (list Z))
  : SudokuStateObject * result unit :=
  let self := set_ss_config self [] [] in
  let self := set_ss_movehook self None in
  let self := set_ss_skeys self ∅ in
  let self := set_ss_solved self 0 in
  let self := set_ss_grid self (set_defaults (ss_grid self)) in
  let self := set_ss_houses self zero_houses in
  let self := set_python_calculated_attrs self grconfig in
  let self := set_ss_skeys self ∅ in
  match set_groups_in_cells (ss_grid self) (ss_grconfig self) with
  | Err e => (self, Err e)
  | Ok grid =>
      let self := set_ss_grid self grid in
      match put_givens self clues with
      | (self, Err e) => (self, Err e)
      | (self, Ok _) =>
          let self := set_ss_solved self (Z.of_nat (length clues)) in
          if dofill then fill_in_pencilmarks self else (self, Ok tt)
      end
  end.

(** Calling the type: [PyType_GenericNew] followed by [__init__]; the object
    is handed out only when [__init__] succeeds. *)
Definition State_new (clues : list (key * Z)) (dofill : bool)
    (grconfig : option (list Z)) : result SudokuStateObject :=
  match data_State___init___impl State_alloc clues dofill grconfig with
  | (self, Ok _) => Ok self
  | (_, Err e) => Err e
  end.

(** *** Mutation primitives *)

(** The body of the loop of [data_State_add_candidates] for an unsolved
    cell (x, y), from [add_set = ...] on. *)
Definition add_candidates_entry (self : SudokuStateObject) (x y add_set : Z)
  : SudokuStateObject :=
  let old_set := CELL_CANDS (ss_grid self) x y in
  let intersection := Z.land add_set old_set in
  let self := if negb (intersection =? 0)
              then house_adjust_cand_count_down self x y intersection
              else self in
  let self := house_adjust_cand_count_up self x y add_set in
  set_CELL_CANDS self x y (Z.lor (CELL_CANDS (ss_grid self) x y) add_set).

(** [data_State_add_candidates]: [change] is the dictionary in iteration
    order. *)
Fixpoint data_State_add_candidates (self : SudokuStateObject)
    (change : list (key * pyobject)) : SudokuStateObject * result unit :=
  match change with
  | [] => (self, Ok tt)
  | (k, value) :: rest =>
      match value with
      | PyOther => (self, Err TypeMismatch)
      | PyCandidateSet c =>
          match UNPACK_KEY k with
          | Err e => (self, Err e)
          | Ok (x, y) =>
              if CELL_FILLED (ss_grid self) x y then (self, Err KeyConflict)
              else data_State_add_candidates
                     (add_candidates_entry self x y (cs_set c)) rest
          end
      end
  end.

(** The body of the loop of [data_State_remove_candidates] for an unsolved
    cell (x, y), from [remove_set = ...] to the store into the cell. *)
Definition remove_candidates_entry (self : SudokuStateObject) (x y remove_set : Z)
  : SudokuStateObject :=
  let old_set := CELL_CANDS (ss_grid self) x y in
  let not_subset := uint16 (Z.land remove_set (Z.lnot (Z.land remove_set old_set))) in
  let self := if negb (not_subset =? 0)
              then house_adjust_cand_count_up self x y not_subset
              else self in
  let self := house_adjust_cand_count_down self x y remove_set in
  set_CELL_CANDS self x y
    (Z.land (CELL_CANDS (ss_grid self) x y) (Z.lnot remove_set)).

(** The loop of [data_State_remove_candidates]; [raise] carries the flag and
    the coordinates [rx], [ry] of the last emptied cell. *)
Fixpoint data_State_remove_candidates_loop (self : SudokuStateObject)
    (change : list (key * pyobject)) (raise : option (Z * Z))
  : SudokuStateObject * result (option (Z * Z)) :=
  match change with
  | [] => (self, Ok raise)
  | (k, value) :: rest =>
      match value with
      | PyOther => (self, Err TypeMismatch)
      | PyCandidateSet c =>
          match UNPACK_KEY k with
          | Err e => (self, Err e)
          | Ok (x, y) =>
              if CELL_FILLED (ss_grid self) x y then (self, Err KeyConflict)
              else
                let self := remove_candidates_entry self x y (cs_set c) in
                let raise := if CELL_CANDS (ss_grid self) x y =? 0
                             then Some (x, y) else raise in
                data_State_remove_candidates_loop self rest raise
          end
      end
  end.

Definition data_State_remove_candidates (self : SudokuStateObject)
    (change : list (key * pyobject)) : SudokuStateObject * result unit :=
  match data_State_remove_candidates_loop self change None with
  | (self, Err e) => (self, Err e)
  | (self, Ok (Some (rx, ry))) => (self, Err (Contradiction rx ry))
  | (self, Ok None) => (self, Ok tt)
  end.

(** [data_candidates_ass_sub]: item assignment of the candidates view;
    [cands = None] is deletion. *)
Definition data_candidates_ass_sub (state : SudokuStateObject) (k : key)
    (cands : option pyobject) : SudokuStateObject * result unit :=
  let cands := match cands with
               | None => PyCandidateSet (build_set 0)
               | Some c => c
               end in
  match cands with
  | PyOther => (state, Err TypeMismatch)
  | PyCandidateSet c =>
      match UNPACK_KEY k with
      | Err e => (state, Err e)
      | Ok (x, y) =>
          if CELL_FILLED (ss_grid state) x y then (state, Err KeyConflict)
          else
            let new_set := cs_set c in
            let old_set := CELL_CANDS (ss_grid state) x y in
            let state := house_adjust_cand_count_down state x y old_set in
            let state := house_adjust_cand_count_up state x y new_set in
            (set_CELL_CANDS state x y new_set, Ok tt)
      end
  end.

(** [delete_clue]. *)
Definition delete_clue (state : SudokuStateObject) (k : key)
  : SudokuStateObject * result unit :=
  match UNPACK_KEY k with
  | Err e => (state, Err e)
  | Ok (x, y) =>
      if negb (CELL_FILLED (ss_grid state) x y) then (state, Err KeyConflict)
      else
        let cl := CELL_VALUE (ss_grid state) x y in
        let state := set_ss_skeys state (ss_skeys state ∖ {[ k ]}) in
        let state := set_ss_digits state (zupd (ss_digits state) cl (λ n, n - 1)) in
        let state := house_adjust_solved_down state x y in
        let state := house_adjust_cand_count_up state x y
                       (CELL_CANDS (ss_grid state) x y) in
        let state := set_CELL_VALUE state x y (-1) in
        (set_ss_solved state (ss_solved state - 1), Ok tt)
  end.

(** [assign_clue]. *)
Definition assign_clue (state : SudokuStateObject) (k : key) (digit : Z)
  : SudokuStateObject * result unit :=
  match UNPACK_KEY k with
  | Err e => (state, Err e)
  | Ok (x, y) =>
      if CELL_FILLED (ss_grid state) x y then (state, Err KeyConflict)
      else
        let state := set_ss_skeys state ({[ k ]} ∪ ss_skeys state) in
        let state := house_adjust_solved_up state x y in
        let state := house_adjust_cand_count_down state x y
                       (CELL_CANDS (ss_grid state) x y) in
        let state := set_CELL_VALUE state x y digit in
        let state := set_ss_solved state (ss_solved state + 1) in
        (set_ss_digits state (zupd (ss_digits state) digit (λ n, n + 1)), Ok tt)
  end.

(** [data_clues_ass_sub]: item assignment of the clues view; [value = None]
    is deletion. *)
Definition data_clues_ass_sub (state : SudokuStateObject) (k : key)
    (value : option Z) : SudokuStateObject * result unit :=
  match value with
  | None => delete_clue state k
  | Some digit =>
      if (digit <? 0) || (digit >=? NUMROWS) then (state, Err BadDigit)
      else assign_clue state k digit
  end.

(** [data_state_candidates_fill_impl]. *)
Definition data_state_candidates_fill_impl (state : SudokuStateObject)
  : SudokuStateObject * result unit :=
  fill_in_pencilmarks state.

(** [data_state_candidates_clear_impl]. *)
Definition data_state_candidates_clear_impl (state : SudokuStateObject)
  : SudokuStateObject :=
  for_loop 0 NUMROWS (λ i state,
    for_loop 0 NUMROWS (λ j state,
      let set := CELL_CANDS (ss_grid state) i j in
      if set >? 0 then
        let state := if negb (CELL_FILLED (ss_grid state) i j)
                     then house_adjust_cand_count_down state i j set
                     else state in
        set_CELL_CANDS state i j 0
      else state) state) state.

(** *** Pickle support *)

(** [build_dict] with [wd = CLUES]: the dictionary in insertion order. *)
Definition build_dict_CLUES (state : SudokuStateObject) : list (key * Z) :=
  for_loop 0 NUMROWS (λ i dict,
    for_loop 0 NUMROWS (λ j dict,
      if CELL_FILLED (ss_grid state) i j
      then dict ++ [((i, j), CELL_VALUE (ss_grid state) i j)]
      else dict) dict) [].

(** [build_dict] with [wd = CANDS]. *)
Definition build_dict_CANDS (state : SudokuStateObject) (hidden : bool)
  : list (key * pyobject) :=
  for_loop 0 NUMROWS (λ i dict,
    for_loop 0 NUMROWS (λ j dict,
      if negb (CELL_FILLED (ss_grid state) i j)
         || (hidden && (CELL_CANDS (ss_grid state) i j >? 0))
      then dict ++ [((i, j),
                     PyCandidateSet (build_set (CELL_CANDS (ss_grid state) i j)))]
      else dict) dict) [].

(** The tuple the arguments of [Py_BuildValue] in [__reduce__] describe,
    without the type object: the arguments of the constructor and the
    argument of [__setstate__]. *)
Record reduction : Type := mkReduction {
  red_clues : list (key * Z);
  red_dofill : bool;
  red_grconfig : option (list Z);
  red_cands : list (key * pyobject);
  red_movehook : option Z;
  red_dict : option (list (Z * Z))
}.

(** The format check [Py_BuildValue] starts with, the C API's
    [countformat] on the whole string: the number of items at the top
    level, or [None], SystemError ("unmatched paren in format"), when the
    string ends inside a parenthesis.  The end of the string stands for the
    terminating NUL. *)
Definition format_opens (c : Ascii.ascii) : bool :=
  Ascii.eqb c "("%char || Ascii.eqb c "["%char || Ascii.eqb c "{"%char.
Definition format_closes (c : Ascii.ascii) : bool :=
  Ascii.eqb c ")"%char || Ascii.eqb c "]"%char || Ascii.eqb c "}"%char.
Definition format_skipped (c : Ascii.ascii) : bool :=
  Ascii.eqb c "#"%char || Ascii.eqb c "&"%char || Ascii.eqb c ","%char
  || Ascii.eqb c ":"%char || Ascii.eqb c " "%char || Ascii.eqb c "009"%char.

Fixpoint countformat (format : string) (level count : Z) : option Z :=
  match format with
  | EmptyString => if level >? 0 then None else Some count
  | String c rest =>
      if format_opens c
      then countformat rest (level + 1) (if level =? 0 then count + 1 else count)
      else if format_closes c then countformat rest (level - 1) count
      else if format_skipped c then countformat rest level count
      else countformat rest level (if level =? 0 then count + 1 else count)
  end.

(** The format string [data_State___reduce___impl] hands to
    [Py_BuildValue]. *)
Definition reduce_format : string := "(O(OOO)(OOO)".

(** [data_State___reduce___impl]: both dictionaries are built, then
    [Py_BuildValue] is called; the reduction is what a format that passes
    the check builds from the arguments. *)
Definition data_State___reduce___impl (self : SudokuStateObject) : result reduction :=
  let len := match ss_dict self with
             | Some d => Z.of_nat (length d)
             | None => 0
             end in
  let clues := build_dict_CLUES self in
  let cands := build_dict_CANDS self true in
  match countformat reduce_format 0 0 with
  | None => Err InternalError
  | Some _ =>
      Ok {| red_clues := clues;
            red_dofill := false;
            red_grconfig := if decide (ss_grconfig self = default_grconfig)
                            then None else Some (ss_grconfig self);
            red_cands := cands;
            red_movehook := ss_movehook self;
            red_dict := if len >? 0 then ss_dict self else None |}
  end.

(** The first loop of [data_State___setstate__]. *)
Fixpoint data_State___setstate___loop (self : SudokuStateObject)
    (cands : list (key * pyobject)) : SudokuStateObject * result unit :=
  match cands with
  | [] => (self, Ok tt)
  | (k, value) :: rest =>
      match value with
      | PyOther => (self, Err TypeMismatch)
      | PyCandidateSet c =>
          let set := cs_set c in
          match UNPACK_KEY k with
          | Err e => (self, Err e)
          | Ok (x, y) =>
              let self := set_CELL_CANDS self x y set in
              let self := if negb (CELL_FILLED (ss_grid self) x y)
                          then house_adjust_cand_count_up self x y set
                          else self in
              data_State___setstate___loop self rest
          end
      end
  end.

(** [data_State___setstate__] on the 3-tuple (cands, hook, dict). *)
Definition data_State___setstate__ (self : SudokuStateObject)
    (cands : list (key * pyobject)) (hook : option Z) (dict : option (list (Z * Z)))
  : SudokuStateObject * result unit :=
  match data_State___setstate___loop self cands with
  | (self, Err e) => (self, Err e)
  | (self, Ok _) =>
      let self := match dict with
                  | Some d => set_ss_dict self (Some d)
                  | None => self
                  end in
      let self := match hook with
                  | Some h => set_ss_movehook self (Some h)
                  | None => self
                  end in
      (self, Ok tt)
  end.

(** What unpickling does with a reduction: call the type on the constructor
    arguments, then [__setstate__] on the new object. *)
Definition unpickle (r : reduction) : result SudokuStateObject :=
  match State_new (red_clues r) (red_dofill r) (red_grconfig r) with
  | Err e => Err e
  | Ok self =>
      match data_State___setstate__ self (red_cands r) (red_movehook r) (red_dict r) with
      | (self, Ok _) => Ok self
      | (_, Err e) => Err e
      end
  end.

(** Serializing a state and restoring the result: [__reduce__], then what
    unpickling does with the reduction. *)
Definition snapshot_restore (s : SudokuStateObject) : result SudokuStateObject :=
  match data_State___reduce___impl s with
  | Err e => Err e
  | Ok r => unpickle r
  end.

(** *** Rectangle finder *)

Definition rectangle : Type := (CandidateSetObject * (key * key * key * key))%type.

(** The innermost part of [find_rectangles_one_key]: lower corners in row
    [i] for the upper right corner in column [j]; [tmp] is the intersection
    of the two upper corners. *)
Definition find_rectangles_row (self : SudokuStateObject) (x y required j tmp i : Z)
    (pos : list rectangle) : list rectangle :=
  let intersection := tmp in
  if negb (CELL_FILLED (ss_grid self) i y) then
    let intersection := Z.land intersection (CELL_CANDS (ss_grid self) i y) in
    if negb (intersection =? 0) && SUBSET required intersection then
      if negb (CELL_FILLED (ss_grid self) i j) then
        let intersection := Z.land intersection (CELL_CANDS (ss_grid self) i j) in
        if negb (intersection =? 0) && SUBSET required intersection then
          pos ++ [(build_set intersection, ((x, y), (x, j), (i, j), (i, y)))]
        else pos
      else pos
    else pos
  else pos.

(** The body of the outer loop: upper right corners in column [j]. *)
Definition find_rectangles_col (self : SudokuStateObject) (x y required ul_set j : Z)
    (pos : list rectangle) : list rectangle :=
  let intersection := ul_set in
  if negb (CELL_FILLED (ss_grid self) x j) then
    let intersection := Z.land intersection (CELL_CANDS (ss_grid self) x j) in
    if negb (intersection =? 0) && SUBSET required intersection then
      let tmp := intersection in
      for_loop (x + 1) NUMROWS (find_rectangles_row self x y required j tmp) pos
    else pos
  else pos.

(** [find_rectangles_one_key]: the rectangles written into [pos]; [cands] is
    a CandidateSet or NULL. *)
Definition find_rectangles_one_key (self : SudokuStateObject) (x y : Z)
    (cands : option CandidateSetObject) : result (list rectangle) :=
  if (x =? NUMROWS - 1) || (y =? NUMROWS - 1) then Err BadCorner
  else if CELL_FILLED (ss_grid self) x y then Ok []
  else
    let required := match cands with Some c => cs_set c | None => 0 end in
    let ul_set := CELL_CANDS (ss_grid self) x y in
    if negb (SUBSET required ul_set) then Ok []
    else Ok (for_loop (y + 1) NUMROWS (find_rectangles_col self x y required ul_set) []).

(** The body of the double loop of the global search: the rectangles found
    so far, or the error of [find_rectangles_one_key]. *)
Definition find_rectangles_scan (self : SudokuStateObject)
    (cands : option CandidateSetObject) (i j : Z)
    (acc : list rectangle) : list rectangle * result unit :=
  if negb (CELL_FILLED (ss_grid self) i j) then
    match find_rectangles_one_key self i j cands with
    | Err e => (acc, Err e)
    | Ok res => (acc ++ res, Ok tt)
    end
  else (acc, Ok tt).

(** [data_State_find_rectangles_impl]: [key] and [cands] are [None] for a
    missing argument or Python's None. *)
Definition data_State_find_rectangles_impl (self : SudokuStateObject)
    (k : option key) (cands : option pyobject) : result (list rectangle) :=
  match cands with
  | Some PyOther => Err TypeMismatch
  | _ =>
      let cands := match cands with
                   | Some (PyCandidateSet c) => Some c
                   | _ => None
                   end in
      match k with
      | Some k =>
          match UNPACK_KEY k with
          | Err e => Err e
          | Ok (x, y) => find_rectangles_one_key self x y cands
          end
      | None =>
          match for_loop_r 0 (NUMROWS - 1) (λ i acc,
                  for_loop_r 0 (NUMROWS - 1) (find_rectangles_scan self cands i) acc) []
          with
          | (_, Err e) => Err e
          | (found, Ok _) => Ok found
          end
      end
  end.

(** *** Key iterators *)

(** The functions a [state_iterator] can hold in [ki_func]. *)
Inductive keyiterfunc : Type :=
  | KI_precalculated
  | KI_simple
  | KI_solved
  | KI_exactly_n.

(** [KeyIterObject]; [ob_size] is [Py_SIZE], the length of [ki_data].
    Fields the C code leaves uninitialised are zero. *)
Record KeyIterObject : Type := mkKeyIter {
  ki_state : SudokuStateObject;
  ki_func : option keyiterfunc;
  ki_next_x : Z;
  ki_next_y : Z;
  ki_pos : Z;
  ki_data : list Z;
  ob_size : Z
}.

Definition set_ki_func (ki : KeyIterObject) (f : option keyiterfunc) : KeyIterObject :=
  mkKeyIter (ki_state ki) f (ki_next_x ki) (ki_next_y ki) (ki_pos ki)
            (ki_data ki) (ob_size ki).
Definition set_ki_next (ki : KeyIterObject) (x y : Z) : KeyIterObject :=
  mkKeyIter (ki_state ki) (ki_func ki) x y (ki_pos ki) (ki_data ki) (ob_size ki).
Definition set_ki_pos (ki : KeyIterObject) (p : Z) : KeyIterObject :=
  mkKeyIter (ki_state ki) (ki_func ki) (ki_next_x ki) (ki_next_y ki) p
            (ki_data ki) (ob_size ki).
Definition set_ki_data (ki : KeyIterObject) (d : list Z) : KeyIterObject :=
  mkKeyIter (ki_state ki) (ki_func ki) (ki_next_x ki) (ki_next_y ki) (ki_pos ki)
            d (ob_size ki).

Definition new_keyiter_object (nitems : Z) (state : SudokuStateObject) : KeyIterObject :=
  {| ki_state := state; ki_func := None; ki_next_x := 0; ki_next_y := 0;
     ki_pos := 0; ki_data := replicate (Z.to_nat nitems) 0; ob_size := nitems |}.

(** [precalculated_keyiterfunc]: [None] is the return value -1. *)
Definition precalculated_keyiterfunc (ki : KeyIterObject)
  : KeyIterObject * option (Z * Z) :=
  if ki_pos ki =? ob_size ki then (ki, None)
  else
    let i := zget (ki_data ki) (ki_pos ki) in
    (set_ki_pos ki (ki_pos ki + 1), Some (ROW i, COL i)).

(** The inner loop shared by the scanning functions: the first column from
    [j] on, in at most [n] rounds, where [test] holds. *)
Fixpoint keyiter_scan_row (n : nat) (test : Z → bool) (j : Z) : option Z :=
  match n with
  | O => None
  | S n' => if test j then Some j else keyiter_scan_row n' test (j + 1)
  end.

(** The outer loop shared by [simple_keyiterfunc], [solved_keyiterfunc] and
    [exactly_n_keyiterfunc], which differ in the test on cell (i, j) only. *)
Fixpoint keyiter_scan (n : nat) (test : Z → Z → bool) (i : Z) (ki : KeyIterObject)
  : KeyIterObject * option (Z * Z) :=
  match n with
  | O => (ki, None)
  | S n' =>
      match keyiter_scan_row (Z.to_nat (NUMROWS - ki_next_y ki)) (test i) (ki_next_y ki) with
      | Some j => (set_ki_next ki i (j + 1), Some (i, j))
      | None => keyiter_scan n' test (i + 1) (set_ki_next ki (ki_next_x ki) 0)
      end
  end.

Definition simple_keyiterfunc (ki : KeyIterObject) : KeyIterObject * option (Z * Z) :=
  let grid := ss_grid (ki_state ki) in
  keyiter_scan (Z.to_nat (NUMROWS - ki_next_x ki))
    (λ i j, negb (CELL_FILLED grid i j)) (ki_next_x ki) ki.

Definition solved_keyiterfunc (ki : KeyIterObject) : KeyIterObject * option (Z * Z) :=
  let grid := ss_grid (ki_state ki) in
  keyiter_scan (Z.to_nat (NUMROWS - ki_next_x ki))
    (λ i j, CELL_FILLED grid i j) (ki_next_x ki) ki.

Definition exactly_n_keyiterfunc (ki : KeyIterObject) : KeyIterObject * option (Z * Z) :=
  let grid := ss_grid (ki_state ki) in
  keyiter_scan (Z.to_nat (NUMROWS - ki_next_x ki))
    (λ i j, negb (CELL_FILLED grid i j)
            && (zget isizes (CELL_CANDS grid i j) =? ki_pos ki))
    (ki_next_x ki) ki.

Definition call_keyiterfunc (f : keyiterfunc) (ki : KeyIterObject)
  : KeyIterObject * option (Z * Z) :=
  match f with
  | KI_precalculated => precalculated_keyiterfunc ki
  | KI_simple => simple_keyiterfunc ki
  | KI_solved => solved_keyiterfunc ki
  | KI_exactly_n => exactly_n_keyiterfunc ki
  end.

(** [data_KeyIter_iternext]: [None] is NULL, the end of the iteration. *)
Definition data_KeyIter_iternext (self : KeyIterObject)
  : KeyIterObject * option (Z * Z) :=
  match ki_func self with
  | None => (self, None)
  | Some f =>
      match call_keyiterfunc f self with
      | (self, None) => (set_ki_func self None, None)
      | (self, Some xy) => (self, Some xy)
      end
  end.

(** What a consumer of the iterator sees: the keys [next] returns up to the
    first NULL.  [None] when the iterator is not exhausted in [fuel] calls. *)
Fixpoint keyiter_emits (fuel : nat) (ki : KeyIterObject) : option (list (Z * Z)) :=
  match fuel with
  | O => None
  | S fuel' =>
      match data_KeyIter_iternext ki with
      | (_, None) => Some []
      | (ki, Some xy) => cons xy <$> keyiter_emits fuel' ki
      end
  end.

Definition data_State_order_simple_impl (self : SudokuStateObject) : KeyIterObject :=
  set_ki_next (set_ki_func (new_keyiter_object 0 self) (Some KI_simple)) 0 0.

Definition data_State_order_solved_impl (self : SudokuStateObject) : KeyIterObject :=
  set_ki_next (set_ki_func (new_keyiter_object 0 self) (Some KI_solved)) 0 0.

(** [data_State_order_exactly_n_impl]. *)
Definition data_State_order_exactly_n_impl (self : SudokuStateObject) (count : Z)
  : result KeyIterObject :=
  if (count <? 0) || (count >=? NUMROWS) then Err BadCount
  else
    Ok (set_ki_pos
          (set_ki_next (set_ki_func (new_keyiter_object 0 self) (Some KI_exactly_n)) 0 0)
          count).

Definition start_building_precalculated_keyiter (self : SudokuStateObject)
  : KeyIterObject :=
  let size := GRIDSIZE - ss_solved self in
  set_ki_pos (set_ki_func (new_keyiter_object size self) (Some KI_precalculated)) 0.

(** The local variables of [data_State_order_random_impl] that its two
    loops share. *)
Record probe : Type := mkProbe {
  pr_key : Z;
  pr_seen : list Z;
  pr_found : Z;
  pr_data : list Z
}.

(** [seen[key] = 1]. *)
Definition probe_mark (p : probe) : probe :=
  mkProbe (pr_key p) (zupd (pr_seen p) (pr_key p) (λ _, 1)) (pr_found p) (pr_data p).
(** [ki->ki_data[found++] = key]. *)
Definition probe_emit (p : probe) : probe :=
  mkProbe (pr_key p) (pr_seen p) (pr_found p + 1)
          (zupd (pr_data p) (pr_found p) (λ _, pr_key p)).
Definition probe_key (p : probe) (k : Z) : probe :=
  mkProbe k (pr_seen p) (pr_found p) (pr_data p).

(** The first loop: the random tries, [idx] being the values of [i] left. *)
Fixpoint order_random_tries (grid : list cell_info) (size : Z) (tries : list Z)
    (idx : list Z) (p : probe) : probe :=
  match idx with
  | [] => p
  | i :: rest =>
      let p := probe_key p (Z.rem (uint8 (zget tries i)) GRIDSIZE) in
      if negb (zget (pr_seen p) (pr_key p) =? 0)
      then order_random_tries grid size tries rest p
      else
        let p := probe_mark p in
        if Z.land (ci_value (zget grid (pr_key p))) ERRORBIT =? 0
        then order_random_tries grid size tries rest p
        else
          let p := probe_emit p in
          if pr_found p =? size then p
          else order_random_tries grid size tries rest p
  end.

(** One round of the second loop, the walk in the probe order of dicts. *)
Definition order_random_walk_step (grid : list cell_info) (p : probe) : probe :=
  let p := probe_key p (Z.land (Z.shiftl (pr_key p) 2 + pr_key p + 1) 127) in
  if pr_key p >=? 81 then p
  else if negb (zget (pr_seen p) (pr_key p) =? 0) then p
  else
    let p := probe_mark p in
    if Z.land (ci_value (zget grid (pr_key p))) ERRORBIT =? 0 then p
    else probe_emit p.

(** The second loop, [while (found < Py_SIZE(ki))].  [None] when the loop is
    still running after [fuel] rounds. *)
Fixpoint order_random_walk (fuel : nat) (grid : list cell_info) (size : Z)
    (p : probe) : option probe :=
  if pr_found p <? size then
    match fuel with
    | O => None
    | S fuel' => order_random_walk fuel' grid size (order_random_walk_step grid p)
    end
  else Some p.

(** [data_State_order_random_impl].  [urandom n] is [_PyOS_URandom] asked
    for [n] bytes: the bytes, or [None] when the source fails.  The outer
    [None] means that the second loop has not ended after [fuel] rounds. *)
Definition data_State_order_random_impl (fuel : nat) (self : SudokuStateObject)
    (urandom : Z → option (list Z)) : option (result KeyIterObject) :=
  let ki := start_building_precalculated_keyiter self in
  if ob_size ki =? 0 then Some (Ok ki)
  else
    let numtries := Z.quot (ob_size ki) 6 + 1 in
    let grid := ss_grid (ki_state ki) in
    let seen := replicate (Z.to_nat GRIDSIZE) 0 in
    match urandom numtries with
    | None => Some (Err OsRngUnavailable)
    | Some tries =>
        let p := order_random_tries grid (ob_size ki) tries (seqZ 0 numtries)
                   (mkProbe 0 seen 0 (ki_data ki)) in
        match order_random_walk fuel grid (ob_size ki) p with
        | None => None
        | Some p => Some (Ok (set_ki_data ki (pr_data p)))
        end
    end.

(** * Notions used to state the properties *)

(** A key [UNPACK_KEY] accepts. *)
Definition valid_key (k : key) : Prop := 0 ≤ k.1 < NUMROWS ∧ 0 ≤ k.2 < NUMROWS.

(** Observations of a state. *)
Definition cands_at (s : SudokuStateObject) (k : key) : Z :=
  CELL_CANDS (ss_grid s) k.1 k.2.
Definition solved_at (s : SudokuStateObject) (k : key) : bool :=
  CELL_FILLED (ss_grid s) k.1 k.2.
Definition value_at (s : SudokuStateObject) (k : key) : Z :=
  CELL_VALUE (ss_grid s) k.1 k.2.
Definition cand_count (s : SudokuStateObject) (h d : Z) : Z :=
  zget (hi_cand_count (zget (ss_houses s) h)) d.
Definition solved_count (s : SudokuStateObject) (h : Z) : Z :=
  hi_solved (zget (ss_houses s) h).

(** The three entries of [ss_houses] the adjust functions touch for a cell:
    its row, its column and its group. *)
Definition houses_of (s : SudokuStateObject) (k : key) : list Z :=
  [k.1 + ROWOFFSET; k.2 + COLOFFSET; CELL_GROUP s k.1 k.2].

(** How many of the three are house [h]: 1 for a house of the cell, 0 for
    another one (more than 1 only if a group index falls on a row or column
    slot). *)
Definition hits (s : SudokuStateObject) (k : key) (h : Z) : Z :=
  Z.of_nat (length (filter (λ h', h' = h) (houses_of s k))).

(** Digit [d] is in the mask [set]. *)
Definition has_digit (set d : Z) : Z := if Z.testbit set d then 1 else 0.

(** The sizes of the C arrays, and the range of the [uint16_t] fields. *)
Record wf_state (s : SudokuStateObject) : Prop := mk_wf_state {
  wf_grid : length (ss_grid s) = 81%nat;
  wf_houses : length (ss_houses s) = 27%nat;
  wf_cand_count : Forall (λ h, length (hi_cand_count h) = 9%nat) (ss_houses s);
  wf_digits : length (ss_digits s) = 9%nat;
  wf_cells : Forall (λ c, 0 ≤ ci_value c < 65536 ∧ 0 ≤ ci_candidates c < 65536)
                    (ss_grid s)
}.

(** Invariant 7 of the data model: candidate masks occupy the low 9 bits. *)
Definition masks_ok (s : SudokuStateObject) : Prop :=
  Forall (λ c, 0 ≤ ci_candidates c ≤ TERMS) (ss_grid s).

(** Invariant 3 of the data model: [ss_solved] is the number of solved
    cells. *)
Definition solved_ok (s : SudokuStateObject) : Prop :=
  ss_solved s = Z.of_nat (length (List.filter (solved_at s) all_keys)).

(** The size of a candidate set: the number of digits 0..8 in its mask. *)
Definition popcount9 (set : Z) : Z :=
  Z.of_nat (length (List.filter (Z.testbit set) (seqZ 0 9))).

(** The statement of the specification about [CandidateSet.__setstate__] at
    one pair: accepted exactly when the mask fits in 9 bits and the
    iteration position is in 0..9. *)
Definition setstate_accepts_in_range (mask iter_pos : Z) : Prop :=
  is_ok (data_CandidateSet___setstate__ (build_set 0) (mask, iter_pos)).2 = true
  ↔ (0 ≤ mask < 512 ∧ 0 ≤ iter_pos ≤ 9).

(** The state a successful construction returns ([State_alloc] stands in
    for a failed one). *)
Definition State_of (clues : list (key * Z)) (dofill : bool)
    (grconfig : option (list Z)) : SudokuStateObject :=
  match State_new clues dofill grconfig with
  | Ok s => s
  | Err _ => State_alloc
  end.

(** Scenario E1 of the specification: three clues, pencil marks filled. *)
Definition state_E1 : SudokuStateObject :=
  State_of [((0, 0), 0); ((0, 1), 1); ((1, 0), 2)] true None.

(** The empty grid with all pencil marks. *)
Definition state_empty : SudokuStateObject := State_of [] true None.

(** The keys of row [i] from column [j0] on, the keys of the rows from [i]
    on, and the keys from (i, j0) on in row-major order. *)
Definition row_keys (i j0 : Z) : list key :=
  (λ j, (i, j)) <$> seqZ j0 (NUMROWS - j0).
Definition rest_rows (i : Z) : list key :=
  List.flat_map (λ i', row_keys i' 0) (seqZ i (NUMROWS - i)).
Definition keys_from (i j0 : Z) : list key :=
  if NUMROWS <=? i then [] else row_keys i j0 ++ rest_rows (i + 1).

(** An unsolved cell whose candidate set has [count] members. *)
Definition exactly_n_cell (s : SudokuStateObject) (count : Z) (k : key) : bool :=
  negb (solved_at s k) && (popcount9 (cands_at s k) =? count).

(** The rectangle predicate of the specification for an emitted pair
    (S, (ul, ur, lr, ll)): rows r1 < r2 and columns c1 < c2, the corners in
    clockwise order from the upper left one, all four cells unsolved, S the
    nonempty intersection of their masks, and the required set inside S. *)
Definition rectangle_ok (s : SudokuStateObject) (required : option CandidateSetObject)
    (r : rectangle) : Prop :=
  ∃ r1 c1 r2 c2 : Z,
    0 ≤ r1 < r2 ∧ r2 < NUMROWS ∧ 0 ≤ c1 < c2 ∧ c2 < NUMROWS
    ∧ r.2 = ((r1, c1), (r1, c2), (r2, c2), (r2, c1))
    ∧ solved_at s (r1, c1) = false ∧ solved_at s (r1, c2) = false
    ∧ solved_at s (r2, c2) = false ∧ solved_at s (r2, c1) = false
    ∧ cs_set r.1 = Z.land (Z.land (Z.land (cands_at s (r1, c1)) (cands_at s (r1, c2)))
                                  (cands_at s (r2, c2)))
                          (cands_at s (r2, c1))
    ∧ cs_set r.1 ≠ 0
    ∧ ∀ req, required = Some req → Z.lor (cs_set req) (cs_set r.1) = cs_set r.1.

(** The lower right corner (r2, c2) of an emitted pair. *)
Definition rect_lr (r : rectangle) : key := r.2.1.2.

(** The order of the anchored results: ascending c2, then ascending r2. *)
Definition rect_before (a b : rectangle) : Prop :=
  (rect_lr a).2 < (rect_lr b).2
  ∨ ((rect_lr a).2 = (rect_lr b).2 ∧ (rect_lr a).1 < (rect_lr b).1).

(** The required set [find_rectangles] works with. *)
Definition required_of (cands : option pyobject) : option CandidateSetObject :=
  match cands with
  | Some (PyCandidateSet c) => Some c
  | _ => None
  end.

(** The mask a dictionary value carries. *)
Definition set_of (v : pyobject) : Z :=
  match v with
  | PyCandidateSet c => cs_set c
  | PyOther => 0
  end.

(** Every CandidateSet the module builds keeps its mask in the low 9 bits. *)
Definition cs_ok (c : CandidateSetObject) : Prop := 0 ≤ cs_set c ≤ TERMS.

(** A change dictionary as add_candidates and remove_candidates expect it:
    distinct keys (it is a dictionary), every key a valid key of an unsolved
    cell, every value a CandidateSet. *)
Definition valid_change (s : SudokuStateObject) (change : list (key * pyobject)) : Prop :=
  NoDup change.*1
  ∧ Forall (λ e, valid_key e.1 ∧ solved_at s e.1 = false
                 ∧ ∃ c, e.2 = PyCandidateSet c ∧ cs_ok c) change.

Definition sum_over {A} (f : A → Z) (l : list A) : Z :=
  foldr (λ a acc, f a + acc) 0 l.

(** The keys of a change whose cell is left with an empty mask by the
    removal, in iteration order. *)
Definition emptied_by (s : SudokuStateObject) (change : list (key * pyobject))
  : list key :=
  (filter (λ e, Z.land (cands_at s e.1) (Z.lnot (set_of e.2)) = 0) change).*1.

(** The outcome of remove_candidates the specification describes:
    Contradiction at the last emptied cell, if there is one. *)
Definition remove_outcome (s : SudokuStateObject) (change : list (key * pyobject))
  : result unit :=
  match last (emptied_by s change) with
  | Some (x, y) => Err (Contradiction x y)
  | None => Ok tt
  end.

(** The sizes of the house array. *)
Definition houses_wf (hs : list house_info) : Prop :=
  length hs = 27%nat ∧ Forall (λ h, length (hi_cand_count h) = 9%nat) hs.

(** [s'] differs from [s] at most in candidate masks and candidate counters:
    clues, groups, solved counters and the other fields are the same. *)
Definition same_clues (s s' : SudokuStateObject) : Prop :=
  ss_solved s' = ss_solved s ∧ ss_digits s' = ss_digits s
  ∧ ss_skeys s' = ss_skeys s ∧ ss_grconfig s' = ss_grconfig s
  ∧ ss_peers s' = ss_peers s ∧ ss_movehook s' = ss_movehook s
  ∧ ss_dict s' = ss_dict s
  ∧ (∀ k, value_at s' k = value_at s k)
  ∧ (∀ k, CELL_GROUP s' k.1 k.2 = CELL_GROUP s k.1 k.2)
  ∧ (∀ h, solved_count s' h = solved_count s h).

(** The cell with linear index [k] is unsolved. *)
Definition cell_unsolved_at (grid : list cell_info) (k : Z) : bool :=
  negb (Z.land (ci_value (zget grid k)) ERRORBIT =? 0).

(** The linear indices of the unsolved cells. *)
Definition unsolved_indices (grid : list cell_info) : list Z :=
  List.filter (cell_unsolved_at grid) (seqZ 0 GRIDSIZE).

(** The part of [ki_data] written so far. *)
Definition emitted (p : probe) : list Z :=
  take (Z.to_nat (pr_found p)) (pr_data p).

(** The invariant of the two loops of order_random: the keys written so far
    are, without repetition, the unsolved cells marked in [seen]. *)
Record probe_inv (grid : list cell_info) (size : Z) (p : probe) : Prop := mk_probe_inv {
  pi_key : 0 ≤ pr_key p < 128;
  pi_seen : length (pr_seen p) = 81%nat;
  pi_data : length (pr_data p) = Z.to_nat size;
  pi_found : 0 ≤ pr_found p ≤ size;
  pi_nodup : NoDup (emitted p);
  pi_emitted : ∀ k, k ∈ emitted p
                    ↔ 0 ≤ k < 81 ∧ cell_unsolved_at grid k = true
                      ∧ zget (pr_seen p) k ≠ 0
}.

(** The recurrence of the second loop, and the keys it visits in [n]
    rounds from [k]. *)
Definition probe_next (k : Z) : Z := Z.land (Z.shiftl k 2 + k + 1) 127.

Fixpoint probe_orbit (n : nat) (k : Z) : list Z :=
  match n with
  | O => []
  | S n' => probe_next k :: probe_orbit n' (probe_next k)
  end.

(** Cell [k] lies in house [h]. *)
Definition in_house (s : SudokuStateObject) (k : key) (h : Z) : bool :=
  bool_decide (h ∈ houses_of s k).

(** The number of solved cells lying in house [h]. *)
Definition solved_in_house (s : SudokuStateObject) (h : Z) : Z :=
  Z.of_nat (length (List.filter (λ k, in_house s k h && solved_at s k) all_keys)).

(** The number of unsolved cells in house [h] whose mask includes [d]. *)
Definition cands_in_house (s : SudokuStateObject) (h d : Z) : Z :=
  Z.of_nat (length (List.filter
    (λ k, in_house s k h && negb (solved_at s k) && Z.testbit (cands_at s k) d)
    all_keys)).

(** Invariants 1 and 2 of the data model. *)
Definition houses_consistent (s : SudokuStateObject) : Prop :=
  ∀ h, 0 ≤ h < 27 →
    solved_count s h = solved_in_house s h
    ∧ ∀ d, 0 ≤ d < 9 → cand_count s h d = cands_in_house s h d.

(** A source of random bytes that always returns the byte 7. *)
Definition urandom_sevens (n : Z) : option (list Z) := Some (replicate (Z.to_nat n) 7).

(** The public mutations of a state after its construction; [M_setstate] is
    the [__setstate__] call of unpickling. *)
Inductive mutation : Type :=
  | M_assign_clue (k : key) (digit : Z)
  | M_delete_clue (k : key)
  | M_add_candidates (change : list (key * pyobject))
  | M_remove_candidates (change : list (key * pyobject))
  | M_set_candidates_at (k : key) (cands : option pyobject)
  | M_clear_all_candidates
  | M_fill_pencilmarks
  | M_setstate (cands : list (key * pyobject)) (hook : option Z)
               (dict : option (list (Z * Z))).

(** The state after a mutation, whatever its outcome. *)
Definition apply_mutation (s : SudokuStateObject) (m : mutation) : SudokuStateObject :=
  match m with
  | M_assign_clue k digit => (data_clues_ass_sub s k (Some digit)).1
  | M_delete_clue k => (data_clues_ass_sub s k None).1
  | M_add_candidates change => (data_State_add_candidates s change).1
  | M_remove_candidates change => (data_State_remove_candidates s change).1
  | M_set_candidates_at k cands => (data_candidates_ass_sub s k cands).1
  | M_clear_all_candidates => data_state_candidates_clear_impl s
  | M_fill_pencilmarks => (data_state_candidates_fill_impl s).1
  | M_setstate cands hook dict => (data_State___setstate__ s cands hook dict).1
  end.

(** The empty grid after a second [candidates.fill()]. *)
Definition state_refilled : SudokuStateObject :=
  apply_mutation state_empty M_fill_pencilmarks.

(** The CandidateSets handed to a mutation keep their mask in 9 bits. *)
Definition pyobject_ok (v : pyobject) : Prop :=
  match v with
  | PyCandidateSet c => cs_ok c
  | PyOther => True
  end.

Definition mutation_ok (m : mutation) : Prop :=
  match m with
  | M_add_candidates change | M_remove_candidates change
  | M_setstate change _ _ =>
      Forall (λ e, pyobject_ok e.2) change
  | M_set_candidates_at _ (Some v) => pyobject_ok v
  | _ => True
  end.

(** The states a program can hold: built by the constructor from a clues
    dictionary, then changed by public mutations. *)
Inductive reachable : SudokuStateObject → Prop :=
  | reachable_new clues dofill grconfig s :
      NoDup clues.*1 → State_new clues dofill grconfig = Ok s → reachable s
  | reachable_step s m :
      reachable s → mutation_ok m → reachable (apply_mutation s m).

(** What the theorems on iterators, rectangles and changes assume of a
    state. *)
Definition state_inv (s : SudokuStateObject) : Prop :=
  wf_state s ∧ masks_ok s ∧ solved_ok s.

(** The cells [set_defaults] leaves: unsolved and without candidates. *)
Definition cell_blank (c : cell_info) : Prop :=
  ci_value c = ERRORBIT ∧ ci_candidates c = 0.

(** * The rest of the module *)

(** ** CandidateSet: number, sequence, comparison and iterator slots *)

(** [data_CandidateSet___hash__]. *)
Definition data_CandidateSet___hash__ (self : CandidateSetObject) : Z := cs_set self.

(** The binary slots start with [CHECK_BINOP]: an operand that is not a
    CandidateSet gives [Py_NotImplemented], here [None].  The [int] a slot
    computes is converted to the [uint16_t] parameter of [build_set]. *)
Definition cs_num_subtract (a b : pyobject) : option CandidateSetObject :=
  match a, b with
  | PyCandidateSet a, PyCandidateSet b =>
      Some (build_set (uint16 (Z.land (cs_set a) (Z.lnot (cs_set b)))))
  | _, _ => None
  end.

(** [cs_num_bool]: the C truth value. *)
Definition cs_num_bool (a : CandidateSetObject) : Z := cs_set a.

Definition cs_num_invert (a : CandidateSetObject) : CandidateSetObject :=
  build_set (uint16 (Z.lnot (cs_set a))).

Definition cs_num_and (a b : pyobject) : option CandidateSetObject :=
  match a, b with
  | PyCandidateSet a, PyCandidateSet b =>
      Some (build_set (uint16 (Z.land (cs_set a) (cs_set b))))
  | _, _ => None
  end.

Definition cs_num_xor (a b : pyobject) : option CandidateSetObject :=
  match a, b with
  | PyCandidateSet a, PyCandidateSet b =>
      Some (build_set (uint16 (Z.lxor (cs_set a) (cs_set b))))
  | _, _ => None
  end.

Definition cs_num_or (a b : pyobject) : option CandidateSetObject :=
  match a, b with
  | PyCandidateSet a, PyCandidateSet b =>
      Some (build_set (uint16 (Z.lor (cs_set a) (cs_set b))))
  | _, _ => None
  end.

Definition cs_num_int (a : CandidateSetObject) : Z := cs_set a.

(** [cs_seq_contains]: [item] is [None] for an object that is not an int,
    and the value [PyLong_AsSsize_t] returns otherwise.  The result is the C
    [int]: 0 is false, any other value true.  A negative [bit] makes the
    shift undefined in C. *)
Definition cs_seq_contains (self : CandidateSetObject) (item : option Z) : Z :=
  match item with
  | None => 0
  | Some bit =>
      if bit >=? 9 then 0 else Z.land (cs_set self) (Z.shiftl 1 bit)
  end.

(** The comparison operators of [tp_richcompare]. *)
Inductive compare_op : Type := Py_LT | Py_LE | Py_EQ | Py_NE | Py_GT | Py_GE.

(** [data_CandidateSet_richcompare]: less than means subset.  [None] is
    [Py_NotImplemented]. *)
Definition data_CandidateSet_richcompare (a b : pyobject) (op : compare_op)
  : option bool :=
  match a, b with
  | PyCandidateSet a, PyCandidateSet b =>
      Some match op with
           | Py_EQ => cs_set a =? cs_set b
           | Py_NE => negb (cs_set a =? cs_set b)
           | Py_LE => Z.lor (cs_set a) (cs_set b) =? cs_set b
           | Py_GE => Z.lor (cs_set a) (cs_set b) =? cs_set a
           | Py_LT =>
               let i := zget isizes (cs_set a) in
               let j := zget isizes (cs_set b) in
               (Z.lor (cs_set a) (cs_set b) =? cs_set b) && (i <? j)
           | Py_GT =>
               let i := zget isizes (cs_set a) in
               let j := zget isizes (cs_set b) in
               (Z.lor (cs_set a) (cs_set b) =? cs_set a) && (i >? j)
           end
  | _, _ => None
  end.

(** [data_CandidateSet_iter]: a fresh set to iterate over. *)
Definition data_CandidateSet_iter (self : CandidateSetObject) : CandidateSetObject :=
  build_set (cs_set self).

(** The loop of [data_CandidateSet_iternext], which runs while
    [cs_iterpos < 9], in at most [n] rounds. *)
Fixpoint data_CandidateSet_iternext_loop (n : nat) (self : CandidateSetObject)
  : CandidateSetObject * option Z :=
  match n with
  | O => (self, None)
  | S n' =>
      let next := {| cs_iterpos := cs_iterpos self + 1; cs_set := cs_set self |} in
      if has_bit (cs_set self) (cs_iterpos self)
      then (next, Some (cs_iterpos self))
      else data_CandidateSet_iternext_loop n' next
  end.

(** [data_CandidateSet_iternext]: [None] is NULL, the end of the
    iteration. *)
Definition data_CandidateSet_iternext (self : CandidateSetObject)
  : CandidateSetObject * option Z :=
  data_CandidateSet_iternext_loop (Z.to_nat (9 - cs_iterpos self)) self.

(** What a [for] loop over a CandidateSet sees: the digits [next] returns up
    to the first NULL.  [None] when the iterator is not exhausted in [fuel]
    calls. *)
Fixpoint candidateset_emits (fuel : nat) (self : CandidateSetObject)
  : option (list Z) :=
  match fuel with
  | O => None
  | S fuel' =>
      match data_CandidateSet_iternext self with
      | (_, None) => Some []
      | (self, Some d) => cons d <$> candidateset_emits fuel' self
      end
  end.

(** [d in c], through [cs_seq_contains]. *)
Definition cs_mem (d : Z) (c : CandidateSetObject) : bool :=
  negb (cs_seq_contains c (Some d) =? 0).

(** The digits of a mask, in ascending order. *)
Definition digits_of (set : Z) : list Z := List.filter (Z.testbit set) (seqZ 0 9).

(** ** Queries on keysets and houses *)

(** The loop of [data_State_candidate_in_keyset_impl]; [keyset] is the list
    of keys the iterable yields and [found] the filled part of
    [temp_storage], which has room for [GRIDSIZE] keys: a keyset with more
    hits overruns it.  [1 << cand] is undefined in C for [cand] outside
    0..30. *)
Fixpoint data_State_candidate_in_keyset_loop (grid : list cell_info) (cand : Z)
    (keyset : list key) (found : list key) : result (list key) :=
  match keyset with
  | [] => Ok found
  | k :: rest =>
      match UNPACK_KEY k with
      | Err e => Err e
      | Ok (x, y) =>
          data_State_candidate_in_keyset_loop grid cand rest
            (if negb (CELL_FILLED grid x y) && has_bit (CELL_CANDS grid x y) cand
             then found ++ [k] else found)
      end
  end.

(** [data_State_candidate_in_keyset_impl]. *)
Definition data_State_candidate_in_keyset_impl (self : SudokuStateObject) (cand : Z)
    (keyset : list key) : result (list key) :=
  data_State_candidate_in_keyset_loop (ss_grid self) cand keyset [].

(** The loop of [data_State_candidates_from_keyset]. *)
Fixpoint data_State_candidates_from_keyset_loop (grid : list cell_info)
    (keyset : list key) (cands : Z) : result Z :=
  match keyset with
  | [] => Ok cands
  | k :: rest =>
      match UNPACK_KEY k with
      | Err e => Err e
      | Ok (x, y) =>
          data_State_candidates_from_keyset_loop grid rest
            (if negb (CELL_FILLED grid x y)
             then uint16 (Z.lor cands (CELL_CANDS grid x y)) else cands)
      end
  end.

(** [data_State_candidates_from_keyset]. *)
Definition data_State_candidates_from_keyset (self : SudokuStateObject)
    (keyset : list key) : result CandidateSetObject :=
  match data_State_candidates_from_keyset_loop (ss_grid self) keyset 0 with
  | Ok cands => Ok (build_set cands)
  | Err e => Err e
  end.

(** [data_State_candidate_in_houses_impl]: the counts of the group, the
    column and the row.  A candidate outside 0..8 is a ValueError, here
    [BadDigit]. *)
Definition data_State_candidate_in_houses_impl (self : SudokuStateObject) (k : key)
    (cand : Z) : result (Z * Z * Z) :=
  if (cand <? 0) || (cand >=? NUMROWS) then Err BadDigit
  else
    match UNPACK_KEY k with
    | Err e => Err e
    | Ok (x, y) =>
        let g := zget (hi_cand_count (zget (ss_houses self) (CELL_GROUP self x y))) cand in
        let c := zget (hi_cand_count (zget (ss_houses self) (y + COLOFFSET))) cand in
        let r := zget (hi_cand_count (zget (ss_houses self) (x + ROWOFFSET))) cand in
        Ok (g, c, r)
    end.

(** [data_State_candidates_from_house_impl]: the 9-tuple of the counts of a
    house; [None] is the ValueError for an index outside 0..26. *)
Definition data_State_candidates_from_house_impl (self : SudokuStateObject)
    (house : Z) : option (list Z) :=
  if (house <? 0) || (house >=? 27) then None
  else
    let cands_count := hi_cand_count (zget (ss_houses self) house) in
    Some ((λ i, zget cands_count i) <$> seqZ 0 NUMROWS).

(** ** The candidates and clues views: lengths and lookups *)

(** [data_candidates_length]. *)
Definition data_candidates_length (state : SudokuStateObject) : Z :=
  GRIDSIZE - ss_solved state.

(** [data_candidates_subscript]. *)
Definition data_candidates_subscript (state : SudokuStateObject) (k : key)
  : result CandidateSetObject :=
  match UNPACK_KEY k with
  | Err e => Err e
  | Ok (x, y) =>
      if CELL_FILLED (ss_grid state) x y then Err KeyConflict
      else Ok (build_set (CELL_CANDS (ss_grid state) x y))
  end.

(** [data_clues_length]. *)
Definition data_clues_length (state : SudokuStateObject) : Z := ss_solved state.

(** [data_clues_subscript]. *)
Definition data_clues_subscript (state : SudokuStateObject) (k : key) : result Z :=
  match UNPACK_KEY k with
  | Err e => Err e
  | Ok (x, y) =>
      if negb (CELL_FILLED (ss_grid state) x y) then Err KeyConflict
      else Ok (CELL_VALUE (ss_grid state) x y)
  end.

(** [data_state_candidates_getdict_impl] and [data_state_clues_getdict_impl]. *)
Definition data_state_candidates_getdict_impl (state : SudokuStateObject)
  : list (key * pyobject) :=
  build_dict_CANDS state false.
Definition data_state_clues_getdict_impl (state : SudokuStateObject)
  : list (key * Z) :=
  build_dict_CLUES state.

(** [data_candidates_iter] and [data_clues_iter]. *)
Definition data_candidates_iter (state : SudokuStateObject) : KeyIterObject :=
  data_State_order_simple_impl state.
Definition data_clues_iter (state : SudokuStateObject) : KeyIterObject :=
  data_State_order_solved_impl state.

(** ** Getters *)

(** [data_State_movehook_getter]: the hook is handed out once. *)
Definition data_State_movehook_getter (self : SudokuStateObject)
  : SudokuStateObject * option Z :=
  match ss_movehook self with
  | None => (self, None)
  | Some move => (set_ss_movehook self None, Some move)
  end.

(** [data_State_movehook_setter]; [move = None] is deletion. *)
Definition data_State_movehook_setter (self : SudokuStateObject) (move : option Z)
  : SudokuStateObject :=
  let self := set_ss_movehook self None in
  match move with
  | Some m => set_ss_movehook self (Some m)
  | None => self
  end.

(** [data_State_done_getter]. *)
Definition data_State_done_getter (self : SudokuStateObject) : bool :=
  ss_solved self =? GRIDSIZE.

(** [data_State_num_remaining_getter]. *)
Definition data_State_num_remaining_getter (self : SudokuStateObject) : Z :=
  GRIDSIZE - ss_solved self.

(** [data_State_num_values_getter]. *)
Definition data_State_num_values_getter (self : SudokuStateObject) : list Z :=
  (λ i, zget (ss_digits self) i) <$> seqZ 0 NUMROWS.

(** [data_State_has_default_config_getter]: identity with the module's
    default configuration object, which [set_python_calculated_attrs]
    installs for every configuration equal to it. *)
Definition data_State_has_default_config_getter (self : SudokuStateObject) : bool :=
  bool_decide (ss_grconfig self = default_grconfig).

(** ** Iterators over a precomputed order *)

(** The first double loop of [data_State_order_by_num_candidates_impl]:
    [set_lens] receives the size of the candidate set of every unsolved
    cell and -1 for a solved one, [seen] a mark for each size met. *)
Definition order_by_num_candidates_sizes (grid : list cell_info)
  : list Z * list Z :=
  for_loop 0 NUMROWS (λ i st,
    for_loop 0 NUMROWS (λ j st,
      let '(seen, set_lens) := st in
      if CELL_FILLED grid i j
      then (seen, zupd set_lens (INDEX i j) (λ _, -1))
      else
        let size := zget isizes (CELL_CANDS grid i j) in
        (zupd seen size (λ _, 1), zupd set_lens (INDEX i j) (λ _, size))) st)
    (replicate (Z.to_nat (NUMROWS + 1)) 0, replicate (Z.to_nat GRIDSIZE) 0).

(** The second double loop: one pass over [set_lens] for each size seen. *)
Definition order_by_num_candidates_passes (seen set_lens : list Z) (data : list Z)
  : Z * list Z :=
  for_loop 0 (NUMROWS + 1) (λ i st,
    if negb (zget seen i =? 0) then
      for_loop 0 GRIDSIZE (λ j st,
        let '(found, data) := st in
        if zget set_lens j =? i
        then (found + 1, zupd data found (λ _, j))
        else (found, data)) st
    else st) (0, data).

(** [data_State_order_by_num_candidates_impl]. *)
Definition data_State_order_by_num_candidates_impl (self : SudokuStateObject)
  : KeyIterObject :=
  let ki := start_building_precalculated_keyiter self in
  let grid := ss_grid (ki_state ki) in
  let '(seen, set_lens) := order_by_num_candidates_sizes grid in
  let '(_, data) := order_by_num_candidates_passes seen set_lens (ki_data ki) in
  set_ki_data ki data.

(** [reversed_keyiterfunc]: [None] is the return value -1. *)
Definition reversed_keyiterfunc (ki : KeyIterObject)
  : KeyIterObject * option (Z * Z) :=
  let ki := set_ki_pos ki (ki_pos ki - 1) in
  if ki_pos ki =? -1 then (ki, None)
  else
    let i := zget (ki_data ki) (ki_pos ki) in
    (ki, Some (ROW i, COL i)).

(** An iterator that runs [reversed_keyiterfunc].  Its [ki_func] slot is
    [rv_func]: [true] while it holds [reversed_keyiterfunc], [false] once
    [data_KeyIter_iternext] has set it to NULL; the other fields are those
    of [rv_ki]. *)
Record ReversedKeyIter : Type := mkReversed {
  rv_ki : KeyIterObject;
  rv_func : bool
}.

(** [data_State_order_by_num_candidates_rev_impl]. *)
Definition data_State_order_by_num_candidates_rev_impl (self : SudokuStateObject)
  : ReversedKeyIter :=
  let ki := data_State_order_by_num_candidates_impl self in
  mkReversed (set_ki_pos ki (ob_size ki)) true.

(** [data_KeyIter_iternext] on such an iterator. *)
Definition data_KeyIter_iternext_reversed (self : ReversedKeyIter)
  : ReversedKeyIter * option (Z * Z) :=
  if rv_func self then
    match reversed_keyiterfunc (rv_ki self) with
    | (ki, None) => (mkReversed ki false, None)
    | (ki, Some xy) => (mkReversed ki true, Some xy)
    end
  else (self, None).

(** The keys [next] returns up to the first NULL, [None] when there are
    more than [fuel]. *)
Fixpoint reversed_emits (fuel : nat) (self : ReversedKeyIter)
  : option (list (Z * Z)) :=
  match fuel with
  | O => None
  | S fuel' =>
      match data_KeyIter_iternext_reversed self with
      | (_, None) => Some []
      | (self, Some xy) => cons xy <$> reversed_emits fuel' self
      end
  end.

(** The size of the candidate set of a cell, and the order of the keys by
    it. *)
Definition cell_size (s : SudokuStateObject) (k : key) : Z := popcount9 (cands_at s k).
Definition size_le (s : SudokuStateObject) (k1 k2 : key) : Prop :=
  cell_size s k1 ≤ cell_size s k2.

(** The unsolved keys by ascending size, those of one size in row-major
    order. *)
Definition keys_by_size (s : SudokuStateObject) : list key :=
  List.flat_map (λ n, List.filter (exactly_n_cell s n) all_keys) (seqZ 0 (NUMROWS + 1)).

(** What the first double loop stores in [set_lens] at index [j]. *)
Definition set_len_at (grid : list cell_info) (j : Z) : Z :=
  if CELL_FILLED grid (ROW j) (COL j) then -1
  else zget isizes (CELL_CANDS grid (ROW j) (COL j)).

(** ** Vocabulary for [fill_in_pencilmarks] *)

(** The keyset [ss_peers[key][0]] of a cell. *)
Definition peers_of (s : SudokuStateObject) (k : key) : option (list key) :=
  ss_peers s !! Z.to_nat (INDEX k.1 k.2).

(** [k'] is looked at when the pencil marks of [k] are computed: another
    cell of its row, another cell of its column, or a key of its keyset. *)
Definition sees (s : SudokuStateObject) (k k' : key) : Prop :=
  valid_key k'
  ∧ ((k'.1 = k.1 ∧ k'.2 ≠ k.2) ∨ (k'.2 = k.2 ∧ k'.1 ≠ k.1)
     ∨ ∃ keyset, peers_of s k = Some keyset ∧ k' ∈ keyset).

(** Digit [d] is the clue of a cell [k] sees. *)
Definition excluded (s : SudokuStateObject) (k : key) (d : Z) : Prop :=
  ∃ k', sees s k k' ∧ solved_at s k' = true ∧ value_at s k' = d.

(** Every unsolved cell has a keyset, of keys of the grid. *)
Definition peers_ok (s : SudokuStateObject) : Prop :=
  ∀ k, valid_key k → solved_at s k = false →
    ∃ keyset, peers_of s k = Some keyset ∧ Forall valid_key keyset.

(** The clues are at most [NUMROWS], the bound of [__init__]. *)
Definition values_ok (s : SudokuStateObject) : Prop :=
  ∀ k, valid_key k → solved_at s k = true → 0 ≤ value_at s k ≤ NUMROWS.

(** One round of a loop with early return, on the accumulated result. *)
Definition run_r {S K} (body : K → S → S * result unit) (acc : S * result unit)
    (k : K) : S * result unit :=
  match acc with
  | (s, Ok _) => body k s
  | (_, Err _) => acc
  end.

(** The [memset] loop at the head of [fill_in_pencilmarks]. *)
Definition fill_in_pencilmarks_memset (self : SudokuStateObject) : SudokuStateObject :=
  for_loop 0 (NUMROWS * 3)
    (λ n self, upd_house self n
       (λ h, mkHouse (hi_solved h) (zupd (hi_cand_count h) 0 (λ _, 0)))) self.

(** The group index of every cell names one of the nine group houses. *)
Definition groups_ok (s : SudokuStateObject) : Prop :=
  ∀ k, valid_key k → GROFFSET ≤ CELL_GROUP s k.1 k.2 < GROFFSET + NUMROWS.

(** The invariants of the data model together: sizes and ranges, the solved
    counter, the group indices and the counters of the houses. *)
Definition houses_inv (s : SudokuStateObject) : Prop :=
  state_inv s ∧ groups_ok s ∧ houses_consistent s.

(** The mutations that adjust the counters by what they change in a cell:
    all but [candidates.fill()] and [__setstate__]. *)
Definition adjusting (m : mutation) : Prop :=
  match m with
  | M_fill_pencilmarks | M_setstate _ _ _ => False
  | _ => True
  end.

(** ** Vocabulary for the getters *)

(** The number of cells set to the digit [d]. *)
Definition cells_with (s : SudokuStateObject) (d : Z) : Z :=
  Z.of_nat (length (List.filter (λ k, solved_at s k && (value_at s k =? d)) all_keys)).

(** What entry [d] of [ss_digits] has above the number of cells set to
    [d]. *)
Definition digits_off (s : SudokuStateObject) (d : Z) : Z :=
  zget (ss_digits s) d - cells_with s d.

(** [s'] has the digit counters and the cell values of [s]. *)
Definition same_values (s s' : SudokuStateObject) : Prop :=
  ss_digits s' = ss_digits s ∧ ∀ k, value_at s' k = value_at s k.

(** The body of the double loop of [data_state_candidates_clear_impl] at the
    cell [k]. *)
Definition clear_cell (k : key) (state : SudokuStateObject) : SudokuStateObject :=
  let set := CELL_CANDS (ss_grid state) k.1 k.2 in
  if set >? 0 then
    let state := if negb (CELL_FILLED (ss_grid state) k.1 k.2)
                 then house_adjust_cand_count_down state k.1 k.2 set
                 else state in
    set_CELL_CANDS state k.1 k.2 0
  else state.

(** * Basic facts about the embedding *)

(** [lia] after unfolding the constants of the source. *)
Ltac clia :=
  unfold NUMROWS, GRIDSIZE, TERMS, ERRORBIT, ROWOFFSET, COLOFFSET, GROFFSET in *; lia.

Section arrays.
Context {A : Type} `{Inhabited A}.

Lemma zget_zupd (l : list A) (i j : Z) (f : A → A) :
  0 ≤ j →
  zget (zupd l i f) j =
    if decide (i = j ∧ (Z.to_nat j < length l)%nat) then f (zget l j) else zget l j.
Proof.
  intros Hj. unfold zget, zupd.
  destruct (Z.ltb_spec j 0) as [|_]; [lia|].
  destruct (Z.ltb_spec i 0) as [Hi|Hi].
  - rewrite decide_False by lia. done.
  - rewrite list_lookup_total_alter.
    destruct (decide (i = j ∧ _)) as [[-> ?]|Hn].
    + rewrite decide_True by (split; [done | lia]). done.
    + rewrite decide_False; [done|]. intros [Heq Hlt]. apply Hn.
      split; [lia|]. replace j with i by lia. done.
Qed.

Lemma zget_zupd_eq (l : list A) (i : Z) (f : A → A) :
  0 ≤ i → (Z.to_nat i < length l)%nat → zget (zupd l i f) i = f (zget l i).
Proof. intros. rewrite zget_zupd by done. by rewrite decide_True. Qed.

Lemma zget_zupd_ne (l : list A) (i j : Z) (f : A → A) :
  i ≠ j → zget (zupd l i f) j = zget l j.
Proof.
  intros Hne. destruct (Z.ltb_spec j 0) as [Hj|Hj].
  - unfold zget. by destruct (Z.ltb_spec j 0); [|lia].
  - rewrite zget_zupd by done. rewrite decide_False; [done|]. by intros [? _].
Qed.

Lemma length_zupd (l : list A) (i : Z) (f : A → A) :
  length (zupd l i f) = length l.
Proof. unfold zupd. destruct (i <? 0); [done|]. apply length_alter. Qed.

Lemma zget_elem_of (l : list A) (i : Z) :
  0 ≤ i → (Z.to_nat i < length l)%nat → zget l i ∈ l.
Proof.
  intros Hi Hlt. unfold zget. destruct (Z.ltb_spec i 0); [lia|].
  apply list_elem_of_lookup. exists (Z.to_nat i).
  by apply list_lookup_lookup_total_lt.
Qed.

Lemma Forall_zupd (P : A → Prop) (l : list A) (i : Z) (f : A → A) :
  Forall P l → (∀ a, P a → P (f a)) → Forall P (zupd l i f).
Proof.
  intros Hl Hf. unfold zupd. destruct (i <? 0); [done|].
  apply Forall_alter; [done|]. intros a _. apply Hf.
Qed.
End arrays.

Lemma for_loop_nil {S} (lo hi : Z) (body : Z → S → S) (s : S) :
  hi ≤ lo → for_loop lo hi body s = s.
Proof. intros. unfold for_loop. rewrite seqZ_nil by lia. done. Qed.

Lemma for_loop_cons {S} (lo hi : Z) (body : Z → S → S) (s : S) :
  lo < hi → for_loop lo hi body s = for_loop (lo + 1) hi body (body lo s).
Proof.
  intros. unfold for_loop. rewrite seqZ_cons by lia. simpl.
  do 2 f_equal; lia.
Qed.

(** A property kept by every round is kept by the loop. *)
Lemma for_loop_ind {S} (P : S → Prop) (lo hi : Z) (body : Z → S → S) (s : S) :
  P s → (∀ i s, lo ≤ i < hi → P s → P (body i s)) → P (for_loop lo hi body s).
Proof.
  unfold for_loop. intros Hs Hbody.
  assert (Hin : ∀ i, i ∈ seqZ lo (hi - lo) → lo ≤ i < hi).
  { intros i Hi. apply elem_of_seqZ in Hi. lia. }
  revert s Hs Hin. induction (seqZ lo (hi - lo)) as [|i l IH]; intros s Hs Hin.
  - done.
  - simpl. apply IH.
    + apply Hbody; [apply Hin; left|done].
    + intros j Hj. apply Hin. by right.
Qed.

Lemma has_bit_testbit (set i : Z) : 0 ≤ i → has_bit set i = Z.testbit set i.
Proof.
  intros Hi. unfold has_bit. rewrite Z.shiftl_1_l.
  destruct (Z.testbit set i) eqn:Hb.
  - apply negb_true_iff, Z.eqb_neq. intros H0.
    assert (Z.testbit (Z.land set (2 ^ i)) i = true) as Ht.
    { rewrite Z.land_spec, Hb, Z.pow2_bits_true; done. }
    rewrite H0, Z.bits_0 in Ht. done.
  - apply negb_false_iff, Z.eqb_eq. apply Z.bits_inj'. intros n Hn.
    rewrite Z.land_spec, Z.bits_0, Z.pow2_bits_eqb by done.
    destruct (Z.eqb_spec i n) as [->|]; [rewrite Hb|]; by rewrite ?andb_false_r.
Qed.

Lemma UNPACK_KEY_valid (k : key) : valid_key k → UNPACK_KEY k = Ok k.
Proof.
  destruct k as [x y]. unfold valid_key, UNPACK_KEY, NUMROWS. simpl. intros [? ?].
  destruct (Z.geb_spec x 9), (Z.geb_spec y 9), (Z.ltb_spec x 0), (Z.ltb_spec y 0);
    try lia. done.
Qed.

Lemma UNPACK_KEY_Ok (k : key) (xy : Z * Z) : UNPACK_KEY k = Ok xy → xy = k ∧ valid_key k.
Proof.
  destruct k as [x y]. unfold valid_key, UNPACK_KEY, NUMROWS. simpl.
  destruct (Z.geb_spec x 9), (Z.geb_spec y 9), (Z.ltb_spec x 0), (Z.ltb_spec y 0);
    simpl; intros [= <-]; split; done || lia.
Qed.

(** * CandidateSet deserialization *)

(** C6, as stated, fails: the pair (0, 10) lies outside the stated range
    (its iteration position exceeds 9) and [__setstate__] accepts it. *)
Lemma setstate_accepts_iterpos_10 : ¬ setstate_accepts_in_range 0 10.
Proof.
  unfold setstate_accepts_in_range. intros [Hacc _].
  assert (0 ≤ 0 < 512 ∧ 0 ≤ 10 ≤ 9) as [_ ?]; [by apply Hacc | lia].
Qed.

(** The mask test of [__setstate__] compares with NUMROWS: the mask 9, the
    set of digits 0 and 3, is refused although it fits in 9 bits. *)
Lemma setstate_rejects_mask_9 :
  data_CandidateSet___setstate__ (build_set 0) (9, 0) = (build_set 0, Err BadState).
Proof. reflexivity. Qed.

(** C6, amended: [__setstate__] puts no upper bound on the iteration
    position.  It restores every pair whose mask is in 0..8 and whose
    position is not negative, storing both numbers, and it rejects every
    pair with a negative mask, a mask that does not fit in 9 bits, or a
    negative position, leaving the object unchanged. *)
Theorem CandidateSet_setstate_amended (self : CandidateSetObject) (mask iter_pos : Z) :
  (0 ≤ mask < 9 → 0 ≤ iter_pos →
     data_CandidateSet___setstate__ self (mask, iter_pos)
       = ({| cs_iterpos := iter_pos; cs_set := mask |}, Ok tt))
  ∧ (mask < 0 ∨ 512 ≤ mask ∨ iter_pos < 0 →
     data_CandidateSet___setstate__ self (mask, iter_pos) = (self, Err BadState)).
Proof.
  unfold data_CandidateSet___setstate__, NUMROWS. split.
  - intros Hm Hp.
    destruct (Z.geb_spec mask 9), (Z.ltb_spec mask 0), (Z.ltb_spec iter_pos 0);
      try lia.
    simpl. unfold uint16. rewrite Z.mod_small by lia. done.
  - intros Hout.
    destruct (Z.geb_spec mask 9), (Z.ltb_spec mask 0), (Z.ltb_spec iter_pos 0);
      simpl; try done; lia.
Qed.

Lemma CandidateSet_setstate_amended_witness :
  data_CandidateSet___setstate__ (build_set 0) (5, 12)
    = ({| cs_iterpos := 12; cs_set := 5 |}, Ok tt)
  ∧ data_CandidateSet___setstate__ (build_set 0) (512, 0) = (build_set 0, Err BadState).
Proof.
  split.
  - apply (proj1 (CandidateSet_setstate_amended (build_set 0) 5 12)); lia.
  - apply (proj2 (CandidateSet_setstate_amended (build_set 0) 512 0)); lia.
Defined.

(** * Construction and clue digits *)

(** C3: the constructor accepts the clue digit 9.  Its range test is
    [cl > NUMROWS]; the clues view tests [digit >= NUMROWS]. *)
Theorem State_new_accepts_digit_9 (dofill : bool) :
  is_ok (State_new [((0, 0), 9)] dofill None) = true
  ∧ value_at (State_of [((0, 0), 9)] dofill None) (0, 0) = 9
  ∧ solved_at (State_of [((0, 0), 9)] dofill None) (0, 0) = true.
Proof. destruct dofill; vm_compute; done. Qed.

(** The sibling path: assigning through the clues view refuses 9. *)
Lemma data_clues_ass_sub_rejects_9 (s : SudokuStateObject) (k : key) :
  data_clues_ass_sub s k (Some 9) = (s, Err BadDigit).
Proof. reflexivity. Qed.

(** What the range test of the constructor does refuse: a clue below 0 or
    above 9 makes the construction fail. *)
Lemma put_givens_rejects (s : SudokuStateObject) (clues : list (key * Z)) k cl :
  (k, cl) ∈ clues → cl < 0 ∨ 9 < cl → is_ok (put_givens s clues).2 = false.
Proof.
  intros Hin Hcl. revert s. induction clues as [|[k' cl'] rest IH]; intros s.
  - by apply elem_of_nil in Hin.
  - simpl. unfold NUMROWS.
    destruct (Z.ltb_spec cl' 0); [done|].
    destruct (Z.gtb_spec cl' 9); [done|]. simpl.
    destruct (UNPACK_KEY k') as [[x y]|e]; [|done].
    apply IH. apply elem_of_cons in Hin as [[= -> ->]|Hin]; [lia|done].
Qed.

Lemma State_new_rejects_digit clues dofill grconfig k cl :
  (k, cl) ∈ clues → cl < 0 ∨ 9 < cl → is_ok (State_new clues dofill grconfig) = false.
Proof.
  intros Hin Hcl. unfold State_new, data_State___init___impl.
  destruct (set_groups_in_cells _ _) as [grid|e]; [|done].
  match goal with |- context [put_givens ?s clues] =>
    pose proof (put_givens_rejects s clues k cl Hin Hcl) as Hrej;
    destruct (put_givens s clues) as [s' [[]|e]] end; done.
Qed.

(** * Rectangles anchored at a solved corner *)

(** C10: with a solved corner outside the last row and column the anchored
    search returns the empty tuple. *)
Theorem find_rectangles_solved_corner (s : SudokuStateObject) (r c : Z)
    (cands : option pyobject) :
  0 ≤ r < 8 → 0 ≤ c < 8 →
  CELL_FILLED (ss_grid s) r c = true →
  cands ≠ Some PyOther →
  data_State_find_rectangles_impl s (Some (r, c)) cands = Ok [].
Proof.
  intros Hr Hc Hfilled Hty. unfold data_State_find_rectangles_impl.
  assert (UNPACK_KEY (r, c) = Ok (r, c)) as ->.
  { apply UNPACK_KEY_valid. unfold valid_key, NUMROWS. simpl. lia. }
  assert (find_rectangles_one_key s r c
            match cands with Some (PyCandidateSet c0) => Some c0 | _ => None end
          = Ok []) as Hone.
  { unfold find_rectangles_one_key, NUMROWS.
    destruct (Z.eqb_spec r (9 - 1)), (Z.eqb_spec c (9 - 1)); try lia.
    simpl. by rewrite Hfilled. }
  destruct cands as [[c0|]|]; done.
Qed.

Lemma find_rectangles_solved_corner_witness :
  data_State_find_rectangles_impl state_E1 (Some (0, 1)) None = Ok [].
Proof.
  apply find_rectangles_solved_corner; [lia | lia | vm_compute; reflexivity | done].
Defined.

(** * Scanning iterators *)

Lemma row_keys_nil (i j0 : Z) : NUMROWS ≤ j0 → row_keys i j0 = [].
Proof. intros. unfold row_keys. by rewrite seqZ_nil by clia. Qed.

Lemma row_keys_cons (i j0 : Z) :
  j0 < NUMROWS → row_keys i j0 = (i, j0) :: row_keys i (j0 + 1).
Proof.
  intros. unfold row_keys. rewrite seqZ_cons by clia. rewrite fmap_cons.
  do 3 f_equal; clia.
Qed.

Lemma rest_rows_keys_from (i : Z) : rest_rows i = keys_from i 0.
Proof.
  unfold keys_from, rest_rows. destruct (Z.leb_spec NUMROWS i).
  - by rewrite seqZ_nil by clia.
  - rewrite seqZ_cons by clia. cbn [List.flat_map]. do 3 f_equal; clia.
Qed.

Lemma all_keys_keys_from : all_keys = keys_from 0 0.
Proof. vm_compute. reflexivity. Qed.

(** The inner loop finds the first key of the row that passes the test. *)
Lemma keyiter_scan_row_spec (T : key → bool) (i : Z) (n : nat) (j0 : Z) :
  n = Z.to_nat (NUMROWS - j0) →
  match keyiter_scan_row n (λ j, T (i, j)) j0 with
  | Some j =>
      j0 ≤ j < NUMROWS
      ∧ List.filter T (row_keys i j0) = (i, j) :: List.filter T (row_keys i (j + 1))
  | None => List.filter T (row_keys i j0) = []
  end.
Proof.
  revert j0. induction n as [|n IH]; intros j0 Hn; simpl.
  - by rewrite row_keys_nil by clia.
  - rewrite row_keys_cons by clia. simpl. destruct (T (i, j0)) eqn:HT.
    + split; [clia | done].
    + specialize (IH (j0 + 1) ltac:(clia)).
      destruct (keyiter_scan_row n _ (j0 + 1)) as [j|]; [|done].
      destruct IH as [? ->]. split; [clia | done].
Qed.

Lemma keyiter_scan_ext (t t' : Z → Z → bool) (n : nat) (i : Z) (ki : KeyIterObject) :
  (∀ x y, t x y = t' x y) → keyiter_scan n t i ki = keyiter_scan n t' i ki.
Proof.
  intros Ht. revert i ki. induction n as [|n IH]; intros i ki; simpl; [done|].
  assert (∀ m j, keyiter_scan_row m (t i) j = keyiter_scan_row m (t' i) j) as ->.
  { induction m as [|m IHm]; intros j; simpl; [done|].
    by rewrite Ht, IHm. }
  by rewrite IH.
Qed.

(** The outer loop finds the first key from (i, next_y) on that passes the
    test, and leaves the position behind it. *)
Lemma keyiter_scan_spec (T : key → bool) (n : nat) (i : Z) (ki : KeyIterObject) :
  n = Z.to_nat (NUMROWS - i) → 0 ≤ ki_next_y ki →
  match keyiter_scan n (λ x y, T (x, y)) i ki with
  | (ki', Some (x, y)) =>
      ki' = set_ki_next ki x (y + 1)
      ∧ ((x = i ∧ ki_next_y ki ≤ y) ∨ i < x) ∧ x < NUMROWS ∧ 0 ≤ y < NUMROWS
      ∧ List.filter T (keys_from i (ki_next_y ki))
        = (x, y) :: List.filter T (keys_from x (y + 1))
  | (_, None) => List.filter T (keys_from i (ki_next_y ki)) = []
  end.
Proof.
  revert i ki. induction n as [|n IH]; intros i ki Hn Hy; simpl.
  - unfold keys_from. by destruct (Z.leb_spec NUMROWS i); [|lia].
  - pose proof (keyiter_scan_row_spec T i (Z.to_nat (NUMROWS - ki_next_y ki))
                  (ki_next_y ki) eq_refl) as Hrow.
    assert (keys_from i (ki_next_y ki)
            = row_keys i (ki_next_y ki) ++ rest_rows (i + 1)) as Hkf.
    { unfold keys_from. by destruct (Z.leb_spec NUMROWS i); [clia|]. }
    destruct (keyiter_scan_row _ _ (ki_next_y ki)) as [j|].
    + destruct Hrow as [Hj Hrow]. split; [done|].
      split; [left; clia|]. split; [clia|]. split; [clia|].
      rewrite Hkf, List.filter_app, Hrow. simpl. f_equal.
      unfold keys_from. destruct (Z.leb_spec NUMROWS i); [clia|].
      by rewrite List.filter_app.
    + specialize (IH (i + 1) (set_ki_next ki (ki_next_x ki) 0) ltac:(clia)
                     ltac:(simpl; clia)).
      rewrite Hkf, List.filter_app, Hrow, rest_rows_keys_from. simpl.
      destruct (keyiter_scan n _ (i + 1) _) as [ki' [[x y]|]]; [|done].
      simpl in IH. destruct IH as (-> & Hx & ? & ? & ->).
      split; [done|]. split; [right; clia|]. done.
Qed.

(** An iterator whose function scans with test [T] emits the keys passing
    [T] from its position on, in row-major order. *)
Lemma keyiter_emits_scan (f : keyiterfunc) (T : key → bool)
    (s : SudokuStateObject) (p : Z) :
  (∀ ki, ki_state ki = s → ki_pos ki = p →
     call_keyiterfunc f ki
     = keyiter_scan (Z.to_nat (NUMROWS - ki_next_x ki)) (λ x y, T (x, y))
                    (ki_next_x ki) ki) →
  ∀ (fuel : nat) (ki : KeyIterObject),
    ki_state ki = s → ki_pos ki = p → ki_func ki = Some f →
    0 ≤ ki_next_y ki ≤ NUMROWS →
    (Z.to_nat (NUMROWS * (NUMROWS - ki_next_x ki) - ki_next_y ki) < fuel)%nat →
    keyiter_emits fuel ki
    = Some (List.filter T (keys_from (ki_next_x ki) (ki_next_y ki))).
Proof.
  intros Hcall fuel. induction fuel as [|fuel IH]; intros ki Hs Hp Hf Hy Hfuel.
  - clia.
  - simpl. unfold data_KeyIter_iternext. rewrite Hf, (Hcall ki Hs Hp).
    pose proof (keyiter_scan_spec T (Z.to_nat (NUMROWS - ki_next_x ki))
                  (ki_next_x ki) ki eq_refl ltac:(clia)) as Hscan.
    destruct (keyiter_scan _ _ (ki_next_x ki) ki) as [ki' [[x y]|]].
    + destruct Hscan as (-> & Hx & ? & ? & ->).
      rewrite IH; [done | done | done | done | simpl; clia |].
      simpl. unfold NUMROWS in *. lia.
    + by rewrite Hscan.
Qed.

(** * Candidate-set sizes *)

Lemma isizes_popcount9 (set : Z) : 0 ≤ set ≤ TERMS → zget isizes set = popcount9 set.
Proof.
  intros Hset.
  assert (List.forallb (λ m, zget isizes m =? popcount9 m) (seqZ 0 512) = true) as Hall.
  { vm_compute. reflexivity. }
  rewrite List.forallb_forall in Hall. apply Z.eqb_eq, Hall.
  apply list_elem_of_In, elem_of_seqZ. unfold TERMS in Hset. lia.
Qed.

Lemma masks_ok_cands (s : SudokuStateObject) (x y : Z) :
  masks_ok s → 0 ≤ CELL_CANDS (ss_grid s) x y ≤ TERMS.
Proof.
  intros Hm. unfold CELL_CANDS, zget.
  destruct (INDEX x y <? 0); [simpl; unfold TERMS; clia|].
  rewrite list_lookup_total_alt.
  destruct (ss_grid s !! Z.to_nat (INDEX x y)) as [c|] eqn:Hc; simpl.
  - unfold masks_ok in Hm. rewrite Forall_forall in Hm. apply Hm.
    by eapply list_elem_of_lookup_2.
  - unfold TERMS. lia.
Qed.

Lemma masks_ok_state_E1 : masks_ok state_E1.
Proof.
  unfold masks_ok. apply Forall_forall. intros c Hc.
  apply list_elem_of_In in Hc. revert c Hc. apply List.Forall_forall.
  vm_compute. repeat constructor; discriminate.
Qed.

(** * order_exactly_n *)

(** C7, as stated, fails at k = 0: the call does not report BadCount.  On
    the grid built without pencil marks it returns an iterator, which
    yields all 81 cells, their candidate sets being empty. *)
Lemma order_exactly_n_accepts_0 :
  data_State_order_exactly_n_impl (State_of [] false None) 0 ≠ Err BadCount
  ∧ ∃ ki, data_State_order_exactly_n_impl (State_of [] false None) 0 = Ok ki
          ∧ keyiter_emits 82 ki = Some all_keys.
Proof.
  split; [done|]. eexists. split; [reflexivity|]. vm_compute. reflexivity.
Qed.

(** C7, amended: [order_exactly_n(k)] fails with BadCount for k < 0 and for
    k ≥ 9; for every k with 0 ≤ k ≤ 8 it yields exactly the unsolved cells
    whose candidate-set size equals k, in row-major order. *)
Theorem order_exactly_n_amended (s : SudokuStateObject) (count : Z) :
  masks_ok s →
  (count < 0 ∨ 9 ≤ count → data_State_order_exactly_n_impl s count = Err BadCount)
  ∧ (0 ≤ count ≤ 8 →
     ∃ ki, data_State_order_exactly_n_impl s count = Ok ki
           ∧ ∀ fuel, (81 < fuel)%nat →
               keyiter_emits fuel ki
               = Some (List.filter (exactly_n_cell s count) all_keys)).
Proof.
  intros Hmasks. unfold data_State_order_exactly_n_impl, NUMROWS. split.
  - intros Hc. destruct (Z.ltb_spec count 0), (Z.geb_spec count 9); simpl; done || lia.
  - intros Hc. destruct (Z.ltb_spec count 0), (Z.geb_spec count 9); try lia.
    cbn [orb]. eexists. split; [reflexivity|]. intros fuel Hfuel.
    rewrite all_keys_keys_from.
    apply (keyiter_emits_scan KI_exactly_n (exactly_n_cell s count) s count);
      try done; simpl; try (unfold NUMROWS; lia).
    intros ki Hs Hp. simpl. unfold exactly_n_keyiterfunc. rewrite Hs, Hp.
    apply keyiter_scan_ext. intros x y. unfold exactly_n_cell, solved_at, cands_at.
    simpl. by rewrite isizes_popcount9 by (by apply masks_ok_cands).
Qed.

Lemma order_exactly_n_amended_witness :
  data_State_order_exactly_n_impl state_E1 9 = Err BadCount
  ∧ ∃ ki, data_State_order_exactly_n_impl state_E1 6 = Ok ki
          ∧ keyiter_emits 82 ki
            = Some [(0, 2); (1, 1); (1, 2); (2, 0); (2, 1); (2, 2)].
Proof.
  pose proof masks_ok_state_E1 as Hm.
  destruct (order_exactly_n_amended state_E1 9 Hm) as [Hbad _].
  destruct (order_exactly_n_amended state_E1 6 Hm) as [_ Hgood].
  split; [apply Hbad; lia|].
  destruct (Hgood ltac:(lia)) as (ki & Hki & Hemits).
  exists ki. split; [done|]. rewrite (Hemits 82%nat ltac:(lia)).
  vm_compute. reflexivity.
Defined.

(** * Rectangle finder *)

Lemma for_loop_app {A} (lo hi : Z) (body : Z → list A → list A) (acc : list A) :
  (∀ i acc, body i acc = acc ++ body i []) →
  for_loop lo hi body acc = acc ++ List.flat_map (λ i, body i []) (seqZ lo (hi - lo)).
Proof.
  intros Hbody. unfold for_loop. revert acc.
  induction (seqZ lo (hi - lo)) as [|i l IH]; intros acc; simpl.
  - by rewrite app_nil_r.
  - rewrite IH, (Hbody i acc). by rewrite <- app_assoc.
Qed.

Lemma for_loop_r_ind {S} (P : S → Prop) (lo hi : Z)
    (body : Z → S → S * result unit) (s : S) :
  P s → (∀ i s, lo ≤ i < hi → P s → P (body i s).1) → P (for_loop_r lo hi body s).1.
Proof.
  unfold for_loop_r. intros Hs Hbody.
  assert (Hin : ∀ i, i ∈ seqZ lo (hi - lo) → lo ≤ i < hi).
  { intros i Hi. apply elem_of_seqZ in Hi. lia. }
  assert (P ((s, Ok tt) : S * result unit).1) as Hacc by done.
  revert Hacc Hin. generalize ((s, Ok tt) : S * result unit).
  induction (seqZ lo (hi - lo)) as [|i l IH]; intros acc Hacc Hin; [done|].
  simpl. apply IH.
  - destruct acc as [s' [[]|e]]; [|done]. apply Hbody; [apply Hin; left|done].
  - intros j Hj. apply Hin. by right.
Qed.

Lemma StronglySorted_seqZ (m n : Z) : StronglySorted Z.lt (seqZ m n).
Proof.
  remember (Z.to_nat n) as k eqn:Hk. revert m n Hk.
  induction k as [|k IH]; intros m n Hk.
  - rewrite seqZ_nil by lia. constructor.
  - rewrite seqZ_cons by lia. constructor.
    + apply IH. lia.
    + apply Forall_forall. intros i Hi%elem_of_seqZ. lia.
Qed.

Lemma land_TERMS (m : Z) : 0 ≤ m ≤ TERMS → Z.land m TERMS = m.
Proof.
  intros Hm. change TERMS with (Z.ones 9). rewrite Z.land_ones by lia.
  apply Z.mod_small. unfold TERMS in Hm. lia.
Qed.

Lemma land_TERMS_absorb (a b : Z) :
  Z.land a TERMS = a → Z.land (Z.land a b) TERMS = Z.land a b.
Proof.
  intros Ha. rewrite <- Z.land_assoc, (Z.land_comm b TERMS), Z.land_assoc.
  by rewrite Ha.
Qed.

Lemma SUBSET_true (x y : Z) : SUBSET x y = true → Z.lor x y = y.
Proof. unfold SUBSET. by intros ?%Z.eqb_eq. Qed.

Section rectangles.
Variable s : SudokuStateObject.
Variable cands : option CandidateSetObject.
Hypothesis Hmasks : masks_ok s.

Let required : Z := match cands with Some c => cs_set c | None => 0 end.

Lemma find_rectangles_row_app x y j tmp i pos :
  find_rectangles_row s x y required j tmp i pos
  = pos ++ find_rectangles_row s x y required j tmp i [].
Proof.
  unfold find_rectangles_row.
  repeat match goal with |- context [if ?b then _ else _] => destruct b end;
    by rewrite ?app_nil_r.
Qed.

Lemma find_rectangles_col_app x y ul_set j pos :
  find_rectangles_col s x y required ul_set j pos
  = pos ++ find_rectangles_col s x y required ul_set j [].
Proof.
  unfold find_rectangles_col.
  repeat match goal with |- context [if ?b then _ else _] => destruct b end;
    rewrite ?app_nil_r; try done.
  rewrite (for_loop_app _ _ _ pos), (for_loop_app _ _ _ []);
    [done | apply find_rectangles_row_app ..].
Qed.

(** What the innermost part emits for the row [i]. *)
Lemma find_rectangles_row_elem x y j i r :
  0 ≤ x < i → i < NUMROWS → 0 ≤ y < j → j < NUMROWS →
  solved_at s (x, y) = false → solved_at s (x, j) = false →
  r ∈ find_rectangles_row s x y required j
        (Z.land (cands_at s (x, y)) (cands_at s (x, j))) i [] →
  rectangle_ok s cands r ∧ rect_lr r = (i, j).
Proof.
  intros Hx Hi Hy Hj Hul Hur. unfold find_rectangles_row.
  destruct (CELL_FILLED (ss_grid s) i y) eqn:Hll; simpl; [by intros ?%elem_of_nil|].
  match goal with |- context [negb (?m =? 0) && SUBSET _ _] =>
    destruct (negb (m =? 0) && SUBSET required m); [|by intros ?%elem_of_nil] end.
  destruct (CELL_FILLED (ss_grid s) i j) eqn:Hlr; simpl; [by intros ?%elem_of_nil|].
  match goal with |- context [negb (?m =? 0) && SUBSET _ _] =>
    set (S := m); destruct (negb (S =? 0) && SUBSET required S) eqn:Hok;
    [|by intros ?%elem_of_nil] end.
  intros ->%list_elem_of_singleton. split; [|done].
  apply andb_true_iff in Hok as [Hne Hsub]. apply negb_true_iff, Z.eqb_neq in Hne.
  assert (Z.land S TERMS = S) as HS.
  { unfold S. do 3 apply land_TERMS_absorb. apply land_TERMS.
    by apply masks_ok_cands. }
  exists x, y, i, j. simpl. rewrite HS.
  repeat split; try done; try lia.
  - unfold S, cands_at. simpl.
    rewrite <- (Z.land_assoc _ (CELL_CANDS _ i y)), (Z.land_comm (CELL_CANDS _ i y)).
    by rewrite Z.land_assoc.
  - intros req ->. by apply SUBSET_true.
Qed.

(** The anchored search: every result is a rectangle, and the results
    come by ascending column of the right corners, then ascending row of
    the lower corners. *)
Lemma find_rectangles_one_key_spec x y res :
  0 ≤ x → 0 ≤ y →
  find_rectangles_one_key s x y cands = Ok res →
  Forall (rectangle_ok s cands) res ∧ StronglySorted rect_before res.
Proof.
  intros Hx Hy. unfold find_rectangles_one_key.
  destruct ((x =? NUMROWS - 1) || (y =? NUMROWS - 1)); [done|].
  destruct (CELL_FILLED (ss_grid s) x y) eqn:Hul.
  { intros [= <-]. split; constructor. }
  fold required. destruct (negb (SUBSET required (CELL_CANDS (ss_grid s) x y))).
  { intros [= <-]. split; constructor. }
  intros [= <-].
  rewrite (for_loop_app _ _ _ []) by apply find_rectangles_col_app. simpl.
  (* the results of one column *)
  assert (∀ j r, y < j < NUMROWS →
            r ∈ find_rectangles_col s x y required
                  (CELL_CANDS (ss_grid s) x y) j [] →
            rectangle_ok s cands r ∧ (rect_lr r).2 = j ∧ x < (rect_lr r).1) as Hcol.
  { intros j r Hj. unfold find_rectangles_col.
    destruct (CELL_FILLED (ss_grid s) x j) eqn:Hur; simpl; [by intros ?%elem_of_nil|].
    match goal with |- context [negb (?m =? 0) && SUBSET _ _] =>
      destruct (negb (m =? 0) && SUBSET required m); [|by intros ?%elem_of_nil] end.
    rewrite (for_loop_app _ _ _ []) by apply find_rectangles_row_app. simpl.
    intros Hr. apply list_elem_of_In, List.in_flat_map in Hr as (i & Hi & Hr).
    apply list_elem_of_In, elem_of_seqZ in Hi. apply list_elem_of_In in Hr.
    destruct (find_rectangles_row_elem x y j i r) as [Hok Hlr];
      try done; try clia.
    rewrite Hlr. simpl. split; [done|]. split; [done|lia]. }
  assert (∀ j, y < j < NUMROWS →
            StronglySorted rect_before
              (find_rectangles_col s x y required (CELL_CANDS (ss_grid s) x y) j []))
    as Hcol_sorted.
  { intros j Hj. unfold find_rectangles_col.
    destruct (CELL_FILLED (ss_grid s) x j) eqn:Hur; simpl; [constructor|].
    match goal with |- context [negb (?m =? 0) && SUBSET _ _] =>
      destruct (negb (m =? 0) && SUBSET required m); [|constructor] end.
    rewrite (for_loop_app _ _ _ []) by apply find_rectangles_row_app. simpl.
    assert (∀ i, i ∈ seqZ (x + 1) (NUMROWS - (x + 1)) → x < i < NUMROWS) as Hin.
    { intros i Hi%elem_of_seqZ. lia. }
    assert (StronglySorted Z.lt (seqZ (x + 1) (NUMROWS - (x + 1)))) as Hsorted.
    { apply StronglySorted_seqZ. }
    revert Hin Hsorted.
    induction (seqZ (x + 1) (NUMROWS - (x + 1))) as [|i l IH]; intros Hin Hsorted;
      simpl; [constructor|].
    apply StronglySorted_inv in Hsorted as [Hsorted Hi].
    apply StronglySorted_app_2.
    - intros r1 r2 Hr1 Hr2.
      apply list_elem_of_In, List.in_flat_map in Hr2 as (i' & Hi' & Hr2).
      apply list_elem_of_In in Hr2.
      rewrite Forall_forall in Hi. apply list_elem_of_In in Hi'.
      specialize (Hi i' Hi').
      destruct (find_rectangles_row_elem x y j i r1) as [_ Hlr1]; try done; try clia.
      { specialize (Hin i ltac:(left)). lia. }
      { specialize (Hin i ltac:(left)). lia. }
      destruct (find_rectangles_row_elem x y j i' r2) as [_ Hlr2]; try done; try clia.
      { specialize (Hin i' ltac:(by right)). lia. }
      { specialize (Hin i' ltac:(by right)). lia. }
      unfold rect_before. rewrite Hlr1, Hlr2. simpl. right. done.
    - unfold find_rectangles_row.
      repeat match goal with |- context [if ?b then _ else _] => destruct b end;
        repeat constructor.
    - apply IH; [|done]. intros i' Hi'. apply Hin. by right. }
  split.
  - apply Forall_forall. intros r Hr.
    apply list_elem_of_In, List.in_flat_map in Hr as (j & Hj & Hr).
    apply list_elem_of_In, elem_of_seqZ in Hj. apply list_elem_of_In in Hr.
    apply (Hcol j r); [lia | done].
  - assert (∀ j, j ∈ seqZ (y + 1) (NUMROWS - (y + 1)) → y < j < NUMROWS) as Hin.
    { intros j Hj%elem_of_seqZ. lia. }
    assert (StronglySorted Z.lt (seqZ (y + 1) (NUMROWS - (y + 1)))) as Hsorted.
    { apply StronglySorted_seqZ. }
    revert Hin Hsorted.
    induction (seqZ (y + 1) (NUMROWS - (y + 1))) as [|j l IH]; intros Hin Hsorted;
      simpl; [constructor|].
    apply StronglySorted_inv in Hsorted as [Hsorted Hj].
    apply StronglySorted_app_2.
    + intros r1 r2 Hr1 Hr2.
      apply list_elem_of_In, List.in_flat_map in Hr2 as (j' & Hj' & Hr2).
      apply list_elem_of_In in Hr2.
      rewrite Forall_forall in Hj. apply list_elem_of_In in Hj'.
      specialize (Hj j' Hj').
      destruct (Hcol j r1) as (_ & Hc1 & _); [apply Hin; left | done |].
      destruct (Hcol j' r2) as (_ & Hc2 & _); [apply Hin; by right | done |].
      unfold rect_before. left. lia.
    + apply Hcol_sorted. apply Hin. left.
    + apply IH; [|done]. intros j' Hj'. apply Hin. by right.
Qed.
End rectangles.

(** C8: every result of [find_rectangles] satisfies the rectangle
    predicate; the anchored results are ordered by ascending c2, then
    ascending r2; an anchor in the last row or the last column fails with
    BadCorner. *)
Theorem find_rectangles_spec (s : SudokuStateObject) (k : option key)
    (cands : option pyobject) :
  masks_ok s →
  (∀ res, data_State_find_rectangles_impl s k cands = Ok res →
     Forall (rectangle_ok s (required_of cands)) res
     ∧ (is_Some k → StronglySorted rect_before res))
  ∧ (∀ x y, k = Some (x, y) → valid_key (x, y) →
       x = NUMROWS - 1 ∨ y = NUMROWS - 1 → cands ≠ Some PyOther →
       data_State_find_rectangles_impl s k cands = Err BadCorner).
Proof.
  intros Hmasks. split.
  - intros res. unfold data_State_find_rectangles_impl.
    assert (required_of cands
            = match cands with Some (PyCandidateSet c) => Some c | _ => None end)
      as <- by done.
    destruct (decide (cands = Some PyOther)) as [->|Hty]; [done|].
    assert (match k with
            | Some k =>
                match UNPACK_KEY k with
                | Ok (x, y) => find_rectangles_one_key s x y (required_of cands)
                | Err e => Err e
                end
            | None =>
                match for_loop_r 0 (NUMROWS - 1) (λ i acc,
                        for_loop_r 0 (NUMROWS - 1)
                          (find_rectangles_scan s (required_of cands) i) acc) []
                with
                | (_, Err e) => Err e
                | (found, Ok _) => Ok found
                end
            end = Ok res →
            Forall (rectangle_ok s (required_of cands)) res
            ∧ (is_Some k → StronglySorted rect_before res)) as Hmain.
    { destruct k as [k|].
      - destruct (UNPACK_KEY k) as [[x y]|e] eqn:Hk; [|done].
        apply UNPACK_KEY_Ok in Hk as [<- [Hx Hy]]. simpl in Hx, Hy. intros Hres.
        destruct (find_rectangles_one_key_spec s (required_of cands) Hmasks x y res)
          as [Hall Hsorted]; [lia | lia | done |]. done.
      - intros Hres. split; [|by intros [? [=]]].
        match type of Hres with match ?loop with _ => _ end = _ =>
          assert (Forall (rectangle_ok s (required_of cands)) loop.1) as Hall;
          [|destruct loop as [found [[]|e]]; [by injection Hres as <- | done]] end.
        apply for_loop_r_ind; [constructor|]. intros i acc Hi Hacc.
        apply for_loop_r_ind; [done|]. intros j acc' Hj Hacc'.
        unfold find_rectangles_scan.
        destruct (CELL_FILLED (ss_grid s) i j); simpl; [done|].
        destruct (find_rectangles_one_key s i j (required_of cands)) as [r|e] eqn:Hone;
          simpl; [|done].
        apply Forall_app. split; [done|].
        by destruct (find_rectangles_one_key_spec s (required_of cands) Hmasks i j r);
          [lia | lia | done |]. }
    destruct cands as [[c|]|]; done.
  - intros x y -> [Hx Hy] Hlast Hty. simpl in Hx, Hy.
    unfold data_State_find_rectangles_impl.
    rewrite UNPACK_KEY_valid by done.
    assert (∀ c, find_rectangles_one_key s x y c = Err BadCorner) as Hone.
    { intros c. unfold find_rectangles_one_key.
      destruct (Z.eqb_spec x (NUMROWS - 1)), (Z.eqb_spec y (NUMROWS - 1));
        simpl; try done. lia. }
    destruct cands as [[c|]|]; done.
Qed.

Lemma find_rectangles_spec_witness :
  (∃ res, data_State_find_rectangles_impl state_E1 (Some (0, 2)) None = Ok res
          ∧ length res = 48%nat
          ∧ Forall (rectangle_ok state_E1 None) res
          ∧ StronglySorted rect_before res)
  ∧ data_State_find_rectangles_impl state_E1 (Some (3, 8)) None = Err BadCorner.
Proof.
  destruct (find_rectangles_spec state_E1 (Some (0, 2)) None masks_ok_state_E1)
    as [Hres _].
  destruct (find_rectangles_spec state_E1 (Some (3, 8)) None masks_ok_state_E1)
    as [_ Hbad].
  split.
  - destruct (data_State_find_rectangles_impl state_E1 (Some (0, 2)) None)
      as [res|e] eqn:Hcall; [|by vm_compute in Hcall].
    exists res. split; [done|]. split.
    + vm_compute in Hcall. injection Hcall as <-. reflexivity.
    + destruct (Hres res eq_refl) as [Hall Hsorted]. split; [done|].
      apply Hsorted. by eexists.
  - apply (Hbad 3 8); [done | unfold valid_key, NUMROWS; simpl; lia | by right | done].
Defined.

(** * House counters *)

Lemma wf_state_houses_wf (s : SudokuStateObject) : wf_state s → houses_wf (ss_houses s).
Proof. intros [? ? ? ? ?]. by split. Qed.

Lemma houses_wf_zupd (hs : list house_info) (k : Z) (f : house_info → house_info) :
  houses_wf hs →
  (∀ h, length (hi_cand_count (f h)) = length (hi_cand_count h)) →
  houses_wf (zupd hs k f).
Proof.
  intros [Hlen Hall] Hf. split; [by rewrite length_zupd|].
  apply Forall_zupd; [done|]. intros h Hh. by rewrite Hf.
Qed.

Lemma cand_add_length (i delta : Z) (h : house_info) :
  length (hi_cand_count (cand_add i delta h)) = length (hi_cand_count h).
Proof. apply length_zupd. Qed.

(** One counter update, observed at house [h] and digit [d]. *)
Lemma cand_count_upd_house (s : SudokuStateObject) (k i delta h d : Z) :
  houses_wf (ss_houses s) → 0 ≤ h < 27 → 0 ≤ d < 9 →
  cand_count (upd_house s k (cand_add i delta)) h d
  = cand_count s h d + (if decide (k = h ∧ i = d) then delta else 0).
Proof.
  intros [Hlen Hall] Hh Hd. unfold cand_count, upd_house. cbn [ss_houses set_ss_houses].
  rewrite zget_zupd by lia.
  destruct (decide (k = h ∧ _)) as [[-> _]|Hk].
  - cbn [cand_add hi_cand_count]. rewrite zget_zupd by lia.
    assert (length (hi_cand_count (zget (ss_houses s) h)) = 9%nat) as Hl.
    { rewrite Forall_forall in Hall. apply Hall, zget_elem_of; lia. }
    destruct (decide (i = d ∧ _)) as [[-> _]|Hi].
    + rewrite decide_True by done. done.
    + rewrite decide_False; [lia|]. intros [_ ->]. apply Hi. split; [done|lia].
  - rewrite decide_False; [lia|]. intros [-> _]. apply Hk. split; [done|lia].
Qed.

Lemma hits_unfold (s : SudokuStateObject) (k : key) (h : Z) :
  hits s k h
  = (if decide (k.1 + ROWOFFSET = h) then 1 else 0)
    + (if decide (k.2 + COLOFFSET = h) then 1 else 0)
    + (if decide (CELL_GROUP s k.1 k.2 = h) then 1 else 0).
Proof.
  unfold hits, houses_of. rewrite !filter_cons, filter_nil.
  repeat case_decide; simpl; lia.
Qed.

(** One round of the adjust loops changes nothing but the counters. *)
Lemma house_adjust_cand_count_step_frame (delta x y set i : Z) (s : SudokuStateObject) :
  let s' := house_adjust_cand_count_step delta x y set i s in
  ss_grid s' = ss_grid s ∧ ss_solved s' = ss_solved s ∧ ss_digits s' = ss_digits s
  ∧ ss_skeys s' = ss_skeys s ∧ ss_grconfig s' = ss_grconfig s
  ∧ ss_peers s' = ss_peers s ∧ ss_movehook s' = ss_movehook s
  ∧ ss_dict s' = ss_dict s
  ∧ (∀ h, solved_count s' h = solved_count s h)
  ∧ (houses_wf (ss_houses s) → houses_wf (ss_houses s')).
Proof.
  unfold house_adjust_cand_count_step. destruct (has_bit set i); [|done].
  cbn. split_and!; try done.
  - intros h. unfold solved_count, upd_house. cbn [ss_houses set_ss_houses].
    assert (∀ hs k, hi_solved (zget (zupd hs k (cand_add i delta)) h)
                    = hi_solved (zget hs h)) as Hk.
    { intros hs k. destruct (Z.ltb_spec h 0) as [Hneg|Hpos].
      - unfold zget. by destruct (Z.ltb_spec h 0); [|lia].
      - rewrite zget_zupd by done. by case_decide. }
    by rewrite !Hk.
  - intros Hwf. unfold upd_house. cbn [ss_houses set_ss_houses].
    repeat apply houses_wf_zupd; try done; intros; apply cand_add_length.
Qed.

(** The effect of one round on a counter. *)
Lemma cand_count_step (delta x y set i : Z) (s : SudokuStateObject) (h d : Z) :
  houses_wf (ss_houses s) → 0 ≤ h < 27 → 0 ≤ d < 9 → 0 ≤ i →
  cand_count (house_adjust_cand_count_step delta x y set i s) h d
  = cand_count s h d
    + (if decide (i = d) then delta * has_digit set d * hits s (x, y) h else 0).
Proof.
  intros Hwf Hh Hd Hi. unfold house_adjust_cand_count_step.
  rewrite has_bit_testbit by done. unfold has_digit.
  destruct (decide (i = d)) as [->|Hne].
  - destruct (Z.testbit set d); [|lia].
    rewrite !cand_count_upd_house; try done.
    + rewrite hits_unfold. cbn [fst snd].
      unfold CELL_GROUP, upd_house. cbn [ss_grid set_ss_houses].
      repeat case_decide; try lia; naive_solver.
    + unfold upd_house. cbn [ss_houses set_ss_houses].
      apply houses_wf_zupd; [done|]. intros; apply cand_add_length.
    + unfold upd_house. cbn [ss_houses set_ss_houses].
      repeat apply houses_wf_zupd; try done; intros; apply cand_add_length.
  - destruct (Z.testbit set i); [|lia].
    rewrite !cand_count_upd_house; try done.
    + repeat case_decide; try lia; naive_solver.
    + unfold upd_house. cbn [ss_houses set_ss_houses].
      apply houses_wf_zupd; [done|]. intros; apply cand_add_length.
    + unfold upd_house. cbn [ss_houses set_ss_houses].
      repeat apply houses_wf_zupd; try done; intros; apply cand_add_length.
Qed.

(** The adjust loop over a list of digits. *)
Lemma cand_count_fold (delta x y set : Z) (l : list Z) (s : SudokuStateObject) (h d : Z) :
  houses_wf (ss_houses s) → 0 ≤ h < 27 → 0 ≤ d < 9 →
  NoDup l → (∀ i, i ∈ l → 0 ≤ i) →
  let s' := fold_left (λ acc i, house_adjust_cand_count_step delta x y set i acc) l s in
  cand_count s' h d
  = cand_count s h d
    + (if decide (d ∈ l) then delta * has_digit set d * hits s (x, y) h else 0)
  ∧ ss_grid s' = ss_grid s.
Proof.
  intros Hwf Hh Hd Hnd Hpos. revert s Hwf.
  induction l as [|i l IH]; intros s Hwf; cbn [fold_left].
  - rewrite decide_False by (by intros ?%elem_of_nil). split; [lia|done].
  - apply NoDup_cons in Hnd as [Hi Hnd].
    pose proof (house_adjust_cand_count_step_frame delta x y set i s)
      as (Hgrid & _ & _ & _ & _ & _ & _ & _ & _ & Hwf').
    destruct (IH Hnd (λ j Hj, Hpos j ltac:(by right)) _ (Hwf' Hwf)) as [Hc Hg].
    split; [|by rewrite Hg].
    rewrite Hc, cand_count_step; [|done|done|done|apply Hpos; left].
    assert (hits (house_adjust_cand_count_step delta x y set i s) (x, y) h
            = hits s (x, y) h) as ->.
    { rewrite !hits_unfold. unfold CELL_GROUP. by rewrite Hgrid. }
    destruct (decide (i = d)) as [->|Hne].
    + rewrite decide_False by done. rewrite decide_True by left. lia.
    + destruct (decide (d ∈ l)) as [Hin|Hnin].
      * rewrite decide_True by (by right). lia.
      * rewrite decide_False; [lia|]. intros [->|?]%elem_of_cons; done.
Qed.

(** [house_adjust_cand_count_up] adds, for each digit of [set], one to the
    counters of the houses of the cell; it changes nothing else. *)
Lemma house_adjust_cand_count_spec (delta x y set : Z) (s : SudokuStateObject) :
  let s' := for_loop 0 NUMROWS (house_adjust_cand_count_step delta x y set) s in
  (houses_wf (ss_houses s) →
   ∀ h d, 0 ≤ h < 27 → 0 ≤ d < 9 →
     cand_count s' h d = cand_count s h d + delta * has_digit set d * hits s (x, y) h)
  ∧ ss_grid s' = ss_grid s ∧ ss_solved s' = ss_solved s ∧ ss_digits s' = ss_digits s
  ∧ ss_skeys s' = ss_skeys s ∧ ss_grconfig s' = ss_grconfig s
  ∧ ss_peers s' = ss_peers s ∧ ss_movehook s' = ss_movehook s
  ∧ ss_dict s' = ss_dict s
  ∧ (∀ h, solved_count s' h = solved_count s h)
  ∧ (houses_wf (ss_houses s) → houses_wf (ss_houses s')).
Proof.
  split.
  - intros Hwf h d Hh Hd.
    destruct (cand_count_fold delta x y set (seqZ 0 (NUMROWS - 0)) s h d)
      as [Hc _]; try done.
    + apply NoDup_seqZ.
    + intros i Hi%elem_of_seqZ. lia.
    + unfold for_loop. rewrite Hc. rewrite decide_True; [done|].
      apply elem_of_seqZ. clia.
  - apply (for_loop_ind (λ s',
      ss_grid s' = ss_grid s ∧ ss_solved s' = ss_solved s ∧ ss_digits s' = ss_digits s
      ∧ ss_skeys s' = ss_skeys s ∧ ss_grconfig s' = ss_grconfig s
      ∧ ss_peers s' = ss_peers s ∧ ss_movehook s' = ss_movehook s
      ∧ ss_dict s' = ss_dict s
      ∧ (∀ h, solved_count s' h = solved_count s h)
      ∧ (houses_wf (ss_houses s) → houses_wf (ss_houses s')))).
    + done.
    + intros i s0 _ (H1 & H2 & H3 & H4 & H5 & H6 & H7 & H8 & H9 & H10).
      pose proof (house_adjust_cand_count_step_frame delta x y set i s0)
        as (G1 & G2 & G3 & G4 & G5 & G6 & G7 & G8 & G9 & G10).
      split_and!; [congruence .. | |].
      * intros h. rewrite G9. apply H9.
      * intros Hwf. apply G10, H10, Hwf.
Qed.

(** * Cells *)

Lemma INDEX_range (k : key) : valid_key k → 0 ≤ INDEX k.1 k.2 < 81.
Proof. unfold valid_key, INDEX, NUMROWS. lia. Qed.

Lemma INDEX_inj (k1 k2 : key) :
  valid_key k1 → valid_key k2 → INDEX k1.1 k1.2 = INDEX k2.1 k2.2 → k1 = k2.
Proof.
  destruct k1 as [x1 y1], k2 as [x2 y2]. unfold valid_key, INDEX, NUMROWS. simpl.
  intros ? ? ?. f_equal; lia.
Qed.

Lemma uint16_range (z : Z) : 0 ≤ uint16 z < 65536.
Proof. unfold uint16. apply Z.mod_pos_bound. lia. Qed.

Lemma uint16_small (z : Z) : 0 ≤ z < 65536 → uint16 z = z.
Proof. intros. unfold uint16. by apply Z.mod_small. Qed.

Lemma uint16_land (a b : Z) : 0 ≤ a < 65536 → uint16 (Z.land a b) = Z.land a b.
Proof.
  intros Ha. unfold uint16. change 65536 with (2 ^ 16).
  rewrite <- Z.land_ones by lia.
  rewrite <- Z.land_assoc, (Z.land_comm b), Z.land_assoc.
  rewrite (Z.land_ones a) by lia. by rewrite Z.mod_small.
Qed.

Lemma uint16_lor (a b : Z) :
  0 ≤ a < 65536 → 0 ≤ b < 65536 → uint16 (Z.lor a b) = Z.lor a b.
Proof.
  intros Ha Hb. unfold uint16. change 65536 with (2 ^ 16).
  rewrite <- Z.land_ones by lia. rewrite Z.land_lor_distr_l.
  rewrite !Z.land_ones by lia. by rewrite !Z.mod_small.
Qed.

Lemma zget_zupd_proj {A B} `{Inhabited A} (g : A → B) (l : list A) (i j : Z)
    (f : A → A) :
  (∀ a, g (f a) = g a) → g (zget (zupd l i f) j) = g (zget l j).
Proof.
  intros Hg. destruct (Z.ltb_spec j 0) as [Hneg|Hpos].
  - unfold zget. by destruct (Z.ltb_spec j 0); [|lia].
  - rewrite zget_zupd by done. case_decide; [apply Hg|done].
Qed.

Lemma same_clues_refl (s : SudokuStateObject) : same_clues s s.
Proof. by repeat split. Qed.

Lemma same_clues_trans (s1 s2 s3 : SudokuStateObject) :
  same_clues s1 s2 → same_clues s2 s3 → same_clues s1 s3.
Proof.
  intros (A1 & A2 & A3 & A4 & A5 & A6 & A7 & A8 & A9 & A10)
         (B1 & B2 & B3 & B4 & B5 & B6 & B7 & B8 & B9 & B10).
  split_and!; try congruence; intros q; by rewrite ?B8, ?B9, ?B10.
Qed.

Lemma same_clues_hits (s s' : SudokuStateObject) (k : key) (h : Z) :
  same_clues s s' → hits s' k h = hits s k h.
Proof.
  intros (_ & _ & _ & _ & _ & _ & _ & _ & Hg & _). rewrite !hits_unfold.
  by rewrite (Hg k).
Qed.

Lemma same_clues_solved_at (s s' : SudokuStateObject) (k : key) :
  same_clues s s' → solved_at s' k = solved_at s k.
Proof.
  intros (_ & _ & _ & _ & _ & _ & _ & Hv & _). specialize (Hv k).
  unfold solved_at, CELL_FILLED. unfold value_at in Hv. by rewrite Hv.
Qed.

(** Storing a candidate mask. *)
Lemma set_CELL_CANDS_spec (s : SudokuStateObject) (x y v : Z) :
  let s' := set_CELL_CANDS s x y v in
  same_clues s s' ∧ ss_houses s' = ss_houses s
  ∧ (wf_state s → wf_state s')
  ∧ (wf_state s → valid_key (x, y) → ∀ k, valid_key k →
       cands_at s' k = if decide (k = (x, y)) then uint16 v else cands_at s k).
Proof.
  unfold set_CELL_CANDS. cbn zeta. split_and!.
  - split_and!; try done.
    + intros k. unfold value_at, CELL_VALUE. cbn [ss_grid set_ss_grid].
      by apply (zget_zupd_proj ci_value).
    + intros k. unfold CELL_GROUP. cbn [ss_grid set_ss_grid].
      by apply (zget_zupd_proj ci_group).
  - done.
  - intros [Hg Hh Hc Hd Hcells]. split; cbn [ss_grid ss_houses ss_digits set_ss_grid];
      try done.
    + by rewrite length_zupd.
    + apply Forall_zupd; [done|]. intros c [Hv _]. cbn. split; [done|].
      apply uint16_range.
  - intros Hwf Hxy k Hk. unfold cands_at, CELL_CANDS. cbn [ss_grid set_ss_grid].
    pose proof (INDEX_range k Hk). pose proof (INDEX_range (x, y) Hxy) as Hxyr.
    cbn [fst snd] in Hxyr.
    rewrite zget_zupd by lia. destruct (decide (k = (x, y))) as [->|Hne].
    + cbn [fst snd]. rewrite decide_True; [done|].
      split; [done|]. rewrite (wf_grid s Hwf). lia.
    + rewrite decide_False; [done|]. intros [Heq _]. apply Hne.
      by apply INDEX_inj.
Qed.

(** The adjust loops keep the clues and the shape of the state. *)
Lemma house_adjust_cand_count_same (delta x y set : Z) (s : SudokuStateObject) :
  let s' := for_loop 0 NUMROWS (house_adjust_cand_count_step delta x y set) s in
  same_clues s s' ∧ ss_grid s' = ss_grid s ∧ (wf_state s → wf_state s').
Proof.
  pose proof (house_adjust_cand_count_spec delta x y set s)
    as (_ & G1 & G2 & G3 & G4 & G5 & G6 & G7 & G8 & G9 & G10).
  cbn zeta. split_and!; try done.
  - split_and!; try done.
    + intros k. unfold value_at. by rewrite G1.
    + intros k. unfold CELL_GROUP. by rewrite G1.
  - intros [Hg Hh Hc Hd Hcells]. destruct G10 as [G10a G10b]; [by split|].
    split; congruence.
Qed.

Lemma has_digit_0 (d : Z) : has_digit 0 d = 0.
Proof. unfold has_digit. by rewrite Z.bits_0. Qed.

(** [remove_candidates_entry]: the candidate counters of the houses of the
    cell go down by the digits of [rem ∩ old], the mask of the cell becomes
    [old & ¬rem], nothing else changes. *)
Lemma remove_candidates_entry_spec (s : SudokuStateObject) (x y rem : Z) :
  wf_state s → valid_key (x, y) →
  let s' := remove_candidates_entry s x y rem in
  wf_state s' ∧ same_clues s s'
  ∧ (∀ k, valid_key k →
       cands_at s' k = if decide (k = (x, y))
                       then Z.land (cands_at s (x, y)) (Z.lnot rem)
                       else cands_at s k)
  ∧ (∀ h d, 0 ≤ h < 27 → 0 ≤ d < 9 →
       cand_count s' h d
       = cand_count s h d
         - has_digit (Z.land rem (cands_at s (x, y))) d * hits s (x, y) h).
Proof.
  intros Hwf Hxy. unfold remove_candidates_entry. cbn zeta.
  set (old := CELL_CANDS (ss_grid s) x y).
  set (ns := uint16 (Z.land rem (Z.lnot (Z.land rem old)))).
  set (s1 := if negb (ns =? 0) then house_adjust_cand_count_up s x y ns else s).
  set (s2 := house_adjust_cand_count_down s1 x y rem).
  (* the first adjustment *)
  assert (same_clues s s1 ∧ ss_grid s1 = ss_grid s ∧ wf_state s1
          ∧ ∀ h d, 0 ≤ h < 27 → 0 ≤ d < 9 →
              cand_count s1 h d
              = cand_count s h d + has_digit ns d * hits s (x, y) h)
    as (Hc1 & Hg1 & Hwf1 & Hn1).
  { unfold s1. destruct (Z.eqb_spec ns 0) as [Hns|Hns]; cbn [negb].
    - split_and!; try done; try apply same_clues_refl.
      intros h d _ _. rewrite Hns, has_digit_0. lia.
    - pose proof (house_adjust_cand_count_same 1 x y ns s) as (? & ? & Hw).
      pose proof (house_adjust_cand_count_spec 1 x y ns s) as [Hn _].
      split_and!; try done; try (by apply Hw).
      intros h d Hh Hd. unfold house_adjust_cand_count_up.
      rewrite Hn; [lia | by apply wf_state_houses_wf | done | done]. }
  (* the second adjustment *)
  pose proof (house_adjust_cand_count_same (-1) x y rem s1) as (Hc2 & Hg2 & Hwf2).
  pose proof (house_adjust_cand_count_spec (-1) x y rem s1) as [Hn2 _].
  fold (house_adjust_cand_count_down s1 x y rem) in Hc2, Hg2, Hwf2, Hn2.
  fold s2 in Hc2, Hg2, Hwf2, Hn2. specialize (Hwf2 Hwf1).
  specialize (Hn2 (wf_state_houses_wf _ Hwf1)).
  (* the store *)
  match goal with |- context [set_CELL_CANDS s2 x y ?v] =>
    pose proof (set_CELL_CANDS_spec s2 x y v) as (Hc3 & Hh3 & Hwf3 & Hcands3) end.
  cbn zeta in Hc3, Hh3, Hwf3, Hcands3.
  assert (CELL_CANDS (ss_grid s2) x y = old) as Hold.
  { unfold old. by rewrite Hg2, Hg1. }
  assert (0 ≤ old < 65536) as Hold_range.
  { pose proof (INDEX_range (x, y) Hxy) as Hr. cbn [fst snd] in Hr.
    pose proof (wf_cells s Hwf) as Hcells. rewrite Forall_forall in Hcells.
    apply (Hcells (zget (ss_grid s) (INDEX x y))).
    apply zget_elem_of; [lia|]. rewrite (wf_grid s Hwf). lia. }
  split_and!.
  - by apply Hwf3.
  - eapply same_clues_trans; [|apply Hc3]. by eapply same_clues_trans.
  - intros k Hk. rewrite (Hcands3 Hwf2 Hxy k Hk). rewrite Hold.
    destruct (decide (k = (x, y))); [by apply uint16_land|].
    unfold cands_at. by rewrite Hg2, Hg1.
  - intros h d Hh Hd. unfold cand_count at 1. rewrite Hh3.
    fold (cand_count s2 h d). rewrite Hn2, Hn1 by done.
    rewrite (same_clues_hits s s1) by done.
    assert (has_digit ns d - has_digit rem d
            = - has_digit (Z.land rem (cands_at s (x, y))) d) as Hbits.
    { unfold has_digit, ns, uint16, cands_at. cbn [fst snd]. fold old.
      change 65536 with (2 ^ 16). rewrite Z.mod_pow2_bits_low by lia.
      rewrite !Z.land_spec, Z.lnot_spec, Z.land_spec by lia.
      destruct (Z.testbit rem d), (Z.testbit old d); done. }
    nia.
Qed.

(** [add_candidates_entry]: the candidate counters of the houses of the cell
    go up by the digits of [add \ old], the mask of the cell becomes
    [old | add], nothing else changes. *)
Lemma add_candidates_entry_spec (s : SudokuStateObject) (x y add : Z) :
  wf_state s → valid_key (x, y) → 0 ≤ add < 65536 →
  let s' := add_candidates_entry s x y add in
  wf_state s' ∧ same_clues s s'
  ∧ (∀ k, valid_key k →
       cands_at s' k = if decide (k = (x, y))
                       then Z.lor (cands_at s (x, y)) add
                       else cands_at s k)
  ∧ (∀ h d, 0 ≤ h < 27 → 0 ≤ d < 9 →
       cand_count s' h d
       = cand_count s h d
         + has_digit (Z.land add (Z.lnot (cands_at s (x, y)))) d * hits s (x, y) h).
Proof.
  intros Hwf Hxy Hadd. unfold add_candidates_entry. cbn zeta.
  set (old := CELL_CANDS (ss_grid s) x y).
  set (s1 := if negb (Z.land add old =? 0)
             then house_adjust_cand_count_down s x y (Z.land add old) else s).
  set (s2 := house_adjust_cand_count_up s1 x y add).
  assert (same_clues s s1 ∧ ss_grid s1 = ss_grid s ∧ wf_state s1
          ∧ ∀ h d, 0 ≤ h < 27 → 0 ≤ d < 9 →
              cand_count s1 h d
              = cand_count s h d - has_digit (Z.land add old) d * hits s (x, y) h)
    as (Hc1 & Hg1 & Hwf1 & Hn1).
  { unfold s1. destruct (Z.eqb_spec (Z.land add old) 0) as [Hns|Hns]; cbn [negb].
    - split_and!; try done; try apply same_clues_refl.
      intros h d _ _. rewrite Hns, has_digit_0. lia.
    - pose proof (house_adjust_cand_count_same (-1) x y (Z.land add old) s)
        as (? & ? & Hw).
      pose proof (house_adjust_cand_count_spec (-1) x y (Z.land add old) s) as [Hn _].
      split_and!; try done; try (by apply Hw).
      intros h d Hh Hd. unfold house_adjust_cand_count_down.
      rewrite Hn; [lia | by apply wf_state_houses_wf | done | done]. }
  pose proof (house_adjust_cand_count_same 1 x y add s1) as (Hc2 & Hg2 & Hwf2).
  pose proof (house_adjust_cand_count_spec 1 x y add s1) as [Hn2 _].
  fold (house_adjust_cand_count_up s1 x y add) in Hc2, Hg2, Hwf2, Hn2.
  fold s2 in Hc2, Hg2, Hwf2, Hn2. specialize (Hwf2 Hwf1).
  specialize (Hn2 (wf_state_houses_wf _ Hwf1)).
  match goal with |- context [set_CELL_CANDS s2 x y ?v] =>
    pose proof (set_CELL_CANDS_spec s2 x y v) as (Hc3 & Hh3 & Hwf3 & Hcands3) end.
  cbn zeta in Hc3, Hh3, Hwf3, Hcands3.
  assert (CELL_CANDS (ss_grid s2) x y = old) as Hold.
  { unfold old. by rewrite Hg2, Hg1. }
  assert (0 ≤ old < 65536) as Hold_range.
  { pose proof (INDEX_range (x, y) Hxy) as Hr. cbn [fst snd] in Hr.
    pose proof (wf_cells s Hwf) as Hcells. rewrite Forall_forall in Hcells.
    apply (Hcells (zget (ss_grid s) (INDEX x y))).
    apply zget_elem_of; [lia|]. rewrite (wf_grid s Hwf). lia. }
  split_and!.
  - by apply Hwf3.
  - eapply same_clues_trans; [|apply Hc3]. by eapply same_clues_trans.
  - intros k Hk. rewrite (Hcands3 Hwf2 Hxy k Hk). rewrite Hold.
    destruct (decide (k = (x, y))); [by apply uint16_lor|].
    unfold cands_at. by rewrite Hg2, Hg1.
  - intros h d Hh Hd. unfold cand_count at 1. rewrite Hh3.
    fold (cand_count s2 h d). rewrite Hn2, Hn1 by done.
    rewrite (same_clues_hits s s1) by done.
    assert (has_digit add d - has_digit (Z.land add old) d
            = has_digit (Z.land add (Z.lnot (cands_at s (x, y)))) d) as Hbits.
    { unfold has_digit, cands_at. cbn [fst snd]. fold old.
      rewrite !Z.land_spec, Z.lnot_spec by lia.
      destruct (Z.testbit add d), (Z.testbit old d); done. }
    nia.
Qed.

(** * add_candidates and remove_candidates *)

Lemma sum_over_ext {A} (f g : A → Z) (l : list A) :
  (∀ a, a ∈ l → f a = g a) → sum_over f l = sum_over g l.
Proof.
  induction l as [|a l IH]; intros Hfg; simpl; [done|].
  rewrite Hfg by left. rewrite IH; [done|]. intros b Hb. apply Hfg. by right.
Qed.

Lemma sum_over_zero {A} (f : A → Z) (l : list A) :
  (∀ a, a ∈ l → f a = 0) → sum_over f l = 0.
Proof.
  induction l as [|a l IH]; intros Hf; simpl; [done|].
  rewrite Hf by left. rewrite IH; [done|]. intros b Hb. apply Hf. by right.
Qed.

Lemma valid_change_cons (s : SudokuStateObject) (k : key) (v : pyobject)
    (rest : list (key * pyobject)) :
  valid_change s ((k, v) :: rest) →
  valid_key k ∧ solved_at s k = false ∧ (∃ c, v = PyCandidateSet c ∧ cs_ok c)
  ∧ (k ∉ rest.*1) ∧ valid_change s rest.
Proof.
  intros [Hnd Hall]. rewrite fmap_cons in Hnd. apply NoDup_cons in Hnd as [Hk Hnd].
  apply Forall_cons in Hall as [Hhead Hall]. cbn [fst snd] in Hhead, Hk.
  destruct Hhead as (? & ? & ?). by split_and!.
Qed.

(** A change that is valid stays valid while other cells lose or gain
    candidates. *)
Lemma valid_change_same_clues (s s' : SudokuStateObject)
    (change : list (key * pyobject)) :
  same_clues s s' → valid_change s change → valid_change s' change.
Proof.
  intros Hsame [Hnd Hall]. split; [done|].
  eapply Forall_impl; [exact Hall|]. intros e (? & ? & ?).
  split_and!; try done. by rewrite (same_clues_solved_at s s').
Qed.

Lemma emptied_by_ext (s s' : SudokuStateObject) (change : list (key * pyobject)) :
  (∀ k, k ∈ change.*1 → cands_at s' k = cands_at s k) →
  emptied_by s' change = emptied_by s change.
Proof.
  unfold emptied_by. induction change as [|[k v] rest IH]; intros Hc; [done|].
  rewrite !filter_cons. cbn [fst snd]. rewrite (Hc k) by (rewrite fmap_cons; left).
  rewrite fmap_cons in Hc.
  case_decide; rewrite ?fmap_cons, IH; try done; intros k' Hk'; apply Hc; by right.
Qed.

Lemma emptied_by_cons (s : SudokuStateObject) (k : key) (v : pyobject)
    (rest : list (key * pyobject)) :
  emptied_by s ((k, v) :: rest)
  = if decide (Z.land (cands_at s k) (Z.lnot (set_of v)) = 0)
    then k :: emptied_by s rest else emptied_by s rest.
Proof. unfold emptied_by. rewrite filter_cons. cbn [fst snd]. by case_decide. Qed.

(** The loop of remove_candidates on a valid change. *)
Lemma data_State_remove_candidates_loop_spec (change : list (key * pyobject)) :
  ∀ (s : SudokuStateObject) (raise : option (Z * Z)),
  wf_state s → valid_change s change →
  ∃ s',
    data_State_remove_candidates_loop s change raise
    = (s', Ok (match last (emptied_by s change) with
               | Some k => Some k
               | None => raise
               end))
    ∧ wf_state s' ∧ same_clues s s'
    ∧ (∀ k v, (k, v) ∈ change →
         cands_at s' k = Z.land (cands_at s k) (Z.lnot (set_of v)))
    ∧ (∀ k, valid_key k → k ∉ (change.*1) → cands_at s' k = cands_at s k)
    ∧ (∀ h d, 0 ≤ h < 27 → 0 ≤ d < 9 →
         cand_count s' h d
         = cand_count s h d
           - sum_over (λ e, has_digit (Z.land (set_of e.2) (cands_at s e.1)) d
                            * hits s e.1 h) change).
Proof.
  induction change as [|[k v] rest IH]; intros s raise Hwf Hvalid.
  - exists s. cbn. split_and!; try done; try apply same_clues_refl.
    + by intros k v ?%elem_of_nil.
    + intros. lia.
  - apply valid_change_cons in Hvalid as (Hk & Hunsolved & (c & -> & Hc) & Hnotin & Hrest).
    destruct k as [x y].
    pose proof (remove_candidates_entry_spec s x y (cs_set c) Hwf Hk)
      as (Hwf1 & Hsame1 & Hcands1 & Hcount1).
    cbn zeta in Hwf1, Hsame1, Hcands1, Hcount1.
    set (s1 := remove_candidates_entry s x y (cs_set c)) in *.
    assert (∀ k', k' ∈ rest.*1 → cands_at s1 k' = cands_at s k') as Hother.
    { intros k' Hk'. destruct Hrest as [_ Hall]. rewrite Forall_forall in Hall.
      apply list_elem_of_fmap in Hk' as ([k'' v'] & -> & Hin). cbn [fst].
      destruct (Hall _ Hin) as (Hvk & _). cbn [fst] in Hvk.
      rewrite (Hcands1 k'' Hvk). rewrite decide_False; [done|].
      intros ->. apply Hnotin. apply list_elem_of_fmap. by exists ((x, y), v'). }
    destruct (IH s1 (if CELL_CANDS (ss_grid s1) x y =? 0 then Some (x, y) else raise)
                 Hwf1 (valid_change_same_clues s s1 rest Hsame1 Hrest))
      as (s' & Hloop & Hwf' & Hsame' & HA & HB & HC).
    exists s'. split_and!.
    + cbn [data_State_remove_candidates_loop]. rewrite UNPACK_KEY_valid by done.
      unfold solved_at in Hunsolved. cbn [fst snd] in Hunsolved. rewrite Hunsolved.
      fold s1. rewrite Hloop. do 2 f_equal.
      rewrite (emptied_by_ext s s1) by done.
      rewrite emptied_by_cons. cbn [set_of].
      change (CELL_CANDS (ss_grid s1) x y) with (cands_at s1 (x, y)).
      rewrite (Hcands1 (x, y) Hk), decide_True by done.
      destruct (Z.eqb_spec (Z.land (cands_at s (x, y)) (Z.lnot (cs_set c))) 0)
        as [Hz|Hz].
      * rewrite decide_True by done. rewrite last_cons.
        by destruct (last (emptied_by s rest)).
      * by rewrite decide_False by done.
    + done.
    + by eapply same_clues_trans.
    + intros k' v' [[= -> ->]|Hin]%elem_of_cons.
      * rewrite HB; [|done|done]. rewrite (Hcands1 (x, y) Hk). by rewrite decide_True.
      * rewrite (HA k' v' Hin). rewrite Hother; [done|].
        apply list_elem_of_fmap. by exists (k', v').
    + intros k' Hk' Hnotin'. rewrite fmap_cons in Hnotin'.
      apply not_elem_of_cons in Hnotin' as [Hne Hnotin'].
      rewrite HB by done. rewrite (Hcands1 k' Hk'). by rewrite decide_False.
    + intros h d Hh Hd. rewrite HC, Hcount1 by done. cbn [sum_over foldr fst snd set_of].
      fold (sum_over (λ e, has_digit (Z.land (set_of e.2) (cands_at s e.1)) d
                           * hits s e.1 h) rest).
      rewrite (sum_over_ext
                 (λ e, has_digit (Z.land (set_of e.2) (cands_at s1 e.1)) d * hits s1 e.1 h)
                 (λ e, has_digit (Z.land (set_of e.2) (cands_at s e.1)) d * hits s e.1 h)).
      * lia.
      * intros [k' v'] Hin. cbn [fst snd].
        rewrite (same_clues_hits s s1) by done. rewrite Hother; [done|].
        apply list_elem_of_fmap. by exists (k', v').
Qed.

(** C2: remove_candidates on a change whose keys are valid keys of unsolved
    cells and whose values are CandidateSets.  For each entry the cell mask
    becomes [old & ¬rem] and the counters of the houses of the cell go down
    by the digits of [rem ∩ old]; every entry is processed, also after a
    cell has been emptied; the outcome is Contradiction at the last emptied
    cell if there is one, and the state returned with it carries all the
    removals. *)
Theorem remove_candidates_spec (s : SudokuStateObject) (change : list (key * pyobject)) :
  wf_state s → valid_change s change →
  ∃ s',
    data_State_remove_candidates s change = (s', remove_outcome s change)
    ∧ (∀ k v, (k, v) ∈ change →
         cands_at s' k = Z.land (cands_at s k) (Z.lnot (set_of v)))
    ∧ (∀ k, valid_key k → k ∉ (change.*1) → cands_at s' k = cands_at s k)
    ∧ (∀ h d, 0 ≤ h < 27 → 0 ≤ d < 9 →
         cand_count s' h d
         = cand_count s h d
           - sum_over (λ e, has_digit (Z.land (set_of e.2) (cands_at s e.1)) d
                            * hits s e.1 h) change)
    ∧ same_clues s s' ∧ wf_state s'.
Proof.
  intros Hwf Hvalid.
  destruct (data_State_remove_candidates_loop_spec change s None Hwf Hvalid)
    as (s' & Hloop & Hwf' & Hsame & HA & HB & HC).
  exists s'. split_and!; try done.
  unfold data_State_remove_candidates, remove_outcome. rewrite Hloop.
  by destruct (last (emptied_by s change)) as [[rx ry]|].
Qed.

(** The loop of add_candidates on a valid change. *)
Lemma data_State_add_candidates_spec (change : list (key * pyobject)) :
  ∀ s : SudokuStateObject,
  wf_state s → valid_change s change →
  ∃ s',
    data_State_add_candidates s change = (s', Ok tt)
    ∧ wf_state s' ∧ same_clues s s'
    ∧ (∀ k v, (k, v) ∈ change → cands_at s' k = Z.lor (cands_at s k) (set_of v))
    ∧ (∀ k, valid_key k → k ∉ change.*1 → cands_at s' k = cands_at s k)
    ∧ (∀ h d, 0 ≤ h < 27 → 0 ≤ d < 9 →
         cand_count s' h d
         = cand_count s h d
           + sum_over (λ e, has_digit (Z.land (set_of e.2) (Z.lnot (cands_at s e.1))) d
                            * hits s e.1 h) change).
Proof.
  induction change as [|[k v] rest IH]; intros s Hwf Hvalid.
  - exists s. cbn. split_and!; try done; try apply same_clues_refl.
    + by intros k v ?%elem_of_nil.
    + intros. lia.
  - apply valid_change_cons in Hvalid as (Hk & Hunsolved & (c & -> & Hc) & Hnotin & Hrest).
    destruct k as [x y].
    assert (0 ≤ cs_set c < 65536) as Hrange by (unfold cs_ok, TERMS in Hc; lia).
    pose proof (add_candidates_entry_spec s x y (cs_set c) Hwf Hk Hrange)
      as (Hwf1 & Hsame1 & Hcands1 & Hcount1).
    cbn zeta in Hwf1, Hsame1, Hcands1, Hcount1.
    set (s1 := add_candidates_entry s x y (cs_set c)) in *.
    assert (∀ k', k' ∈ rest.*1 → cands_at s1 k' = cands_at s k') as Hother.
    { intros k' Hk'. destruct Hrest as [_ Hall]. rewrite Forall_forall in Hall.
      apply list_elem_of_fmap in Hk' as ([k'' v'] & -> & Hin). cbn [fst].
      destruct (Hall _ Hin) as (Hvk & _). cbn [fst] in Hvk.
      rewrite (Hcands1 k'' Hvk). rewrite decide_False; [done|].
      intros ->. apply Hnotin. apply list_elem_of_fmap. by exists ((x, y), v'). }
    destruct (IH s1 Hwf1 (valid_change_same_clues s s1 rest Hsame1 Hrest))
      as (s' & Hloop & Hwf' & Hsame' & HA & HB & HC).
    exists s'. split_and!.
    + cbn [data_State_add_candidates]. rewrite UNPACK_KEY_valid by done.
      unfold solved_at in Hunsolved. cbn [fst snd] in Hunsolved. rewrite Hunsolved.
      by fold s1.
    + done.
    + by eapply same_clues_trans.
    + intros k' v' [[= -> ->]|Hin]%elem_of_cons.
      * rewrite HB; [|done|done]. rewrite (Hcands1 (x, y) Hk). by rewrite decide_True.
      * rewrite (HA k' v' Hin). rewrite Hother; [done|].
        apply list_elem_of_fmap. by exists (k', v').
    + intros k' Hk' Hnotin'. rewrite fmap_cons in Hnotin'.
      apply not_elem_of_cons in Hnotin' as [Hne Hnotin'].
      rewrite HB by done. rewrite (Hcands1 k' Hk'). by rewrite decide_False.
    + intros h d Hh Hd. rewrite HC, Hcount1 by done. cbn [sum_over foldr fst snd set_of].
      fold (sum_over (λ e, has_digit (Z.land (set_of e.2) (Z.lnot (cands_at s e.1))) d
                           * hits s e.1 h) rest).
      rewrite (sum_over_ext
                 (λ e, has_digit (Z.land (set_of e.2) (Z.lnot (cands_at s1 e.1))) d
                       * hits s1 e.1 h)
                 (λ e, has_digit (Z.land (set_of e.2) (Z.lnot (cands_at s e.1))) d
                       * hits s e.1 h)).
      * lia.
      * intros [k' v'] Hin. cbn [fst snd].
        rewrite (same_clues_hits s s1) by done. rewrite Hother; [done|].
        apply list_elem_of_fmap. by exists (k', v').
Qed.

(** C4: add_candidates on a change whose keys are valid keys of unsolved
    cells and whose values are CandidateSets never fails.  For each entry
    the cell mask becomes [old | add] and the counters of the houses of the
    cell go up by the digits of [add \ old].  Hence a change that re-adds
    candidates already present leaves every cell mask and every house
    counter as it was. *)
Theorem add_candidates_spec (s : SudokuStateObject) (change : list (key * pyobject)) :
  wf_state s → valid_change s change →
  ∃ s',
    data_State_add_candidates s change = (s', Ok tt)
    ∧ (∀ k v, (k, v) ∈ change → cands_at s' k = Z.lor (cands_at s k) (set_of v))
    ∧ (∀ k, valid_key k → k ∉ change.*1 → cands_at s' k = cands_at s k)
    ∧ (∀ h d, 0 ≤ h < 27 → 0 ≤ d < 9 →
         cand_count s' h d
         = cand_count s h d
           + sum_over (λ e, has_digit (Z.land (set_of e.2) (Z.lnot (cands_at s e.1))) d
                            * hits s e.1 h) change)
    ∧ same_clues s s' ∧ wf_state s'
    ∧ ((∀ k v, (k, v) ∈ change → Z.lor (set_of v) (cands_at s k) = cands_at s k) →
       (∀ k, valid_key k → cands_at s' k = cands_at s k)
       ∧ (∀ h d, 0 ≤ h < 27 → 0 ≤ d < 9 → cand_count s' h d = cand_count s h d)).
Proof.
  intros Hwf Hvalid.
  destruct (data_State_add_candidates_spec change s Hwf Hvalid)
    as (s' & Hloop & Hwf' & Hsame & HA & HB & HC).
  exists s'. split_and!; try done.
  intros Hsub. split.
  - intros k Hk. destruct (decide (k ∈ change.*1)) as [Hin|Hnotin].
    + apply list_elem_of_fmap in Hin as ([k' v] & -> & Hin). cbn [fst].
      rewrite (HA k' v Hin). rewrite Z.lor_comm. by apply Hsub.
    + by apply HB.
  - intros h d Hh Hd. rewrite HC by done. rewrite sum_over_zero; [lia|].
    intros [k v] Hin. cbn [fst snd]. specialize (Hsub k v Hin).
    assert (has_digit (Z.land (set_of v) (Z.lnot (cands_at s k))) d = 0) as ->; [|lia].
    unfold has_digit. rewrite Z.land_spec, Z.lnot_spec by lia.
    assert (Z.testbit (Z.lor (set_of v) (cands_at s k)) d = Z.testbit (cands_at s k) d)
      as Hbit by (by rewrite Hsub).
    rewrite Z.lor_spec in Hbit.
    by destruct (Z.testbit (set_of v) d), (Z.testbit (cands_at s k) d).
Qed.

Lemma wf_state_state_E1 : wf_state state_E1.
Proof. split; compute_done. Qed.

Lemma wf_state_state_empty : wf_state state_empty.
Proof. split; compute_done. Qed.

Lemma remove_candidates_spec_witness :
  ∃ s',
    data_State_remove_candidates state_empty
      [((0, 0), PyCandidateSet (build_set 511));
       ((0, 1), PyCandidateSet (build_set 1));
       ((0, 2), PyCandidateSet (build_set 511))]
    = (s', Err (Contradiction 0 2))
    ∧ cands_at s' (0, 0) = 0 ∧ cands_at s' (0, 1) = 510 ∧ cands_at s' (0, 2) = 0
    ∧ cand_count s' 18 0 = 6 ∧ cand_count s' 18 1 = 7.
Proof.
  set (change := [((0, 0), PyCandidateSet (build_set 511));
                  ((0, 1), PyCandidateSet (build_set 1));
                  ((0, 2), PyCandidateSet (build_set 511))]).
  assert (valid_change state_empty change) as Hvalid.
  { split; [compute_done|]. repeat constructor; try compute_done; by eexists. }
  destruct (remove_candidates_spec state_empty change wf_state_state_empty Hvalid)
    as (s' & Hcall & HA & _ & HC & _).
  exists s'. split; [exact Hcall|].
  split.
  { rewrite (HA (0, 0) (PyCandidateSet (build_set 511))) by (by left).
    vm_compute. reflexivity. }
  split.
  { rewrite (HA (0, 1) (PyCandidateSet (build_set 1))) by (right; by left).
    vm_compute. reflexivity. }
  split.
  { rewrite (HA (0, 2) (PyCandidateSet (build_set 511))) by (right; right; by left).
    vm_compute. reflexivity. }
  split; rewrite HC by lia; vm_compute; reflexivity.
Defined.

Lemma add_candidates_spec_witness :
  ∃ s',
    data_State_add_candidates state_E1 [((0, 2), PyCandidateSet (build_set 24))]
    = (s', Ok tt)
    ∧ cands_at s' (0, 2) = cands_at state_E1 (0, 2)
    ∧ cand_count s' 18 3 = cand_count state_E1 18 3.
Proof.
  assert (valid_change state_E1 [((0, 2), PyCandidateSet (build_set 24))]) as Hvalid.
  { split; [compute_done|]. repeat constructor; try compute_done; by eexists. }
  destruct (add_candidates_spec state_E1 _ wf_state_state_E1 Hvalid)
    as (s' & Hcall & _ & _ & _ & _ & _ & Hidem).
  exists s'. split; [exact Hcall|].
  destruct Hidem as [Hc Hn].
  { intros k v [= -> ->]%list_elem_of_singleton. vm_compute. reflexivity. }
  split; [apply Hc; compute_done | apply Hn; lia].
Defined.

(** * order_random *)

Lemma unsolved_indices_spec (grid : list cell_info) (k : Z) :
  k ∈ unsolved_indices grid ↔ 0 ≤ k < 81 ∧ cell_unsolved_at grid k = true.
Proof.
  unfold unsolved_indices. rewrite list_elem_of_In, List.filter_In.
  rewrite <- list_elem_of_In, elem_of_seqZ. unfold GRIDSIZE. intuition lia.
Qed.

Lemma NoDup_unsolved_indices (grid : list cell_info) : NoDup (unsolved_indices grid).
Proof.
  unfold unsolved_indices. apply NoDup_ListNoDup, List.NoDup_filter.
  apply NoDup_ListNoDup, NoDup_seqZ.
Qed.

Lemma length_emitted (grid : list cell_info) (size : Z) (p : probe) :
  probe_inv grid size p → length (emitted p) = Z.to_nat (pr_found p).
Proof.
  intros Hinv. unfold emitted. rewrite length_take.
  pose proof (pi_data _ _ _ Hinv). pose proof (pi_found _ _ _ Hinv). lia.
Qed.

(** The keys written so far are unsolved cells. *)
Lemma emitted_unsolved (grid : list cell_info) (size : Z) (p : probe) (k : Z) :
  probe_inv grid size p → k ∈ emitted p → k ∈ unsolved_indices grid.
Proof.
  intros Hinv Hk. apply unsolved_indices_spec.
  apply (pi_emitted _ _ _ Hinv) in Hk as (? & ? & _). done.
Qed.

Lemma probe_key_inv (grid : list cell_info) (size : Z) (p : probe) (k : Z) :
  0 ≤ k < 128 → probe_inv grid size p → probe_inv grid size (probe_key p k).
Proof. intros Hk [? ? ? ? ? ?]. by split. Qed.

(** Marking a solved cell that was not seen. *)
Lemma probe_mark_inv (grid : list cell_info) (size : Z) (p : probe) :
  probe_inv grid size p → 0 ≤ pr_key p < 81 →
  cell_unsolved_at grid (pr_key p) = false →
  probe_inv grid size (probe_mark p).
Proof.
  intros [Hkey Hseen Hdata Hfound Hnd Hem] Hk Hsolved.
  split; cbn [probe_mark pr_key pr_seen pr_found pr_data]; try done.
  - by rewrite length_zupd.
  - intros k. change (emitted (probe_mark p)) with (emitted p). rewrite Hem.
    destruct (decide (k = pr_key p)) as [->|Hne].
    + rewrite Hsolved. split; [by intros (_ & ? & _)|by intros (_ & ? & _)].
    + by rewrite zget_zupd_ne by done.
Qed.

(** Marking and writing an unsolved cell that was not seen. *)
Lemma probe_emit_inv (grid : list cell_info) (size : Z) (p : probe) :
  size = Z.of_nat (length (unsolved_indices grid)) →
  probe_inv grid size p → 0 ≤ pr_key p < 81 →
  zget (pr_seen p) (pr_key p) = 0 →
  cell_unsolved_at grid (pr_key p) = true →
  probe_inv grid size (probe_emit (probe_mark p)).
Proof.
  intros Hsize Hinv Hk Hunseen Hunsolved.
  pose proof (length_emitted _ _ _ Hinv) as Hlen.
  destruct Hinv as [Hkey Hseen Hdata Hfound Hnd Hem].
  assert (pr_key p ∉ emitted p) as Hfresh.
  { intros Hin. apply Hem in Hin as (_ & _ & Hin). done. }
  assert (pr_found p < size) as Hlt.
  { assert (pr_key p :: emitted p ⊆+ unsolved_indices grid) as Hsub.
    { apply NoDup_submseteq; [by apply NoDup_cons|].
      intros k [->|Hin]%elem_of_cons.
      - by apply unsolved_indices_spec.
      - apply unsolved_indices_spec. apply Hem in Hin as (? & ? & _). done. }
    apply submseteq_length in Hsub. cbn [length] in Hsub. lia. }
  assert (emitted (probe_emit (probe_mark p)) = emitted p ++ [pr_key p]) as Hemit.
  { unfold emitted. cbn [probe_emit probe_mark pr_key pr_seen pr_found pr_data].
    unfold zupd. destruct (Z.ltb_spec (pr_found p) 0); [lia|].
    replace (Z.to_nat (pr_found p + 1)) with (S (Z.to_nat (pr_found p))) by lia.
    rewrite (take_S_r _ _ (pr_key p)).
    - by rewrite take_alter_ge by lia.
    - rewrite list_lookup_alter_eq.
      destruct (lookup_lt_is_Some_2 (pr_data p) (Z.to_nat (pr_found p))) as [x ->];
        [lia | done]. }
  split; rewrite ?Hemit;
    cbn [probe_emit probe_mark pr_key pr_seen pr_found pr_data]; try done.
  - by rewrite length_zupd.
  - by rewrite length_zupd.
  - lia.
  - apply NoDup_app. split_and!; [done | | apply NoDup_singleton].
    intros k Hin ->%list_elem_of_singleton. done.
  - intros k. rewrite elem_of_app, list_elem_of_singleton, Hem.
    destruct (decide (k = pr_key p)) as [->|Hne].
    + rewrite zget_zupd_eq by (rewrite ?Hseen; lia).
      split; [|by right]. intros _. done.
    + rewrite zget_zupd_ne by done. split; [by intros [?|?]|by left].
Qed.

(** One round of the walk keeps the invariant. *)
Lemma order_random_walk_step_inv (grid : list cell_info) (size : Z) (p : probe) :
  size = Z.of_nat (length (unsolved_indices grid)) →
  probe_inv grid size p → probe_inv grid size (order_random_walk_step grid p).
Proof.
  intros Hsize Hinv. unfold order_random_walk_step.
  assert (0 ≤ probe_next (pr_key p) < 128) as Hnext.
  { unfold probe_next. change 127 with (Z.ones 7). rewrite Z.land_ones by lia.
    apply Z.mod_pos_bound. lia. }
  fold (probe_next (pr_key p)).
  pose proof (probe_key_inv grid size p _ Hnext Hinv) as Hinv0.
  set (p0 := probe_key p (probe_next (pr_key p))) in *.
  destruct (Z.geb_spec (pr_key p0) 81) as [|Hlt]; [done|].
  destruct (Z.eqb_spec (zget (pr_seen p0) (pr_key p0)) 0) as [Hunseen|]; [|done].
  cbn [negb]. change (pr_key (probe_mark p0)) with (pr_key p0).
  assert (0 ≤ pr_key p0 < 81) as Hrange by (cbn in *; lia).
  destruct (Z.land (ci_value (zget grid (pr_key p0))) ERRORBIT =? 0) eqn:Hv.
  - apply probe_mark_inv; try done. unfold cell_unsolved_at. by rewrite Hv.
  - apply probe_emit_inv; try done. unfold cell_unsolved_at. by rewrite Hv.
Qed.

(** The first loop keeps the invariant. *)
Lemma order_random_tries_inv (grid : list cell_info) (size : Z) (tries idx : list Z)
    (p : probe) :
  size = Z.of_nat (length (unsolved_indices grid)) →
  probe_inv grid size p → probe_inv grid size (order_random_tries grid size tries idx p).
Proof.
  intros Hsize. revert p. induction idx as [|i idx IH]; intros p Hinv; [done|].
  cbn [order_random_tries].
  assert (0 ≤ Z.rem (uint8 (zget tries i)) GRIDSIZE < 81) as Hkey.
  { assert (0 ≤ uint8 (zget tries i) < 256) by (unfold uint8; apply Z.mod_pos_bound; lia).
    unfold GRIDSIZE. rewrite Z.rem_mod_nonneg by lia. apply Z.mod_pos_bound. lia. }
  remember (Z.rem (uint8 (zget tries i)) GRIDSIZE) as key0 eqn:Hkey0. clear Hkey0.
  pose proof (probe_key_inv grid size p key0 ltac:(lia) Hinv) as Hinv0.
  set (p0 := probe_key p key0) in *.
  destruct (Z.eqb_spec (zget (pr_seen p0) (pr_key p0)) 0) as [Hunseen|]; cbn [negb];
    [|by apply IH].
  change (pr_key (probe_mark p0)) with (pr_key p0).
  destruct (Z.land (ci_value (zget grid (pr_key p0))) ERRORBIT =? 0) eqn:Hv.
  - apply IH, probe_mark_inv; try done. unfold cell_unsolved_at. by rewrite Hv.
  - assert (probe_inv grid size (probe_emit (probe_mark p0))) as Hinv1.
    { apply probe_emit_inv; try done. unfold cell_unsolved_at. by rewrite Hv. }
    destruct (pr_found (probe_emit (probe_mark p0)) =? size); [done|by apply IH].
Qed.

Lemma order_random_walk_step_key (grid : list cell_info) (p : probe) :
  pr_key (order_random_walk_step grid p) = probe_next (pr_key p).
Proof.
  unfold order_random_walk_step.
  repeat match goal with |- context [if ?b then _ else _] => destruct b end; done.
Qed.

Lemma order_random_walk_step_seen (grid : list cell_info) (p : probe) (k : Z) :
  zget (pr_seen p) k ≠ 0 → zget (pr_seen (order_random_walk_step grid p)) k ≠ 0.
Proof.
  intros Hk. unfold order_random_walk_step.
  assert (zget (zupd (pr_seen p) (probe_next (pr_key p)) (λ _, 1)) k ≠ 0) as Hmark.
  { destruct (decide (probe_next (pr_key p) = k)) as [<-|Hne].
    - destruct (Z.ltb_spec (probe_next (pr_key p)) 0) as [Hneg|Hpos].
      + unfold zupd. by destruct (Z.ltb_spec (probe_next (pr_key p)) 0); [|lia].
      + rewrite zget_zupd by done. by case_decide.
    - by rewrite zget_zupd_ne. }
  repeat match goal with |- context [if ?b then _ else _] => destruct b end; done.
Qed.

(** After a round, the key it computed is marked if it is a cell. *)
Lemma order_random_walk_step_marks (grid : list cell_info) (size : Z) (p : probe) :
  probe_inv grid size p → probe_next (pr_key p) < 81 →
  zget (pr_seen (order_random_walk_step grid p)) (probe_next (pr_key p)) ≠ 0.
Proof.
  intros Hinv Hlt. unfold order_random_walk_step. fold (probe_next (pr_key p)).
  assert (0 ≤ probe_next (pr_key p)) as Hpos.
  { unfold probe_next. change 127 with (Z.ones 7). rewrite Z.land_ones by lia.
    apply Z.mod_pos_bound. lia. }
  cbn [probe_key pr_key pr_seen].
  destruct (Z.geb_spec (probe_next (pr_key p)) 81); [lia|].
  destruct (Z.eqb_spec (zget (pr_seen p) (probe_next (pr_key p))) 0); cbn [negb];
    [|done].
  assert (zget (zupd (pr_seen p) (probe_next (pr_key p)) (λ _, 1))
               (probe_next (pr_key p)) ≠ 0) as Hmark.
  { rewrite zget_zupd_eq; [done | done |]. rewrite (pi_seen _ _ _ Hinv). lia. }
  by destruct (Z.land _ ERRORBIT =? 0).
Qed.

Lemma order_random_walk_iter_seen (grid : list cell_info) (n : nat) (p : probe) (k : Z) :
  zget (pr_seen p) k ≠ 0 →
  zget (pr_seen (Nat.iter n (order_random_walk_step grid) p)) k ≠ 0.
Proof.
  intros Hk. induction n as [|n IH]; [done|].
  rewrite Nat.iter_succ. by apply order_random_walk_step_seen.
Qed.

(** After [n] rounds the invariant holds and the cells among the keys the
    recurrence has produced are marked. *)
Lemma order_random_walk_iter (grid : list cell_info) (size : Z) (n : nat) :
  size = Z.of_nat (length (unsolved_indices grid)) →
  ∀ p, probe_inv grid size p →
    probe_inv grid size (Nat.iter n (order_random_walk_step grid) p)
    ∧ ∀ k, k ∈ probe_orbit n (pr_key p) → k < 81 →
        zget (pr_seen (Nat.iter n (order_random_walk_step grid) p)) k ≠ 0.
Proof.
  intros Hsize. induction n as [|n IH]; intros p Hinv.
  - split; [done|]. by intros k ?%elem_of_nil.
  - rewrite Nat.iter_succ_r. cbn [probe_orbit].
    pose proof (order_random_walk_step_inv grid size p Hsize Hinv) as Hinv1.
    destruct (IH _ Hinv1) as [Hinvn Hseen]. split; [done|].
    intros k [->|Hin]%elem_of_cons Hlt.
    + apply order_random_walk_iter_seen. by eapply order_random_walk_step_marks.
    + apply Hseen; [|done]. by rewrite order_random_walk_step_key.
Qed.

(** The recurrence k ← (5k + 1) mod 128 visits every cell index within 128
    rounds, wherever it starts. *)
Lemma probe_orbit_covers (k0 t : Z) :
  0 ≤ k0 < 128 → 0 ≤ t < 81 → t ∈ probe_orbit 128 k0.
Proof.
  intros Hk0 Ht.
  assert (List.forallb (λ k, List.forallb (λ t, List.existsb (Z.eqb t) (probe_orbit 128 k))
                                          (seqZ 0 81))
                       (seqZ 0 128) = true) as Hall.
  { vm_compute. reflexivity. }
  rewrite List.forallb_forall in Hall.
  specialize (Hall k0 ltac:(apply list_elem_of_In, elem_of_seqZ; lia)).
  rewrite List.forallb_forall in Hall.
  specialize (Hall t ltac:(apply list_elem_of_In, elem_of_seqZ; lia)).
  apply List.existsb_exists in Hall as (t' & Hin & ->%Z.eqb_eq).
  by apply list_elem_of_In.
Qed.

(** After 128 rounds every unsolved cell has been written. *)
Lemma order_random_walk_complete (grid : list cell_info) (size : Z) (p : probe) :
  size = Z.of_nat (length (unsolved_indices grid)) →
  probe_inv grid size p →
  size ≤ pr_found (Nat.iter 128 (order_random_walk_step grid) p).
Proof.
  intros Hsize Hinv.
  destruct (order_random_walk_iter grid size 128 Hsize p Hinv) as [Hinv' Hseen].
  set (q := Nat.iter 128 (order_random_walk_step grid) p) in *.
  assert (unsolved_indices grid ⊆+ emitted q) as Hsub.
  { apply NoDup_submseteq; [apply NoDup_unsolved_indices|].
    intros k [Hk Hun]%unsolved_indices_spec. apply (pi_emitted _ _ _ Hinv').
    split; [done|]. split; [done|]. apply Hseen; [|lia].
    apply probe_orbit_covers; [apply (pi_key _ _ _ Hinv) | done]. }
  apply submseteq_length in Hsub. rewrite (length_emitted _ _ _ Hinv') in Hsub.
  pose proof (pi_found _ _ _ Hinv'). lia.
Qed.

(** The walk ends within the rounds that make [found] reach the size. *)
Lemma order_random_walk_terminates (grid : list cell_info) (size : Z) (n : nat) :
  size = Z.of_nat (length (unsolved_indices grid)) →
  ∀ p, probe_inv grid size p →
    size ≤ pr_found (Nat.iter n (order_random_walk_step grid) p) →
    ∃ q, order_random_walk n grid size p = Some q
         ∧ probe_inv grid size q ∧ pr_found q = size.
Proof.
  intros Hsize. induction n as [|n IH]; intros p Hinv Hfound.
  - cbn in *. destruct (Z.ltb_spec (pr_found p) size); [lia|].
    exists p. split_and!; try done. pose proof (pi_found _ _ _ Hinv). lia.
  - cbn [order_random_walk]. destruct (Z.ltb_spec (pr_found p) size).
    + rewrite Nat.iter_succ_r in Hfound.
      apply IH; [|done]. by apply order_random_walk_step_inv.
    + exists p. split_and!; try done. pose proof (pi_found _ _ _ Hinv). lia.
Qed.

Lemma order_random_walk_more (grid : list cell_info) (size : Z) (n m : nat)
    (p q : probe) :
  order_random_walk n grid size p = Some q → (n ≤ m)%nat →
  order_random_walk m grid size p = Some q.
Proof.
  revert m p. induction n as [|n IH]; intros m p Hwalk Hle.
  - cbn in Hwalk. destruct m; cbn; destruct (pr_found p <? size); done.
  - destruct m as [|m]; [lia|]. cbn in *.
    destruct (pr_found p <? size); [|done]. apply IH; [done|lia].
Qed.

(** A precalculated iterator emits the keys of its data from its position
    on. *)
Lemma keyiter_emits_precalculated (fuel : nat) :
  ∀ ki : KeyIterObject,
    ki_func ki = Some KI_precalculated →
    ob_size ki = Z.of_nat (length (ki_data ki)) →
    0 ≤ ki_pos ki ≤ ob_size ki →
    (Z.to_nat (ob_size ki - ki_pos ki) < fuel)%nat →
    keyiter_emits fuel ki
    = Some ((λ i, (ROW i, COL i)) <$> drop (Z.to_nat (ki_pos ki)) (ki_data ki)).
Proof.
  induction fuel as [|fuel IH]; intros ki Hf Hsize Hpos Hfuel; [lia|].
  cbn [keyiter_emits]. unfold data_KeyIter_iternext. rewrite Hf.
  cbn [call_keyiterfunc]. unfold precalculated_keyiterfunc.
  destruct (Z.eqb_spec (ki_pos ki) (ob_size ki)) as [Heq|Hne].
  - rewrite drop_ge by lia. done.
  - destruct (lookup_lt_is_Some_2 (ki_data ki) (Z.to_nat (ki_pos ki))) as [x Hx]; [lia|].
    rewrite (drop_S _ x _ Hx), fmap_cons.
    rewrite IH; cbn [set_ki_pos ki_func ki_data ki_pos ob_size]; try done; try lia.
    replace (Z.to_nat (ki_pos ki + 1)) with (S (Z.to_nat (ki_pos ki))) by lia.
    assert (zget (ki_data ki) (ki_pos ki) = x) as ->; [|done].
    unfold zget. destruct (Z.ltb_spec (ki_pos ki) 0); [lia|].
    by apply list_lookup_total_correct.
Qed.

Lemma ROW_COL_INDEX (i : Z) :
  0 ≤ i < 81 → INDEX (ROW i) (COL i) = i ∧ valid_key (ROW i, COL i).
Proof.
  intros Hi. unfold INDEX, ROW, COL, valid_key, NUMROWS. cbn [fst snd].
  rewrite Z.quot_div_nonneg, Z.rem_mod_nonneg by lia.
  pose proof (Z.div_mod i 9 ltac:(lia)). pose proof (Z.mod_pos_bound i 9 ltac:(lia)).
  assert (0 ≤ i / 9 < 9) by (split; [apply Z.div_pos; lia | apply Z.div_lt_upper_bound; lia]).
  lia.
Qed.

Lemma INDEX_ROW_COL (k : key) :
  valid_key k → (ROW (INDEX k.1 k.2), COL (INDEX k.1 k.2)) = k.
Proof.
  destruct k as [x y]. unfold INDEX, ROW, COL, valid_key, NUMROWS. cbn [fst snd].
  intros [Hx Hy]. rewrite Z.quot_div_nonneg, Z.rem_mod_nonneg by lia.
  f_equal.
  - symmetry. apply (Z.div_unique_pos _ _ x y); lia.
  - symmetry. apply (Z.mod_unique_pos _ _ x y); lia.
Qed.

Lemma length_filter_fmap {A B} (p : B → bool) (f : A → B) (l : list A) :
  length (List.filter p (f <$> l)) = length (List.filter (λ a, p (f a)) l).
Proof.
  induction l as [|a l IH]; [done|]. rewrite fmap_cons. cbn [List.filter].
  destruct (p (f a)); cbn [length]; by rewrite IH.
Qed.

(** With [ss_solved] the number of solved cells, the size of the iterator
    is the number of unsolved cells. *)
Lemma solved_ok_size (s : SudokuStateObject) :
  solved_ok s →
  GRIDSIZE - ss_solved s = Z.of_nat (length (unsolved_indices (ss_grid s))).
Proof.
  intros Hsolved. unfold solved_ok in Hsolved. rewrite Hsolved.
  unfold all_keys. rewrite length_filter_fmap.
  pose proof (List.filter_length (λ i, solved_at s (ROW i, COL i)) (seqZ 0 GRIDSIZE))
    as Hlen.
  rewrite length_seqZ in Hlen.
  assert (List.filter (λ i, negb (solved_at s (ROW i, COL i))) (seqZ 0 GRIDSIZE)
          = unsolved_indices (ss_grid s)) as Heq.
  { unfold unsolved_indices. apply List.filter_ext_in. intros i Hi.
    apply list_elem_of_In, elem_of_seqZ in Hi.
    destruct (ROW_COL_INDEX i ltac:(clia)) as [Hidx _].
    unfold solved_at, CELL_FILLED, CELL_VALUE, cell_unsolved_at. cbn [fst snd].
    by rewrite Hidx. }
  rewrite Heq in Hlen. unfold GRIDSIZE in *. lia.
Qed.

(** The data [order_random] computes: the unsolved cells, each once. *)
Lemma order_random_data (fuel : nat) (s : SudokuStateObject)
    (urandom : Z → option (list Z)) :
  solved_ok s → (∀ n, is_Some (urandom n)) → (128 ≤ fuel)%nat →
  ∃ data,
    data_State_order_random_impl fuel s urandom
    = Some (Ok (set_ki_data (start_building_precalculated_keyiter s) data))
    ∧ Z.of_nat (length data) = GRIDSIZE - ss_solved s
    ∧ NoDup data
    ∧ ∀ i, i ∈ data ↔ i ∈ unsolved_indices (ss_grid s).
Proof.
  intros Hsolved Hrandom Hfuel.
  pose proof (solved_ok_size s Hsolved) as Hsize.
  unfold data_State_order_random_impl.
  set (ki := start_building_precalculated_keyiter s).
  assert (ob_size ki = GRIDSIZE - ss_solved s) as Hob by done.
  assert (ki_data ki = replicate (Z.to_nat (GRIDSIZE - ss_solved s)) 0) as Hdata by done.
  assert (ki_state ki = s) as Hstate by done.
  rewrite Hob, Hstate.
  destruct (Z.eqb_spec (GRIDSIZE - ss_solved s) 0) as [Hzero|Hnonzero].
  - exists []. split_and!.
    + do 2 f_equal. unfold ki, start_building_precalculated_keyiter.
      rewrite Hzero. done.
    + cbn. lia.
    + apply NoDup_nil_2.
    + intros i. destruct (unsolved_indices (ss_grid s)); [done|]. cbn in Hsize. lia.
  - destruct (Hrandom (Z.quot (GRIDSIZE - ss_solved s) 6 + 1)) as [tries ->].
    set (size := GRIDSIZE - ss_solved s) in *.
    assert (probe_inv (ss_grid s) size
              (mkProbe 0 (replicate (Z.to_nat GRIDSIZE) 0) 0 (ki_data ki))) as Hinv0.
    { split; cbn [pr_key pr_seen pr_found pr_data].
      - lia.
      - by rewrite length_replicate.
      - by rewrite Hdata, length_replicate.
      - lia.
      - apply NoDup_nil_2.
      - intros k. unfold emitted. cbn [pr_found pr_data pr_seen Z.to_nat take].
        split; [by intros ?%elem_of_nil|]. intros (Hk & _ & Hseen).
        exfalso. apply Hseen. unfold zget. destruct (Z.ltb_spec k 0); [lia|].
        apply lookup_total_replicate_2. unfold GRIDSIZE. lia. }
    pose proof (order_random_tries_inv (ss_grid s) size tries
                  (seqZ 0 (Z.quot size 6 + 1)) _ Hsize Hinv0) as Hinv1.
    set (p1 := order_random_tries _ _ _ _ _) in *.
    destruct (order_random_walk_terminates (ss_grid s) size 128 Hsize p1 Hinv1
                (order_random_walk_complete _ _ _ Hsize Hinv1))
      as (q & Hwalk & Hinvq & Hfound).
    rewrite (order_random_walk_more _ _ 128 fuel p1 q Hwalk Hfuel).
    exists (pr_data q).
    assert (emitted q = pr_data q) as Hem.
    { unfold emitted. rewrite take_ge; [done|].
      rewrite (pi_data _ _ _ Hinvq), Hfound. lia. }
    pose proof (pi_nodup _ _ _ Hinvq) as Hnd. rewrite Hem in Hnd.
    assert (length (pr_data q) = length (unsolved_indices (ss_grid s))) as Hlen.
    { rewrite (pi_data _ _ _ Hinvq). lia. }
    split_and!; try done.
    + rewrite Hlen. lia.
    + assert (pr_data q ⊆+ unsolved_indices (ss_grid s)) as Hsub.
      { apply NoDup_submseteq; [done|]. intros k Hk. rewrite <- Hem in Hk.
        by eapply emitted_unsolved. }
      intros i. apply submseteq_length_Permutation in Hsub; [|lia].
      by rewrite Hsub.
Qed.

(** C9: the iterator order_random returns emits exactly num_remaining
    coordinates, each one an unsolved cell, none repeated, every unsolved
    cell among them; 128 rounds are enough for the loop that probes with
    k ← (5k + 1) mod 128 to end. *)
Theorem order_random_spec (fuel : nat) (s : SudokuStateObject)
    (urandom : Z → option (list Z)) :
  solved_ok s → (∀ n, is_Some (urandom n)) → (128 ≤ fuel)%nat →
  ∃ ki coords,
    data_State_order_random_impl fuel s urandom = Some (Ok ki)
    ∧ (∀ n, (81 < n)%nat → keyiter_emits n ki = Some coords)
    ∧ Z.of_nat (length coords) = GRIDSIZE - ss_solved s
    ∧ NoDup coords
    ∧ ∀ k, k ∈ coords ↔ valid_key k ∧ solved_at s k = false.
Proof.
  intros Hsolved Hrandom Hfuel.
  destruct (order_random_data fuel s urandom Hsolved Hrandom Hfuel)
    as (data & Hcall & Hlen & Hnd & Hdata).
  exists (set_ki_data (start_building_precalculated_keyiter s) data),
         ((λ i, (ROW i, COL i)) <$> data).
  assert (∀ i, i ∈ data → 0 ≤ i < 81) as Hrange.
  { intros i Hi%Hdata. by apply unsolved_indices_spec in Hi as [? _]. }
  split_and!.
  - done.
  - intros n Hn. unfold start_building_precalculated_keyiter.
    rewrite keyiter_emits_precalculated;
      cbn [set_ki_data set_ki_pos set_ki_func new_keyiter_object
           ki_pos ob_size ki_data ki_func]; try done;
      unfold GRIDSIZE, solved_ok in *; lia.
  - by rewrite length_fmap.
  - apply NoDup_fmap_2_strong; [|done]. intros i j Hi Hj [= Hr Hc].
    destruct (ROW_COL_INDEX i (Hrange i Hi)) as [<- _].
    destruct (ROW_COL_INDEX j (Hrange j Hj)) as [<- _]. by rewrite Hr, Hc.
  - intros k. rewrite list_elem_of_fmap. split.
    + intros (i & -> & Hi). pose proof (Hrange i Hi) as Hr.
      apply Hdata, unsolved_indices_spec in Hi as [_ Hun].
      destruct (ROW_COL_INDEX i Hr) as [Hidx Hvalid]. split; [done|].
      unfold solved_at, CELL_FILLED, CELL_VALUE. cbn [fst snd]. rewrite Hidx.
      unfold cell_unsolved_at in Hun. by apply negb_true_iff in Hun.
    + intros [Hvalid Hun]. exists (INDEX k.1 k.2). split.
      * by rewrite INDEX_ROW_COL.
      * apply Hdata, unsolved_indices_spec. split; [by apply INDEX_range|].
        unfold cell_unsolved_at. unfold solved_at, CELL_FILLED, CELL_VALUE in Hun.
        by rewrite Hun.
Qed.

Lemma solved_ok_state_E1 : solved_ok state_E1.
Proof. vm_compute. reflexivity. Qed.

Lemma order_random_spec_witness :
  ∃ ki coords,
    data_State_order_random_impl 128 state_E1 urandom_sevens = Some (Ok ki)
    ∧ keyiter_emits 82 ki = Some coords
    ∧ length coords = 78%nat
    ∧ NoDup coords
    ∧ (0, 2) ∈ coords ∧ (0, 1) ∉ coords.
Proof.
  destruct (order_random_spec 128 state_E1 urandom_sevens solved_ok_state_E1
              (λ n, ex_intro _ _ eq_refl) (le_n 128))
    as (ki & coords & Hcall & Hemits & Hlen & Hnd & Hmem).
  exists ki, coords. split; [exact Hcall|]. split; [apply Hemits; lia|].
  split.
  { change (GRIDSIZE - ss_solved state_E1) with 78 in Hlen. lia. }
  split; [exact Hnd|]. split.
  - apply Hmem. split; [unfold valid_key, NUMROWS; simpl; lia|].
    vm_compute. reflexivity.
  - intros [_ Hun]%Hmem. vm_compute in Hun. discriminate.
Defined.

(** * House aggregates after a second fill *)

Lemma houses_consistent_state_empty : houses_consistent state_empty.
Proof.
  intros h Hh.
  assert (List.forallb (λ h,
            (solved_count state_empty h =? solved_in_house state_empty h)
            && List.forallb (λ d, cand_count state_empty h d
                                  =? cands_in_house state_empty h d) (seqZ 0 9))
            (seqZ 0 27) = true) as Hall by (vm_compute; reflexivity).
  rewrite List.forallb_forall in Hall.
  specialize (Hall h ltac:(apply list_elem_of_In, elem_of_seqZ; lia)).
  apply andb_true_iff in Hall as [Hs Hc]. split; [by apply Z.eqb_eq|].
  intros d Hd. rewrite List.forallb_forall in Hc. apply Z.eqb_eq, Hc.
  apply list_elem_of_In, elem_of_seqZ. lia.
Qed.

(** The empty grid is what the constructor returns for no clues, and its
    second fill is a public mutation of it. *)
Lemma reachable_state_empty : reachable state_empty.
Proof.
  apply (reachable_new [] true None); [apply NoDup_nil_2|].
  unfold state_empty, State_of.
  destruct (State_new [] true None) as [s|e] eqn:Hnew; [reflexivity|].
  vm_compute in Hnew. discriminate.
Qed.

Lemma reachable_state_refilled : reachable state_refilled.
Proof.
  unfold state_refilled. apply reachable_step; [apply reachable_state_empty|exact I].
Qed.

(** C1: [candidates.fill()] on the freshly built empty grid succeeds and
    leaves the top row (house 18) with the counter 18 for digit 1, while 9
    unsolved cells of that row have 1 as a candidate: a reachable state
    whose house aggregates are not the counts of its cells.
    [fill_in_pencilmarks] clears entry 0 of each counter array only and adds
    to the other eight. *)
Theorem fill_breaks_cand_count :
  reachable state_refilled
  ∧ is_ok (data_state_candidates_fill_impl state_empty).2 = true
  ∧ cand_count state_refilled 18 1 = 18
  ∧ cands_in_house state_refilled 18 1 = 9
  ∧ ¬ houses_consistent state_refilled.
Proof.
  split; [apply reachable_state_refilled|].
  split; [vm_compute; reflexivity|]. split; [vm_compute; reflexivity|].
  split; [vm_compute; reflexivity|].
  intros Hcons. destruct (Hcons 18 ltac:(lia)) as [_ Hc].
  specialize (Hc 1 ltac:(lia)). vm_compute in Hc. discriminate.
Qed.

(** * Snapshot and restore *)

(** C5: no state can be serialized.  The format string [__reduce__] hands to
    [Py_BuildValue] opens three parentheses and closes two, so the format
    check fails and [__reduce__] returns an error on every state, the
    reachable empty grid included; the snapshot the round trip starts from
    is never produced, and serializing then restoring gives the same
    error. *)
Theorem reduce_fails_on_every_state :
  reachable state_empty
  ∧ countformat reduce_format 0 0 = None
  ∧ ∀ s, data_State___reduce___impl s = Err InternalError
         ∧ snapshot_restore s = Err InternalError.
Proof.
  split; [apply reachable_state_empty|]. split; [reflexivity|].
  intros s. unfold snapshot_restore, data_State___reduce___impl.
  change (countformat reduce_format 0 0) with (@None Z). by split.
Qed.

(** * Invariants of the reachable states *)

Lemma mask_bound (m : Z) : 0 ≤ m ≤ TERMS ↔ Z.land m TERMS = m.
Proof.
  split; [apply land_TERMS|]. intros <-. change TERMS with (Z.ones 9).
  rewrite Z.land_ones by lia. pose proof (Z.mod_pos_bound m (2 ^ 9) ltac:(lia)).
  change (Z.ones 9) with 511. change (2 ^ 9) with 512 in *. lia.
Qed.

Lemma mask_bound_land (a b : Z) : 0 ≤ a ≤ TERMS → 0 ≤ Z.land a b ≤ TERMS.
Proof. intros Ha%mask_bound. by apply mask_bound, land_TERMS_absorb. Qed.

Lemma mask_bound_lor (a b : Z) :
  0 ≤ a ≤ TERMS → 0 ≤ b ≤ TERMS → 0 ≤ Z.lor a b ≤ TERMS.
Proof.
  intros Ha%mask_bound Hb%mask_bound. apply mask_bound.
  by rewrite Z.land_lor_distr_l, Ha, Hb.
Qed.

Lemma mask_bound_uint16 (m : Z) : 0 ≤ m ≤ TERMS → uint16 m = m.
Proof. intros Hm. apply uint16_small. unfold TERMS in Hm. lia. Qed.

Lemma solved_ok_same_clues (s s' : SudokuStateObject) :
  same_clues s s' → solved_ok s → solved_ok s'.
Proof.
  intros Hsame Hsolved. unfold solved_ok in *.
  pose proof Hsame as (Hs & _). rewrite Hs, Hsolved. do 2 f_equal.
  apply List.filter_ext. intros k. symmetry.
  by apply same_clues_solved_at.
Qed.

(** The primitives that leave the clues alone keep the invariants. *)
Lemma upd_house_inv (s : SudokuStateObject) (h : Z) (f : house_info → house_info) :
  (∀ hi, length (hi_cand_count (f hi)) = length (hi_cand_count hi)) →
  state_inv s → state_inv (upd_house s h f).
Proof.
  intros Hf ([Hg Hh Hc Hd Hcells] & Hmasks & Hsolved). split_and!; [|done|done].
  split; try done.
  - unfold upd_house. cbn [ss_houses set_ss_houses]. by rewrite length_zupd.
  - unfold upd_house. cbn [ss_houses set_ss_houses].
    apply Forall_zupd; [done|]. intros hi Hhi. by rewrite Hf.
Qed.

Lemma set_CELL_CANDS_inv (s : SudokuStateObject) (x y v : Z) :
  0 ≤ v ≤ TERMS → state_inv s → state_inv (set_CELL_CANDS s x y v).
Proof.
  intros Hv (Hwf & Hmasks & Hsolved).
  pose proof (set_CELL_CANDS_spec s x y v) as (Hsame & _ & Hwf' & _).
  split_and!.
  - by apply Hwf'.
  - unfold masks_ok, set_CELL_CANDS. cbn [ss_grid set_ss_grid].
    apply Forall_zupd; [done|]. intros c _. cbn. by rewrite mask_bound_uint16.
  - by eapply solved_ok_same_clues.
Qed.

Lemma house_adjust_cand_count_inv (delta x y set : Z) (s : SudokuStateObject) :
  state_inv s →
  state_inv (for_loop 0 NUMROWS (house_adjust_cand_count_step delta x y set) s).
Proof.
  intros Hinv. apply for_loop_ind; [done|]. intros i s0 _ Hinv0.
  unfold house_adjust_cand_count_step. destruct (has_bit set i); [|done].
  repeat apply upd_house_inv; try done; intros; apply cand_add_length.
Qed.

Lemma house_adjust_cand_count_grid (delta x y set : Z) (s : SudokuStateObject) :
  ss_grid (for_loop 0 NUMROWS (house_adjust_cand_count_step delta x y set) s)
  = ss_grid s.
Proof. by pose proof (house_adjust_cand_count_same delta x y set s) as (_ & ? & _). Qed.

Lemma add_candidates_entry_inv (s : SudokuStateObject) (x y add : Z) :
  0 ≤ add ≤ TERMS → state_inv s → state_inv (add_candidates_entry s x y add).
Proof.
  intros Hadd Hinv. unfold add_candidates_entry.
  set (s1 := if negb _ then _ else s).
  assert (state_inv s1 ∧ ss_grid s1 = ss_grid s) as [Hinv1 Hg1].
  { unfold s1. destruct (negb _); [|done].
    split; [by apply house_adjust_cand_count_inv|
            apply house_adjust_cand_count_grid]. }
  apply set_CELL_CANDS_inv.
  - unfold house_adjust_cand_count_up. rewrite house_adjust_cand_count_grid.
    apply mask_bound_lor; [|done]. apply masks_ok_cands. by destruct Hinv1 as (_ & ? & _).
  - by apply house_adjust_cand_count_inv.
Qed.

Lemma remove_candidates_entry_inv (s : SudokuStateObject) (x y rem : Z) :
  state_inv s → state_inv (remove_candidates_entry s x y rem).
Proof.
  intros Hinv. unfold remove_candidates_entry.
  set (s1 := if negb _ then _ else s).
  assert (state_inv s1 ∧ ss_grid s1 = ss_grid s) as [Hinv1 Hg1].
  { unfold s1. destruct (negb _); [|done].
    split; [by apply house_adjust_cand_count_inv|
            apply house_adjust_cand_count_grid]. }
  apply set_CELL_CANDS_inv.
  - unfold house_adjust_cand_count_down. rewrite house_adjust_cand_count_grid.
    apply mask_bound_land. apply masks_ok_cands. by destruct Hinv1 as (_ & ? & _).
  - by apply house_adjust_cand_count_inv.
Qed.

Lemma data_State_add_candidates_inv (change : list (key * pyobject)) :
  ∀ s, Forall (λ e, pyobject_ok e.2) change → state_inv s →
       state_inv (data_State_add_candidates s change).1.
Proof.
  induction change as [|[k v] rest IH]; intros s Hok Hinv; [done|].
  apply Forall_cons in Hok as [Hv Hok]. cbn [data_State_add_candidates].
  destruct v as [c|]; [|done]. destruct (UNPACK_KEY k) as [[x y]|e]; [|done].
  destruct (CELL_FILLED (ss_grid s) x y); [done|].
  apply IH; [done|]. by apply add_candidates_entry_inv.
Qed.

Lemma data_State_remove_candidates_inv (change : list (key * pyobject)) :
  ∀ s, state_inv s → state_inv (data_State_remove_candidates s change).1.
Proof.
  intros s Hinv.
  assert (∀ raise, state_inv (data_State_remove_candidates_loop s change raise).1)
    as Hloop.
  { revert s Hinv. induction change as [|[k v] rest IH]; intros s Hinv raise; [done|].
    cbn [data_State_remove_candidates_loop].
    destruct v as [c|]; [|done]. destruct (UNPACK_KEY k) as [[x y]|e]; [|done].
    destruct (CELL_FILLED (ss_grid s) x y); [done|].
    apply IH. by apply remove_candidates_entry_inv. }
  unfold data_State_remove_candidates. specialize (Hloop None).
  destruct (data_State_remove_candidates_loop s change None) as [s' [[[rx ry]|]|e]];
    done.
Qed.

Lemma data_candidates_ass_sub_inv (s : SudokuStateObject) (k : key)
    (cands : option pyobject) :
  match cands with Some v => pyobject_ok v | None => True end →
  state_inv s → state_inv (data_candidates_ass_sub s k cands).1.
Proof.
  intros Hok Hinv. unfold data_candidates_ass_sub.
  assert (pyobject_ok match cands with
                      | Some c => c
                      | None => PyCandidateSet (build_set 0)
                      end) as Hv.
  { destruct cands; [done|]. by compute. }
  destruct (match cands with Some c => c | None => _ end) as [c|]; [|done].
  destruct (UNPACK_KEY k) as [[x y]|e]; [|done].
  destruct (CELL_FILLED (ss_grid s) x y); [done|]. cbn [fst].
  apply set_CELL_CANDS_inv; [done|].
  by do 2 apply house_adjust_cand_count_inv.
Qed.

Lemma data_state_candidates_clear_impl_inv (s : SudokuStateObject) :
  state_inv s → state_inv (data_state_candidates_clear_impl s).
Proof.
  intros Hinv. unfold data_state_candidates_clear_impl.
  apply for_loop_ind; [done|]. intros i s0 _ Hinv0.
  apply for_loop_ind; [done|]. intros j s1 _ Hinv1.
  destruct (CELL_CANDS (ss_grid s1) i j >? 0); [|done].
  apply set_CELL_CANDS_inv; [clia|].
  destruct (negb _); [|done]. by apply house_adjust_cand_count_inv.
Qed.

Lemma fill_in_pencilmarks_inv (s : SudokuStateObject) :
  state_inv s → state_inv (fill_in_pencilmarks s).1.
Proof.
  intros Hinv. unfold fill_in_pencilmarks.
  apply for_loop_r_ind.
  { apply for_loop_ind; [done|]. intros n s0 _ Hinv0.
    apply upd_house_inv; [|done]. intros hi. apply length_zupd. }
  intros n s0 _ Hinv0. apply for_loop_r_ind; [done|]. intros m s1 _ Hinv1.
  unfold fill_in_pencilmarks_cell.
  destruct (CELL_FILLED (ss_grid s1) n m); [done|].
  destruct (ss_peers s1 !! Z.to_nat (INDEX n m)) as [keyset|]; [|done].
  destruct (negb _); [done|]. cbn [fst].
  apply house_adjust_cand_count_inv, set_CELL_CANDS_inv; [|done].
  rewrite Z.land_comm. apply mask_bound_land. clia.
Qed.

(** A change of fields that leaves grid, houses and solved counter alone. *)
Lemma state_inv_frame (s s' : SudokuStateObject) :
  ss_grid s' = ss_grid s → ss_houses s' = ss_houses s →
  ss_solved s' = ss_solved s → length (ss_digits s') = length (ss_digits s) →
  state_inv s → state_inv s'.
Proof.
  intros Hg Hh Hs Hd ([? ? ? ? ?] & Hmasks & Hsolved). split_and!.
  - split; by rewrite ?Hg, ?Hh, ?Hd.
  - unfold masks_ok. by rewrite Hg.
  - unfold solved_ok, solved_at in *. by rewrite Hg, Hs.
Qed.

Lemma house_adjust_solved_up_inv (x y : Z) (s : SudokuStateObject) :
  state_inv s → state_inv (house_adjust_solved_up s x y).
Proof. intros Hinv. unfold house_adjust_solved_up. by repeat apply upd_house_inv. Qed.

Lemma house_adjust_solved_down_inv (x y : Z) (s : SudokuStateObject) :
  state_inv s → state_inv (house_adjust_solved_down s x y).
Proof. intros Hinv. unfold house_adjust_solved_down. by repeat apply upd_house_inv. Qed.

(** *** Counting the solved cells *)

Lemma NoDup_all_keys : NoDup all_keys.
Proof. apply (bool_decide_unpack _). by vm_compute. Qed.

Lemma elem_of_all_keys (k : key) : k ∈ all_keys ↔ valid_key k.
Proof.
  split.
  - revert k. apply Forall_forall. apply (bool_decide_unpack _). by vm_compute.
  - intros Hk. unfold all_keys. apply list_elem_of_fmap.
    exists (INDEX k.1 k.2). split; [by rewrite INDEX_ROW_COL|].
    apply elem_of_seqZ. pose proof (INDEX_range k Hk). clia.
Qed.

Lemma filter_flip_length {A} (P Q : A → bool) (l : list A) (a : A) :
  NoDup l → a ∈ l → (∀ b, b ∈ l → b ≠ a → Q b = P b) →
  P a = false → Q a = true →
  length (List.filter Q l) = S (length (List.filter P l)).
Proof.
  intros Hnd Hin Hext HP HQ. induction Hnd as [|b l Hb Hnd IH]; [by apply elem_of_nil in Hin|].
  cbn [List.filter]. apply elem_of_cons in Hin as [<-|Hin].
  - rewrite HP, HQ. cbn [length]. f_equal. f_equal.
    apply List.filter_ext_in. intros c Hc%list_elem_of_In. apply Hext.
    + by right.
    + intros ->. done.
  - rewrite (Hext b); [|by left|by intros ->].
    destruct (P b); cbn [length]; rewrite IH; try done;
      intros c Hc; apply Hext; by right.
Qed.

Lemma filter_false_length {A} (P : A → bool) (l : list A) :
  (∀ a, a ∈ l → P a = false) → length (List.filter P l) = 0%nat.
Proof.
  induction l as [|a l IH]; intros Hl; [done|]. cbn [List.filter].
  rewrite Hl by left. apply IH. intros b Hb. apply Hl. by right.
Qed.

(** Storing a clue digit. *)
Lemma set_CELL_VALUE_spec (s : SudokuStateObject) (x y v : Z) :
  valid_key (x, y) → wf_state s → masks_ok s →
  let s' := set_CELL_VALUE s x y v in
  wf_state s' ∧ masks_ok s' ∧ ss_solved s' = ss_solved s
  ∧ (∀ k, valid_key k →
       solved_at s' k = if decide (k = (x, y))
                        then Z.land (uint16 v) ERRORBIT =? 0 else solved_at s k).
Proof.
  intros Hxy [Hg Hh Hc Hd Hcells] Hmasks. cbn zeta. unfold set_CELL_VALUE.
  split_and!.
  - split; cbn [ss_grid ss_houses ss_digits set_ss_grid]; try done.
    + by rewrite length_zupd.
    + apply Forall_zupd; [done|]. intros c [_ Hc2]. cbn.
      split; [apply uint16_range|done].
  - unfold masks_ok. cbn [ss_grid set_ss_grid]. apply Forall_zupd; [done|].
    by intros c Hc0.
  - done.
  - intros k Hk. unfold solved_at, CELL_FILLED, CELL_VALUE.
    cbn [ss_grid set_ss_grid]. pose proof (INDEX_range k Hk).
    pose proof (INDEX_range (x, y) Hxy) as Hr. cbn [fst snd] in Hr.
    case_decide as Hkxy.
    + subst k. cbn [fst snd]. rewrite zget_zupd_eq by lia. done.
    + rewrite zget_zupd_ne; [done|]. intros Heq. apply Hkxy.
      apply INDEX_inj; done.
Qed.

Lemma clue_digit_filled (digit : Z) :
  0 ≤ digit ≤ NUMROWS → (Z.land (uint16 digit) ERRORBIT =? 0) = true.
Proof.
  intros Hd. assert (digit ∈ seqZ 0 10) as Hin by (apply elem_of_seqZ; clia).
  clear Hd. revert digit Hin. apply Forall_forall. apply (bool_decide_unpack _). by vm_compute.
Qed.

Lemma assign_clue_inv (s : SudokuStateObject) (k : key) (digit : Z) :
  0 ≤ digit ≤ NUMROWS → state_inv s → state_inv (assign_clue s k digit).1.
Proof.
  intros Hd Hinv. unfold assign_clue.
  destruct (UNPACK_KEY k) as [[x y]|e] eqn:Hk; [|done].
  apply UNPACK_KEY_Ok in Hk as [<- Hxy].
  destruct (CELL_FILLED (ss_grid s) x y) eqn:Hfilled; [done|]. cbn [fst].
  set (s1 := set_ss_skeys s _).
  set (s3 := house_adjust_cand_count_down _ _ _ _).
  assert (state_inv s3) as (Hwf3 & Hmasks3 & Hsolved3).
  { unfold s3. apply house_adjust_cand_count_inv. apply house_adjust_solved_up_inv.
    by eapply state_inv_frame; [..|exact Hinv]. }
  assert (ss_grid s3 = ss_grid s) as Hg3.
  { unfold s3, house_adjust_cand_count_down. by rewrite house_adjust_cand_count_grid. }
  pose proof (set_CELL_VALUE_spec s3 x y digit Hxy Hwf3 Hmasks3)
    as (Hwf4 & Hmasks4 & Hs4 & Hat4).
  set (s4 := set_CELL_VALUE s3 x y digit) in *.
  split_and!.
  - destruct Hwf4. split; try done. cbn [ss_digits set_ss_digits set_ss_solved].
    by rewrite length_zupd.
  - exact Hmasks4.
  - unfold solved_ok in *. cbn [ss_solved set_ss_digits set_ss_solved].
    rewrite Hs4, Hsolved3.
    change (solved_at (set_ss_digits _ _)) with (solved_at s4).
    rewrite (filter_flip_length (solved_at s3) (solved_at s4) all_keys (x, y)).
    + lia.
    + apply NoDup_all_keys.
    + by apply elem_of_all_keys.
    + intros b Hb%elem_of_all_keys Hne. rewrite Hat4 by done. by rewrite decide_False.
    + unfold solved_at. by rewrite Hg3.
    + rewrite Hat4 by done. rewrite decide_True by done. by apply clue_digit_filled.
Qed.

Lemma delete_clue_inv (s : SudokuStateObject) (k : key) :
  state_inv s → state_inv (delete_clue s k).1.
Proof.
  intros Hinv. unfold delete_clue.
  destruct (UNPACK_KEY k) as [[x y]|e] eqn:Hk; [|done].
  apply UNPACK_KEY_Ok in Hk as [<- Hxy].
  destruct (CELL_FILLED (ss_grid s) x y) eqn:Hfilled; [|done]. cbn [negb fst].
  set (s2 := set_ss_digits _ _).
  set (s4 := house_adjust_cand_count_up _ _ _ _).
  assert (state_inv s4) as (Hwf4 & Hmasks4 & Hsolved4).
  { unfold s4. apply house_adjust_cand_count_inv. apply house_adjust_solved_down_inv.
    eapply state_inv_frame; [..|exact Hinv]; try done.
    unfold s2. cbn [ss_digits set_ss_digits set_ss_skeys]. apply length_zupd. }
  assert (ss_grid s4 = ss_grid s) as Hg4.
  { unfold s4, house_adjust_cand_count_up. by rewrite house_adjust_cand_count_grid. }
  pose proof (set_CELL_VALUE_spec s4 x y (-1) Hxy Hwf4 Hmasks4)
    as (Hwf5 & Hmasks5 & Hs5 & Hat5).
  set (s5 := set_CELL_VALUE s4 x y (-1)) in *.
  split_and!.
  - by destruct Hwf5.
  - exact Hmasks5.
  - unfold solved_ok in *. cbn [ss_solved set_ss_solved].
    rewrite Hs5, Hsolved4.
    change (solved_at (set_ss_solved _ _)) with (solved_at s5).
    rewrite (filter_flip_length (solved_at s5) (solved_at s4) all_keys (x, y)).
    + lia.
    + apply NoDup_all_keys.
    + by apply elem_of_all_keys.
    + intros b Hb%elem_of_all_keys Hne. rewrite Hat5 by done. by rewrite decide_False.
    + rewrite Hat5 by done. by rewrite decide_True.
    + unfold solved_at. by rewrite Hg4.
Qed.

Lemma data_clues_ass_sub_inv (s : SudokuStateObject) (k : key) (value : option Z) :
  state_inv s → state_inv (data_clues_ass_sub s k value).1.
Proof.
  intros Hinv. unfold data_clues_ass_sub. destruct value as [digit|].
  - destruct (Z.ltb_spec digit 0); [done|].
    destruct (Z.geb_spec digit NUMROWS); [done|]. cbn [orb].
    apply assign_clue_inv; [clia|done].
  - by apply delete_clue_inv.
Qed.

Lemma data_State___setstate___inv (cands : list (key * pyobject))
    (hook : option Z) (dict : option (list (Z * Z))) :
  ∀ s, Forall (λ e, pyobject_ok e.2) cands → state_inv s →
       state_inv (data_State___setstate__ s cands hook dict).1.
Proof.
  intros s Hok Hinv.
  assert (state_inv (data_State___setstate___loop s cands).1) as Hloop.
  { revert s Hinv. induction cands as [|[k v] rest IH]; intros s Hinv; [done|].
    apply Forall_cons in Hok as [Hv Hok]. cbn [data_State___setstate___loop].
    destruct v as [c|]; [|done]. destruct (UNPACK_KEY k) as [[x y]|e]; [|done].
    apply IH; [done|].
    assert (state_inv (set_CELL_CANDS s x y (cs_set c))) as Hset
      by (by apply set_CELL_CANDS_inv).
    destruct (negb _); [|done]. by apply house_adjust_cand_count_inv. }
  unfold data_State___setstate__.
  destruct (data_State___setstate___loop s cands) as [s' [[]|e]]; [|done].
  cbn [fst] in *. destruct dict, hook; by eapply state_inv_frame; [..|exact Hloop].
Qed.

(** Every public mutation keeps the invariants, whatever its outcome. *)
Lemma apply_mutation_inv (s : SudokuStateObject) (m : mutation) :
  mutation_ok m → state_inv s → state_inv (apply_mutation s m).
Proof.
  intros Hm Hinv.
  destruct m as [k digit|k|change|change|k cands| | |cands hook dict];
    cbn [apply_mutation].
  - by apply data_clues_ass_sub_inv.
  - by apply data_clues_ass_sub_inv.
  - by apply data_State_add_candidates_inv.
  - by apply data_State_remove_candidates_inv.
  - apply data_candidates_ass_sub_inv; [|done]. by destruct cands.
  - by apply data_state_candidates_clear_impl_inv.
  - by apply fill_in_pencilmarks_inv.
  - by apply data_State___setstate___inv.
Qed.

(** *** Construction *)

Lemma set_defaults_blank :
  set_defaults (ss_grid State_alloc) = replicate 81 (mkCell 0 ERRORBIT 0).
Proof. by vm_compute. Qed.

Lemma set_groups_in_cells_loop_blank (idx grconfig : list Z) :
  ∀ grid found_vals grid',
    set_groups_in_cells_loop idx grconfig grid found_vals = Ok grid' →
    Forall cell_blank grid → length grid = 81%nat →
    Forall cell_blank grid' ∧ length grid' = 81%nat.
Proof.
  induction idx as [|i rest IH]; intros grid found_vals grid' Hrun Hblank Hlen.
  - cbn in Hrun. by injection Hrun as <-.
  - cbn [set_groups_in_cells_loop] in Hrun.
    destruct (grconfig !! Z.to_nat i) as [value|]; [|done].
    destruct (found_index value found_vals 0) as [k seen].
    eapply IH; [exact Hrun| |by rewrite length_zupd].
    apply Forall_zupd; [done|]. by intros c Hc.
Qed.

Lemma blank_state_inv (s : SudokuStateObject) :
  Forall cell_blank (ss_grid s) → length (ss_grid s) = 81%nat →
  ss_houses s = zero_houses → length (ss_digits s) = 9%nat →
  wf_state s ∧ masks_ok s ∧ ∀ k, valid_key k → solved_at s k = false.
Proof.
  intros Hblank Hlen Hh Hd. split_and!.
  - split; try done.
    + by rewrite Hh.
    + rewrite Hh. apply (bool_decide_unpack _). by vm_compute.
    + eapply Forall_impl; [exact Hblank|]. intros c [-> ->]. clia.
  - eapply Forall_impl; [exact Hblank|]. intros c [_ ->]. clia.
  - intros k Hk. pose proof (INDEX_range k Hk) as Hr.
    unfold solved_at, CELL_FILLED, CELL_VALUE.
    assert (cell_blank (zget (ss_grid s) (INDEX k.1 k.2))) as [-> _]; [|done].
    rewrite Forall_forall in Hblank. apply Hblank, zget_elem_of; lia.
Qed.

(** The loop of the constructor over distinct keys solves one cell per
    clue. *)
Lemma put_givens_inv (clues : list (key * Z)) :
  ∀ s s', put_givens s clues = (s', Ok tt) →
    NoDup clues.*1 → wf_state s → masks_ok s →
    (∀ k, k ∈ clues.*1 → valid_key k → solved_at s k = false) →
    wf_state s' ∧ masks_ok s'
    ∧ length (List.filter (solved_at s') all_keys)
      = (length (List.filter (solved_at s) all_keys) + length clues)%nat.
Proof.
  induction clues as [|[k cl] rest IH]; intros s s' Hrun Hnd Hwf Hmasks Hfree.
  - cbn in Hrun. injection Hrun as <-. cbn [length]. split_and!; [done|done|lia].
  - cbn [put_givens] in Hrun. rewrite fmap_cons in Hnd, Hfree. cbn [fst] in Hnd, Hfree.
    apply NoDup_cons in Hnd as [Hk Hnd].
    destruct (Z.ltb_spec cl 0); [done|]. destruct (Z.gtb_spec cl NUMROWS); [done|].
    cbn [orb] in Hrun.
    destruct (UNPACK_KEY k) as [[x y]|e] eqn:Hkey; [|done].
    apply UNPACK_KEY_Ok in Hkey as [<- Hxy].
    set (s1 := set_ss_skeys s _) in Hrun.
    assert (wf_state s1) as Hwf1 by (by destruct Hwf).
    pose proof (set_CELL_VALUE_spec s1 x y cl Hxy Hwf1 Hmasks)
      as (Hwf2 & Hmasks2 & _ & Hat2).
    set (s2 := set_CELL_VALUE s1 x y cl) in *.
    set (s4 := set_ss_digits _ _) in Hrun.
    assert (wf_state s4) as Hwf4.
    { destruct Hwf2 as [Hg Hh Hc Hd Hcells]. unfold s4, house_adjust_solved_up.
      split; cbn [ss_grid ss_houses ss_digits set_ss_digits upd_house set_ss_houses];
        try done.
      - by rewrite !length_zupd.
      - repeat (apply Forall_zupd; [|by intros h0 Hh0]). done.
      - by rewrite length_zupd. }
    apply IH in Hrun as (Hwf' & Hmasks' & Hcount); try done.
    + split_and!; [done|done|]. rewrite Hcount.
      change (solved_at s4) with (solved_at s2).
      rewrite (filter_flip_length (solved_at s) (solved_at s2) all_keys (x, y)).
      * cbn [length]. lia.
      * apply NoDup_all_keys.
      * by apply elem_of_all_keys.
      * intros b Hb%elem_of_all_keys Hne. rewrite Hat2 by done. by rewrite decide_False.
      * apply Hfree; [by left|done].
      * rewrite Hat2 by done. rewrite decide_True by done.
        apply clue_digit_filled. lia.
    + intros k' Hk' Hvalid. change (solved_at s4) with (solved_at s2).
      rewrite Hat2 by done. rewrite decide_False by (by intros ->).
      apply Hfree; [by right|done].
Qed.

Lemma State_new_inv (clues : list (key * Z)) (dofill : bool)
    (grconfig : option (list Z)) (s : SudokuStateObject) :
  NoDup clues.*1 → State_new clues dofill grconfig = Ok s → state_inv s.
Proof.
  intros Hnd. unfold State_new, data_State___init___impl.
  set (s0 := set_python_calculated_attrs _ _).
  assert (ss_grid s0 = set_defaults (ss_grid State_alloc) ∧ ss_houses s0 = zero_houses
          ∧ ss_digits s0 = replicate 9 0) as (Hg0 & Hh0 & Hd0).
  { unfold s0, set_python_calculated_attrs.
    destruct grconfig as [g|]; [destruct (decide _)|]; done. }
  cbn [ss_grid ss_grconfig set_ss_skeys]. rewrite Hg0, set_defaults_blank.
  destruct (set_groups_in_cells _ _) as [grid|e] eqn:Hgroups; [|done].
  apply set_groups_in_cells_loop_blank in Hgroups as [Hblank Hlen];
    [|by apply Forall_replicate|done].
  set (s1 := set_ss_grid _ grid).
  destruct (blank_state_inv s1) as (Hwf1 & Hmasks1 & Hfree1); try done.
  { unfold s1. cbn [ss_digits set_ss_grid set_ss_skeys]. by rewrite Hd0. }
  destruct (put_givens s1 clues) as [s2 [[]|e]] eqn:Hput; [|done].
  apply put_givens_inv in Hput as (Hwf2 & Hmasks2 & Hcount); try done;
    [|by intros k _; apply Hfree1].
  rewrite (filter_false_length (solved_at s1)) in Hcount
    by (by intros k Hk%elem_of_all_keys; apply Hfree1).
  assert (state_inv (set_ss_solved s2 (Z.of_nat (length clues)))) as Hinv.
  { split_and!; [by destruct Hwf2|done|].
    unfold solved_ok. cbn [ss_solved set_ss_solved].
    change (solved_at (set_ss_solved _ _)) with (solved_at s2). by rewrite Hcount. }
  destruct dofill.
  - pose proof (fill_in_pencilmarks_inv _ Hinv) as Hfill.
    destruct (fill_in_pencilmarks _) as [s3 [[]|e]]; [|done].
    by intros [= <-].
  - by intros [= <-].
Qed.

(** The states a program can hold satisfy what the theorems on changes,
    iterators and rectangles assume. *)
Lemma reachable_state_inv (s : SudokuStateObject) : reachable s → state_inv s.
Proof.
  induction 1 as [clues dofill grconfig s Hnd Hnew|s m _ IH Hm].
  - by eapply State_new_inv.
  - by apply apply_mutation_inv.
Qed.

(** * CandidateSet as a set of digits *)

Lemma cs_mem_testbit (d : Z) (c : CandidateSetObject) :
  0 ≤ d → cs_mem d c = bool_decide (d < 9) && Z.testbit (cs_set c) d.
Proof.
  intros Hd. unfold cs_mem, cs_seq_contains.
  destruct (Z.geb_spec d 9) as [Hge|Hlt].
  - by rewrite bool_decide_false by lia.
  - rewrite bool_decide_true by lia. cbn [andb].
    by rewrite <- has_bit_testbit.
Qed.

Lemma testbit_build_set (set d : Z) :
  0 ≤ d → Z.testbit (cs_set (build_set set)) d = Z.testbit set d && bool_decide (d < 9).
Proof.
  intros Hd. unfold build_set. cbn [cs_set]. rewrite Z.land_spec. f_equal.
  change TERMS with (Z.ones 9). case_bool_decide.
  - apply Z.ones_spec_low. lia.
  - apply Z.ones_spec_high. lia.
Qed.

Lemma testbit_uint16 (z d : Z) : 0 ≤ d < 16 → Z.testbit (uint16 z) d = Z.testbit z d.
Proof.
  intros Hd. unfold uint16. change 65536 with (2 ^ 16).
  apply Z.mod_pow2_bits_low. lia.
Qed.

Lemma cs_ok_build_set (set : Z) : cs_ok (build_set set).
Proof.
  unfold cs_ok, build_set. cbn [cs_set]. apply mask_bound.
  rewrite <- Z.land_assoc. by rewrite Z.land_diag.
Qed.

Lemma cs_mem_build_set (set d : Z) :
  0 ≤ d → cs_mem d (build_set (uint16 set)) = bool_decide (d < 9) && Z.testbit set d.
Proof.
  intros Hd. rewrite cs_mem_testbit, testbit_build_set by done.
  case_bool_decide; [|done]. cbn [andb]. rewrite andb_true_r.
  apply testbit_uint16. lia.
Qed.

Lemma zget_isizes (set : Z) : 0 ≤ set ≤ TERMS → zget isizes set = count_ones set.
Proof.
  intros Hset.
  assert (List.forallb (λ m, zget isizes m =? count_ones m) (seqZ 0 512) = true) as Hall
    by (vm_compute; reflexivity).
  rewrite List.forallb_forall in Hall. apply Z.eqb_eq, Hall.
  apply list_elem_of_In, elem_of_seqZ. clia.
Qed.

Lemma digits_of_nil (set : Z) : 0 ≤ set ≤ TERMS → digits_of set = [] → set = 0.
Proof.
  intros Hset Hnil. apply Z.bits_inj'. intros d Hd. rewrite Z.bits_0.
  destruct (decide (d < 9)) as [Hlt|Hge].
  - destruct (Z.testbit set d) eqn:Hb; [|done].
    assert (d ∈ digits_of set) as Hin; [|by rewrite Hnil in Hin; apply elem_of_nil in Hin].
    unfold digits_of. apply list_elem_of_In, List.filter_In. split; [|done].
    apply list_elem_of_In, elem_of_seqZ. lia.
  - apply mask_bound in Hset. rewrite <- Hset, Z.land_spec.
    change TERMS with (Z.ones 9). rewrite Z.ones_spec_high by lia. apply andb_false_r.
Qed.

(** X1: [len(c)] is the number of digits in [c], and [bool(c)] is false
    exactly for the empty set.  The sizes come from the table [isizes],
    which [count_ones] fills. *)
Theorem cs_seq_length_spec (c : CandidateSetObject) :
  cs_ok c →
  cs_seq_length c = Z.of_nat (length (digits_of (cs_set c)))
  ∧ cs_seq_length c = count_ones (cs_set c)
  ∧ (cs_num_bool c = 0 ↔ cs_seq_length c = 0).
Proof.
  intros Hc. unfold cs_seq_length, cs_num_bool.
  assert (zget isizes (cs_set c) = Z.of_nat (length (digits_of (cs_set c)))) as Hlen
    by (by apply isizes_popcount9).
  split_and!; [done|by apply zget_isizes|]. rewrite Hlen. split.
  - intros ->. reflexivity.
  - intros Hz. apply digits_of_nil; [done|].
    destruct (digits_of (cs_set c)); [done|]. cbn [length] in Hz. lia.
Qed.

Lemma cs_seq_length_spec_witness :
  cs_ok (build_set 0x15)
  ∧ cs_seq_length (build_set 0x15) = Z.of_nat (length (digits_of (cs_set (build_set 0x15))))
  ∧ cs_seq_length (build_set 0x15) = count_ones (cs_set (build_set 0x15))
  ∧ (cs_num_bool (build_set 0x15) = 0 ↔ cs_seq_length (build_set 0x15) = 0).
Proof.
  assert (cs_ok (build_set 0x15)) as Hok by (vm_compute; split; discriminate).
  split; [exact Hok|]. exact (cs_seq_length_spec (build_set 0x15) Hok).
Defined.

(** ** The constructor *)

Lemma testbit_SET_BIT (set bit d : Z) :
  0 ≤ set < 512 → 0 ≤ bit < 9 → 0 ≤ d →
  0 ≤ SET_BIT set bit < 512
  ∧ Z.testbit (SET_BIT set bit) d = Z.testbit set d || bool_decide (d = bit).
Proof.
  intros Hset Hbit Hd. unfold SET_BIT.
  assert (0 ≤ Z.lor set (Z.shiftl 1 bit) ≤ TERMS) as Hb.
  { apply mask_bound_lor; [clia|]. rewrite Z.shiftl_1_l. split; [lia|].
    assert (2 ^ bit ≤ 2 ^ 8) by (apply Z.pow_le_mono_r; lia). clia. }
  rewrite uint16_small by clia. split; [clia|].
  rewrite Z.lor_spec, Z.shiftl_1_l, Z.pow2_bits_eqb by lia. f_equal.
  destruct (Z.eqb_spec bit d); case_bool_decide; done || lia.
Qed.

Lemma data_CandidateSet___new___loop_ok (args : list Z) :
  ∀ set, 0 ≤ set < 512 → Forall (λ bit, 0 ≤ bit < 9) args →
    ∃ set', data_CandidateSet___new___loop args set = Ok set'
      ∧ 0 ≤ set' < 512
      ∧ ∀ d, 0 ≤ d → Z.testbit set' d = Z.testbit set d || bool_decide (d ∈ args).
Proof.
  induction args as [|bit rest IH]; intros set Hset Hargs.
  - exists set. split; [done|]. split; [done|]. intros d _.
    rewrite bool_decide_false by apply not_elem_of_nil. by rewrite orb_false_r.
  - apply Forall_cons in Hargs as [Hbit Hrest]. cbn [data_CandidateSet___new___loop].
    destruct (Z.geb_spec bit 9); [lia|]. destruct (Z.ltb_spec bit 0); [lia|]. cbn [orb].
    destruct (IH (SET_BIT set bit)) as (set' & Hrun & Hb & Hbits); [|done|].
    { by apply (testbit_SET_BIT set bit 0). }
    exists set'. split; [done|]. split; [done|]. intros d Hd. rewrite Hbits by done.
    destruct (testbit_SET_BIT set bit d) as [_ ->]; [done..|].
    rewrite <- orb_assoc. f_equal.
    rewrite <- bool_decide_or. apply bool_decide_ext. by rewrite elem_of_cons.
Qed.

Lemma data_CandidateSet___new___loop_err (args : list Z) :
  ∀ set, ¬ Forall (λ bit, 0 ≤ bit < 9) args →
    data_CandidateSet___new___loop args set = Err BadDigit.
Proof.
  induction args as [|bit rest IH]; intros set Hargs.
  - destruct Hargs. constructor.
  - cbn [data_CandidateSet___new___loop].
    destruct (Z.geb_spec bit 9); [reflexivity|].
    destruct (Z.ltb_spec bit 0); [reflexivity|]. cbn [orb].
    apply IH. intros Hrest. apply Hargs. constructor; [lia|done].
Qed.

(** X2: [CandidateSet(bits...)] builds the set of its arguments when each
    of them is in 0..8, duplicates included, and fails as soon as one is
    not. *)
Theorem CandidateSet_new_spec (args : list Z) :
  (Forall (λ bit, 0 ≤ bit < 9) args →
     ∃ c, data_CandidateSet___new__ args = Ok c ∧ cs_ok c ∧ cs_iterpos c = 0
          ∧ ∀ d, 0 ≤ d → (cs_mem d c = true ↔ d ∈ args))
  ∧ (¬ Forall (λ bit, 0 ≤ bit < 9) args →
     data_CandidateSet___new__ args = Err BadDigit).
Proof.
  split; intros Hargs; unfold data_CandidateSet___new__.
  - destruct (data_CandidateSet___new___loop_ok args 0) as (set & -> & Hset & Hbits);
      [lia|done|].
    eexists. split_and!; [done|apply cs_ok_build_set|done|].
    intros d Hd. rewrite cs_mem_testbit, testbit_build_set, Hbits by done.
    rewrite Z.bits_0. cbn [orb]. rewrite Forall_forall in Hargs.
    repeat case_bool_decide; cbn; split; try done; intros Hin.
    specialize (Hargs d Hin). lia.
  - by rewrite data_CandidateSet___new___loop_err.
Qed.

Lemma CandidateSet_new_spec_witness :
  (∃ c, data_CandidateSet___new__ [3; 0; 3] = Ok c ∧ cs_ok c ∧ cs_iterpos c = 0
        ∧ ∀ d, 0 ≤ d → (cs_mem d c = true ↔ d ∈ [3; 0; 3]))
  ∧ data_CandidateSet___new__ [3; 9] = Err BadDigit.
Proof.
  split.
  - apply (proj1 (CandidateSet_new_spec [3; 0; 3])).
    repeat constructor; lia.
  - apply (proj2 (CandidateSet_new_spec [3; 9])).
    intros H. apply Forall_cons in H as [_ H]. apply Forall_cons in H as [H _]. lia.
Defined.

(** ** Set algebra *)

(** X3: the operators [&], [|], [^], [-] and [~] compute intersection,
    union, symmetric difference, difference and complement within the
    digits 0..8, whatever bits the operands carry; an operand that is not a
    CandidateSet gives NotImplemented. *)
Theorem cs_num_ops_spec (a b : CandidateSetObject) (d : Z) :
  0 ≤ d →
  (∃ r, cs_num_and (PyCandidateSet a) (PyCandidateSet b) = Some r ∧ cs_ok r
        ∧ cs_mem d r = cs_mem d a && cs_mem d b)
  ∧ (∃ r, cs_num_or (PyCandidateSet a) (PyCandidateSet b) = Some r ∧ cs_ok r
          ∧ cs_mem d r = cs_mem d a || cs_mem d b)
  ∧ (∃ r, cs_num_xor (PyCandidateSet a) (PyCandidateSet b) = Some r ∧ cs_ok r
          ∧ cs_mem d r = xorb (cs_mem d a) (cs_mem d b))
  ∧ (∃ r, cs_num_subtract (PyCandidateSet a) (PyCandidateSet b) = Some r ∧ cs_ok r
          ∧ cs_mem d r = cs_mem d a && negb (cs_mem d b))
  ∧ cs_ok (cs_num_invert a)
  ∧ cs_mem d (cs_num_invert a) = bool_decide (d < 9) && negb (cs_mem d a)
  ∧ (∀ v, cs_num_and PyOther v = None ∧ cs_num_and v PyOther = None
          ∧ cs_num_or PyOther v = None ∧ cs_num_or v PyOther = None
          ∧ cs_num_xor PyOther v = None ∧ cs_num_xor v PyOther = None
          ∧ cs_num_subtract PyOther v = None ∧ cs_num_subtract v PyOther = None).
Proof.
  intros Hd. split_and!.
  - eexists. split; [done|]. split; [apply cs_ok_build_set|].
    rewrite cs_mem_build_set, !cs_mem_testbit, Z.land_spec by done.
    by destruct (bool_decide (d < 9)), (Z.testbit (cs_set a) d), (Z.testbit (cs_set b) d).
  - eexists. split; [done|]. split; [apply cs_ok_build_set|].
    rewrite cs_mem_build_set, !cs_mem_testbit, Z.lor_spec by done.
    by destruct (bool_decide (d < 9)), (Z.testbit (cs_set a) d), (Z.testbit (cs_set b) d).
  - eexists. split; [done|]. split; [apply cs_ok_build_set|].
    rewrite cs_mem_build_set, !cs_mem_testbit, Z.lxor_spec by done.
    by destruct (bool_decide (d < 9)), (Z.testbit (cs_set a) d), (Z.testbit (cs_set b) d).
  - eexists. split; [done|]. split; [apply cs_ok_build_set|].
    rewrite cs_mem_build_set, !cs_mem_testbit, Z.land_spec, Z.lnot_spec by done.
    by destruct (bool_decide (d < 9)), (Z.testbit (cs_set a) d), (Z.testbit (cs_set b) d).
  - apply cs_ok_build_set.
  - unfold cs_num_invert.
    rewrite cs_mem_build_set, !cs_mem_testbit, Z.lnot_spec by done.
    by destruct (bool_decide (d < 9)), (Z.testbit (cs_set a) d).
  - intros v. by destruct v.
Qed.

Lemma cs_num_ops_spec_witness :
  ∃ r, cs_num_subtract (PyCandidateSet (build_set 7)) (PyCandidateSet (build_set 5))
       = Some r
       ∧ cs_ok r
       ∧ cs_mem 1 r = cs_mem 1 (build_set 7) && negb (cs_mem 1 (build_set 5)).
Proof.
  exact (proj1 (proj2 (proj2 (proj2
    (cs_num_ops_spec (build_set 7) (build_set 5) 1 ltac:(lia)))))).
Defined.

(** ** Comparison *)

Lemma SUBSET_testbit (x y : Z) :
  0 ≤ x ≤ TERMS → 0 ≤ y ≤ TERMS →
  (Z.lor x y = y ↔ ∀ d, 0 ≤ d < 9 → Z.testbit x d = true → Z.testbit y d = true).
Proof.
  intros Hx Hy. split.
  - intros Hor d Hd Hb. rewrite <- Hor, Z.lor_spec, Hb. done.
  - intros Hsub. apply Z.bits_inj'. intros d Hd. rewrite Z.lor_spec.
    destruct (Z.testbit x d) eqn:Hb; [|done]. cbn [orb]. symmetry.
    destruct (decide (d < 9)) as [Hlt|Hge]; [by apply Hsub; [lia|]|].
    apply mask_bound in Hx. rewrite <- Hx, Z.land_spec in Hb.
    change TERMS with (Z.ones 9) in Hb. rewrite Z.ones_spec_high in Hb by lia.
    by rewrite andb_false_r in Hb.
Qed.

Lemma count_ones_strict (x y : Z) :
  0 ≤ x ≤ TERMS → 0 ≤ y ≤ TERMS → Z.lor x y = y →
  (count_ones x <? count_ones y) = negb (x =? y).
Proof.
  intros Hx Hy Hor.
  assert (List.forallb (λ x, List.forallb (λ y,
            implb (Z.lor x y =? y)
                  (Bool.eqb (count_ones x <? count_ones y) (negb (x =? y))))
            (seqZ 0 512)) (seqZ 0 512) = true) as Hall by (vm_compute; reflexivity).
  rewrite List.forallb_forall in Hall.
  specialize (Hall x ltac:(apply list_elem_of_In, elem_of_seqZ; clia)).
  rewrite List.forallb_forall in Hall.
  specialize (Hall y ltac:(apply list_elem_of_In, elem_of_seqZ; clia)).
  rewrite (proj2 (Z.eqb_eq _ _) Hor) in Hall. cbn [implb] in Hall.
  by apply Bool.eqb_prop in Hall.
Qed.

(** X4: the comparison operators order CandidateSets by inclusion: [<=] is
    subset, [<] is proper subset (decided with the interned sizes), [==] is
    equality of the digit sets, and [>=], [>], [!=] are their mirror images
    and negation. *)
Theorem richcompare_spec (a b : CandidateSetObject) :
  cs_ok a → cs_ok b →
  let cmp := data_CandidateSet_richcompare (PyCandidateSet a) (PyCandidateSet b) in
  let subset := ∀ d, 0 ≤ d → cs_mem d a = true → cs_mem d b = true in
  (cmp Py_LE = Some true ↔ subset)
  ∧ (cmp Py_LT = Some true ↔ subset ∧ cs_set a ≠ cs_set b)
  ∧ (cmp Py_EQ = Some true ↔ ∀ d, 0 ≤ d → cs_mem d a = cs_mem d b)
  ∧ (cmp Py_EQ = Some true ↔ cs_set a = cs_set b)
  ∧ cmp Py_NE = negb <$> cmp Py_EQ
  ∧ cmp Py_GE
    = data_CandidateSet_richcompare (PyCandidateSet b) (PyCandidateSet a) Py_LE
  ∧ cmp Py_GT
    = data_CandidateSet_richcompare (PyCandidateSet b) (PyCandidateSet a) Py_LT.
Proof.
  intros Ha Hb cmp subset. unfold cs_ok in Ha, Hb.
  assert (subset ↔ Z.lor (cs_set a) (cs_set b) = cs_set b) as Hsub.
  { rewrite SUBSET_testbit by done. unfold subset. split.
    - intros H d Hd Hbit. specialize (H d ltac:(lia)).
      rewrite !cs_mem_testbit, !bool_decide_true in H by lia. by apply H.
    - intros H d Hd. rewrite !cs_mem_testbit by done.
      case_bool_decide; [|done]. cbn [andb]. apply H. lia. }
  unfold cmp, data_CandidateSet_richcompare. split_and!.
  - rewrite Hsub. split; [intros [= ?%Z.eqb_eq]; done|].
    intros H. f_equal. by apply Z.eqb_eq.
  - rewrite Hsub, !zget_isizes by done. split.
    + intros [= [Hor%Z.eqb_eq Hlt]%andb_true_iff]. split; [done|].
      rewrite count_ones_strict in Hlt by done.
      by apply negb_true_iff, Z.eqb_neq in Hlt.
    + intros [Hor Hne]. f_equal. apply andb_true_iff. split; [by apply Z.eqb_eq|].
      rewrite count_ones_strict by done. by apply negb_true_iff, Z.eqb_neq.
  - split.
    + intros [= Heq%Z.eqb_eq] d Hd. rewrite !cs_mem_testbit by done. by rewrite Heq.
    + intros H. f_equal. apply Z.eqb_eq, Z.bits_inj'. intros d Hd.
      destruct (decide (d < 9)) as [Hlt|Hge].
      * specialize (H d Hd). by rewrite !cs_mem_testbit, !bool_decide_true in H by lia.
      * apply mask_bound in Ha, Hb. rewrite <- Ha, <- Hb, !Z.land_spec.
        change TERMS with (Z.ones 9). rewrite Z.ones_spec_high by lia.
        by rewrite !andb_false_r.
  - split; [by intros [= ?%Z.eqb_eq]|]. intros ->. by rewrite Z.eqb_refl.
  - done.
  - by rewrite Z.lor_comm.
  - rewrite Z.lor_comm. do 2 f_equal. by rewrite Z.gtb_ltb.
Qed.

Lemma richcompare_spec_witness :
  data_CandidateSet_richcompare (PyCandidateSet (build_set 5))
    (PyCandidateSet (build_set 7)) Py_LT = Some true
  ↔ (∀ d, 0 ≤ d → cs_mem d (build_set 5) = true → cs_mem d (build_set 7) = true)
    ∧ cs_set (build_set 5) ≠ cs_set (build_set 7).
Proof.
  assert (cs_ok (build_set 5)) as H5 by (vm_compute; split; discriminate).
  assert (cs_ok (build_set 7)) as H7 by (vm_compute; split; discriminate).
  exact (proj1 (proj2 (richcompare_spec (build_set 5) (build_set 7) H5 H7))).
Defined.

(** ** Iteration *)

Lemma data_CandidateSet_iternext_loop_spec (n : nat) :
  ∀ self : CandidateSetObject,
    0 ≤ cs_iterpos self → n = Z.to_nat (9 - cs_iterpos self) →
    let T := Z.testbit (cs_set self) in
    match data_CandidateSet_iternext_loop n self with
    | (self', Some d) =>
        self' = {| cs_iterpos := d + 1; cs_set := cs_set self |}
        ∧ cs_iterpos self ≤ d < 9
        ∧ List.filter T (seqZ (cs_iterpos self) (9 - cs_iterpos self))
          = d :: List.filter T (seqZ (d + 1) (9 - (d + 1)))
    | (self', None) =>
        List.filter T (seqZ (cs_iterpos self) (9 - cs_iterpos self)) = []
        ∧ cs_set self' = cs_set self ∧ 9 ≤ cs_iterpos self'
    end.
Proof.
  induction n as [|n IH]; intros self Hpos Hn T; cbn [data_CandidateSet_iternext_loop].
  - rewrite seqZ_nil by lia. split_and!; [done|done|lia].
  - rewrite seqZ_cons by lia. cbn [List.filter].
    replace (Z.pred (9 - cs_iterpos self)) with (9 - (cs_iterpos self + 1)) by lia.
    replace (Z.succ (cs_iterpos self)) with (cs_iterpos self + 1) by lia.
    rewrite has_bit_testbit by done. fold T. destruct (T (cs_iterpos self)) eqn:Hb.
    + split_and!; [done|lia|lia|done].
    + specialize (IH {| cs_iterpos := cs_iterpos self + 1; cs_set := cs_set self |}).
      cbn [cs_iterpos cs_set] in IH. specialize (IH ltac:(lia) ltac:(lia)).
      fold T in IH.
      destruct (data_CandidateSet_iternext_loop n _) as [self' [d|]].
      * destruct IH as (? & ? & ?). split_and!; [done|lia|lia|done].
      * done.
Qed.

Lemma candidateset_emits_spec (fuel : nat) :
  ∀ self : CandidateSetObject,
    0 ≤ cs_iterpos self → (Z.to_nat (9 - cs_iterpos self) < fuel)%nat →
    candidateset_emits fuel self
    = Some (List.filter (Z.testbit (cs_set self))
              (seqZ (cs_iterpos self) (9 - cs_iterpos self))).
Proof.
  induction fuel as [|fuel IH]; intros self Hpos Hfuel; [lia|].
  cbn [candidateset_emits]. unfold data_CandidateSet_iternext.
  pose proof (data_CandidateSet_iternext_loop_spec _ self Hpos eq_refl) as Hspec.
  cbn zeta in Hspec.
  destruct (data_CandidateSet_iternext_loop _ self) as [self' [d|]].
  - destruct Hspec as (-> & Hd & ->). rewrite IH; cbn [cs_iterpos cs_set]; [done|lia|lia].
  - by destruct Hspec as (-> & _).
Qed.

Lemma digits_of_land_TERMS (set : Z) : digits_of (Z.land set TERMS) = digits_of set.
Proof.
  unfold digits_of. apply List.filter_ext_in. intros d Hd%list_elem_of_In%elem_of_seqZ.
  rewrite Z.land_spec. change TERMS with (Z.ones 9).
  rewrite Z.ones_spec_low by lia. apply andb_true_r.
Qed.

(** X5: a [for] loop over a CandidateSet sees its digits in ascending
    order, as many as [len] says, whatever position the set object itself
    is at: [iter] starts a fresh copy.  An iterator that has returned NULL
    keeps returning it. *)
Theorem CandidateSet_iteration (c : CandidateSetObject) (fuel : nat) :
  (9 < fuel)%nat →
  candidateset_emits fuel (data_CandidateSet_iter c) = Some (digits_of (cs_set c))
  ∧ cs_seq_length (data_CandidateSet_iter c) = Z.of_nat (length (digits_of (cs_set c)))
  ∧ ∀ self self', 0 ≤ cs_iterpos self →
      data_CandidateSet_iternext self = (self', None) →
      data_CandidateSet_iternext self' = (self', None).
Proof.
  intros Hfuel. split_and!.
  - rewrite candidateset_emits_spec; cbn [data_CandidateSet_iter build_set cs_iterpos cs_set];
      [|lia|lia].
    f_equal. apply digits_of_land_TERMS.
  - unfold cs_seq_length. rewrite isizes_popcount9 by apply cs_ok_build_set.
    unfold popcount9. cbn [data_CandidateSet_iter build_set cs_set].
    do 2 f_equal. apply digits_of_land_TERMS.
  - intros self self' Hpos Hnext. unfold data_CandidateSet_iternext in *.
    pose proof (data_CandidateSet_iternext_loop_spec _ self Hpos eq_refl) as Hspec.
    cbn zeta in Hspec. rewrite Hnext in Hspec. destruct Hspec as (_ & _ & Hend).
    by replace (Z.to_nat (9 - cs_iterpos self')) with 0%nat by lia.
Qed.

Lemma CandidateSet_iteration_witness :
  candidateset_emits 10 (data_CandidateSet_iter {| cs_iterpos := 4; cs_set := 0x105 |})
  = Some (digits_of 0x105).
Proof.
  exact (proj1 (CandidateSet_iteration {| cs_iterpos := 4; cs_set := 0x105 |} 10
                  ltac:(lia))).
Defined.

(** * Queries on keysets and houses *)

Lemma UNPACK_KEY_invalid (k : key) : ¬ valid_key k → UNPACK_KEY k = Err BadKey.
Proof.
  intros Hk. destruct (UNPACK_KEY k) as [xy|e] eqn:Hun.
  - by apply UNPACK_KEY_Ok in Hun as [_ ?].
  - destruct k as [x y]. unfold UNPACK_KEY in Hun.
    by destruct (_ || _); [injection Hun as <-|].
Qed.

Lemma zget_fmap_seqZ `{Inhabited A} (f : Z → A) (n d : Z) :
  0 ≤ d < n → zget (f <$> seqZ 0 n) d = f d.
Proof.
  intros Hd. unfold zget. destruct (Z.ltb_spec d 0); [lia|].
  rewrite list_lookup_total_alt, list_lookup_fmap, lookup_seqZ_lt by lia.
  cbn. f_equal. lia.
Qed.

Lemma data_State_candidate_in_keyset_loop_ok (grid : list cell_info) (cand : Z)
    (keyset : list key) :
  0 ≤ cand → Forall valid_key keyset →
  ∀ found,
    data_State_candidate_in_keyset_loop grid cand keyset found
    = Ok (found ++ List.filter
            (λ k, negb (CELL_FILLED grid k.1 k.2) && Z.testbit (CELL_CANDS grid k.1 k.2) cand)
            keyset).
Proof.
  intros Hcand. induction 1 as [|k rest Hk Hrest IH]; intros found.
  - cbn. by rewrite app_nil_r.
  - cbn [data_State_candidate_in_keyset_loop List.filter].
    rewrite (UNPACK_KEY_valid k Hk). destruct k as [x y]. cbn [fst snd].
    rewrite IH, has_bit_testbit by done.
    destruct (negb _ && _); [|done]. by rewrite <- app_assoc.
Qed.

Lemma data_State_candidate_in_keyset_loop_err (grid : list cell_info) (cand : Z)
    (keyset : list key) :
  ¬ Forall valid_key keyset →
  ∀ found, data_State_candidate_in_keyset_loop grid cand keyset found = Err BadKey.
Proof.
  induction keyset as [|k rest IH]; intros Hbad found.
  - destruct Hbad. constructor.
  - cbn [data_State_candidate_in_keyset_loop].
    destruct (decide (valid_key k)) as [Hk|Hk].
    + rewrite (UNPACK_KEY_valid k Hk). destruct k as [x y]. apply IH.
      intros Hrest. apply Hbad. by constructor.
    + by rewrite (UNPACK_KEY_invalid k Hk).
Qed.

(** X6: [candidate_in_keyset(cand, keyset)] returns the keys of the keyset,
    in its order and with its repetitions, whose cell is unsolved and has
    [cand] among its candidates; one key outside the grid anywhere in the
    keyset makes the whole call fail. *)
Theorem candidate_in_keyset_spec (s : SudokuStateObject) (cand : Z) (keyset : list key) :
  0 ≤ cand < 31 → (length keyset ≤ 81)%nat →
  (Forall valid_key keyset →
     data_State_candidate_in_keyset_impl s cand keyset
     = Ok (List.filter (λ k, negb (solved_at s k) && Z.testbit (cands_at s k) cand)
             keyset))
  ∧ (¬ Forall valid_key keyset →
     data_State_candidate_in_keyset_impl s cand keyset = Err BadKey).
Proof.
  intros Hcand _. unfold data_State_candidate_in_keyset_impl. split; intros Hks.
  - by rewrite data_State_candidate_in_keyset_loop_ok; [|lia|].
  - by apply data_State_candidate_in_keyset_loop_err.
Qed.

Lemma candidate_in_keyset_spec_witness :
  data_State_candidate_in_keyset_impl state_E1 3 [(0, 0); (0, 2); (4, 4); (0, 2)]
  = Ok (List.filter (λ k, negb (solved_at state_E1 k)
                          && Z.testbit (cands_at state_E1 k) 3)
          [(0, 0); (0, 2); (4, 4); (0, 2)])
  ∧ data_State_candidate_in_keyset_impl state_E1 3 [(0, 2); (0, 9)] = Err BadKey.
Proof.
  split.
  - apply (proj1 (candidate_in_keyset_spec state_E1 3 [(0, 0); (0, 2); (4, 4); (0, 2)]
                    ltac:(lia) ltac:(cbn; lia))).
    repeat constructor; cbn; clia.
  - apply (proj2 (candidate_in_keyset_spec state_E1 3 [(0, 2); (0, 9)]
                    ltac:(lia) ltac:(cbn; lia))).
    intros H. apply Forall_cons in H as [_ H]. apply Forall_cons in H as [[_ H] _].
    cbn in H. clia.
Defined.

Lemma data_State_candidates_from_keyset_loop_ok (grid : list cell_info)
    (keyset : list key) :
  Forall valid_key keyset →
  ∀ cands, ∃ cands',
    data_State_candidates_from_keyset_loop grid keyset cands = Ok cands'
    ∧ ∀ d, 0 ≤ d < 16 →
        Z.testbit cands' d
        = Z.testbit cands d
          || List.existsb (λ k, negb (CELL_FILLED grid k.1 k.2)
                                && Z.testbit (CELL_CANDS grid k.1 k.2) d) keyset.
Proof.
  induction 1 as [|k rest Hk Hrest IH]; intros cands.
  - exists cands. split; [done|]. intros d _. cbn. by rewrite orb_false_r.
  - cbn [data_State_candidates_from_keyset_loop List.existsb].
    rewrite (UNPACK_KEY_valid k Hk). destruct k as [x y]. cbn [fst snd].
    destruct (IH (if negb (CELL_FILLED grid x y)
                  then uint16 (Z.lor cands (CELL_CANDS grid x y)) else cands))
      as (cands' & -> & Hbits).
    exists cands'. split; [done|]. intros d Hd. rewrite Hbits by done.
    destruct (negb (CELL_FILLED grid x y)); cbn [andb orb]; [|done].
    rewrite testbit_uint16, Z.lor_spec by done. by rewrite orb_assoc.
Qed.

Lemma data_State_candidates_from_keyset_loop_err (grid : list cell_info)
    (keyset : list key) :
  ¬ Forall valid_key keyset →
  ∀ cands, data_State_candidates_from_keyset_loop grid keyset cands = Err BadKey.
Proof.
  induction keyset as [|k rest IH]; intros Hbad cands.
  - destruct Hbad. constructor.
  - cbn [data_State_candidates_from_keyset_loop].
    destruct (decide (valid_key k)) as [Hk|Hk].
    + rewrite (UNPACK_KEY_valid k Hk). destruct k as [x y]. apply IH.
      intros Hrest. apply Hbad. by constructor.
    + by rewrite (UNPACK_KEY_invalid k Hk).
Qed.

(** X7: [candidates_from_keyset(keyset)] is the union of the candidate sets
    of the unsolved cells of the keyset: a digit is in it exactly when
    [candidate_in_keyset] finds a key for that digit.  Solved cells
    contribute nothing, and one key outside the grid makes the call fail. *)
Theorem candidates_from_keyset_spec (s : SudokuStateObject) (keyset : list key) :
  (Forall valid_key keyset →
     ∃ c, data_State_candidates_from_keyset s keyset = Ok c ∧ cs_ok c
          ∧ (∀ d, 0 ≤ d →
               (cs_mem d c = true
                ↔ d < 9 ∧ ∃ k, k ∈ keyset ∧ solved_at s k = false
                               ∧ Z.testbit (cands_at s k) d = true))
          ∧ (∀ d, 0 ≤ d < 9 →
               (cs_mem d c = true
                ↔ data_State_candidate_in_keyset_impl s d keyset ≠ Ok [])))
  ∧ (¬ Forall valid_key keyset →
     data_State_candidates_from_keyset s keyset = Err BadKey).
Proof.
  unfold data_State_candidates_from_keyset. split; intros Hks.
  - destruct (data_State_candidates_from_keyset_loop_ok (ss_grid s) keyset Hks 0)
      as (cands & -> & Hbits).
    assert (∀ d, 0 ≤ d →
              (cs_mem d (build_set cands) = true
               ↔ d < 9 ∧ ∃ k, k ∈ keyset ∧ solved_at s k = false
                              ∧ Z.testbit (cands_at s k) d = true)) as Hmem.
    { intros d Hd. rewrite cs_mem_testbit, testbit_build_set by done.
      case_bool_decide as Hd9; [|cbn; split; [done|by intros [? _]]].
      cbn [andb]. rewrite andb_true_r, Hbits, Z.bits_0 by lia. cbn [orb].
      rewrite List.existsb_exists. split.
      - intros (k & Hin%list_elem_of_In & [Hu%negb_true_iff Hb]%andb_true_iff).
        split; [done|]. by exists k.
      - intros (_ & k & Hin & Hu & Hb). exists k. split; [by apply list_elem_of_In|].
        apply andb_true_iff. split; [by apply negb_true_iff|done]. }
    eexists. split; [done|]. split; [apply cs_ok_build_set|]. split; [done|].
    intros d Hd. rewrite Hmem by lia. unfold data_State_candidate_in_keyset_impl.
    rewrite data_State_candidate_in_keyset_loop_ok by (done || lia). cbn [app].
    split.
    + intros (_ & k & Hin & Hu & Hb) [= Hnil].
      assert (k ∈ List.filter (λ k, negb (CELL_FILLED (ss_grid s) k.1 k.2)
                && Z.testbit (CELL_CANDS (ss_grid s) k.1 k.2) d) keyset) as Hk.
      { apply list_elem_of_In, List.filter_In. split; [by apply list_elem_of_In|].
        apply andb_true_iff. split; [by apply negb_true_iff|done]. }
      rewrite Hnil in Hk. by apply elem_of_nil in Hk.
    + intros Hne. split; [lia|].
      destruct (List.filter (λ k : key, negb (CELL_FILLED (ss_grid s) k.1 k.2)
                  && Z.testbit (CELL_CANDS (ss_grid s) k.1 k.2) d) keyset)
        as [|k l] eqn:Hf; [destruct Hne; f_equal; exact Hf|].
      assert (k ∈ k :: l) as Hk by left. rewrite <- Hf in Hk.
      apply list_elem_of_In, List.filter_In in Hk
        as [Hin%list_elem_of_In [Hu%negb_true_iff Hb]%andb_true_iff].
      by exists k.
  - by rewrite data_State_candidates_from_keyset_loop_err.
Qed.

Lemma candidates_from_keyset_spec_witness :
  (∃ c, data_State_candidates_from_keyset state_E1 [(0, 0); (0, 2)] = Ok c ∧ cs_ok c
        ∧ (∀ d, 0 ≤ d →
             (cs_mem d c = true
              ↔ d < 9 ∧ ∃ k, k ∈ [(0, 0); (0, 2)] ∧ solved_at state_E1 k = false
                             ∧ Z.testbit (cands_at state_E1 k) d = true))
        ∧ (∀ d, 0 ≤ d < 9 →
             (cs_mem d c = true
              ↔ data_State_candidate_in_keyset_impl state_E1 d [(0, 0); (0, 2)] ≠ Ok [])))
  ∧ data_State_candidates_from_keyset state_E1 [(9, 0)] = Err BadKey.
Proof.
  split.
  - apply (proj1 (candidates_from_keyset_spec state_E1 [(0, 0); (0, 2)])).
    repeat constructor; cbn; clia.
  - apply (proj2 (candidates_from_keyset_spec state_E1 [(9, 0)])).
    intros H. apply Forall_cons in H as [[H _] _]. cbn in H. clia.
Defined.

(** X8: the two house queries read the same counters.
    [candidate_in_houses(key, cand)] checks the candidate before the key,
    and for a key of the grid and a digit 0..8 its column and row entries
    are entry [cand] of what [candidates_from_house] returns for houses
    9 + column and 18 + row; [candidates_from_house] returns nine counts for
    each house 0..26 and fails for every other index. *)
Theorem house_queries_spec (s : SudokuStateObject) (k : key) (cand house : Z) :
  (cand < 0 ∨ 9 ≤ cand → data_State_candidate_in_houses_impl s k cand = Err BadDigit)
  ∧ (0 ≤ cand < 9 → ¬ valid_key k →
     data_State_candidate_in_houses_impl s k cand = Err BadKey)
  ∧ (0 ≤ cand < 9 → valid_key k →
     ∃ g tc tr,
       data_State_candidate_in_houses_impl s k cand = Ok (g, zget tc cand, zget tr cand)
       ∧ data_State_candidates_from_house_impl s (k.2 + 9) = Some tc
       ∧ data_State_candidates_from_house_impl s (k.1 + 18) = Some tr
       ∧ g = cand_count s (CELL_GROUP s k.1 k.2) cand
       ∧ (0 ≤ CELL_GROUP s k.1 k.2 < 27 →
          ∃ tg, data_State_candidates_from_house_impl s (CELL_GROUP s k.1 k.2) = Some tg
                ∧ g = zget tg cand))
  ∧ (house < 0 ∨ 27 ≤ house → data_State_candidates_from_house_impl s house = None)
  ∧ (0 ≤ house < 27 →
     ∃ t, data_State_candidates_from_house_impl s house = Some t
          ∧ length t = 9%nat
          ∧ ∀ d, 0 ≤ d < 9 → zget t d = cand_count s house d).
Proof.
  assert (∀ h, 0 ≤ h < 27 →
            ∃ t, data_State_candidates_from_house_impl s h = Some t
                 ∧ length t = 9%nat
                 ∧ ∀ d, 0 ≤ d < 9 → zget t d = cand_count s h d) as Hfrom.
  { intros h Hh. unfold data_State_candidates_from_house_impl.
    destruct (Z.ltb_spec h 0); [lia|]. destruct (Z.geb_spec h 27); [lia|]. cbn [orb].
    eexists. split; [done|]. split; [by rewrite length_fmap, length_seqZ|].
    intros d Hd. by rewrite zget_fmap_seqZ by clia. }
  split_and!.
  - intros Hc. unfold data_State_candidate_in_houses_impl.
    destruct (Z.ltb_spec cand 0); [done|]. destruct (Z.geb_spec cand NUMROWS); [done|].
    clia.
  - intros Hc Hk. unfold data_State_candidate_in_houses_impl.
    destruct (Z.ltb_spec cand 0); [lia|]. destruct (Z.geb_spec cand NUMROWS); [clia|].
    cbn [orb]. by rewrite (UNPACK_KEY_invalid k Hk).
  - intros Hc Hk. unfold data_State_candidate_in_houses_impl.
    destruct (Z.ltb_spec cand 0); [lia|]. destruct (Z.geb_spec cand NUMROWS); [clia|].
    cbn [orb]. rewrite (UNPACK_KEY_valid k Hk). destruct k as [x y].
    cbn [fst snd] in *. destruct Hk as [Hx Hy]. cbn [fst snd] in Hx, Hy.
    destruct (Hfrom (y + 9)) as (tc & Htc & _ & Hc'); [clia|].
    destruct (Hfrom (x + 18)) as (tr & Htr & _ & Hr'); [clia|].
    eexists _, tc, tr. split_and!; [|done|done|done|].
    + rewrite Hc', Hr' by done. unfold cand_count. by unfold COLOFFSET, ROWOFFSET, NUMROWS.
    + intros Hg. destruct (Hfrom _ Hg) as (tg & Htg & _ & Hg'). exists tg.
      split; [done|]. by rewrite Hg'.
  - intros Hh. unfold data_State_candidates_from_house_impl.
    destruct (Z.ltb_spec house 0); [done|]. destruct (Z.geb_spec house 27); [done|]. lia.
  - apply Hfrom.
Qed.

Lemma house_queries_spec_witness :
  data_State_candidate_in_houses_impl state_E1 (0, 2) 9 = Err BadDigit
  ∧ ∃ t, data_State_candidates_from_house_impl state_E1 18 = Some t
         ∧ length t = 9%nat
         ∧ ∀ d, 0 ≤ d < 9 → zget t d = cand_count state_E1 18 d.
Proof.
  pose proof (house_queries_spec state_E1 (0, 2) 9 18) as (H1 & _ & _ & _ & H5).
  split; [apply H1; lia|apply H5; lia].
Defined.

(** * The iterators of the state *)

Lemma filter_negb_Permutation {A} (P : A → bool) (l : list A) :
  List.filter (λ a, negb (P a)) l ++ List.filter P l ≡ₚ l.
Proof.
  induction l as [|a l IH]; [done|]. cbn [List.filter].
  destruct (P a); cbn [negb app].
  - rewrite <- Permutation_middle. by constructor.
  - by constructor.
Qed.

(** X9: [order_simple], which is also the iterator of the candidates view,
    yields the unsolved keys in row-major order, and [order_solved], the
    iterator of the clues view, the solved ones; between them they yield
    each of the 81 keys once. *)
Theorem order_simple_solved_spec (s : SudokuStateObject) (fuel : nat) :
  (81 < fuel)%nat →
  keyiter_emits fuel (data_State_order_simple_impl s)
  = Some (List.filter (λ k, negb (solved_at s k)) all_keys)
  ∧ keyiter_emits fuel (data_State_order_solved_impl s)
    = Some (List.filter (solved_at s) all_keys)
  ∧ data_candidates_iter s = data_State_order_simple_impl s
  ∧ data_clues_iter s = data_State_order_solved_impl s
  ∧ List.filter (λ k, negb (solved_at s k)) all_keys
    ++ List.filter (solved_at s) all_keys ≡ₚ all_keys.
Proof.
  intros Hfuel. split_and!; [| |done|done|apply filter_negb_Permutation].
  - rewrite all_keys_keys_from.
    apply (keyiter_emits_scan KI_simple (λ k, negb (solved_at s k)) s 0);
      try done; cbn [ki_next_x ki_next_y data_State_order_simple_impl set_ki_next];
      try clia.
    intros ki Hs _. cbn [call_keyiterfunc]. unfold simple_keyiterfunc. by rewrite Hs.
  - rewrite all_keys_keys_from.
    apply (keyiter_emits_scan KI_solved (solved_at s) s 0);
      try done; cbn [ki_next_x ki_next_y data_State_order_solved_impl set_ki_next];
      try clia.
    intros ki Hs _. cbn [call_keyiterfunc]. unfold solved_keyiterfunc. by rewrite Hs.
Qed.

Lemma order_simple_solved_spec_witness :
  keyiter_emits 82 (data_State_order_solved_impl state_E1)
  = Some (List.filter (solved_at state_E1) all_keys).
Proof.
  exact (proj1 (proj2 (order_simple_solved_spec state_E1 82 ltac:(lia)))).
Defined.

(** ** Nested loops over the grid *)

Lemma fold_left_ext_in {A S} (f g : S → A → S) (l : list A) (s : S) :
  (∀ a s, a ∈ l → f s a = g s a) → fold_left f l s = fold_left g l s.
Proof.
  revert s. induction l as [|a l IH]; intros s Hfg; [done|]. cbn [fold_left].
  rewrite Hfg by left. apply IH. intros b s' Hb. apply Hfg. by right.
Qed.

Lemma fold_left_flat_map {A B S} (f : S → B → S) (g : A → list B) (l : list A) (s : S) :
  fold_left f (List.flat_map g l) s = fold_left (λ s a, fold_left f (g a) s) l s.
Proof.
  revert s. induction l as [|a l IH]; intros s; [done|]. cbn [List.flat_map fold_left].
  by rewrite List.fold_left_app, IH.
Qed.

Lemma fold_left_fmap {A B S} (f : S → B → S) (h : A → B) (l : list A) (s : S) :
  fold_left f (h <$> l) s = fold_left (λ s a, f s (h a)) l s.
Proof. revert s. induction l as [|a l IH]; intros s; [done|]. rewrite fmap_cons. apply IH. Qed.

Lemma all_keys_flat_map :
  all_keys = List.flat_map (λ i, (λ j, (i, j)) <$> seqZ 0 NUMROWS) (seqZ 0 NUMROWS).
Proof. vm_compute. reflexivity. Qed.

(** The double loop [for i, for j] over the grid visits the keys in
    row-major order. *)
Lemma nested_for_loop_all_keys {S} (body : Z → Z → S → S) (st : S) :
  for_loop 0 NUMROWS (λ i st, for_loop 0 NUMROWS (λ j st, body i j st) st) st
  = fold_left (λ st k, body k.1 k.2 st) all_keys st.
Proof.
  rewrite all_keys_flat_map, fold_left_flat_map. unfold for_loop.
  replace (NUMROWS - 0) with NUMROWS by lia.
  apply fold_left_ext_in. intros i s _. by rewrite fold_left_fmap.
Qed.

(** The same loop by linear index. *)
Lemma nested_for_loop_indices {S} (body : Z → Z → S → S) (st : S) :
  for_loop 0 NUMROWS (λ i st, for_loop 0 NUMROWS (λ j st, body i j st) st) st
  = fold_left (λ st j, body (ROW j) (COL j) st) (seqZ 0 GRIDSIZE) st.
Proof. rewrite nested_for_loop_all_keys. unfold all_keys. by rewrite fold_left_fmap. Qed.

(** ** order_by_num_candidates *)

Lemma order_by_num_candidates_sizes_fold (grid : list cell_info) (js : list Z) :
  NoDup js → (∀ j, j ∈ js → 0 ≤ j) →
  ∀ seen lens,
    let st' := fold_left (λ st j,
                 let '(seen, set_lens) := st in
                 if CELL_FILLED grid (ROW j) (COL j)
                 then (seen, zupd set_lens j (λ _, -1))
                 else
                   let size := zget isizes (CELL_CANDS grid (ROW j) (COL j)) in
                   (zupd seen size (λ _, 1), zupd set_lens j (λ _, size)))
               js (seen, lens) in
    (∀ j, 0 ≤ j → (Z.to_nat j < length lens)%nat →
       zget st'.2 j = if decide (j ∈ js) then set_len_at grid j else zget lens j)
    ∧ (∀ n, 0 ≤ n → zget seen n ≠ 0 → zget st'.1 n ≠ 0)
    ∧ (∀ j, j ∈ js → 0 ≤ set_len_at grid j →
         (Z.to_nat (set_len_at grid j) < length seen)%nat →
         zget st'.1 (set_len_at grid j) ≠ 0).
Proof.
  induction 1 as [|j js Hj Hnd IH]; intros Hpos seen lens.
  - cbn. split_and!; [|done|].
    + intros j _ _. rewrite decide_False; [done|]. apply not_elem_of_nil.
    + intros j Hj. by apply elem_of_nil in Hj.
  - cbn [fold_left].
    set (seen1 := if CELL_FILLED grid (ROW j) (COL j) then seen
                  else zupd seen (zget isizes (CELL_CANDS grid (ROW j) (COL j))) (λ _, 1)).
    set (lens1 := zupd lens j (λ _, set_len_at grid j)).
    assert ((if CELL_FILLED grid (ROW j) (COL j)
             then (seen, zupd lens j (λ _, -1))
             else (zupd seen (zget isizes (CELL_CANDS grid (ROW j) (COL j))) (λ _, 1),
                   zupd lens j (λ _, zget isizes (CELL_CANDS grid (ROW j) (COL j)))))
            = (seen1, lens1)) as ->.
    { unfold seen1, lens1, set_len_at. by destruct (CELL_FILLED grid (ROW j) (COL j)). }
    specialize (IH ltac:(intros; apply Hpos; by right) seen1 lens1).
    cbn zeta in IH. destruct IH as (Hlens & Hmono & Hseen).
    assert (length lens1 = length lens) as Hl1 by apply length_zupd.
    assert (length seen1 = length seen) as Hs1.
    { unfold seen1. destruct (CELL_FILLED _ _ _); [done|apply length_zupd]. }
    assert (∀ n, 0 ≤ n → zget seen n ≠ 0 → zget seen1 n ≠ 0) as Hmono1.
    { intros n Hn Hz. unfold seen1. destruct (CELL_FILLED _ _ _); [done|].
      rewrite zget_zupd by done. by case_decide. }
    split_and!.
    + intros i Hi Hlt. rewrite Hlens by (done || lia). unfold lens1.
      destruct (decide (i = j)) as [->|Hne].
      * rewrite (decide_False (P := j ∈ js)) by done.
        rewrite (decide_True (P := j ∈ j :: js)) by left.
        by rewrite zget_zupd_eq by done.
      * rewrite zget_zupd_ne by done.
        destruct (decide (i ∈ js)) as [Hin|Hin].
        -- by rewrite decide_True by (by right).
        -- rewrite decide_False; [done|]. by intros [?|?]%elem_of_cons.
    + intros n Hn Hz. by apply Hmono, Hmono1.
    + intros i Hi Hv Hlt. apply elem_of_cons in Hi as [->|Hi].
      * apply Hmono; [done|]. unfold seen1. unfold set_len_at in *.
        destruct (CELL_FILLED _ _ _); [lia|]. by rewrite zget_zupd_eq.
      * apply Hseen; [done..|lia].
Qed.

Lemma take_zupd_snoc {A} (data : list A) (acc : list A) (x : A) :
  take (length acc) data = acc → (length acc < length data)%nat →
  take (length (acc ++ [x])) (zupd data (Z.of_nat (length acc)) (λ _, x)) = acc ++ [x].
Proof.
  intros Htake Hlt. unfold zupd. destruct (Z.ltb_spec (Z.of_nat (length acc)) 0); [lia|].
  rewrite Nat2Z.id, length_app. cbn [length]. rewrite Nat.add_1_r.
  destruct (lookup_lt_is_Some_2 data (length acc) Hlt) as [y Hy].
  rewrite (take_S_r _ _ x); [|by rewrite list_lookup_alter_eq, Hy].
  by rewrite take_alter_ge, Htake by done.
Qed.

Lemma order_by_num_candidates_pass (test : Z → bool) (js : list Z) :
  ∀ acc data,
    (length acc + length (List.filter test js) ≤ length data)%nat →
    take (length acc) data = acc →
    ∃ data',
      fold_left (λ st j,
          let '(found, data) := st in
          if test j then (found + 1, zupd data found (λ _, j)) else (found, data))
        js (Z.of_nat (length acc), data)
      = (Z.of_nat (length (acc ++ List.filter test js)), data')
      ∧ take (length (acc ++ List.filter test js)) data' = acc ++ List.filter test js
      ∧ length data' = length data.
Proof.
  induction js as [|j js IH]; intros acc data Hcap Htake.
  - exists data. cbn. by rewrite app_nil_r.
  - cbn [fold_left List.filter] in *. destruct (test j).
    + cbn [length] in Hcap.
      destruct (IH (acc ++ [j]) (zupd data (Z.of_nat (length acc)) (λ _, j)))
        as (data' & Hrun & Htake' & Hlen).
      * rewrite length_app, length_zupd. cbn [length]. lia.
      * apply take_zupd_snoc; [done|lia].
      * exists data'. rewrite <- app_assoc in Hrun, Htake'. cbn [app] in Hrun, Htake'.
        split_and!; [|done|by rewrite Hlen, length_zupd].
        rewrite <- Hrun. do 2 f_equal. rewrite length_app. cbn [length]. lia.
    + by apply IH.
Qed.

Lemma order_by_num_candidates_passes_fold (seen lens : list Z) (ns : list Z) :
  (∀ n, n ∈ ns → zget seen n = 0 →
        List.filter (λ j, zget lens j =? n) (seqZ 0 GRIDSIZE) = []) →
  ∀ acc data,
    let all := List.flat_map (λ n, List.filter (λ j, zget lens j =? n) (seqZ 0 GRIDSIZE)) ns in
    (length acc + length all ≤ length data)%nat →
    take (length acc) data = acc →
    ∃ data',
      fold_left (λ st i,
          if negb (zget seen i =? 0) then
            for_loop 0 GRIDSIZE (λ j st,
              let '(found, data) := st in
              if zget lens j =? i
              then (found + 1, zupd data found (λ _, j))
              else (found, data)) st
          else st) ns (Z.of_nat (length acc), data)
      = (Z.of_nat (length (acc ++ all)), data')
      ∧ take (length (acc ++ all)) data' = acc ++ all
      ∧ length data' = length data.
Proof.
  induction ns as [|n ns IH]; intros Hseen acc data all Hcap Htake.
  - exists data. unfold all. cbn. by rewrite app_nil_r.
  - unfold all in *. cbn [List.flat_map fold_left] in *.
    rewrite length_app in Hcap.
    set (F := List.filter (λ j, zget lens j =? n) (seqZ 0 GRIDSIZE)) in *.
    assert (∃ data1,
              (if negb (zget seen n =? 0) then
                 for_loop 0 GRIDSIZE (λ j st,
                   let '(found, data) := st in
                   if zget lens j =? n
                   then (found + 1, zupd data found (λ _, j))
                   else (found, data)) (Z.of_nat (length acc), data)
               else (Z.of_nat (length acc), data))
              = (Z.of_nat (length (acc ++ F)), data1)
              ∧ take (length (acc ++ F)) data1 = acc ++ F
              ∧ length data1 = length data) as (data1 & -> & Htake1 & Hlen1).
    { destruct (Z.eqb_spec (zget seen n) 0) as [Hz|Hnz]; cbn [negb].
      - exists data. unfold F. rewrite (Hseen n) by (done || left).
        by rewrite app_nil_r.
      - pose proof (order_by_num_candidates_pass (λ j, zget lens j =? n)
                      (seqZ 0 GRIDSIZE) acc data) as Hpass.
        fold F in Hpass. destruct Hpass as (data1 & H1 & H2 & H3); [lia|done|].
        exists data1. split_and!; [|done|done].
        unfold for_loop. replace (GRIDSIZE - 0) with GRIDSIZE by lia. exact H1. }
    destruct (IH ltac:(intros; apply Hseen; [by right|done]) (acc ++ F) data1)
      as (data' & Hrun & Htake' & Hlen'); [rewrite length_app; lia|done|].
    exists data'. rewrite <- app_assoc in Hrun, Htake'.
    split_and!; [done|done|lia].
Qed.

(** ** Grouping a list by a key in 0..m-1 *)

Lemma filter_nil_forall {A} (P : A → bool) (l : list A) :
  (∀ a, a ∈ l → P a = false) → List.filter P l = [].
Proof.
  induction l as [|a l IH]; intros Hl; [done|]. cbn [List.filter].
  rewrite Hl by left. apply IH. intros b Hb. apply Hl. by right.
Qed.

Lemma filter_or_Permutation {A} (P Q : A → bool) (l : list A) :
  (∀ a, P a && Q a = false) →
  List.filter P l ++ List.filter Q l ≡ₚ List.filter (λ a, P a || Q a) l.
Proof.
  intros Hdisj. induction l as [|a l IH]; [done|]. cbn [List.filter].
  specialize (Hdisj a). destruct (P a), (Q a); try done; cbn [orb app].
  - by constructor.
  - rewrite <- Permutation_middle. by constructor.
Qed.

Lemma classes_Permutation {A} (f : A → Z) (P : A → bool) (l : list A) (m : nat) :
  List.flat_map (λ n, List.filter (λ a, P a && (f a =? n)) l) (seqZ 0 (Z.of_nat m))
  ≡ₚ List.filter (λ a, P a && (0 <=? f a) && (f a <? Z.of_nat m)) l.
Proof.
  induction m as [|m IH].
  - cbn. rewrite filter_nil_forall; [done|]. intros a _.
    destruct (P a), (Z.leb_spec 0 (f a)), (Z.ltb_spec (f a) (Z.of_nat 0)); try done. lia.
  - rewrite seqZ_S, List.flat_map_app, IH. cbn [List.flat_map]. rewrite app_nil_r.
    rewrite filter_or_Permutation.
    + erewrite List.filter_ext; [done|]. intros a. cbn beta.
      destruct (P a), (Z.leb_spec 0 (f a)), (Z.ltb_spec (f a) (Z.of_nat m)),
        (Z.eqb_spec (f a) (0 + Z.of_nat m)), (Z.ltb_spec (f a) (Z.of_nat (S m)));
        try done; lia.
    + intros a.
      destruct (P a), (Z.leb_spec 0 (f a)), (Z.ltb_spec (f a) (Z.of_nat m)),
        (Z.eqb_spec (f a) (0 + Z.of_nat m)); try done; lia.
Qed.

Lemma classes_sorted {A} (f : A → Z) (P : A → bool) (l : list A) (ns : list Z) :
  StronglySorted Z.lt ns →
  StronglySorted (λ a b, f a ≤ f b)
    (List.flat_map (λ n, List.filter (λ a, P a && (f a =? n)) l) ns).
Proof.
  induction 1 as [|n ns Hns IH Hlt]; [constructor|]. cbn [List.flat_map].
  assert (∀ a, a ∈ List.filter (λ a, P a && (f a =? n)) l → f a = n) as Hn.
  { intros a [_ [_ ?%Z.eqb_eq]%andb_true_iff]%list_elem_of_In%List.filter_In. done. }
  apply StronglySorted_app_2; [|clear IH|done].
  - intros a b Ha Hb. rewrite (Hn a Ha).
    apply list_elem_of_In, List.in_flat_map in Hb as (n' & Hn' & Hb).
    apply List.filter_In in Hb as [_ [_ ->%Z.eqb_eq]%andb_true_iff].
    rewrite Forall_forall in Hlt. apply list_elem_of_In in Hn'.
    specialize (Hlt _ Hn'). lia.
  - induction (List.filter (λ a, P a && (f a =? n)) l) as [|a l' IHl]; [constructor|].
    constructor.
    + apply IHl. intros b Hb. apply Hn. by right.
    + apply Forall_forall. intros b Hb. rewrite (Hn a) by left.
      rewrite (Hn b) by (by right). done.
Qed.

Lemma fmap_filter {A B} (h : A → B) (T : B → bool) (l : list A) :
  h <$> List.filter (λ a, T (h a)) l = List.filter T (h <$> l).
Proof.
  induction l as [|a l IH]; [done|]. rewrite fmap_cons. cbn [List.filter].
  destruct (T (h a)); [rewrite fmap_cons|]; by rewrite IH.
Qed.

Lemma fmap_flat_map {A B C} (h : B → C) (g : A → list B) (l : list A) :
  h <$> List.flat_map g l = List.flat_map (λ a, h <$> g a) l.
Proof.
  induction l as [|a l IH]; [done|]. cbn [List.flat_map].
  by rewrite fmap_app, IH.
Qed.

Lemma flat_map_ext_in {A B} (f g : A → list B) (l : list A) :
  (∀ a, a ∈ l → f a = g a) → List.flat_map f l = List.flat_map g l.
Proof.
  induction l as [|a l IH]; intros Hfg; [done|]. cbn [List.flat_map].
  rewrite Hfg by left. rewrite IH; [done|]. intros b Hb. apply Hfg. by right.
Qed.

Lemma popcount9_range (set : Z) : 0 ≤ popcount9 set ≤ 9.
Proof.
  unfold popcount9. pose proof (List.filter_length_le (Z.testbit set) (seqZ 0 9)) as H.
  rewrite length_seqZ in H. lia.
Qed.

(** The sizes by key: the unsolved keys, regrouped. *)
Lemma keys_by_size_Permutation (s : SudokuStateObject) :
  keys_by_size s ≡ₚ List.filter (λ k, negb (solved_at s k)) all_keys.
Proof.
  unfold keys_by_size. change (NUMROWS + 1) with (Z.of_nat 10).
  etrans; [apply (classes_Permutation (cell_size s) (λ k, negb (solved_at s k)))|].
  erewrite List.filter_ext; [done|]. intros k. cbn beta.
  pose proof (popcount9_range (cands_at s k)). unfold cell_size.
  destruct (negb (solved_at s k)), (Z.leb_spec 0 (popcount9 (cands_at s k))),
    (Z.ltb_spec (popcount9 (cands_at s k)) (Z.of_nat 10)); try done; lia.
Qed.

Lemma keys_by_size_sorted (s : SudokuStateObject) :
  StronglySorted (size_le s) (keys_by_size s).
Proof.
  apply (classes_sorted (cell_size s) (λ k, negb (solved_at s k))).
  apply StronglySorted_seqZ.
Qed.

Lemma order_by_num_candidates_sizes_spec (grid : list cell_info) :
  ∃ seen lens,
    order_by_num_candidates_sizes grid = (seen, lens)
    ∧ (∀ j, 0 ≤ j < GRIDSIZE → zget lens j = set_len_at grid j)
    ∧ (∀ j, 0 ≤ j < GRIDSIZE → 0 ≤ set_len_at grid j ≤ NUMROWS →
         zget seen (set_len_at grid j) ≠ 0).
Proof.
  unfold order_by_num_candidates_sizes.
  rewrite (nested_for_loop_indices (λ i j (st : list Z * list Z),
    let '(seen, set_lens) := st in
    if CELL_FILLED grid i j
    then (seen, zupd set_lens (INDEX i j) (λ _, -1))
    else
      let size := zget isizes (CELL_CANDS grid i j) in
      (zupd seen size (λ _, 1), zupd set_lens (INDEX i j) (λ _, size)))).
  rewrite (fold_left_ext_in _ (λ (st : list Z * list Z) j,
             let '(seen, set_lens) := st in
             if CELL_FILLED grid (ROW j) (COL j)
             then (seen, zupd set_lens j (λ _, -1))
             else
               let size := zget isizes (CELL_CANDS grid (ROW j) (COL j)) in
               (zupd seen size (λ _, 1), zupd set_lens j (λ _, size)))); last first.
  { intros j [seen lens] Hj%elem_of_seqZ. cbn beta iota zeta.
    destruct (ROW_COL_INDEX j) as [-> _]; [clia|]. reflexivity. }
  pose proof (order_by_num_candidates_sizes_fold grid (seqZ 0 GRIDSIZE)
                (NoDup_seqZ _ _) ltac:(intros j Hj%elem_of_seqZ; lia)
                (replicate (Z.to_nat (NUMROWS + 1)) 0)
                (replicate (Z.to_nat GRIDSIZE) 0)) as Hfold.
  cbn zeta in Hfold. destruct Hfold as (Hlens & _ & Hseen).
  destruct (fold_left _ (seqZ 0 GRIDSIZE) _) as [seen lens].
  exists seen, lens. split; [done|]. cbn [fst snd] in *. split.
  - intros j Hj. rewrite Hlens; [|lia|rewrite length_replicate; lia].
    rewrite decide_True; [done|]. apply elem_of_seqZ. lia.
  - intros j Hj Hv. apply Hseen; [apply elem_of_seqZ; lia|lia|].
    rewrite length_replicate. clia.
Qed.

Lemma set_len_at_exactly_n (s : SudokuStateObject) (j n : Z) :
  masks_ok s → 0 ≤ n →
  (set_len_at (ss_grid s) j =? n) = exactly_n_cell s n (ROW j, COL j).
Proof.
  intros Hmasks Hn. unfold set_len_at, exactly_n_cell, solved_at, cands_at.
  cbn [fst snd]. destruct (CELL_FILLED (ss_grid s) (ROW j) (COL j)); cbn [negb andb].
  - apply Z.eqb_neq. lia.
  - by rewrite isizes_popcount9 by (by apply masks_ok_cands).
Qed.

(** What [order_by_num_candidates] stores in the iterator. *)
Lemma order_by_num_candidates_data (s : SudokuStateObject) :
  masks_ok s → solved_ok s →
  let ki := data_State_order_by_num_candidates_impl s in
  ki_func ki = Some KI_precalculated ∧ ki_pos ki = 0
  ∧ ob_size ki = Z.of_nat (length (ki_data ki))
  ∧ (λ i, (ROW i, COL i)) <$> ki_data ki = keys_by_size s.
Proof.
  intros Hmasks Hsolved. cbn zeta. unfold data_State_order_by_num_candidates_impl.
  destruct (order_by_num_candidates_sizes_spec (ss_grid s))
    as (seen & lens & Hsizes & Hlens & Hseen).
  cbn [ki_state start_building_precalculated_keyiter set_ki_pos set_ki_func
       new_keyiter_object ki_data].
  rewrite Hsizes.
  set (F := λ n, List.filter (λ j, zget lens j =? n) (seqZ 0 GRIDSIZE)).
  set (all := List.flat_map F (seqZ 0 (NUMROWS + 1))).
  assert ((λ i, (ROW i, COL i)) <$> all = keys_by_size s) as Hall.
  { unfold all, keys_by_size. rewrite fmap_flat_map.
    apply flat_map_ext_in. intros n Hn%elem_of_seqZ. unfold F, all_keys.
    rewrite <- fmap_filter. f_equal. apply List.filter_ext_in.
    intros j Hj%list_elem_of_In%elem_of_seqZ. rewrite Hlens by lia.
    apply set_len_at_exactly_n; [done|lia]. }
  assert (length all = Z.to_nat (GRIDSIZE - ss_solved s)) as Hlen.
  { rewrite <- (length_fmap (λ i, (ROW i, COL i))), Hall, keys_by_size_Permutation.
    rewrite Hsolved.
    pose proof (List.filter_length (solved_at s) all_keys) as Hfl.
    assert (length all_keys = 81%nat) as Hk by (vm_compute; reflexivity).
    rewrite Hk in Hfl.
    enough (∀ a b c : nat, (a + b)%nat = 81%nat → c = b
                           → c = Z.to_nat (GRIDSIZE - Z.of_nat a)) as Hen
      by (eapply Hen; [exact Hfl|reflexivity]).
    intros a b c ? ?. clia. }
  pose proof (order_by_num_candidates_passes_fold seen lens (seqZ 0 (NUMROWS + 1)))
    as Hpass.
  assert (∀ n, n ∈ seqZ 0 (NUMROWS + 1) → zget seen n = 0 →
               List.filter (λ j, zget lens j =? n) (seqZ 0 GRIDSIZE) = []) as Hnil.
  { intros n Hn%elem_of_seqZ Hz. apply filter_nil_forall.
    intros j Hj%elem_of_seqZ. apply Z.eqb_neq. intros Heq.
    rewrite Hlens in Heq by lia. apply (Hseen j); [lia|clia|by rewrite Heq]. }
  destruct (Hpass Hnil [] (replicate (Z.to_nat (GRIDSIZE - ss_solved s)) 0))
    as (data' & Hrun & Htake & Hlen').
  - fold F. fold all. rewrite length_replicate. cbn [length]. lia.
  - done.
  - fold F in Hrun, Htake. fold all in Hrun, Htake. cbn [app length] in Hrun, Htake.
    assert (order_by_num_candidates_passes seen lens
              (replicate (Z.to_nat (GRIDSIZE - ss_solved s)) 0)
            = (Z.of_nat (length all), data')) as ->.
    { unfold order_by_num_candidates_passes. unfold for_loop at 1.
      replace (NUMROWS + 1 - 0) with (NUMROWS + 1) by lia. exact Hrun. }
    cbn [ki_func ki_pos ob_size ki_data set_ki_data].
    rewrite length_replicate in Hlen'.
    assert (data' = all) as ->.
    { trans (take (length all) data'); [symmetry; apply take_ge; lia|exact Htake]. }
    split_and!; [done|done| |done].
    cbn [ob_size start_building_precalculated_keyiter set_ki_pos set_ki_func
         new_keyiter_object].
    rewrite Hlen. pose proof (List.filter_length_le (solved_at s) all_keys) as Hle.
    assert (length all_keys = 81%nat) as Hk by (vm_compute; reflexivity).
    rewrite Hk in Hle. unfold solved_ok in Hsolved. rewrite Hsolved.
    enough (∀ a : nat, (a ≤ 81)%nat
                       → GRIDSIZE - Z.of_nat a = Z.of_nat (Z.to_nat (GRIDSIZE - Z.of_nat a)))
      as Hen by (apply Hen; exact Hle).
    intros a ?. clia.
Qed.

Lemma length_keys_by_size (s : SudokuStateObject) : (length (keys_by_size s) ≤ 81)%nat.
Proof.
  rewrite keys_by_size_Permutation.
  pose proof (List.filter_length_le (λ k, negb (solved_at s k)) all_keys) as Hle.
  assert (length all_keys = 81%nat) as Hk by (vm_compute; reflexivity).
  by rewrite Hk in Hle.
Qed.

Lemma order_by_num_candidates_emits (s : SudokuStateObject) (fuel : nat) :
  masks_ok s → solved_ok s → (81 < fuel)%nat →
  keyiter_emits fuel (data_State_order_by_num_candidates_impl s)
  = Some (keys_by_size s).
Proof.
  intros Hmasks Hsolved Hfuel.
  destruct (order_by_num_candidates_data s Hmasks Hsolved) as (Hf & Hp & Hsize & Hdata).
  rewrite keyiter_emits_precalculated; try done.
  - by rewrite Hp, drop_0, Hdata.
  - rewrite Hp, Hsize. lia.
  - rewrite Hp, Hsize, <- (length_fmap (λ i, (ROW i, COL i))), Hdata.
    eapply Nat.le_lt_trans; [|exact Hfuel]. rewrite Z.sub_0_r, Nat2Z.id.
    apply length_keys_by_size.
Qed.

(** X10: [order_by_num_candidates] yields the unsolved keys, the same ones
    as [order_simple], by ascending size of their candidate sets, keys of
    one size in row-major order. *)
Theorem order_by_num_candidates_spec (s : SudokuStateObject) (fuel : nat) :
  masks_ok s → solved_ok s → (81 < fuel)%nat →
  keyiter_emits fuel (data_State_order_by_num_candidates_impl s)
  = Some (keys_by_size s)
  ∧ keys_by_size s ≡ₚ List.filter (λ k, negb (solved_at s k)) all_keys
  ∧ StronglySorted (size_le s) (keys_by_size s).
Proof.
  intros Hmasks Hsolved Hfuel.
  split_and!; [|apply keys_by_size_Permutation|apply keys_by_size_sorted].
  by apply order_by_num_candidates_emits.
Qed.

Lemma order_by_num_candidates_spec_witness :
  keyiter_emits 82 (data_State_order_by_num_candidates_impl state_E1)
  = Some (keys_by_size state_E1)
  ∧ keys_by_size state_E1 ≡ₚ List.filter (λ k, negb (solved_at state_E1 k)) all_keys
  ∧ StronglySorted (size_le state_E1) (keys_by_size state_E1).
Proof.
  exact (order_by_num_candidates_spec state_E1 82 masks_ok_state_E1 solved_ok_state_E1
           ltac:(lia)).
Defined.

(** ** The reversed iterator *)

Lemma reversed_emits_spec (fuel : nat) :
  ∀ rv : ReversedKeyIter,
    rv_func rv = true →
    0 ≤ ki_pos (rv_ki rv) ≤ Z.of_nat (length (ki_data (rv_ki rv))) →
    (Z.to_nat (ki_pos (rv_ki rv)) < fuel)%nat →
    reversed_emits fuel rv
    = Some ((λ i, (ROW i, COL i))
              <$> reverse (take (Z.to_nat (ki_pos (rv_ki rv))) (ki_data (rv_ki rv)))).
Proof.
  induction fuel as [|fuel IH]; intros [ki f] Hf Hpos Hfuel; [lia|].
  cbn [rv_ki rv_func] in *. subst f. cbn [reversed_emits].
  unfold data_KeyIter_iternext_reversed, reversed_keyiterfunc. cbn [rv_ki rv_func].
  cbn [ki_pos set_ki_pos ki_data].
  destruct (Z.eqb_spec (ki_pos ki - 1) (-1)) as [Heq|Hne].
  - replace (ki_pos ki) with 0 by lia. done.
  - rewrite IH; cbn [rv_ki rv_func ki_pos set_ki_pos ki_data]; [|done|lia|lia].
    cbn [fmap option_fmap option_map]. f_equal.
    replace (Z.to_nat (ki_pos ki)) with (S (Z.to_nat (ki_pos ki - 1))) by lia.
    destruct (lookup_lt_is_Some_2 (ki_data ki) (Z.to_nat (ki_pos ki - 1)) ltac:(lia))
      as [x Hx].
    rewrite (take_S_r _ _ x), reverse_snoc, fmap_cons by done.
    assert (zget (ki_data ki) (ki_pos ki - 1) = x) as ->; [|done].
    unfold zget. destruct (Z.ltb_spec (ki_pos ki - 1) 0); [lia|].
    by rewrite list_lookup_total_alt, Hx.
Qed.

(** X11: [order_by_num_candidates_rev] yields what
    [order_by_num_candidates] yields, last key first, and stays exhausted
    after its last key. *)
Theorem order_by_num_candidates_rev_spec (s : SudokuStateObject) (fuel : nat) :
  masks_ok s → solved_ok s → (81 < fuel)%nat →
  reversed_emits fuel (data_State_order_by_num_candidates_rev_impl s)
  = Some (reverse (keys_by_size s))
  ∧ (reverse <$> keyiter_emits fuel (data_State_order_by_num_candidates_impl s))
    = reversed_emits fuel (data_State_order_by_num_candidates_rev_impl s)
  ∧ ∀ rv rv', data_KeyIter_iternext_reversed rv = (rv', None) →
              data_KeyIter_iternext_reversed rv' = (rv', None).
Proof.
  intros Hmasks Hsolved Hfuel.
  destruct (order_by_num_candidates_data s Hmasks Hsolved) as (Hf & Hp & Hsize & Hdata).
  assert (reversed_emits fuel (data_State_order_by_num_candidates_rev_impl s)
          = Some (reverse (keys_by_size s))) as Hrev.
  { unfold data_State_order_by_num_candidates_rev_impl.
    rewrite reversed_emits_spec; cbn [rv_ki rv_func ki_pos set_ki_pos ki_data]; [|done|lia|].
    - rewrite Hsize, Nat2Z.id, firstn_all, <- Hdata. by rewrite fmap_reverse.
    - rewrite Hsize, Nat2Z.id, <- (length_fmap (λ i, (ROW i, COL i))), Hdata.
      eapply Nat.le_lt_trans; [|exact Hfuel]. apply length_keys_by_size. }
  split_and!; [done| |].
  - by rewrite Hrev, order_by_num_candidates_emits.
  - intros [ki f] rv' Hnext. unfold data_KeyIter_iternext_reversed in *.
    cbn [rv_ki rv_func] in *. destruct f.
    + destruct (reversed_keyiterfunc ki) as [ki' [xy|]]; [done|].
      by injection Hnext as <-.
    + by injection Hnext as <-.
Qed.

Lemma order_by_num_candidates_rev_spec_witness :
  reversed_emits 82 (data_State_order_by_num_candidates_rev_impl state_E1)
  = Some (reverse (keys_by_size state_E1)).
Proof.
  exact (proj1 (order_by_num_candidates_rev_spec state_E1 82 masks_ok_state_E1
                  solved_ok_state_E1 ltac:(lia))).
Defined.

(** ** order_random at its edges *)

(** X12: on a finished grid [order_random] asks for no random bytes and
    returns an iterator that is exhausted at once, even when the entropy
    source would fail; with cells left it asks once, for
    [num_remaining / 6 + 1] bytes, and fails when the source does. *)
Theorem order_random_edges (fuel : nat) (s : SudokuStateObject)
    (urandom : Z → option (list Z)) :
  (ss_solved s = GRIDSIZE →
     ∃ ki, data_State_order_random_impl fuel s urandom = Some (Ok ki)
           ∧ ∀ n, keyiter_emits (S n) ki = Some [])
  ∧ (ss_solved s ≠ GRIDSIZE →
     urandom (Z.quot (GRIDSIZE - ss_solved s) 6 + 1) = None →
     data_State_order_random_impl fuel s urandom = Some (Err OsRngUnavailable))
  ∧ (∀ urandom' : Z → option (list Z),
       urandom' (Z.quot (GRIDSIZE - ss_solved s) 6 + 1)
       = urandom (Z.quot (GRIDSIZE - ss_solved s) 6 + 1) →
       data_State_order_random_impl fuel s urandom'
       = data_State_order_random_impl fuel s urandom).
Proof.
  unfold data_State_order_random_impl.
  cbn [ob_size ki_state ki_data start_building_precalculated_keyiter set_ki_pos
       set_ki_func new_keyiter_object].
  split_and!.
  - intros Hdone. rewrite Hdone, Z.sub_diag. cbn [Z.eqb]. eexists. split; [done|].
    intros n. cbn [keyiter_emits]. unfold data_KeyIter_iternext.
    cbn [ki_func start_building_precalculated_keyiter set_ki_pos set_ki_func
         new_keyiter_object call_keyiterfunc].
    unfold precalculated_keyiterfunc, start_building_precalculated_keyiter.
    cbn [ki_pos ob_size set_ki_pos set_ki_func new_keyiter_object].
    by rewrite Hdone, Z.sub_diag.
  - intros Hleft Hfail. destruct (Z.eqb_spec (GRIDSIZE - ss_solved s) 0); [lia|].
    by rewrite Hfail.
  - intros urandom' Heq. destruct (GRIDSIZE - ss_solved s =? 0); [done|].
    by rewrite Heq.
Qed.

(** * The candidates and clues views *)

Lemma fold_left_snoc_filter {A B} (T : A → bool) (g : A → B) (l : list A) :
  ∀ acc, fold_left (λ dict a, if T a then dict ++ [g a] else dict) l acc
         = acc ++ (g <$> List.filter T l).
Proof.
  induction l as [|a l IH]; intros acc; cbn [fold_left List.filter].
  - by rewrite app_nil_r.
  - rewrite IH. destruct (T a); [|done]. by rewrite fmap_cons, <- app_assoc.
Qed.

(** [build_dict] lists the cells it keeps in row-major order. *)
Lemma build_dict_CLUES_spec (s : SudokuStateObject) :
  build_dict_CLUES s
  = (λ k, (k, value_at s k)) <$> List.filter (solved_at s) all_keys.
Proof.
  unfold build_dict_CLUES.
  rewrite (nested_for_loop_all_keys (λ i j (dict : list (key * Z)),
    if CELL_FILLED (ss_grid s) i j
    then dict ++ [((i, j), CELL_VALUE (ss_grid s) i j)] else dict)).
  rewrite (fold_left_ext_in _
             (λ dict k, if solved_at s k then dict ++ [(k, value_at s k)] else dict)).
  - apply (fold_left_snoc_filter (solved_at s) (λ k, (k, value_at s k)) all_keys []).
  - intros [x y] dict _. reflexivity.
Qed.

Lemma build_dict_CANDS_spec (s : SudokuStateObject) (hidden : bool) :
  build_dict_CANDS s hidden
  = (λ k, (k, PyCandidateSet (build_set (cands_at s k))))
      <$> List.filter (λ k, negb (solved_at s k) || (hidden && (cands_at s k >? 0)))
            all_keys.
Proof.
  unfold build_dict_CANDS.
  rewrite (nested_for_loop_all_keys (λ i j (dict : list (key * pyobject)),
    if negb (CELL_FILLED (ss_grid s) i j)
       || (hidden && (CELL_CANDS (ss_grid s) i j >? 0))
    then dict ++ [((i, j), PyCandidateSet (build_set (CELL_CANDS (ss_grid s) i j)))]
    else dict)).
  rewrite (fold_left_ext_in _
             (λ dict k, if negb (solved_at s k) || (hidden && (cands_at s k >? 0))
                        then dict ++ [(k, PyCandidateSet (build_set (cands_at s k)))]
                        else dict)).
  - apply (fold_left_snoc_filter
             (λ k, negb (solved_at s k) || (hidden && (cands_at s k >? 0)))
             (λ k, (k, PyCandidateSet (build_set (cands_at s k)))) all_keys []).
  - intros [x y] dict _. reflexivity.
Qed.

Lemma fmap_fst_pair {A B} (g : A → B) (l : list A) : ((λ a, (a, g a)) <$> l).*1 = l.
Proof. induction l as [|a l IH]; [done|]. rewrite !fmap_cons. cbn [fst]. by rewrite IH. Qed.

Lemma data_clues_subscript_spec (s : SudokuStateObject) (k : key) :
  data_clues_subscript s k
  = if decide (valid_key k)
    then if solved_at s k then Ok (value_at s k) else Err KeyConflict
    else Err BadKey.
Proof.
  unfold data_clues_subscript. case_decide as Hk.
  - rewrite (UNPACK_KEY_valid k Hk). destruct k as [x y]. unfold solved_at, value_at.
    cbn [fst snd]. by destruct (CELL_FILLED (ss_grid s) x y).
  - by rewrite (UNPACK_KEY_invalid k Hk).
Qed.

Lemma data_candidates_subscript_spec (s : SudokuStateObject) (k : key) :
  data_candidates_subscript s k
  = if decide (valid_key k)
    then if solved_at s k then Err KeyConflict else Ok (build_set (cands_at s k))
    else Err BadKey.
Proof.
  unfold data_candidates_subscript. case_decide as Hk.
  - rewrite (UNPACK_KEY_valid k Hk). destruct k as [x y]. unfold solved_at, cands_at.
    by cbn [fst snd].
  - by rewrite (UNPACK_KEY_invalid k Hk).
Qed.

(** X13: the two views behave as mappings that agree with themselves.  For
    each view, iteration yields the keys of [getdict()] in its order, every
    item of [getdict()] is what subscripting returns, and a key of the grid
    can be subscripted in exactly one of the two views; with [ss_solved]
    the number of solved cells, [len] is the number of items. *)
Theorem views_agree (s : SudokuStateObject) (fuel : nat) :
  solved_ok s → (81 < fuel)%nat →
  let clues := data_state_clues_getdict_impl s in
  let cands := data_state_candidates_getdict_impl s in
  keyiter_emits fuel (data_clues_iter s) = Some clues.*1
  ∧ keyiter_emits fuel (data_candidates_iter s) = Some cands.*1
  ∧ data_clues_length s = Z.of_nat (length clues)
  ∧ data_candidates_length s = Z.of_nat (length cands)
  ∧ (∀ k v, (k, v) ∈ clues → data_clues_subscript s k = Ok v)
  ∧ (∀ k v, (k, v) ∈ cands →
       ∃ c, v = PyCandidateSet c ∧ data_candidates_subscript s k = Ok c)
  ∧ (∀ k, is_ok (data_clues_subscript s k) = true ↔ k ∈ clues.*1)
  ∧ (∀ k, is_ok (data_candidates_subscript s k) = true ↔ k ∈ cands.*1)
  ∧ (∀ k, valid_key k →
       is_ok (data_clues_subscript s k) = negb (is_ok (data_candidates_subscript s k))).
Proof.
  intros Hsolved Hfuel clues cands.
  assert (clues.*1 = List.filter (solved_at s) all_keys) as Hck.
  { unfold clues, data_state_clues_getdict_impl.
    by rewrite build_dict_CLUES_spec, fmap_fst_pair. }
  assert (cands.*1 = List.filter (λ k, negb (solved_at s k)) all_keys) as Hdk.
  { unfold cands, data_state_candidates_getdict_impl.
    rewrite build_dict_CANDS_spec, fmap_fst_pair.
    apply List.filter_ext. intros k. cbn [andb]. by rewrite orb_false_r. }
  assert (length all_keys = 81%nat) as H81 by (vm_compute; reflexivity).
  pose proof (List.filter_length (solved_at s) all_keys) as Hfl. rewrite H81 in Hfl.
  split_and!.
  - rewrite Hck, all_keys_keys_from.
    apply (keyiter_emits_scan KI_solved (solved_at s) s 0);
      try done; cbn [ki_next_x ki_next_y data_State_order_solved_impl set_ki_next];
      try clia.
    intros ki Hs _. cbn [call_keyiterfunc]. unfold solved_keyiterfunc. by rewrite Hs.
  - rewrite Hdk, all_keys_keys_from.
    apply (keyiter_emits_scan KI_simple (λ k, negb (solved_at s k)) s 0);
      try done; cbn [ki_next_x ki_next_y data_State_order_simple_impl set_ki_next];
      try clia.
    intros ki Hs _. cbn [call_keyiterfunc]. unfold simple_keyiterfunc. by rewrite Hs.
  - unfold data_clues_length. rewrite Hsolved.
    by rewrite <- (length_fmap fst clues), Hck.
  - unfold data_candidates_length. rewrite Hsolved.
    rewrite <- (length_fmap fst cands), Hdk.
    enough (∀ a b c : nat, (a + b)%nat = 81%nat → c = b
                           → GRIDSIZE - Z.of_nat a = Z.of_nat c) as Hen
      by (eapply Hen; [exact Hfl|reflexivity]).
    intros a b c ? ?. clia.
  - intros k v Hin. unfold clues, data_state_clues_getdict_impl in Hin.
    rewrite build_dict_CLUES_spec in Hin.
    apply list_elem_of_fmap in Hin as (k' & [= -> ->] & Hk').
    apply list_elem_of_In, List.filter_In in Hk' as [Hk'%list_elem_of_In%elem_of_all_keys Hs].
    rewrite data_clues_subscript_spec, decide_True by done. by rewrite Hs.
  - intros k v Hin. unfold cands, data_state_candidates_getdict_impl in Hin.
    rewrite build_dict_CANDS_spec in Hin.
    apply list_elem_of_fmap in Hin as (k' & [= -> ->] & Hk').
    apply list_elem_of_In, List.filter_In in Hk' as [Hk'%list_elem_of_In%elem_of_all_keys Hs].
    cbn [andb] in Hs. rewrite orb_false_r in Hs. apply negb_true_iff in Hs.
    eexists. split; [done|].
    rewrite data_candidates_subscript_spec, decide_True by done. by rewrite Hs.
  - intros k. rewrite Hck, list_elem_of_In, List.filter_In, <- list_elem_of_In,
      elem_of_all_keys, data_clues_subscript_spec.
    clear. case_decide as Hk; [|cbn [is_ok]; split; [done|by intros [? _]]].
    destruct (solved_at s k); cbn [is_ok]; split; try done. by intros [_ ?].
  - intros k. rewrite Hdk, list_elem_of_In, List.filter_In, <- list_elem_of_In,
      elem_of_all_keys, data_candidates_subscript_spec.
    clear. case_decide as Hk; [|cbn [is_ok]; split; [done|by intros [? _]]].
    destruct (solved_at s k); cbn [is_ok negb]; split; try done. by intros [_ ?].
  - intros k Hk. rewrite data_clues_subscript_spec, data_candidates_subscript_spec,
      !decide_True by done.
    by destruct (solved_at s k).
Qed.

Lemma views_agree_witness :
  keyiter_emits 82 (data_clues_iter state_E1)
  = Some (data_state_clues_getdict_impl state_E1).*1
  ∧ data_clues_length state_E1
    = Z.of_nat (length (data_state_clues_getdict_impl state_E1)).
Proof.
  pose proof (views_agree state_E1 82 solved_ok_state_E1 ltac:(lia)) as (H1 & _ & H3 & _).
  split; [exact H1|exact H3].
Defined.

(** * Assignments through the views *)

(** What [candidates[k] = c] does to an unsolved cell. *)
Lemma data_candidates_ass_sub_ok (s : SudokuStateObject) (k : key)
    (c : CandidateSetObject) :
  wf_state s → valid_key k → solved_at s k = false →
  ∃ s', data_candidates_ass_sub s k (Some (PyCandidateSet c)) = (s', Ok tt)
        ∧ same_clues s s' ∧ wf_state s'
        ∧ ∀ k', valid_key k' →
            cands_at s' k' = if decide (k' = k) then uint16 (cs_set c) else cands_at s k'.
Proof.
  intros Hwf Hk Hu. unfold data_candidates_ass_sub.
  rewrite (UNPACK_KEY_valid k Hk). destruct k as [x y].
  unfold solved_at in Hu. cbn [fst snd] in Hu. rewrite Hu.
  eexists. split; [done|].
  pose proof (house_adjust_cand_count_same (-1) x y (CELL_CANDS (ss_grid s) x y) s)
    as (Hsame1 & Hg1 & Hwf1).
  fold (house_adjust_cand_count_down s x y (CELL_CANDS (ss_grid s) x y)) in *.
  set (s1 := house_adjust_cand_count_down s x y (CELL_CANDS (ss_grid s) x y)) in *.
  pose proof (house_adjust_cand_count_same 1 x y (cs_set c) s1) as (Hsame2 & Hg2 & Hwf2).
  fold (house_adjust_cand_count_up s1 x y (cs_set c)) in *.
  set (s2 := house_adjust_cand_count_up s1 x y (cs_set c)) in *.
  pose proof (set_CELL_CANDS_spec s2 x y (cs_set c)) as (Hsame3 & _ & Hwf3 & Hc3).
  split_and!.
  - eapply same_clues_trans; [|exact Hsame3].
    eapply same_clues_trans; [exact Hsame1|exact Hsame2].
  - auto.
  - intros k' Hk'. rewrite Hc3 by auto. case_decide; [done|].
    unfold cands_at. by rewrite Hg2, Hg1.
Qed.

Lemma same_clues_clues_subscript (s s' : SudokuStateObject) (k : key) :
  same_clues s s' → data_clues_subscript s' k = data_clues_subscript s k.
Proof.
  intros Hsame. rewrite !data_clues_subscript_spec.
  rewrite (same_clues_solved_at s s' k Hsame).
  destruct Hsame as (_ & _ & _ & _ & _ & _ & _ & Hv & _). by rewrite Hv.
Qed.

(** X14: storing a candidate set in an unsolved cell through the candidates
    view and reading it back returns the same set; the other cells, the
    clues view and the length of the view are not affected, and deleting
    the item stores the empty set.  A solved cell, a key outside the grid and
    a value that is not a CandidateSet are refused without a change. *)
Theorem candidates_view_set_get (s : SudokuStateObject) (k : key)
    (c : CandidateSetObject) :
  wf_state s →
  (valid_key k → solved_at s k = false → cs_ok c →
     (∃ s', data_candidates_ass_sub s k (Some (PyCandidateSet c)) = (s', Ok tt)
            ∧ data_candidates_subscript s' k = Ok (build_set (cs_set c))
            ∧ (∀ k', k' ≠ k →
                 data_candidates_subscript s' k' = data_candidates_subscript s k')
            ∧ (∀ k', data_clues_subscript s' k' = data_clues_subscript s k')
            ∧ data_candidates_length s' = data_candidates_length s)
     ∧ (∃ s', data_candidates_ass_sub s k None = (s', Ok tt)
              ∧ data_candidates_subscript s' k = Ok (build_set 0)))
  ∧ (valid_key k → solved_at s k = true →
     data_candidates_ass_sub s k (Some (PyCandidateSet c)) = (s, Err KeyConflict)
     ∧ data_candidates_ass_sub s k None = (s, Err KeyConflict)
     ∧ data_candidates_subscript s k = Err KeyConflict)
  ∧ (¬ valid_key k →
     data_candidates_ass_sub s k (Some (PyCandidateSet c)) = (s, Err BadKey)
     ∧ data_candidates_subscript s k = Err BadKey)
  ∧ data_candidates_ass_sub s k (Some PyOther) = (s, Err TypeMismatch).
Proof.
  intros Hwf. split_and!.
  - intros Hk Hu Hc. split.
    + destruct (data_candidates_ass_sub_ok s k c Hwf Hk Hu)
        as (s' & Hrun & Hsame & Hwf' & Hcands).
      exists s'. split; [done|]. split_and!.
      * rewrite data_candidates_subscript_spec, decide_True by done.
        rewrite (same_clues_solved_at s s' k Hsame), Hu, Hcands by done.
        rewrite decide_True by done. by rewrite mask_bound_uint16.
      * intros k' Hne. rewrite !data_candidates_subscript_spec.
        case_decide as Hk'; [|done].
        rewrite (same_clues_solved_at s s' k' Hsame), Hcands by done.
        by rewrite decide_False.
      * intros k'. by apply same_clues_clues_subscript.
      * unfold data_candidates_length. by destruct Hsame as (-> & _).
    + destruct (data_candidates_ass_sub_ok s k (build_set 0) Hwf Hk Hu)
        as (s' & Hrun & Hsame & Hwf' & Hcands).
      exists s'. split; [exact Hrun|].
      rewrite data_candidates_subscript_spec, decide_True by done.
      rewrite (same_clues_solved_at s s' k Hsame), Hu, Hcands by done.
      by rewrite decide_True.
  - intros Hk Hs. rewrite data_candidates_subscript_spec, decide_True, Hs by done.
    unfold data_candidates_ass_sub. rewrite (UNPACK_KEY_valid k Hk).
    destruct k as [x y]. unfold solved_at in Hs. cbn [fst snd] in Hs.
    by rewrite Hs.
  - intros Hk. rewrite data_candidates_subscript_spec, decide_False by done.
    unfold data_candidates_ass_sub. by rewrite (UNPACK_KEY_invalid k Hk).
  - done.
Qed.

Lemma candidates_view_set_get_witness :
  ∃ s', data_candidates_ass_sub state_E1 (0, 2) (Some (PyCandidateSet (build_set 0x111)))
        = (s', Ok tt)
        ∧ data_candidates_subscript s' (0, 2) = Ok (build_set (cs_set (build_set 0x111)))
        ∧ (∀ k', k' ≠ (0, 2) →
             data_candidates_subscript s' k' = data_candidates_subscript state_E1 k')
        ∧ (∀ k', data_clues_subscript s' k' = data_clues_subscript state_E1 k')
        ∧ data_candidates_length s' = data_candidates_length state_E1.
Proof.
  pose proof (candidates_view_set_get state_E1 (0, 2) (build_set 0x111) wf_state_state_E1)
    as [H _].
  apply H.
  - vm_compute. repeat split; discriminate.
  - vm_compute. reflexivity.
  - vm_compute. split; discriminate.
Defined.

(** ** The solved counters of the houses *)

Lemma upd_house_solved_add_spec (s : SudokuStateObject) (k delta : Z) :
  let s' := upd_house s k (solved_add delta) in
  (houses_wf (ss_houses s) → houses_wf (ss_houses s'))
  ∧ (∀ h d, cand_count s' h d = cand_count s h d)
  ∧ (houses_wf (ss_houses s) → ∀ h, 0 ≤ h < 27 →
       solved_count s' h = solved_count s h + if decide (k = h) then delta else 0).
Proof.
  cbn zeta. unfold upd_house. cbn [ss_houses set_ss_houses]. split_and!.
  - intros Hwf. by apply houses_wf_zupd.
  - intros h d. unfold cand_count. cbn [ss_houses set_ss_houses].
    by rewrite (zget_zupd_proj hi_cand_count).
  - intros [Hlen _] h Hh. unfold solved_count. cbn [ss_houses set_ss_houses].
    rewrite zget_zupd by lia. destruct (decide (k = h)) as [->|Hne].
    + rewrite decide_True by (split; [done|lia]). done.
    + rewrite decide_False by (by intros [? _]). lia.
Qed.

Lemma house_adjust_solved_spec (delta : Z) (s : SudokuStateObject) (x y : Z) :
  let s' := upd_house (upd_house (upd_house s (x + ROWOFFSET) (solved_add delta))
                         (y + COLOFFSET) (solved_add delta))
              (CELL_GROUP s x y) (solved_add delta) in
  (houses_wf (ss_houses s) → houses_wf (ss_houses s'))
  ∧ (∀ h d, cand_count s' h d = cand_count s h d)
  ∧ (houses_wf (ss_houses s) → ∀ h, 0 ≤ h < 27 →
       solved_count s' h = solved_count s h + delta * hits s (x, y) h).
Proof.
  cbn zeta.
  pose proof (upd_house_solved_add_spec s (x + ROWOFFSET) delta) as (W1 & C1 & S1).
  set (s1 := upd_house s (x + ROWOFFSET) (solved_add delta)) in *.
  pose proof (upd_house_solved_add_spec s1 (y + COLOFFSET) delta) as (W2 & C2 & S2).
  set (s2 := upd_house s1 (y + COLOFFSET) (solved_add delta)) in *.
  pose proof (upd_house_solved_add_spec s2 (CELL_GROUP s x y) delta) as (W3 & C3 & S3).
  split_and!.
  - auto.
  - intros h d. by rewrite C3, C2, C1.
  - intros Hwf h Hh. rewrite S3, S2, S1, hits_unfold by auto. cbn [fst snd].
    repeat case_decide; lia.
Qed.

(** Two house tables of the right shape with the same counters are equal. *)
Lemma houses_ext (hs hs' : list house_info) :
  houses_wf hs → houses_wf hs' →
  (∀ h, 0 ≤ h < 27 → hi_solved (zget hs h) = hi_solved (zget hs' h)) →
  (∀ h d, 0 ≤ h < 27 → 0 ≤ d < 9 →
     zget (hi_cand_count (zget hs h)) d = zget (hi_cand_count (zget hs' h)) d) →
  hs = hs'.
Proof.
  intros [Hlen Hall] [Hlen' Hall'] Hs Hc.
  apply (list_eq_same_length _ _ 27); [done..|]. intros i [sv cc] [sv' cc'] Hi Hx Hy.
  assert (zget hs (Z.of_nat i) = mkHouse sv cc) as Hzx.
  { unfold zget. destruct (Z.ltb_spec (Z.of_nat i) 0); [lia|].
    by rewrite Nat2Z.id, list_lookup_total_alt, Hx. }
  assert (zget hs' (Z.of_nat i) = mkHouse sv' cc') as Hzy.
  { unfold zget. destruct (Z.ltb_spec (Z.of_nat i) 0); [lia|].
    by rewrite Nat2Z.id, list_lookup_total_alt, Hy. }
  specialize (Hs (Z.of_nat i) ltac:(lia)). rewrite Hzx, Hzy in Hs. cbn in Hs.
  f_equal; [done|].
  rewrite Forall_forall in Hall, Hall'.
  assert (length cc = 9%nat) as Hl
    by (apply (Hall (mkHouse sv cc)); by eapply list_elem_of_lookup_2).
  assert (length cc' = 9%nat) as Hl'
    by (apply (Hall' (mkHouse sv' cc')); by eapply list_elem_of_lookup_2).
  apply (list_eq_same_length _ _ 9); [done..|]. intros j a b Hj Ha Hb.
  specialize (Hc (Z.of_nat i) (Z.of_nat j) ltac:(lia) ltac:(lia)).
  rewrite Hzx, Hzy in Hc. cbn [hi_cand_count] in Hc. unfold zget in Hc.
  destruct (Z.ltb_spec (Z.of_nat j) 0); [lia|].
  by rewrite Nat2Z.id, !list_lookup_total_alt, Ha, Hb in Hc.
Qed.

Lemma zupd_zupd_inverse (l : list Z) (i a : Z) :
  zupd (zupd l i (λ n, n + a)) i (λ n, n - a) = l.
Proof.
  unfold zupd. destruct (i <? 0); [done|].
  rewrite list_alter_alter_eq. apply list_alter_id. intros x. cbn. lia.
Qed.

Lemma set_CELL_VALUE_cells (s : SudokuStateObject) (x y v : Z) :
  let s' := set_CELL_VALUE s x y v in
  (∀ a b, CELL_GROUP s' a b = CELL_GROUP s a b)
  ∧ (∀ k, cands_at s' k = cands_at s k)
  ∧ (wf_state s → valid_key (x, y) → ∀ k, valid_key k →
       value_at s' k = if decide (k = (x, y)) then uint16 v else value_at s k).
Proof.
  cbn zeta. unfold set_CELL_VALUE. split_and!.
  - intros a b. unfold CELL_GROUP. cbn [ss_grid set_ss_grid].
    by apply (zget_zupd_proj ci_group).
  - intros k. unfold cands_at, CELL_CANDS. cbn [ss_grid set_ss_grid].
    by apply (zget_zupd_proj ci_candidates).
  - intros Hwf Hxy k Hk. unfold value_at, CELL_VALUE. cbn [ss_grid set_ss_grid].
    pose proof (INDEX_range k Hk). pose proof (INDEX_range (x, y) Hxy) as Hr.
    cbn [fst snd] in Hr. destruct (decide (k = (x, y))) as [->|Hne].
    + cbn [fst snd]. rewrite zget_zupd_eq; [done|lia|]. rewrite (wf_grid s Hwf). lia.
    + rewrite zget_zupd_ne; [done|]. intros Heq. apply Hne. by apply INDEX_inj.
Qed.

Lemma hits_CELL_GROUP (s s' : SudokuStateObject) (k : key) (h : Z) :
  CELL_GROUP s' k.1 k.2 = CELL_GROUP s k.1 k.2 → hits s' k h = hits s k h.
Proof. intros Hg. by rewrite !hits_unfold, Hg. Qed.

Lemma house_adjust_solved_up_spec (s : SudokuStateObject) (x y : Z) :
  let s' := house_adjust_solved_up s x y in
  ss_grid s' = ss_grid s ∧ ss_solved s' = ss_solved s ∧ ss_digits s' = ss_digits s
  ∧ ss_skeys s' = ss_skeys s
  ∧ (houses_wf (ss_houses s) → houses_wf (ss_houses s'))
  ∧ (∀ h d, cand_count s' h d = cand_count s h d)
  ∧ (houses_wf (ss_houses s) → ∀ h, 0 ≤ h < 27 →
       solved_count s' h = solved_count s h + hits s (x, y) h).
Proof.
  pose proof (house_adjust_solved_spec 1 s x y) as (W & C & S).
  cbn zeta. split_and!; [reflexivity..|exact W|exact C|].
  intros Hwf h Hh. rewrite <- (Z.mul_1_l (hits s (x, y) h)). by apply S.
Qed.

Lemma house_adjust_solved_down_spec (s : SudokuStateObject) (x y : Z) :
  let s' := house_adjust_solved_down s x y in
  ss_grid s' = ss_grid s ∧ ss_solved s' = ss_solved s ∧ ss_digits s' = ss_digits s
  ∧ ss_skeys s' = ss_skeys s
  ∧ (houses_wf (ss_houses s) → houses_wf (ss_houses s'))
  ∧ (∀ h d, cand_count s' h d = cand_count s h d)
  ∧ (houses_wf (ss_houses s) → ∀ h, 0 ≤ h < 27 →
       solved_count s' h = solved_count s h - hits s (x, y) h).
Proof.
  pose proof (house_adjust_solved_spec (-1) s x y) as (W & C & S).
  cbn zeta. split_and!; [reflexivity..|exact W|exact C|].
  intros Hwf h Hh. etrans; [by apply S|]. lia.
Qed.

Lemma house_adjust_cand_count_down_spec (s : SudokuStateObject) (x y set : Z) :
  let s' := house_adjust_cand_count_down s x y set in
  ss_grid s' = ss_grid s ∧ ss_solved s' = ss_solved s ∧ ss_digits s' = ss_digits s
  ∧ ss_skeys s' = ss_skeys s
  ∧ (houses_wf (ss_houses s) → houses_wf (ss_houses s'))
  ∧ (houses_wf (ss_houses s) → ∀ h d, 0 ≤ h < 27 → 0 ≤ d < 9 →
       cand_count s' h d = cand_count s h d - has_digit set d * hits s (x, y) h)
  ∧ (∀ h, solved_count s' h = solved_count s h).
Proof.
  pose proof (house_adjust_cand_count_spec (-1) x y set s)
    as (C & G & V & D & K & _ & _ & _ & _ & S & W).
  cbn zeta. unfold house_adjust_cand_count_down. split_and!; try done.
  intros Hwf h d Hh Hd. rewrite C by done. lia.
Qed.

Lemma house_adjust_cand_count_up_spec (s : SudokuStateObject) (x y set : Z) :
  let s' := house_adjust_cand_count_up s x y set in
  ss_grid s' = ss_grid s ∧ ss_solved s' = ss_solved s ∧ ss_digits s' = ss_digits s
  ∧ ss_skeys s' = ss_skeys s
  ∧ (houses_wf (ss_houses s) → houses_wf (ss_houses s'))
  ∧ (houses_wf (ss_houses s) → ∀ h d, 0 ≤ h < 27 → 0 ≤ d < 9 →
       cand_count s' h d = cand_count s h d + has_digit set d * hits s (x, y) h)
  ∧ (∀ h, solved_count s' h = solved_count s h).
Proof.
  pose proof (house_adjust_cand_count_spec 1 x y set s)
    as (C & G & V & D & K & _ & _ & _ & _ & S & W).
  cbn zeta. unfold house_adjust_cand_count_up. split_and!; try done.
  intros Hwf h d Hh Hd. rewrite C by done. lia.
Qed.

Lemma wf_state_frame (s s' : SudokuStateObject) :
  ss_grid s' = ss_grid s → houses_wf (ss_houses s') →
  length (ss_digits s') = length (ss_digits s) → wf_state s → wf_state s'.
Proof.
  intros Hg [Hl Hc] Hd [? ? ? ? ?]. split; [by rewrite Hg|done|done|by rewrite Hd|by rewrite Hg].
Qed.

Lemma set_CELL_VALUE_wf (s : SudokuStateObject) (x y v : Z) :
  wf_state s → wf_state (set_CELL_VALUE s x y v).
Proof.
  intros [Hg Hh Hc Hdg Hcells]. unfold set_CELL_VALUE.
  split; cbn [ss_grid ss_houses ss_digits set_ss_grid]; [|done|done|done|].
  - by rewrite length_zupd.
  - apply Forall_zupd; [done|]. intros c [_ ?]. cbn. split; [apply uint16_range|done].
Qed.

(** What [clues[k] = digit] does to an unsolved cell. *)
Lemma assign_clue_ok (s : SudokuStateObject) (k : key) (digit : Z) :
  wf_state s → valid_key k → solved_at s k = false → 0 ≤ digit ≤ NUMROWS →
  ∃ s1, assign_clue s k digit = (s1, Ok tt) ∧ wf_state s1
    ∧ ss_solved s1 = ss_solved s + 1
    ∧ ss_digits s1 = zupd (ss_digits s) digit (λ n, n + 1)
    ∧ ss_skeys s1 = {[ k ]} ∪ ss_skeys s
    ∧ (∀ a b, CELL_GROUP s1 a b = CELL_GROUP s a b)
    ∧ (∀ k', cands_at s1 k' = cands_at s k')
    ∧ (∀ k', valid_key k' →
         value_at s1 k' = if decide (k' = k) then digit else value_at s k')
    ∧ (∀ h d, 0 ≤ h < 27 → 0 ≤ d < 9 →
         cand_count s1 h d = cand_count s h d - has_digit (cands_at s k) d * hits s k h)
    ∧ (∀ h, 0 ≤ h < 27 → solved_count s1 h = solved_count s h + hits s k h).
Proof.
  intros Hwf Hk Hu Hd. unfold assign_clue. rewrite (UNPACK_KEY_valid k Hk).
  destruct k as [x y]. unfold solved_at in Hu. cbn [fst snd] in Hu. rewrite Hu.
  cbn zeta.
  set (sa := set_ss_skeys s _).
  assert (ss_grid sa = ss_grid s ∧ ss_houses sa = ss_houses s
          ∧ ss_solved sa = ss_solved s ∧ ss_digits sa = ss_digits s
          ∧ ss_skeys sa = {[(x, y)]} ∪ ss_skeys s) as (Ga & Ha & Va & Da & Ka)
    by done.
  clearbody sa.
  pose proof (house_adjust_solved_up_spec sa x y) as (Gb & Vb & Db & Kb & Wb & Cb & Sb).
  set (sb := house_adjust_solved_up sa x y) in *. clearbody sb.
  pose proof (house_adjust_cand_count_down_spec sb x y (CELL_CANDS (ss_grid sb) x y))
    as (Gc & Vc & Dc & Kc & Wc & Cc & Sc).
  set (sc := house_adjust_cand_count_down sb x y (CELL_CANDS (ss_grid sb) x y)) in *. clearbody sc.
  pose proof (set_CELL_VALUE_cells sc x y digit) as (G3 & C3 & V3).
  pose proof (set_CELL_VALUE_wf sc x y digit) as Wd.
  assert (ss_houses (set_CELL_VALUE sc x y digit) = ss_houses sc
          ∧ ss_solved (set_CELL_VALUE sc x y digit) = ss_solved sc
          ∧ ss_digits (set_CELL_VALUE sc x y digit) = ss_digits sc
          ∧ ss_skeys (set_CELL_VALUE sc x y digit) = ss_skeys sc) as (Hd' & Vd & Dd & Kd)
    by done.
  set (sd := set_CELL_VALUE sc x y digit) in *. clearbody sd.
  assert (houses_wf (ss_houses sa)) as Hwa by (rewrite Ha; by apply wf_state_houses_wf).
  assert (wf_state sa) as Hwfa.
  { apply (wf_state_frame s); [done|done|by rewrite Da|done]. }
  assert (wf_state sb) as Hwfb.
  { apply (wf_state_frame sa); [done|by apply Wb|by rewrite Db|done]. }
  assert (wf_state sc) as Hwfc.
  { apply (wf_state_frame sb); [done|by apply Wc, Wb|by rewrite Dc|done]. }
  specialize (Wd Hwfc).
  assert (∀ a b, CELL_GROUP sc a b = CELL_GROUP s a b) as Hgrp.
  { intros a b. unfold CELL_GROUP. by rewrite Gc, Gb, Ga. }
  eexists. split; [reflexivity|]. split_and!.
  - destruct Wd as [Hg Hh Hc Hdg Hcells].
    split; [exact Hg|exact Hh|exact Hc| |exact Hcells].
    cbn [ss_digits set_ss_digits]. by rewrite length_zupd.
  - cbn [ss_solved set_ss_digits set_ss_solved]. by rewrite Vd, Vc, Vb, Va.
  - cbn [ss_digits set_ss_digits set_ss_solved]. by rewrite Dd, Dc, Db, Da.
  - cbn [ss_skeys set_ss_digits set_ss_solved]. by rewrite Kd, Kc, Kb, Ka.
  - intros a b. change (CELL_GROUP sd a b = CELL_GROUP s a b). by rewrite G3.
  - intros k'. change (cands_at sd k' = cands_at s k'). rewrite C3.
    unfold cands_at. by rewrite Gc, Gb, Ga.
  - intros k' Hk'. change (value_at sd k' = if decide (k' = (x, y)) then digit
                                            else value_at s k').
    rewrite V3 by done. case_decide; [apply uint16_small; clia|].
    unfold value_at. by rewrite Gc, Gb, Ga.
  - intros h d Hh Hdd.
    change (cand_count sd h d
            = cand_count s h d - has_digit (cands_at s (x, y)) d * hits s (x, y) h).
    unfold cand_count at 1. rewrite Hd'. fold (cand_count sc h d).
    rewrite Cc, Cb by auto.
    rewrite (hits_CELL_GROUP sa sb) by (unfold CELL_GROUP; by rewrite Gb).
    rewrite (hits_CELL_GROUP s sa) by (unfold CELL_GROUP; by rewrite Ga).
    unfold cands_at, cand_count. cbn [fst snd]. by rewrite Gb, Ga, Ha.
  - intros h Hh. change (solved_count sd h = solved_count s h + hits s (x, y) h).
    unfold solved_count at 1. rewrite Hd'. fold (solved_count sc h).
    rewrite Sc, Sb by auto.
    rewrite (hits_CELL_GROUP s sa) by (unfold CELL_GROUP; by rewrite Ga).
    unfold solved_count. by rewrite Ha.
Qed.

(** What [del clues[k]] does to a solved cell. *)
Lemma delete_clue_ok (s : SudokuStateObject) (k : key) :
  wf_state s → valid_key k → solved_at s k = true →
  ∃ s2, delete_clue s k = (s2, Ok tt) ∧ wf_state s2
    ∧ ss_solved s2 = ss_solved s - 1
    ∧ ss_digits s2 = zupd (ss_digits s) (value_at s k) (λ n, n - 1)
    ∧ ss_skeys s2 = ss_skeys s ∖ {[ k ]}
    ∧ (∀ a b, CELL_GROUP s2 a b = CELL_GROUP s a b)
    ∧ (∀ k', cands_at s2 k' = cands_at s k')
    ∧ (∀ k', valid_key k' →
         value_at s2 k' = if decide (k' = k) then 65535 else value_at s k')
    ∧ (∀ h d, 0 ≤ h < 27 → 0 ≤ d < 9 →
         cand_count s2 h d = cand_count s h d + has_digit (cands_at s k) d * hits s k h)
    ∧ (∀ h, 0 ≤ h < 27 → solved_count s2 h = solved_count s h - hits s k h).
Proof.
  intros Hwf Hk Hs. unfold delete_clue. rewrite (UNPACK_KEY_valid k Hk).
  destruct k as [x y]. unfold solved_at in Hs. cbn [fst snd] in Hs. rewrite Hs.
  cbn [negb]. cbn zeta.
  set (sa := set_ss_digits (set_ss_skeys s _) _).
  assert (ss_grid sa = ss_grid s ∧ ss_houses sa = ss_houses s
          ∧ ss_solved sa = ss_solved s
          ∧ ss_digits sa = zupd (ss_digits s) (value_at s (x, y)) (λ n, n - 1)
          ∧ ss_skeys sa = ss_skeys s ∖ {[(x, y)]}) as (Ga & Ha & Va & Da & Ka)
    by done.
  clearbody sa.
  pose proof (house_adjust_solved_down_spec sa x y) as (Gb & Vb & Db & Kb & Wb & Cb & Sb).
  set (sb := house_adjust_solved_down sa x y) in *. clearbody sb.
  pose proof (house_adjust_cand_count_up_spec sb x y (CELL_CANDS (ss_grid sb) x y))
    as (Gc & Vc & Dc & Kc & Wc & Cc & Sc).
  set (sc := house_adjust_cand_count_up sb x y (CELL_CANDS (ss_grid sb) x y)) in *. clearbody sc.
  pose proof (set_CELL_VALUE_cells sc x y (-1)) as (G3 & C3 & V3).
  pose proof (set_CELL_VALUE_wf sc x y (-1)) as Wd.
  assert (ss_houses (set_CELL_VALUE sc x y (-1)) = ss_houses sc
          ∧ ss_solved (set_CELL_VALUE sc x y (-1)) = ss_solved sc
          ∧ ss_digits (set_CELL_VALUE sc x y (-1)) = ss_digits sc
          ∧ ss_skeys (set_CELL_VALUE sc x y (-1)) = ss_skeys sc) as (Hd' & Vd & Dd & Kd)
    by done.
  set (sd := set_CELL_VALUE sc x y (-1)) in *. clearbody sd.
  assert (houses_wf (ss_houses sa)) as Hwa by (rewrite Ha; by apply wf_state_houses_wf).
  assert (wf_state sa) as Hwfa.
  { apply (wf_state_frame s); [done|done| |done]. by rewrite Da, length_zupd. }
  assert (wf_state sb) as Hwfb.
  { apply (wf_state_frame sa); [done|by apply Wb|by rewrite Db|done]. }
  assert (wf_state sc) as Hwfc.
  { apply (wf_state_frame sb); [done|by apply Wc, Wb|by rewrite Dc|done]. }
  specialize (Wd Hwfc).
  eexists. split; [reflexivity|]. split_and!.
  - destruct Wd as [Hg Hh Hc Hdg Hcells].
    split; [exact Hg|exact Hh|exact Hc|exact Hdg|exact Hcells].
  - cbn [ss_solved set_ss_solved]. by rewrite Vd, Vc, Vb, Va.
  - cbn [ss_digits set_ss_solved]. by rewrite Dd, Dc, Db, Da.
  - cbn [ss_skeys set_ss_solved]. by rewrite Kd, Kc, Kb, Ka.
  - intros a b. change (CELL_GROUP sd a b = CELL_GROUP s a b). rewrite G3.
    unfold CELL_GROUP. by rewrite Gc, Gb, Ga.
  - intros k'. change (cands_at sd k' = cands_at s k'). rewrite C3.
    unfold cands_at. by rewrite Gc, Gb, Ga.
  - intros k' Hk'. change (value_at sd k' = if decide (k' = (x, y)) then 65535
                                            else value_at s k').
    rewrite V3 by done. case_decide; [reflexivity|].
    unfold value_at. by rewrite Gc, Gb, Ga.
  - intros h d Hh Hdd.
    change (cand_count sd h d
            = cand_count s h d + has_digit (cands_at s (x, y)) d * hits s (x, y) h).
    unfold cand_count at 1. rewrite Hd'. fold (cand_count sc h d).
    rewrite Cc, Cb by auto.
    rewrite (hits_CELL_GROUP sa sb) by (unfold CELL_GROUP; by rewrite Gb).
    rewrite (hits_CELL_GROUP s sa) by (unfold CELL_GROUP; by rewrite Ga).
    unfold cands_at, cand_count. cbn [fst snd]. by rewrite Gb, Ga, Ha.
  - intros h Hh. change (solved_count sd h = solved_count s h - hits s (x, y) h).
    unfold solved_count at 1. rewrite Hd'. fold (solved_count sc h).
    rewrite Sc, Sb by auto.
    rewrite (hits_CELL_GROUP s sa) by (unfold CELL_GROUP; by rewrite Ga).
    unfold solved_count. by rewrite Ha.
Qed.

Lemma solved_at_value (s s' : SudokuStateObject) (k : key) :
  value_at s' k = value_at s k → solved_at s' k = solved_at s k.
Proof. unfold solved_at, value_at, CELL_FILLED. by intros ->. Qed.

Lemma solved_at_digit (s : SudokuStateObject) (k : key) :
  0 ≤ value_at s k < NUMROWS → solved_at s k = true.
Proof.
  unfold solved_at, value_at, CELL_FILLED. intros Hv.
  assert (CELL_VALUE (ss_grid s) k.1 k.2 ∈ seqZ 0 9) as Hin
    by (apply elem_of_seqZ; clia).
  revert Hin. generalize (CELL_VALUE (ss_grid s) k.1 k.2). clear.
  intros v Hin. cbv [seqZ Z.to_nat Pos.to_nat Pos.iter_op Nat.add seq fmap list_fmap] in Hin.
  cbn [Z.of_nat Pos.of_succ_nat Pos.succ Z.add Pos.add] in Hin.
  repeat (apply elem_of_cons in Hin as [->|Hin]; [reflexivity|]).
  by apply elem_of_nil in Hin.
Qed.

(** X15: writing a digit on an unsolved cell through the clues view makes
    the cell a clue: the digit is read back, the candidates view refuses the
    key, the view is one longer, every other key reads as before and a
    second assignment is refused.  Deleting the clue again restores the house
    table, the digit counters, the number of solved cells and what both
    views return for every key.  A digit outside 0..8 and the deletion of a
    key that is not a clue are refused without a change. *)
Theorem clues_view_set_del (s : SudokuStateObject) (k : key) (digit : Z) :
  wf_state s → valid_key k → solved_at s k = false →
  (0 ≤ digit < NUMROWS →
   ∃ s1, data_clues_ass_sub s k (Some digit) = (s1, Ok tt)
     ∧ data_clues_subscript s1 k = Ok digit
     ∧ data_candidates_subscript s1 k = Err KeyConflict
     ∧ data_clues_length s1 = data_clues_length s + 1
     ∧ (∀ k', k' ≠ k →
          data_clues_subscript s1 k' = data_clues_subscript s k'
          ∧ data_candidates_subscript s1 k' = data_candidates_subscript s k')
     ∧ (∀ digit', 0 ≤ digit' < NUMROWS →
          data_clues_ass_sub s1 k (Some digit') = (s1, Err KeyConflict))
     ∧ ∃ s2, data_clues_ass_sub s1 k None = (s2, Ok tt)
         ∧ ss_houses s2 = ss_houses s ∧ ss_digits s2 = ss_digits s
         ∧ ss_solved s2 = ss_solved s ∧ ss_skeys s2 = ss_skeys s ∖ {[ k ]}
         ∧ (∀ k', data_clues_subscript s2 k' = data_clues_subscript s k')
         ∧ (∀ k', data_candidates_subscript s2 k' = data_candidates_subscript s k'))
  ∧ (¬ 0 ≤ digit < NUMROWS → data_clues_ass_sub s k (Some digit) = (s, Err BadDigit))
  ∧ data_clues_ass_sub s k None = (s, Err KeyConflict).
Proof.
  intros Hwf Hk Hu. split_and!.
  - intros Hd. unfold data_clues_ass_sub at 1.
    replace ((digit <? 0) || (digit >=? NUMROWS)) with false by (symmetry; clia).
    destruct (assign_clue_ok s k digit Hwf Hk Hu ltac:(lia))
      as (s1 & Hrun & Hwf1 & V1 & D1 & K1 & G1 & C1 & Val1 & CC1 & SC1).
    exists s1. split; [exact Hrun|].
    assert (value_at s1 k = digit) as Hvk by (rewrite Val1 by done; by rewrite decide_True).
    assert (solved_at s1 k = true) as Hs1 by (apply solved_at_digit; by rewrite Hvk).
    assert (∀ k', valid_key k' → k' ≠ k → solved_at s1 k' = solved_at s k') as Hsame.
    { intros k' Hk' Hne. apply solved_at_value. rewrite Val1 by done.
      by rewrite decide_False. }
    split_and!.
    + by rewrite data_clues_subscript_spec, decide_True, Hs1, Hvk.
    + by rewrite data_candidates_subscript_spec, decide_True, Hs1.
    + unfold data_clues_length. by rewrite V1.
    + intros k' Hne. rewrite !data_clues_subscript_spec, !data_candidates_subscript_spec.
      case_decide as Hk'; [|done]. rewrite Hsame, C1, Val1 by done.
      by rewrite decide_False.
    + intros digit' Hd'. unfold data_clues_ass_sub.
      replace ((digit' <? 0) || (digit' >=? NUMROWS)) with false by (symmetry; clia).
      unfold assign_clue. rewrite (UNPACK_KEY_valid k Hk). destruct k as [x y].
      unfold solved_at in Hs1. cbn [fst snd] in Hs1. by rewrite Hs1.
    + destruct (delete_clue_ok s1 k Hwf1 Hk Hs1)
        as (s2 & Hrun2 & Hwf2 & V2 & D2 & K2 & G2 & C2 & Val2 & CC2 & SC2).
      exists s2. split; [exact Hrun2|].
      assert (∀ k', valid_key k' → solved_at s2 k' = solved_at s k') as Hsame2.
      { intros k' Hk'. destruct (decide (k' = k)) as [->|Hne].
        - rewrite Hu. unfold solved_at, CELL_FILLED. fold (value_at s2 k).
          rewrite Val2 by done. by rewrite decide_True.
        - rewrite <- Hsame by done. apply solved_at_value. rewrite Val2 by done.
          by rewrite decide_False. }
      split_and!.
      * apply houses_ext; [by apply wf_state_houses_wf..| |].
        -- intros h Hh. fold (solved_count s2 h) (solved_count s h).
           rewrite SC2, SC1 by done.
           rewrite (hits_CELL_GROUP s s1) by apply G1. lia.
        -- intros h d Hh Hdd. fold (cand_count s2 h d) (cand_count s h d).
           rewrite CC2, CC1 by done.
           rewrite (hits_CELL_GROUP s s1) by apply G1. rewrite C1. lia.
      * rewrite D2, D1, Hvk. apply zupd_zupd_inverse.
      * rewrite V2, V1. lia.
      * rewrite K2, K1. apply set_eq. intros k'.
        rewrite !elem_of_difference, elem_of_union. tauto.
      * intros k'. rewrite !data_clues_subscript_spec. case_decide as Hk'; [|done].
        rewrite Hsame2 by done. destruct (solved_at s k') eqn:Hsk; [|done].
        assert (k' ≠ k) as Hne by (intros ->; congruence).
        rewrite Val2, decide_False by done. rewrite Val1 by done. by rewrite decide_False.
      * intros k'. rewrite !data_candidates_subscript_spec. case_decide as Hk'; [|done].
        by rewrite Hsame2, C2, C1.
  - intros Hd. unfold data_clues_ass_sub.
    replace ((digit <? 0) || (digit >=? NUMROWS)) with true by (symmetry; clia).
    reflexivity.
  - unfold data_clues_ass_sub, delete_clue. rewrite (UNPACK_KEY_valid k Hk).
    destruct k as [x y]. unfold solved_at in Hu. cbn [fst snd] in Hu. by rewrite Hu.
Qed.

Lemma clues_view_set_del_witness :
  ∃ s1, data_clues_ass_sub state_E1 (0, 2) (Some 4) = (s1, Ok tt)
    ∧ data_clues_subscript s1 (0, 2) = Ok 4
    ∧ data_candidates_subscript s1 (0, 2) = Err KeyConflict
    ∧ data_clues_length s1 = data_clues_length state_E1 + 1
    ∧ (∀ k', k' ≠ (0, 2) →
         data_clues_subscript s1 k' = data_clues_subscript state_E1 k'
         ∧ data_candidates_subscript s1 k' = data_candidates_subscript state_E1 k')
    ∧ (∀ digit', 0 ≤ digit' < NUMROWS →
         data_clues_ass_sub s1 (0, 2) (Some digit') = (s1, Err KeyConflict))
    ∧ ∃ s2, data_clues_ass_sub s1 (0, 2) None = (s2, Ok tt)
        ∧ ss_houses s2 = ss_houses state_E1 ∧ ss_digits s2 = ss_digits state_E1
        ∧ ss_solved s2 = ss_solved state_E1
        ∧ ss_skeys s2 = ss_skeys state_E1 ∖ {[ (0, 2) ]}
        ∧ (∀ k', data_clues_subscript s2 k' = data_clues_subscript state_E1 k')
        ∧ (∀ k', data_candidates_subscript s2 k'
                 = data_candidates_subscript state_E1 k').
Proof.
  pose proof (clues_view_set_del state_E1 (0, 2) 4 wf_state_state_E1) as H.
  destruct H as [H _].
  - vm_compute. repeat split; discriminate.
  - vm_compute. reflexivity.
  - apply H. unfold NUMROWS. lia.
Defined.

(** * Pencil marks *)

Lemma testbit_SET_BIT_any (set bit d : Z) :
  0 ≤ d < 16 → Z.testbit (SET_BIT set bit) d = Z.testbit set d || bool_decide (bit = d).
Proof.
  intros Hd. unfold SET_BIT. rewrite testbit_uint16, Z.lor_spec, Z.shiftl_1_l by done.
  f_equal. destruct (Z.ltb_spec bit 0).
  - rewrite Z.pow_neg_r, Z.bits_0 by done. case_bool_decide; [lia|done].
  - rewrite Z.pow2_bits_eqb by done.
    destruct (Z.eqb_spec bit d); case_bool_decide; done.
Qed.

(** The bits a loop of [SET_BIT]s leaves in the accumulator. *)
Lemma fold_SET_BIT_bits {A} (skip : A → bool) (val : A → Z) (l : list A) (acc d : Z) :
  0 ≤ d < 16 →
  Z.testbit (fold_left (λ acc z, if skip z then acc else SET_BIT acc (val z)) l acc) d
    = true
  ↔ Z.testbit acc d = true ∨ ∃ z, z ∈ l ∧ skip z = false ∧ val z = d.
Proof.
  intros Hd. revert acc. induction l as [|z l IH]; intros acc; cbn [fold_left].
  - split; [by left|]. intros [?|(z & []%elem_of_nil & _)]; done.
  - rewrite IH. split.
    + intros [Hacc|(z' & Hin & Hs & Hv)].
      * destruct (skip z) eqn:Hsk; [by left|].
        rewrite testbit_SET_BIT_any in Hacc by done.
        apply orb_true_iff in Hacc as [?|Heq%bool_decide_eq_true]; [by left|].
        right. exists z. split; [left|done].
      * right. exists z'. split; [by right|done].
    + intros [Hacc|(z' & Hin & Hs & Hv)].
      * left. destruct (skip z); [done|].
        rewrite testbit_SET_BIT_any by done. by rewrite Hacc.
      * apply elem_of_cons in Hin as [->|Hin].
        -- left. rewrite Hs, testbit_SET_BIT_any by done.
           apply orb_true_iff. right. by apply bool_decide_eq_true.
        -- right. by exists z'.
Qed.

Lemma row_clues_bits (grid : list cell_info) (n m acc d : Z) :
  0 ≤ d < 16 →
  Z.testbit (row_clues grid n m acc) d = true
  ↔ Z.testbit acc d = true
    ∨ ∃ z, 0 ≤ z < NUMROWS ∧ z ≠ m ∧ CELL_FILLED grid n z = true
           ∧ CELL_VALUE grid n z = d.
Proof.
  intros Hd. unfold row_clues, for_loop.
  rewrite (fold_SET_BIT_bits (λ z, (z =? m) || negb (CELL_FILLED grid n z))
             (λ z, CELL_VALUE grid n z)) by done.
  apply or_iff_compat_l. split; intros (z & H1 & H2 & H3); exists z.
  - apply elem_of_seqZ in H1. apply orb_false_iff in H2 as [H2 H4].
    apply Z.eqb_neq in H2. apply negb_false_iff in H4. split_and!; [lia..|done|done|done].
  - destruct H3 as [H3 H4]. split_and!; [apply elem_of_seqZ; lia| |done].
    apply orb_false_iff. split; [by apply Z.eqb_neq|by apply negb_false_iff].
Qed.

Lemma col_clues_bits (grid : list cell_info) (n m acc d : Z) :
  0 ≤ d < 16 →
  Z.testbit (col_clues grid n m acc) d = true
  ↔ Z.testbit acc d = true
    ∨ ∃ z, 0 ≤ z < NUMROWS ∧ z ≠ n ∧ CELL_FILLED grid z m = true
           ∧ CELL_VALUE grid z m = d.
Proof.
  intros Hd. unfold col_clues, for_loop.
  rewrite (fold_SET_BIT_bits (λ z, (z =? n) || negb (CELL_FILLED grid z m))
             (λ z, CELL_VALUE grid z m)) by done.
  apply or_iff_compat_l. split; intros (z & H1 & H2 & H3); exists z.
  - apply elem_of_seqZ in H1. apply orb_false_iff in H2 as [H2 H4].
    apply Z.eqb_neq in H2. apply negb_false_iff in H4. split_and!; [lia..|done|done|done].
  - destruct H3 as [H3 H4]. split_and!; [apply elem_of_seqZ; lia| |done].
    apply orb_false_iff. split; [by apply Z.eqb_neq|by apply negb_false_iff].
Qed.

(** [find_clues_in_keyset] on keys of the grid: no error, and the bits are
    the clues of the solved keys. *)
Lemma find_clues_in_keyset_loop_bits (grid : list cell_info) (keyset : list key)
    (clues d : Z) :
  Forall valid_key keyset → 0 ≤ d < 16 →
  ∃ q, find_clues_in_keyset_loop grid keyset clues = (q, false)
    ∧ (Z.testbit q d = true
       ↔ Z.testbit clues d = true
         ∨ ∃ k, k ∈ keyset ∧ CELL_FILLED grid k.1 k.2 = true
                ∧ CELL_VALUE grid k.1 k.2 = d).
Proof.
  intros Hks Hd. revert clues. induction Hks as [|k keyset Hk Hks IH]; intros clues.
  - eexists. split; [reflexivity|]. split; [by left|].
    intros [?|(k & []%elem_of_nil & _)]; done.
  - cbn [find_clues_in_keyset_loop]. rewrite (UNPACK_KEY_valid k Hk). destruct k as [x y].
    destruct (IH (if CELL_FILLED grid x y then SET_BIT clues (CELL_VALUE grid x y)
                  else clues)) as (q & Hq & Hbits).
    exists q. split; [exact Hq|]. rewrite Hbits. cbn [fst snd]. split.
    + intros [Hacc|(k' & Hin & Hf & Hv)].
      * destruct (CELL_FILLED grid x y) eqn:Hf; [|by left].
        rewrite testbit_SET_BIT_any in Hacc by done.
        apply orb_true_iff in Hacc as [?|Heq%bool_decide_eq_true]; [by left|].
        right. exists (x, y). split; [left|done].
      * right. exists k'. split; [by right|done].
    + intros [Hacc|(k' & Hin & Hf & Hv)].
      * left. destruct (CELL_FILLED grid x y); [|done].
        rewrite testbit_SET_BIT_any by done. by rewrite Hacc.
      * apply elem_of_cons in Hin as [->|Hin].
        -- left. cbn [fst snd] in Hf, Hv. rewrite Hf, testbit_SET_BIT_any by done.
           apply orb_true_iff. right. by apply bool_decide_eq_true.
        -- right. by exists k'.
Qed.

Lemma find_clues_in_keyset_loop_acc (grid : list cell_info) (keyset : list key)
    (clues : Z) :
  ∃ q, find_clues_in_keyset_loop grid keyset clues
       = (q, bool_decide (¬ Forall valid_key keyset)).
Proof.
  revert clues. induction keyset as [|k keyset IH]; intros clues.
  - exists clues. cbn [find_clues_in_keyset_loop]. f_equal.
  - cbn [find_clues_in_keyset_loop]. destruct (decide (valid_key k)) as [Hk|Hk].
    + rewrite (UNPACK_KEY_valid k Hk). destruct k as [x y].
      edestruct IH as (q & ->). exists q. f_equal. apply bool_decide_ext.
      rewrite Forall_cons. tauto.
    + rewrite (UNPACK_KEY_invalid k Hk). exists clues. f_equal. symmetry.
      apply bool_decide_eq_true. rewrite Forall_cons. tauto.
Qed.

Lemma same_clues_peers_of (s s' : SudokuStateObject) (k : key) :
  same_clues s s' → peers_of s' k = peers_of s k.
Proof. intros (_ & _ & _ & _ & Hp & _). unfold peers_of. by rewrite Hp. Qed.

Lemma same_clues_value_at (s s' : SudokuStateObject) (k : key) :
  same_clues s s' → value_at s' k = value_at s k.
Proof. intros (_ & _ & _ & _ & _ & _ & _ & Hv & _). apply Hv. Qed.

Lemma same_clues_excluded (s s' : SudokuStateObject) (k : key) (d : Z) :
  same_clues s s' → excluded s' k d ↔ excluded s k d.
Proof.
  intros Hsame. unfold excluded, sees.
  split; intros (k' & (Hv & Hsee) & Hs & Hval); exists k'.
  - rewrite (same_clues_peers_of s s' k Hsame) in Hsee.
    by rewrite <- (same_clues_solved_at s s' k' Hsame), <- (same_clues_value_at s s' k' Hsame).
  - rewrite (same_clues_peers_of s s' k Hsame).
    by rewrite (same_clues_solved_at s s' k' Hsame), (same_clues_value_at s s' k' Hsame).
Qed.

Lemma same_clues_peers_ok (s s' : SudokuStateObject) :
  same_clues s s' → peers_ok s → peers_ok s'.
Proof.
  intros Hsame Hp k Hk Hu. rewrite (same_clues_peers_of s s' k Hsame).
  apply Hp; [done|]. by rewrite <- (same_clues_solved_at s s' k Hsame).
Qed.

Lemma same_clues_values_ok (s s' : SudokuStateObject) :
  same_clues s s' → values_ok s → values_ok s'.
Proof.
  intros Hsame Hv k Hk Hs. rewrite (same_clues_value_at s s' k Hsame).
  apply Hv; [done|]. by rewrite <- (same_clues_solved_at s s' k Hsame).
Qed.

Lemma has_digit_range (set d : Z) : 0 ≤ has_digit set d ≤ 1.
Proof. unfold has_digit. destruct (Z.testbit set d); lia. Qed.

(** The body of the double loop at a solved cell, and at a cell whose
    keyset is missing or holds a key outside the grid. *)
Lemma fill_in_pencilmarks_cell_solved (s : SudokuStateObject) (k : key) :
  solved_at s k = true → fill_in_pencilmarks_cell k.1 k.2 s = (s, Ok tt).
Proof. intros Hs. unfold fill_in_pencilmarks_cell. unfold solved_at in Hs. by rewrite Hs. Qed.

Lemma fill_in_pencilmarks_cell_bad (s : SudokuStateObject) (k : key) :
  solved_at s k = false →
  (∀ keyset, peers_of s k = Some keyset → ¬ Forall valid_key keyset) →
  fill_in_pencilmarks_cell k.1 k.2 s = (s, Err BadKey).
Proof.
  intros Hu Hbad. unfold fill_in_pencilmarks_cell. unfold solved_at in Hu. rewrite Hu.
  fold (peers_of s k). destruct (peers_of s k) as [keyset|] eqn:Hp; [|done].
  specialize (Hbad keyset eq_refl). unfold find_clues_in_keyset.
  destruct (find_clues_in_keyset_loop_acc (ss_grid s) keyset 0) as (q & ->).
  rewrite bool_decide_eq_true_2 by done.
  assert ((Z.land (Z.lor q ERRORBIT) ERRORBIT =? 0) = false) as ->; [|done].
  apply Z.eqb_neq. intros H0.
  assert (Z.testbit (Z.land (Z.lor q ERRORBIT) ERRORBIT) 15 = true) as Hb.
  { rewrite Z.land_spec, Z.lor_spec. change (Z.testbit ERRORBIT 15) with true.
    by rewrite orb_true_r. }
  by rewrite H0, Z.bits_0 in Hb.
Qed.

(** The body of the double loop at an unsolved cell with a good keyset. *)
Lemma fill_in_pencilmarks_cell_spec (s : SudokuStateObject) (k : key) :
  wf_state s → valid_key k → values_ok s → solved_at s k = false →
  (∃ keyset, peers_of s k = Some keyset ∧ Forall valid_key keyset) →
  ∃ s', fill_in_pencilmarks_cell k.1 k.2 s = (s', Ok tt)
    ∧ wf_state s' ∧ same_clues s s'
    ∧ (∀ k', valid_key k' → k' ≠ k → cands_at s' k' = cands_at s k')
    ∧ 0 ≤ cands_at s' k ≤ TERMS
    ∧ (∀ d, 0 ≤ d < NUMROWS → Z.testbit (cands_at s' k) d = true ↔ ¬ excluded s k d)
    ∧ (∀ h d, 0 ≤ h < 27 → 0 ≤ d < 9 →
         cand_count s' h d
         = cand_count s h d + has_digit (cands_at s' k) d * hits s k h).
Proof.
  intros Hwf Hk Hvals Hu (keyset & Hp & Hks). unfold fill_in_pencilmarks_cell.
  destruct k as [n m]. cbn [fst snd]. unfold solved_at in Hu. cbn [fst snd] in Hu.
  rewrite Hu. unfold peers_of in Hp. cbn [fst snd] in Hp. rewrite Hp.
  unfold find_clues_in_keyset.
  destruct (find_clues_in_keyset_loop_bits (ss_grid s) keyset 0 15 Hks ltac:(lia))
    as (q & Hq & Hq15).
  rewrite Hq.
  assert (Z.testbit q 15 = false) as H15.
  { destruct (Z.testbit q 15) eqn:Hb; [|done]. exfalso.
    destruct Hq15 as [Hq15 _].
    destruct (Hq15 eq_refl) as [Hb'|(k' & Hin & Hf & Hv)]; [by rewrite Z.bits_0 in Hb'|].
    rewrite Forall_forall in Hks. specialize (Hvals k' (Hks k' Hin) Hf).
    unfold value_at in Hvals. rewrite Hv in Hvals. clia. }
  assert ((Z.land q ERRORBIT =? 0) = true) as ->.
  { apply Z.eqb_eq. apply Z.bits_inj'. intros i Hi. rewrite Z.land_spec, Z.bits_0.
    change ERRORBIT with (2 ^ 15). rewrite Z.pow2_bits_eqb by lia.
    destruct (Z.eqb_spec 15 i) as [<-|]; [by rewrite H15|by rewrite andb_false_r]. }
  cbn [negb].
  set (notc := Z.lor (col_clues (ss_grid s) n m (row_clues (ss_grid s) n m 0)) q).
  set (mask := Z.land (Z.lnot notc) TERMS).
  assert (0 ≤ mask ≤ TERMS) as Hmask.
  { unfold mask. rewrite Z.land_comm. apply mask_bound_land. clia. }
  pose proof (set_CELL_CANDS_spec s n m mask) as (Hsame1 & Hh1 & Hwf1 & Hc1).
  set (s1 := set_CELL_CANDS s n m mask) in *.
  assert (cands_at s1 (n, m) = mask) as Hcm.
  { rewrite Hc1 by done. rewrite decide_True by done. by apply mask_bound_uint16. }
  change (CELL_CANDS (ss_grid s1) n m) with (cands_at s1 (n, m)). rewrite Hcm.
  pose proof (house_adjust_cand_count_spec 1 n m mask s1)
    as (Hcc & Hg2 & _).
  pose proof (house_adjust_cand_count_same 1 n m mask s1) as (Hsame2 & _ & Hwf2).
  fold (house_adjust_cand_count_up s1 n m mask) in *.
  set (s2 := house_adjust_cand_count_up s1 n m mask) in *.
  assert (∀ k', cands_at s2 k' = cands_at s1 k') as Hc2
    by (intros k'; unfold cands_at; by rewrite Hg2).
  exists s2. split; [reflexivity|]. split_and!.
  - auto.
  - by eapply same_clues_trans.
  - intros k' Hk' Hne. rewrite Hc2, Hc1 by done. by rewrite decide_False.
  - rewrite Hc2, Hcm. lia.
  - rewrite Hc2, Hcm. lia.
  - intros d Hd. rewrite Hc2, Hcm. unfold mask.
    rewrite Z.land_spec, Z.lnot_spec by lia.
    assert (Z.testbit TERMS d = true) as ->.
    { change TERMS with (Z.ones 9). apply Z.ones_spec_low. clia. }
    rewrite andb_true_r, negb_true_iff.
    assert (Z.testbit notc d = true ↔ excluded s (n, m) d) as Hnotc.
    { unfold notc. rewrite Z.lor_spec, orb_true_iff.
      rewrite col_clues_bits, row_clues_bits, Z.bits_0 by clia.
      destruct (find_clues_in_keyset_loop_bits (ss_grid s) keyset 0 d Hks ltac:(clia))
        as (q' & Hq' & Hqd).
      rewrite Hq in Hq'. injection Hq' as <-. rewrite Hqd, Z.bits_0.
      unfold excluded, sees, peers_of, solved_at, value_at. cbn [fst snd]. split.
      - intros [[[[=]|(z & Hz & Hne & Hf & Hv)]|(z & Hz & Hne & Hf & Hv)]
               |[[=]|(k' & Hin & Hf & Hv)]].
        + exists (n, z). cbn [fst snd].
          split; [split; [split; [apply Hk|done]|by left]|done].
        + exists (z, m). cbn [fst snd].
          split; [split; [split; [done|apply Hk]|right; by left]|done].
        + exists k'. split; [split|done].
          * rewrite Forall_forall in Hks. by apply Hks.
          * right; right. by exists keyset.
      - intros (k' & (Hk' & [[H1 H2]|[[H1 H2]|(ks & Hks' & Hin)]]) & Hf & Hv).
        + left; left; right. exists k'.2. destruct k' as [a b]. cbn [fst snd] in *.
          subst a. split; [apply Hk'|done].
        + left; right. exists k'.1. destruct k' as [a b]. cbn [fst snd] in *.
          subst b. split; [apply Hk'|done].
        + right; right. exists k'. rewrite Hp in Hks'. injection Hks' as <-. done. }
    rewrite <- Hnotc. destruct (Z.testbit notc d); split; done || congruence.
  - intros h d Hh Hd. rewrite Hc2, Hcm, Hcc by (done || by apply wf_state_houses_wf, Hwf1).
    rewrite (same_clues_hits s s1 (n, m) h Hsame1).
    unfold cand_count. rewrite Hh1. lia.
Qed.

(** The [memset] loop clears counter 0 of each house. *)
Lemma fill_in_pencilmarks_memset_fold (l : list Z) (s : SudokuStateObject) :
  houses_wf (ss_houses s) → NoDup l → (∀ n, n ∈ l → 0 ≤ n < 27) →
  let s' := fold_left (λ acc n, upd_house acc n
              (λ h, mkHouse (hi_solved h) (zupd (hi_cand_count h) 0 (λ _, 0)))) l s in
  houses_wf (ss_houses s') ∧ ss_grid s' = ss_grid s ∧ ss_solved s' = ss_solved s
  ∧ ss_digits s' = ss_digits s ∧ ss_skeys s' = ss_skeys s
  ∧ ss_grconfig s' = ss_grconfig s ∧ ss_peers s' = ss_peers s
  ∧ ss_movehook s' = ss_movehook s ∧ ss_dict s' = ss_dict s
  ∧ (∀ h, solved_count s' h = solved_count s h)
  ∧ (∀ h d, 0 ≤ h < 27 → 0 ≤ d < 9 →
       cand_count s' h d = if decide (h ∈ l ∧ d = 0) then 0 else cand_count s h d).
Proof.
  intros Hwf Hnd Hl. revert s Hwf. induction l as [|n l IH]; intros s Hwf; cbn [fold_left].
  - split_and!; done.
  - apply NoDup_cons in Hnd as [Hn Hnd].
    set (f := λ h, mkHouse (hi_solved h) (zupd (hi_cand_count h) 0 (λ _, 0))) in *.
    assert (houses_wf (ss_houses (upd_house s n f))) as Hwf1.
    { apply houses_wf_zupd; [done|]. intros h. apply length_zupd. }
    destruct (IH Hnd (λ j Hj, Hl j ltac:(by right)) (upd_house s n f) Hwf1)
      as (W & G & V & D & K & C & P & M & Di & S & CC).
    split_and!; try done.
    + intros h. rewrite S. unfold solved_count, upd_house. cbn [ss_houses set_ss_houses].
      by apply (zget_zupd_proj hi_solved).
    + intros h d Hh Hd. rewrite CC by done.
      assert (cand_count (upd_house s n f) h d
              = if decide (n = h ∧ d = 0) then 0 else cand_count s h d) as Hstep.
      { unfold cand_count, upd_house. cbn [ss_houses set_ss_houses].
        destruct Hwf as [Hlen Hall]. rewrite zget_zupd by lia.
        destruct (decide (n = h)) as [->|Hne].
        - rewrite decide_True by (split; [done|lia]). unfold f. cbn [hi_cand_count].
          rewrite zget_zupd by lia.
          assert (length (hi_cand_count (zget (ss_houses s) h)) = 9%nat) as Hl9.
          { rewrite Forall_forall in Hall. apply Hall. apply zget_elem_of; lia. }
          destruct (decide (d = 0)) as [->|Hd0].
          + rewrite decide_True by (split; [done|lia]). by rewrite decide_True.
          + rewrite decide_False by (intros [? _]; lia).
            rewrite decide_False; [done|]. by intros [_ ?].
        - rewrite decide_False by (by intros [? _]).
          rewrite decide_False; [done|]. by intros [? _]. }
      rewrite Hstep. destruct (decide (n = h)) as [->|Hne].
      * destruct (decide (d = 0)) as [->|Hd0].
        -- rewrite (decide_True (P := h ∈ h :: l ∧ 0 = 0)) by (split; [left|done]).
           rewrite (decide_True (P := h = h ∧ 0 = 0)) by done.
           by destruct (decide (h ∈ l ∧ 0 = 0)).
        -- rewrite !(decide_False (P := _ ∧ d = 0)) by (by intros [_ ?]). done.
      * rewrite (decide_False (P := n = h ∧ d = 0)) by (by intros [? _]).
        apply decide_ext. rewrite elem_of_cons.
        split; [intros [? ?]; split; [by right|done]|intros [[?|?] ?]; [congruence|done]].
Qed.

Lemma fill_in_pencilmarks_memset_spec (s : SudokuStateObject) :
  wf_state s →
  let s' := fill_in_pencilmarks_memset s in
  wf_state s' ∧ same_clues s s' ∧ (∀ k, cands_at s' k = cands_at s k)
  ∧ (∀ h d, 0 ≤ h < 27 → 0 ≤ d < 9 →
       cand_count s' h d = if decide (d = 0) then 0 else cand_count s h d).
Proof.
  intros Hwf. cbn zeta. unfold fill_in_pencilmarks_memset, for_loop.
  destruct (fill_in_pencilmarks_memset_fold (seqZ 0 (NUMROWS * 3 - 0)) s)
    as (W & G & V & D & K & C & P & M & Di & S & CC).
  { by apply wf_state_houses_wf. }
  { apply NoDup_seqZ. }
  { intros n Hn%elem_of_seqZ. clia. }
  split; [|split; [|split]].
  - apply (wf_state_frame s); [done|done|by rewrite D|done].
  - split_and!; try done; intros k; unfold value_at, CELL_GROUP; by rewrite G.
  - intros k. unfold cands_at. by rewrite G.
  - intros h d Hh Hd. rewrite CC by done. apply decide_ext.
    split; [by intros [_ ?]|]. intros ?. split; [|done]. apply elem_of_seqZ. clia.
Qed.

Lemma run_r_err {S K} (body : K → S → S * result unit) (l : list K) (s : S) (e : error) :
  fold_left (run_r body) l (s, Err e) = (s, Err e).
Proof. induction l as [|k l IH]; [done|]. apply IH. Qed.

(** The double loop with early return visits the keys in row-major order
    up to the first error. *)
Lemma nested_for_loop_r_all_keys {S} (body : Z → Z → S → S * result unit) (s : S) :
  for_loop_r 0 NUMROWS (λ n s, for_loop_r 0 NUMROWS (λ m s, body n m s) s) s
  = fold_left (run_r (λ k, body k.1 k.2)) all_keys (s, Ok tt).
Proof.
  rewrite all_keys_flat_map, fold_left_flat_map. unfold for_loop_r at 1.
  replace (NUMROWS - 0) with NUMROWS by lia.
  apply fold_left_ext_in. intros i [s' [[]|e]] _.
  - rewrite fold_left_fmap. unfold for_loop_r.
    replace (NUMROWS - 0) with NUMROWS by lia. reflexivity.
  - by rewrite run_r_err.
Qed.

Lemma fill_in_pencilmarks_unfold (s : SudokuStateObject) :
  fill_in_pencilmarks s
  = fold_left (run_r (λ k, fill_in_pencilmarks_cell k.1 k.2)) all_keys
      (fill_in_pencilmarks_memset s, Ok tt).
Proof.
  unfold fill_in_pencilmarks. cbn zeta. fold (fill_in_pencilmarks_memset s).
  apply (nested_for_loop_r_all_keys fill_in_pencilmarks_cell).
Qed.

(** The double loop over a list of distinct keys. *)
Lemma fill_in_pencilmarks_fold (l : list key) (s : SudokuStateObject) :
  NoDup l → Forall valid_key l → wf_state s → peers_ok s → values_ok s →
  ∃ s', fold_left (run_r (λ k, fill_in_pencilmarks_cell k.1 k.2)) l (s, Ok tt)
        = (s', Ok tt)
    ∧ wf_state s' ∧ same_clues s s'
    ∧ (∀ k, valid_key k → k ∉ l ∨ solved_at s k = true → cands_at s' k = cands_at s k)
    ∧ (∀ k, k ∈ l → solved_at s k = false →
         0 ≤ cands_at s' k ≤ TERMS
         ∧ ∀ d, 0 ≤ d < NUMROWS →
             Z.testbit (cands_at s' k) d = true ↔ ¬ excluded s k d)
    ∧ (∀ h d, 0 ≤ h < 27 → 0 ≤ d < 9 →
         cand_count s' h d
         = cand_count s h d
           + sum_over (λ k, if solved_at s k then 0
                            else has_digit (cands_at s' k) d * hits s k h) l).
Proof.
  intros Hnd Hl. revert s. induction l as [|k l IH]; intros s Hwf Hp Hv.
  - exists s. split; [done|]. split; [done|]. split; [apply same_clues_refl|].
    split; [done|]. split; [by intros k []%elem_of_nil|]. intros h d _ _. cbn. lia.
  - apply NoDup_cons in Hnd as [Hk Hnd]. apply Forall_cons in Hl as [Hvk Hl].
    cbn [fold_left run_r]. destruct (solved_at s k) eqn:Hsk.
    + rewrite (fill_in_pencilmarks_cell_solved s k Hsk).
      destruct (IH Hnd Hl s Hwf Hp Hv) as (s' & Hrun & Hwf' & Hsame & Hc & Hb & Hcc).
      exists s'. split; [exact Hrun|]. split; [done|]. split; [done|]. split_and!.
      * intros k' Hk' [Hnin|Hs]; apply Hc; try done; [left|by right].
        intros Hin. apply Hnin. by right.
      * intros k' [->|Hin]%elem_of_cons Hu; [congruence|]. by apply Hb.
      * intros h d Hh Hd. rewrite Hcc by done. cbn [sum_over foldr]. rewrite Hsk.
        fold (sum_over (λ k0, if solved_at s k0 then 0
                              else has_digit (cands_at s' k0) d * hits s k0 h) l). lia.
    + destruct (fill_in_pencilmarks_cell_spec s k Hwf Hvk Hv Hsk (Hp k Hvk Hsk))
        as (s1 & Hrun1 & Hwf1 & Hsame1 & Hc1 & Hr1 & Hb1 & Hcc1).
      rewrite Hrun1.
      destruct (IH Hnd Hl s1 Hwf1 (same_clues_peers_ok s s1 Hsame1 Hp)
                  (same_clues_values_ok s s1 Hsame1 Hv))
        as (s' & Hrun & Hwf' & Hsame & Hc & Hb & Hcc).
      assert (cands_at s' k = cands_at s1 k) as Hck by (apply Hc; [done|by left]).
      exists s'. split; [exact Hrun|]. split; [done|].
      split; [by eapply same_clues_trans|]. split_and!.
      * intros k' Hk' Hor.
        assert (k' ≠ k) as Hne.
        { destruct Hor as [Hnin|Hs]; [|congruence]. intros ->. apply Hnin. left. }
        rewrite <- (Hc1 k' Hk' Hne). apply Hc; [done|].
        destruct Hor as [Hnin|Hs].
        -- left. intros Hin. apply Hnin. by right.
        -- right. by rewrite (same_clues_solved_at s s1 k' Hsame1).
      * intros k' [->|Hin]%elem_of_cons Hu.
        -- rewrite Hck. split; [done|]. apply Hb1.
        -- destruct (Hb k' Hin) as [Hr Hbits].
           { by rewrite (same_clues_solved_at s s1 k' Hsame1). }
           split; [done|]. intros d Hd. rewrite (Hbits d Hd).
           by rewrite (same_clues_excluded s s1 k' d Hsame1).
      * intros h d Hh Hd. rewrite Hcc, Hcc1 by done. cbn [sum_over foldr].
        rewrite Hsk, Hck.
        fold (sum_over (λ k0, if solved_at s k0 then 0
                              else has_digit (cands_at s' k0) d * hits s k0 h) l).
        rewrite (sum_over_ext
                   (λ k0, if solved_at s1 k0 then 0
                          else has_digit (cands_at s' k0) d * hits s1 k0 h)
                   (λ k0, if solved_at s k0 then 0
                          else has_digit (cands_at s' k0) d * hits s k0 h)); [lia|].
        intros k0 _. rewrite (same_clues_solved_at s s1 k0 Hsame1).
        by rewrite (same_clues_hits s s1 k0 h Hsame1).
Qed.

(** The double loop fails at the first unsolved cell whose keyset is missing
    or holds a key outside the grid. *)
Lemma fill_in_pencilmarks_fold_err (l : list key) (s : SudokuStateObject) (k : key) :
  Forall valid_key l → wf_state s → values_ok s →
  k ∈ l → solved_at s k = false →
  (∀ keyset, peers_of s k = Some keyset → ¬ Forall valid_key keyset) →
  (fold_left (run_r (λ k, fill_in_pencilmarks_cell k.1 k.2)) l (s, Ok tt)).2
  = Err BadKey.
Proof.
  intros Hl. revert s. induction Hl as [|k0 l Hk0 Hl IH]; intros s Hwf Hv Hin Hu Hbad.
  - by apply elem_of_nil in Hin.
  - cbn [fold_left run_r]. destruct (solved_at s k0) eqn:Hs0.
    + rewrite (fill_in_pencilmarks_cell_solved s k0 Hs0). apply IH; try done.
      apply elem_of_cons in Hin as [->|Hin]; [congruence|done].
    + assert ((∃ keyset, peers_of s k0 = Some keyset ∧ Forall valid_key keyset)
              ∨ (∀ keyset, peers_of s k0 = Some keyset → ¬ Forall valid_key keyset))
        as [Hgood|Hnot].
      { destruct (peers_of s k0) as [ks|]; [|right; by intros ? [=]].
        destruct (decide (Forall valid_key ks)); [left; by exists ks|].
        right. by intros ? [= <-]. }
      * destruct (fill_in_pencilmarks_cell_spec s k0 Hwf Hk0 Hv Hs0 Hgood)
          as (s1 & Hrun1 & Hwf1 & Hsame1 & _).
        rewrite Hrun1. apply elem_of_cons in Hin as [->|Hin].
        { destruct Hgood as (ks & Hks & Hall). by destruct (Hbad ks Hks). }
        apply IH; try done.
        -- by apply (same_clues_values_ok s s1).
        -- by rewrite (same_clues_solved_at s s1 k Hsame1).
        -- intros ks. rewrite (same_clues_peers_of s s1 k Hsame1). apply Hbad.
      * rewrite (fill_in_pencilmarks_cell_bad s k0 Hs0 Hnot). by rewrite run_r_err.
Qed.

(** The peers tables [set_python_calculated_attrs] installs give every cell
    a keyset of keys of the grid. *)
Lemma peers_ok_do_calculate_peers (s : SudokuStateObject) (grconfig : list Z) :
  ss_peers s = do_calculate_peers grconfig → peers_ok s.
Proof.
  intros Hpeers k Hk _. unfold peers_of. rewrite Hpeers. unfold do_calculate_peers.
  pose proof (INDEX_range k Hk) as Hr.
  rewrite list_lookup_fmap, lookup_seqZ_lt by clia.
  eexists. split; [reflexivity|]. apply Forall_forall. intros k' Hin.
  apply list_elem_of_filter in Hin as [_ Hin]. by apply elem_of_all_keys.
Qed.

Lemma peers_ok_state_E1 : peers_ok state_E1.
Proof. by apply (peers_ok_do_calculate_peers state_E1 default_grconfig). Qed.

Lemma values_ok_state_E1 : values_ok state_E1.
Proof.
  intros k Hk%elem_of_all_keys. revert k Hk.
  apply (proj1 (Forall_forall
    (λ k, solved_at state_E1 k = true → 0 ≤ value_at state_E1 k ≤ NUMROWS) all_keys)).
  apply (bool_decide_unpack _). by vm_compute.
Qed.

Lemma groups_ok_state_E1 : groups_ok state_E1.
Proof.
  intros k Hk%elem_of_all_keys. revert k Hk.
  apply (proj1 (Forall_forall
    (λ k, GROFFSET ≤ CELL_GROUP state_E1 k.1 k.2 < GROFFSET + NUMROWS) all_keys)).
  apply (bool_decide_unpack _). by vm_compute.
Qed.

Lemma sum_over_indicator {A} (P : A → bool) (f : A → Z) (l : list A) :
  (∀ a, a ∈ l → f a = if P a then 1 else 0) →
  sum_over f l = Z.of_nat (length (List.filter P l)).
Proof.
  induction l as [|a l IH]; intros Hf; [done|]. cbn [sum_over foldr List.filter].
  fold (sum_over f l). rewrite (Hf a) by left.
  rewrite IH by (intros b Hb; apply Hf; by right).
  destruct (P a); cbn [length]; lia.
Qed.

(** With the group index among the nine group houses, a cell lies in each
    of its houses once. *)
Lemma hits_in_house (s : SudokuStateObject) (k : key) (h : Z) :
  valid_key k → groups_ok s → hits s k h = if in_house s k h then 1 else 0.
Proof.
  intros Hk Hg. specialize (Hg k Hk). rewrite hits_unfold. unfold in_house, houses_of.
  destruct Hk as [Hx Hy]. unfold ROWOFFSET, COLOFFSET in *.
  case_bool_decide as Hin.
  - rewrite !elem_of_cons, elem_of_nil in Hin. repeat case_decide; clia.
  - rewrite !elem_of_cons, elem_of_nil in Hin. repeat case_decide; try lia.
    all: exfalso; apply Hin; auto.
Qed.

(** X16: [fill_pencilmarks] leaves the clues alone and the masks of the
    solved cells as they are, and gives every unsolved cell exactly the
    digits 0..8 that are not the clue of a cell it sees: another cell of its
    row, another cell of its column, or a key of its keyset in the peers
    table.  It fails with a key error when the keyset of an unsolved cell is
    missing or holds a key outside the grid. *)
Theorem fill_in_pencilmarks_spec (s : SudokuStateObject) :
  wf_state s → values_ok s →
  (peers_ok s →
   ∃ s', data_state_candidates_fill_impl s = (s', Ok tt) ∧ same_clues s s'
     ∧ ∀ k, valid_key k →
         if solved_at s k then cands_at s' k = cands_at s k
         else 0 ≤ cands_at s' k ≤ TERMS
              ∧ ∀ d, 0 ≤ d < NUMROWS →
                  Z.testbit (cands_at s' k) d = true ↔ ¬ excluded s k d)
  ∧ (∀ k, valid_key k → solved_at s k = false →
       (∀ keyset, peers_of s k = Some keyset → ¬ Forall valid_key keyset) →
       (data_state_candidates_fill_impl s).2 = Err BadKey).
Proof.
  intros Hwf Hv. unfold data_state_candidates_fill_impl.
  rewrite fill_in_pencilmarks_unfold.
  destruct (fill_in_pencilmarks_memset_spec s Hwf) as (Hwf0 & Hsame0 & Hc0 & _).
  set (s0 := fill_in_pencilmarks_memset s) in *. clearbody s0.
  assert (Forall valid_key all_keys) as Hall
    by (apply Forall_forall; intros k; apply elem_of_all_keys).
  split.
  - intros Hp.
    destruct (fill_in_pencilmarks_fold all_keys s0 NoDup_all_keys Hall Hwf0
                (same_clues_peers_ok s s0 Hsame0 Hp) (same_clues_values_ok s s0 Hsame0 Hv))
      as (s' & Hrun & Hwf' & Hsame & Hc & Hb & _).
    exists s'. split; [exact Hrun|]. split; [by eapply same_clues_trans|].
    intros k Hk. pose proof (same_clues_solved_at s s0 k Hsame0) as Hs.
    destruct (solved_at s k) eqn:Hsk.
    + rewrite <- Hc0. apply Hc; [done|by right].
    + destruct (Hb k (proj2 (elem_of_all_keys k) Hk) Hs) as [Hr Hbits].
      split; [done|]. intros d Hd. rewrite (Hbits d Hd).
      by rewrite (same_clues_excluded s s0 k d Hsame0).
  - intros k Hk Hu Hbad.
    apply (fill_in_pencilmarks_fold_err all_keys s0 k Hall Hwf0
             (same_clues_values_ok s s0 Hsame0 Hv)).
    + by apply elem_of_all_keys.
    + by rewrite (same_clues_solved_at s s0 k Hsame0).
    + intros ks. rewrite (same_clues_peers_of s s0 k Hsame0). apply Hbad.
Qed.

Lemma fill_in_pencilmarks_spec_witness :
  ∃ s', data_state_candidates_fill_impl state_E1 = (s', Ok tt) ∧ same_clues state_E1 s'
    ∧ ∀ k, valid_key k →
        if solved_at state_E1 k then cands_at s' k = cands_at state_E1 k
        else 0 ≤ cands_at s' k ≤ TERMS
             ∧ ∀ d, 0 ≤ d < NUMROWS →
                 Z.testbit (cands_at s' k) d = true ↔ ¬ excluded state_E1 k d.
Proof.
  destruct (fill_in_pencilmarks_spec state_E1 wf_state_state_E1 values_ok_state_E1)
    as [H _].
  apply H. apply peers_ok_state_E1.
Defined.

Lemma same_clues_groups_ok (s s' : SudokuStateObject) :
  same_clues s s' → groups_ok s → groups_ok s'.
Proof.
  intros (_ & _ & _ & _ & _ & _ & _ & _ & Hgr & _) Hg k Hk. rewrite Hgr. by apply Hg.
Qed.

(** The counters after the double loop, and the sum as a number of cells. *)
Lemma fill_in_pencilmarks_run (s : SudokuStateObject) :
  wf_state s → values_ok s → peers_ok s →
  ∃ s', fill_in_pencilmarks s = (s', Ok tt) ∧ wf_state s' ∧ same_clues s s'
    ∧ ∀ h d, 0 ≤ h < 27 → 0 ≤ d < 9 →
        cand_count s' h d
        = (if decide (d = 0) then 0 else cand_count s h d)
          + sum_over (λ k, if solved_at s' k then 0
                           else has_digit (cands_at s' k) d * hits s' k h) all_keys.
Proof.
  intros Hwf Hv Hp. rewrite fill_in_pencilmarks_unfold.
  destruct (fill_in_pencilmarks_memset_spec s Hwf) as (Hwf0 & Hsame0 & Hc0 & Hcc0).
  set (s0 := fill_in_pencilmarks_memset s) in *. clearbody s0.
  assert (Forall valid_key all_keys) as Hall
    by (apply Forall_forall; intros k; apply elem_of_all_keys).
  destruct (fill_in_pencilmarks_fold all_keys s0 NoDup_all_keys Hall Hwf0
              (same_clues_peers_ok s s0 Hsame0 Hp) (same_clues_values_ok s s0 Hsame0 Hv))
    as (s' & Hrun & Hwf' & Hsame & _ & _ & Hcc).
  exists s'. split; [exact Hrun|]. split; [done|].
  split; [by eapply same_clues_trans|].
  intros h d Hh Hd. rewrite Hcc, Hcc0 by done. f_equal.
  apply sum_over_ext. intros k _.
  by rewrite (same_clues_solved_at s0 s' k Hsame), (same_clues_hits s0 s' k h Hsame).
Qed.

Lemma sum_over_cands_in_house (s : SudokuStateObject) (h d : Z) :
  groups_ok s →
  sum_over (λ k, if solved_at s k then 0
                 else has_digit (cands_at s k) d * hits s k h) all_keys
  = cands_in_house s h d.
Proof.
  intros Hg. unfold cands_in_house. apply sum_over_indicator.
  intros k Hk%elem_of_all_keys. rewrite (hits_in_house s k h Hk Hg). unfold has_digit.
  destruct (solved_at s k), (in_house s k h), (Z.testbit (cands_at s k) d); done.
Qed.

(** X17: a successful [fill_pencilmarks] leaves the solved counters of the
    houses alone and recomputes the candidate counters of digit 0 only: when
    every group index names a group house, the counter of house [h] for
    digit 0 becomes the number of unsolved cells of [h] with 0 as a
    candidate, and the counter of every other digit [d] is its old value
    plus the number of unsolved cells of [h] with [d] as a candidate.  So the
    counters are the counts of the cells after a fill on a state whose
    counters of the digits 1..8 were zero. *)
Theorem fill_in_pencilmarks_counters (s : SudokuStateObject) :
  wf_state s → values_ok s → peers_ok s → groups_ok s →
  ∃ s', data_state_candidates_fill_impl s = (s', Ok tt)
    ∧ (∀ h, solved_count s' h = solved_count s h)
    ∧ (∀ h d, 0 ≤ h < 27 → 0 ≤ d < 9 →
         cand_count s' h d
         = (if decide (d = 0) then 0 else cand_count s h d) + cands_in_house s' h d)
    ∧ ((∀ h d, 0 ≤ h < 27 → 1 ≤ d < 9 → cand_count s h d = 0) →
       ∀ h d, 0 ≤ h < 27 → 0 ≤ d < 9 → cand_count s' h d = cands_in_house s' h d).
Proof.
  intros Hwf Hv Hp Hg. unfold data_state_candidates_fill_impl.
  destruct (fill_in_pencilmarks_run s Hwf Hv Hp) as (s' & Hrun & Hwf' & Hsame & Hcc).
  assert (∀ h d, 0 ≤ h < 27 → 0 ≤ d < 9 →
            cand_count s' h d
            = (if decide (d = 0) then 0 else cand_count s h d) + cands_in_house s' h d)
    as Hmain.
  { intros h d Hh Hd. rewrite Hcc by done. f_equal. apply sum_over_cands_in_house.
    by apply (same_clues_groups_ok s). }
  exists s'. split; [exact Hrun|]. split; [|split].
  - intros h. by destruct Hsame as (_ & _ & _ & _ & _ & _ & _ & _ & _ & Hsc).
  - exact Hmain.
  - intros Hzero h d Hh Hd. rewrite Hmain by done. case_decide; [lia|].
    rewrite Hzero by lia. lia.
Qed.

Lemma fill_in_pencilmarks_counters_witness :
  ∃ s', data_state_candidates_fill_impl state_E1 = (s', Ok tt)
    ∧ (∀ h, solved_count s' h = solved_count state_E1 h)
    ∧ (∀ h d, 0 ≤ h < 27 → 0 ≤ d < 9 →
         cand_count s' h d
         = (if decide (d = 0) then 0 else cand_count state_E1 h d)
           + cands_in_house s' h d)
    ∧ ((∀ h d, 0 ≤ h < 27 → 1 ≤ d < 9 → cand_count state_E1 h d = 0) →
       ∀ h d, 0 ≤ h < 27 → 0 ≤ d < 9 → cand_count s' h d = cands_in_house s' h d).
Proof.
  apply (fill_in_pencilmarks_counters state_E1 wf_state_state_E1 values_ok_state_E1
           peers_ok_state_E1 groups_ok_state_E1).
Defined.

(** * The counters of the houses *)

Lemma filter_length_update {A} (P Q : A → bool) (l : list A) (a : A) :
  NoDup l → a ∈ l → (∀ b, b ∈ l → b ≠ a → Q b = P b) →
  Z.of_nat (length (List.filter Q l))
  = Z.of_nat (length (List.filter P l)) + Z.b2z (Q a) - Z.b2z (P a).
Proof.
  intros Hnd Hin Hext. induction Hnd as [|b l Hb Hnd IH]; [by apply elem_of_nil in Hin|].
  cbn [List.filter]. apply elem_of_cons in Hin as [->|Hin].
  - assert (List.filter Q l = List.filter P l) as ->.
    { apply List.filter_ext_in. intros c Hc%list_elem_of_In. apply Hext; [by right|].
      by intros ->. }
    destruct (Q b), (P b); cbn [length Z.b2z]; lia.
  - assert (Q b = P b) as -> by (apply Hext; [left|by intros ->]).
    specialize (IH Hin (λ c Hc, Hext c ltac:(by right))).
    destruct (P b); cbn [length]; lia.
Qed.

Lemma same_groups_in_house (s s' : SudokuStateObject) (k : key) (h : Z) :
  CELL_GROUP s' k.1 k.2 = CELL_GROUP s k.1 k.2 → in_house s' k h = in_house s k h.
Proof. intros Hg. unfold in_house, houses_of. by rewrite Hg. Qed.

(** A change of one cell with the matching change of the counters of its
    houses keeps the counters right. *)
Lemma consistent_update (s s' : SudokuStateObject) (k : key) (ds : Z) (dc : Z → Z) :
  valid_key k → groups_ok s →
  (∀ k', CELL_GROUP s' k'.1 k'.2 = CELL_GROUP s k'.1 k'.2) →
  (∀ k', valid_key k' → k' ≠ k →
     solved_at s' k' = solved_at s k' ∧ cands_at s' k' = cands_at s k') →
  (∀ h, 0 ≤ h < 27 → solved_count s' h = solved_count s h + ds * hits s k h) →
  (∀ h d, 0 ≤ h < 27 → 0 ≤ d < 9 →
     cand_count s' h d = cand_count s h d + dc d * hits s k h) →
  ds = Z.b2z (solved_at s' k) - Z.b2z (solved_at s k) →
  (∀ d, 0 ≤ d < 9 →
     dc d = (if solved_at s' k then 0 else has_digit (cands_at s' k) d)
            - (if solved_at s k then 0 else has_digit (cands_at s k) d)) →
  houses_consistent s → houses_consistent s'.
Proof.
  intros Hk Hg Hgr Hoff Hsc Hcc Hds Hdc Hcons h Hh.
  destruct (Hcons h Hh) as [Hs Hc].
  pose proof (proj2 (elem_of_all_keys k) Hk) as Hin.
  pose proof (hits_in_house s k h Hk Hg) as Hhits.
  split.
  - rewrite Hsc, Hs by done. unfold solved_in_house.
    rewrite (filter_length_update (λ k', in_house s k' h && solved_at s k')
               (λ k', in_house s' k' h && solved_at s' k') all_keys k NoDup_all_keys Hin).
    + rewrite (same_groups_in_house s s' k h (Hgr k)), Hhits, Hds.
      destruct (in_house s k h), (solved_at s' k), (solved_at s k); cbn; lia.
    + intros k' Hk'%elem_of_all_keys Hne.
      rewrite (same_groups_in_house s s' k' h (Hgr k')).
      by destruct (Hoff k' Hk' Hne) as [-> _].
  - intros d Hd. rewrite Hcc, (Hc d Hd) by done. unfold cands_in_house.
    rewrite (filter_length_update
               (λ k', in_house s k' h && negb (solved_at s k') && Z.testbit (cands_at s k') d)
               (λ k', in_house s' k' h && negb (solved_at s' k')
                      && Z.testbit (cands_at s' k') d) all_keys k NoDup_all_keys Hin).
    + rewrite (same_groups_in_house s s' k h (Hgr k)), Hhits, (Hdc d Hd). unfold has_digit.
      destruct (in_house s k h), (solved_at s' k), (solved_at s k),
        (Z.testbit (cands_at s' k) d), (Z.testbit (cands_at s k) d); cbn; lia.
    + intros k' Hk'%elem_of_all_keys Hne.
      rewrite (same_groups_in_house s s' k' h (Hgr k')).
      by destruct (Hoff k' Hk' Hne) as [-> ->].
Qed.

(** The same for a change of the candidates of a cell. *)
Lemma consistent_update_cands (s s' : SudokuStateObject) (k : key) (dc : Z → Z) :
  valid_key k → groups_ok s → same_clues s s' →
  (∀ k', valid_key k' → k' ≠ k → cands_at s' k' = cands_at s k') →
  (∀ h d, 0 ≤ h < 27 → 0 ≤ d < 9 →
     cand_count s' h d = cand_count s h d + dc d * hits s k h) →
  (∀ d, 0 ≤ d < 9 →
     dc d = if solved_at s k then 0
            else has_digit (cands_at s' k) d - has_digit (cands_at s k) d) →
  houses_consistent s → houses_consistent s'.
Proof.
  intros Hk Hg Hsame Hoff Hcc Hdc.
  apply (consistent_update s s' k 0 dc Hk Hg).
  - by destruct Hsame as (_ & _ & _ & _ & _ & _ & _ & _ & Hgr & _).
  - intros k' Hk' Hne. split; [by apply same_clues_solved_at|by apply Hoff].
  - intros h _. destruct Hsame as (_ & _ & _ & _ & _ & _ & _ & _ & _ & Hsc).
    rewrite Hsc. lia.
  - exact Hcc.
  - rewrite (same_clues_solved_at s s' k Hsame). lia.
  - intros d Hd. rewrite (Hdc d Hd), (same_clues_solved_at s s' k Hsame).
    destruct (solved_at s k); lia.
Qed.

Lemma has_digit_lor (a b d : Z) :
  has_digit (Z.lor a b) d = has_digit a d + has_digit (Z.land b (Z.lnot a)) d.
Proof.
  unfold has_digit. destruct (Z.ltb_spec d 0) as [Hneg|Hpos].
  - by rewrite !Z.testbit_neg_r.
  - rewrite Z.lor_spec, Z.land_spec, Z.lnot_spec by done.
    destruct (Z.testbit a d), (Z.testbit b d); done.
Qed.

Lemma has_digit_land_lnot (a b d : Z) :
  has_digit (Z.land a (Z.lnot b)) d = has_digit a d - has_digit (Z.land b a) d.
Proof.
  unfold has_digit. destruct (Z.ltb_spec d 0) as [Hneg|Hpos].
  - by rewrite !Z.testbit_neg_r.
  - rewrite !Z.land_spec, Z.lnot_spec by done.
    destruct (Z.testbit a d), (Z.testbit b d); done.
Qed.

(** ** The entries of [add_candidates] and [remove_candidates] *)

Lemma add_candidates_entry_consistent (s : SudokuStateObject) (x y add : Z) :
  valid_key (x, y) → solved_at s (x, y) = false → 0 ≤ add ≤ TERMS →
  houses_inv s → houses_inv (add_candidates_entry s x y add).
Proof.
  intros Hxy Hu Hadd (Hinv & Hg & Hcons).
  destruct (add_candidates_entry_spec s x y add) as (Hwf' & Hsame & Hc & Hcc);
    [by destruct Hinv|done|clia|].
  split; [by apply add_candidates_entry_inv|].
  split; [by apply (same_clues_groups_ok s)|].
  apply (consistent_update_cands s _ (x, y)
           (λ d, has_digit (Z.land add (Z.lnot (cands_at s (x, y)))) d)); try done.
  - intros k' Hk' Hne. rewrite Hc by done. by rewrite decide_False.
  - intros d Hd. rewrite Hu, Hc, decide_True by done. rewrite has_digit_lor. lia.
Qed.

Lemma remove_candidates_entry_consistent (s : SudokuStateObject) (x y rem : Z) :
  valid_key (x, y) → solved_at s (x, y) = false →
  houses_inv s → houses_inv (remove_candidates_entry s x y rem).
Proof.
  intros Hxy Hu (Hinv & Hg & Hcons).
  destruct (remove_candidates_entry_spec s x y rem) as (Hwf' & Hsame & Hc & Hcc);
    [by destruct Hinv|done|].
  split; [by apply remove_candidates_entry_inv|].
  split; [by apply (same_clues_groups_ok s)|].
  apply (consistent_update_cands s _ (x, y)
           (λ d, - has_digit (Z.land rem (cands_at s (x, y))) d)); try done.
  - intros k' Hk' Hne. rewrite Hc by done. by rewrite decide_False.
  - intros h d Hh Hd. rewrite Hcc by done. lia.
  - intros d Hd. rewrite Hu, Hc, decide_True by done. rewrite has_digit_land_lnot. lia.
Qed.

Lemma data_State_add_candidates_consistent (change : list (key * pyobject)) :
  ∀ s, Forall (λ e, pyobject_ok e.2) change → houses_inv s →
       houses_inv (data_State_add_candidates s change).1.
Proof.
  induction change as [|[k v] rest IH]; intros s Hok Hinv; [done|].
  apply Forall_cons in Hok as [Hv Hok]. cbn [data_State_add_candidates].
  destruct v as [c|]; [|done]. destruct (UNPACK_KEY k) as [[x y]|e] eqn:Hk; [|done].
  apply UNPACK_KEY_Ok in Hk as [<- Hxy].
  destruct (CELL_FILLED (ss_grid s) x y) eqn:Hf; [done|].
  apply IH; [done|]. by apply add_candidates_entry_consistent.
Qed.

Lemma data_State_remove_candidates_consistent (change : list (key * pyobject))
    (s : SudokuStateObject) :
  houses_inv s → houses_inv (data_State_remove_candidates s change).1.
Proof.
  intros Hinv.
  assert (∀ raise, houses_inv (data_State_remove_candidates_loop s change raise).1)
    as Hloop.
  { revert s Hinv. induction change as [|[k v] rest IH]; intros s Hinv raise; [done|].
    cbn [data_State_remove_candidates_loop].
    destruct v as [c|]; [|done]. destruct (UNPACK_KEY k) as [[x y]|e] eqn:Hk; [|done].
    apply UNPACK_KEY_Ok in Hk as [<- Hxy].
    destruct (CELL_FILLED (ss_grid s) x y) eqn:Hf; [done|].
    apply IH. by apply remove_candidates_entry_consistent. }
  unfold data_State_remove_candidates. specialize (Hloop None).
  destruct (data_State_remove_candidates_loop s change None) as [s' [[[rx ry]|]|e]];
    done.
Qed.

(** Adjusting by the empty set changes nothing. *)
Lemma house_adjust_cand_count_noop (delta x y : Z) (s : SudokuStateObject) :
  for_loop 0 NUMROWS (house_adjust_cand_count_step delta x y 0) s = s.
Proof.
  apply (for_loop_ind (λ s', s' = s)); [done|]. intros i s' _ Hs. rewrite Hs.
  unfold house_adjust_cand_count_step, has_bit. by rewrite Z.land_0_l.
Qed.

(** ** Assignment through the candidates view, and [candidates.clear()] *)

Lemma set_candidates_consistent (s : SudokuStateObject) (x y new : Z) :
  valid_key (x, y) → 0 ≤ new ≤ TERMS → houses_inv s →
  let old := if solved_at s (x, y) then 0 else CELL_CANDS (ss_grid s) x y in
  let s1 := house_adjust_cand_count_down s x y old in
  let s2 := if solved_at s (x, y) then s1 else house_adjust_cand_count_up s1 x y new in
  houses_inv (set_CELL_CANDS s2 x y new).
Proof.
  intros Hxy Hnew (Hinv & Hg & Hcons). cbn zeta.
  set (old := if solved_at s (x, y) then 0 else CELL_CANDS (ss_grid s) x y).
  pose proof Hinv as (Hwf & _ & _).
  pose proof (house_adjust_cand_count_down_spec s x y old)
    as (G1 & _ & _ & _ & W1 & C1 & _).
  pose proof (house_adjust_cand_count_same (-1) x y old s) as (Hsame1 & _ & Hwf1).
  pose proof (house_adjust_cand_count_inv (-1) x y old s Hinv) as Hinv1.
  fold (house_adjust_cand_count_down s x y old) in *.
  set (s1 := house_adjust_cand_count_down s x y old) in *. clearbody s1.
  set (new' := if solved_at s (x, y) then 0 else new).
  assert (∃ s2, s2 = (if solved_at s (x, y) then s1
                      else house_adjust_cand_count_up s1 x y new)
            ∧ state_inv s2 ∧ same_clues s1 s2 ∧ ss_grid s2 = ss_grid s1
            ∧ ∀ h d, 0 ≤ h < 27 → 0 ≤ d < 9 →
                cand_count s2 h d = cand_count s1 h d + has_digit new' d * hits s1 (x, y) h)
    as (s2 & <- & Hinv2 & Hsame2 & G2 & C2).
  { eexists. split; [reflexivity|]. unfold new'. destruct (solved_at s (x, y)).
    - split_and!; [done|apply same_clues_refl|done|].
      intros h d _ _. rewrite has_digit_0. lia.
    - pose proof (house_adjust_cand_count_up_spec s1 x y new)
        as (G & _ & _ & _ & _ & C & _).
      pose proof (house_adjust_cand_count_same 1 x y new s1) as (Hsame & _ & _).
      split_and!; [by apply house_adjust_cand_count_inv|done|done|].
      intros h d Hh Hd. apply C; [|done|done].
      apply wf_state_houses_wf. by destruct Hinv1. }
  pose proof (set_CELL_CANDS_spec s2 x y new) as (Hsame3 & Hh3 & _ & Hc3).
  assert (same_clues s (set_CELL_CANDS s2 x y new)) as Hsame.
  { eapply same_clues_trans; [exact Hsame1|]. by eapply same_clues_trans. }
  split; [by apply set_CELL_CANDS_inv|].
  split; [by apply (same_clues_groups_ok s)|].
  apply (consistent_update_cands s _ (x, y)
           (λ d, has_digit new' d - has_digit old d)); try done.
  - intros k' Hk' Hne. rewrite Hc3; [|by destruct Hinv2|done|done].
    rewrite decide_False by done. unfold cands_at. by rewrite G2, G1.
  - intros h d Hh Hd. unfold cand_count at 1. rewrite Hh3. fold (cand_count s2 h d).
    rewrite C2, C1 by (done || by apply wf_state_houses_wf).
    rewrite (same_clues_hits s s1 (x, y) h Hsame1). lia.
  - intros d Hd. unfold new', old.
    destruct (solved_at s (x, y)); [by rewrite has_digit_0|].
    rewrite Hc3; [|by destruct Hinv2|done|done]. rewrite decide_True by done.
    by rewrite mask_bound_uint16.
Qed.

Lemma data_candidates_ass_sub_consistent (s : SudokuStateObject) (k : key)
    (cands : option pyobject) :
  match cands with Some v => pyobject_ok v | None => True end →
  houses_inv s → houses_inv (data_candidates_ass_sub s k cands).1.
Proof.
  intros Hok Hinv. unfold data_candidates_ass_sub.
  assert (pyobject_ok match cands with
                      | Some c => c
                      | None => PyCandidateSet (build_set 0)
                      end) as Hv.
  { destruct cands; [done|]. apply cs_ok_build_set. }
  destruct (match cands with Some c => c | None => _ end) as [c|]; [|done].
  destruct (UNPACK_KEY k) as [[x y]|e] eqn:Hk; [|done].
  apply UNPACK_KEY_Ok in Hk as [<- Hxy].
  destruct (CELL_FILLED (ss_grid s) x y) eqn:Hf; [done|]. cbn [fst].
  pose proof (set_candidates_consistent s x y (cs_set c) Hxy Hv Hinv) as H.
  cbn zeta in H. unfold solved_at in H. cbn [fst snd] in H. by rewrite Hf in H.
Qed.

Lemma data_state_candidates_clear_impl_consistent (s : SudokuStateObject) :
  houses_inv s → houses_inv (data_state_candidates_clear_impl s).
Proof.
  intros Hinv. unfold data_state_candidates_clear_impl.
  apply for_loop_ind; [done|]. intros i s0 Hi Hinv0.
  apply for_loop_ind; [done|]. intros j s1 Hj Hinv1.
  destruct (CELL_CANDS (ss_grid s1) i j >? 0) eqn:Hpos; [|done].
  assert (valid_key (i, j)) as Hij by (split; cbn [fst snd]; lia).
  pose proof (set_candidates_consistent s1 i j 0 Hij ltac:(clia) Hinv1) as H.
  cbn zeta in H. unfold solved_at in H. cbn [fst snd] in H.
  destruct (CELL_FILLED (ss_grid s1) i j) eqn:Hf; cbn [negb].
  - unfold house_adjust_cand_count_down in H.
    by rewrite house_adjust_cand_count_noop in H.
  - unfold house_adjust_cand_count_up in H.
    by rewrite house_adjust_cand_count_noop in H.
Qed.

(** ** Assignment through the clues view *)

Lemma data_clues_ass_sub_consistent (s : SudokuStateObject) (k : key)
    (value : option Z) :
  houses_inv s → houses_inv (data_clues_ass_sub s k value).1.
Proof.
  intros Hinv. split; [apply data_clues_ass_sub_inv; by destruct Hinv|].
  destruct Hinv as (Hinv & Hg & Hcons). pose proof Hinv as (Hwf & _ & _).
  unfold data_clues_ass_sub. destruct value as [digit|].
  - destruct (Z.ltb_spec digit 0); [done|].
    destruct (Z.geb_spec digit NUMROWS); [done|]. cbn [orb].
    destruct (decide (valid_key k)) as [Hk|Hk];
      [|unfold assign_clue; by rewrite (UNPACK_KEY_invalid k Hk)].
    destruct (solved_at s k) eqn:Hs.
    { unfold assign_clue. rewrite (UNPACK_KEY_valid k Hk). destruct k as [x y].
      unfold solved_at in Hs. cbn [fst snd] in Hs. by rewrite Hs. }
    destruct (assign_clue_ok s k digit Hwf Hk Hs ltac:(lia))
      as (s1 & Hrun & Hwf1 & V1 & D1 & K1 & G1 & C1 & Val1 & CC1 & SC1).
    rewrite Hrun. cbn [fst].
    assert (solved_at s1 k = true) as Hs1.
    { apply solved_at_digit. rewrite Val1 by done. rewrite decide_True by done. lia. }
    split; [intros k' Hk'; rewrite G1; by apply Hg|].
    apply (consistent_update s s1 k 1 (λ d, - has_digit (cands_at s k) d) Hk Hg).
    + intros k'. apply G1.
    + intros k' Hk' Hne. split; [|apply C1]. apply solved_at_value.
      rewrite Val1 by done. by rewrite decide_False.
    + intros h Hh. rewrite SC1 by done. lia.
    + intros h d Hh Hd. rewrite CC1 by done. lia.
    + by rewrite Hs1, Hs.
    + intros d Hd. rewrite Hs1, Hs. lia.
    + exact Hcons.
  - destruct (decide (valid_key k)) as [Hk|Hk];
      [|unfold delete_clue; by rewrite (UNPACK_KEY_invalid k Hk)].
    destruct (solved_at s k) eqn:Hs.
    2:{ unfold delete_clue. rewrite (UNPACK_KEY_valid k Hk). destruct k as [x y].
        unfold solved_at in Hs. cbn [fst snd] in Hs. by rewrite Hs. }
    destruct (delete_clue_ok s k Hwf Hk Hs)
      as (s2 & Hrun & Hwf2 & V2 & D2 & K2 & G2 & C2 & Val2 & CC2 & SC2).
    rewrite Hrun. cbn [fst].
    assert (solved_at s2 k = false) as Hs2.
    { unfold solved_at, CELL_FILLED. fold (value_at s2 k). rewrite Val2 by done.
      by rewrite decide_True. }
    split; [intros k' Hk'; rewrite G2; by apply Hg|].
    apply (consistent_update s s2 k (-1) (λ d, has_digit (cands_at s k) d) Hk Hg).
    + intros k'. apply G2.
    + intros k' Hk' Hne. split; [|apply C2]. apply solved_at_value.
      rewrite Val2 by done. by rewrite decide_False.
    + intros h Hh. rewrite SC2 by done. lia.
    + intros h d Hh Hd. by rewrite CC2.
    + by rewrite Hs2, Hs.
    + intros d Hd. rewrite Hs2, Hs, C2. lia.
    + exact Hcons.
Qed.

(** X18: the invariants of the data model, the counters of the houses
    among them, are kept by every mutation that is not [candidates.fill()]
    or [__setstate__], whether it succeeds or fails: after it the solved
    counter of each house is the number of its solved cells and the counter
    of each digit the number of its unsolved cells with that candidate. *)
Theorem mutations_keep_houses_consistent (s : SudokuStateObject) (m : mutation) :
  houses_inv s → mutation_ok m → adjusting m → houses_inv (apply_mutation s m).
Proof.
  intros Hinv Hm Hadj.
  destruct m as [k digit|k|change|change|k cands| | |cands hook dict];
    cbn [apply_mutation].
  - by apply data_clues_ass_sub_consistent.
  - by apply data_clues_ass_sub_consistent.
  - by apply data_State_add_candidates_consistent.
  - by apply data_State_remove_candidates_consistent.
  - apply data_candidates_ass_sub_consistent; [|exact Hinv]. by destruct cands.
  - by apply data_state_candidates_clear_impl_consistent.
  - destruct Hadj.
  - destruct Hadj.
Qed.

Lemma houses_consistent_state_E1 : houses_consistent state_E1.
Proof.
  assert (Forall (λ h, solved_count state_E1 h = solved_in_house state_E1 h
                       ∧ Forall (λ d, cand_count state_E1 h d = cands_in_house state_E1 h d)
                                (seqZ 0 9)) (seqZ 0 27)) as Hall
    by (apply (bool_decide_unpack _); by vm_compute).
  intros h Hh. rewrite Forall_forall in Hall.
  destruct (Hall h) as [Hs Hc]; [apply elem_of_seqZ; lia|].
  split; [done|]. intros d Hd. rewrite Forall_forall in Hc. apply Hc, elem_of_seqZ. lia.
Qed.

Lemma houses_inv_state_E1 : houses_inv state_E1.
Proof.
  split; [|split; [apply groups_ok_state_E1|apply houses_consistent_state_E1]].
  split; [apply wf_state_state_E1|]. split; [apply masks_ok_state_E1|].
  apply solved_ok_state_E1.
Qed.

Lemma mutations_keep_houses_consistent_witness :
  houses_inv (apply_mutation state_E1 (M_assign_clue (0, 2) 4)).
Proof.
  apply (mutations_keep_houses_consistent state_E1 (M_assign_clue (0, 2) 4)
           houses_inv_state_E1); exact I.
Defined.

(** ** The cells set to a digit *)

Lemma cells_with_update (s s' : SudokuStateObject) (k : key) (d : Z) :
  valid_key k →
  (∀ k', valid_key k' → k' ≠ k → value_at s' k' = value_at s k') →
  cells_with s' d
  = cells_with s d + Z.b2z (solved_at s' k && (value_at s' k =? d))
    - Z.b2z (solved_at s k && (value_at s k =? d)).
Proof.
  intros Hk Hoff. unfold cells_with.
  apply (filter_length_update (λ k, solved_at s k && (value_at s k =? d))
           (λ k, solved_at s' k && (value_at s' k =? d)) all_keys k NoDup_all_keys).
  - by apply elem_of_all_keys.
  - intros k' Hk'%elem_of_all_keys Hne.
    by rewrite (solved_at_value s s' k' (Hoff k' Hk' Hne)), Hoff.
Qed.

Lemma zget_digits_zupd (digits : list Z) (v d delta : Z) :
  length digits = 9%nat → 0 ≤ d < NUMROWS →
  zget (zupd digits v (λ n, n + delta)) d
  = zget digits d + (if decide (v = d) then delta else 0).
Proof.
  intros Hlen Hd. rewrite zget_zupd by lia. destruct (decide (v = d)) as [->|Hne].
  - rewrite decide_True; [done|]. split; [done|]. clia.
  - rewrite decide_False; [lia|]. by intros [? _].
Qed.

(** * The counters of the houses after construction *)




(** The loop of the constructor over distinct keys keeps the counters
    right while no cell has candidates. *)
Lemma put_givens_consistent (clues : list (key * Z)) :
  ∀ s s', put_givens s clues = (s', Ok tt) →
    NoDup clues.*1 → wf_state s → values_ok s →
    (∀ k, valid_key k → cands_at s k = 0) →
    (∀ k, k ∈ clues.*1 → valid_key k → solved_at s k = false) →
    wf_state s' ∧ values_ok s'
    ∧ (∀ k, valid_key k → cands_at s' k = 0)
    ∧ (∀ h d, cand_count s' h d = cand_count s h d)
    ∧ (groups_ok s → houses_consistent s → houses_consistent s')
    ∧ (∀ d, 0 ≤ d < NUMROWS → digits_off s' d = digits_off s d).
Proof.
  induction clues as [|[k cl] rest IH];
    intros s s' Hrun Hnd Hwf Hv Hzero Hfree.
  - cbn in Hrun. by injection Hrun as <-.
  - cbn [put_givens] in Hrun. rewrite fmap_cons in Hnd, Hfree. cbn [fst] in Hnd, Hfree.
    apply NoDup_cons in Hnd as [Hk Hnd].
    destruct (Z.ltb_spec cl 0); [done|]. destruct (Z.gtb_spec cl NUMROWS); [done|].
    cbn [orb] in Hrun.
    destruct (UNPACK_KEY k) as [[x y]|e] eqn:Hkey; [|done].
    apply UNPACK_KEY_Ok in Hkey as [<- Hxy].
    set (s1 := set_ss_skeys s _) in Hrun.
    assert (wf_state s1 ∧ ss_grid s1 = ss_grid s ∧ ss_houses s1 = ss_houses s
            ∧ ss_digits s1 = ss_digits s)
      as (Hwf1 & G1 & H1 & D1) by (by destruct Hwf).
    clearbody s1.
    pose proof (set_CELL_VALUE_cells s1 x y cl) as (G2 & C2 & V2).
    pose proof (set_CELL_VALUE_wf s1 x y cl Hwf1) as Hwf2.
    assert (ss_houses (set_CELL_VALUE s1 x y cl) = ss_houses s1
            ∧ ss_digits (set_CELL_VALUE s1 x y cl) = ss_digits s1) as [H2 D2] by done.
    set (s2 := set_CELL_VALUE s1 x y cl) in *. clearbody s2.
    pose proof (house_adjust_solved_up_spec s2 x y) as (G3 & _ & D3 & _ & W3 & C3 & S3).
    set (s3 := house_adjust_solved_up s2 x y) in *. clearbody s3.
    set (s4 := set_ss_digits s3 _) in Hrun.
    assert (ss_grid s4 = ss_grid s3 ∧ ss_houses s4 = ss_houses s3
            ∧ length (ss_digits s4) = length (ss_digits s3)
            ∧ ss_digits s4 = zupd (ss_digits s3) cl (λ n, n + 1)) as (G4 & H4 & D4 & D4').
    { unfold s4. cbn [ss_grid ss_houses ss_digits set_ss_digits]. by rewrite length_zupd. }
    clearbody s4.
    assert (houses_wf (ss_houses s2)) as Hhw2 by (by apply wf_state_houses_wf).
    assert (wf_state s3) as Hwf3.
    { apply (wf_state_frame s2); [done|by apply W3|by rewrite D3|done]. }
    assert (wf_state s4) as Hwf4.
    { apply (wf_state_frame s3); [done|by rewrite H4; apply wf_state_houses_wf|done|done]. }
    assert (∀ k', CELL_GROUP s4 k'.1 k'.2 = CELL_GROUP s k'.1 k'.2) as Hgr.
    { intros k'. unfold CELL_GROUP. rewrite G4, G3.
      fold (CELL_GROUP s2 k'.1 k'.2). rewrite G2. unfold CELL_GROUP. by rewrite G1. }
    assert (∀ k', valid_key k' →
              value_at s4 k' = if decide (k' = (x, y)) then cl else value_at s k') as Hval.
    { intros k' Hk'. unfold value_at. rewrite G4, G3. fold (value_at s2 k').
      rewrite V2 by done. case_decide; [apply uint16_small; clia|].
      unfold value_at. by rewrite G1. }
    assert (∀ k', cands_at s4 k' = cands_at s k') as Hcands.
    { intros k'. unfold cands_at. rewrite G4, G3. fold (cands_at s2 k').
      rewrite C2. unfold cands_at. by rewrite G1. }
    assert (solved_at s4 (x, y) = true) as Hs4.
    { unfold solved_at, CELL_FILLED. fold (value_at s4 (x, y)).
      rewrite Hval by done. rewrite decide_True by done.
      rewrite <- (uint16_small cl) by clia. apply clue_digit_filled. lia. }
    assert (∀ k', valid_key k' → k' ≠ (x, y) → solved_at s4 k' = solved_at s k') as Hoff.
    { intros k' Hk' Hne. apply solved_at_value. rewrite Hval by done.
      by rewrite decide_False. }
    assert (solved_at s (x, y) = false) as Hs0 by (apply Hfree; [left|done]).
    assert (∀ h d, cand_count s4 h d = cand_count s h d) as Hcc.
    { intros h d. unfold cand_count at 1. rewrite H4. fold (cand_count s3 h d).
      rewrite C3. unfold cand_count. by rewrite H2, H1. }
    assert (groups_ok s → houses_consistent s → houses_consistent s4) as Hcons4.
    { intros Hg Hcons. apply (consistent_update s s4 (x, y) 1 (λ _, 0) Hxy Hg Hgr).
      - intros k' Hk' Hne. split; [by apply Hoff|apply Hcands].
      - intros h Hh. unfold solved_count at 1. rewrite H4. fold (solved_count s3 h).
        rewrite S3 by done.
        rewrite (hits_CELL_GROUP s s2 (x, y) h)
          by (cbn [fst snd]; rewrite G2; unfold CELL_GROUP; by rewrite G1).
        unfold solved_count. rewrite H2, H1. lia.
      - intros h d _ _. rewrite Hcc. lia.
      - by rewrite Hs4, Hs0.
      - intros d _. rewrite Hs4, Hs0, (Hzero (x, y) Hxy), has_digit_0. lia.
      - exact Hcons. }
    assert (∀ d, 0 ≤ d < NUMROWS → digits_off s4 d = digits_off s d) as Hdig4.
    { intros d Hd. unfold digits_off.
      rewrite (cells_with_update s s4 (x, y) d Hxy)
        by (intros k' Hk' Hne; rewrite Hval by done; by rewrite decide_False).
      rewrite D4', D3, D2, D1, zget_digits_zupd, Hs4, Hs0, Hval
        by (done || by destruct Hwf).
      rewrite (decide_True (P := (x, y) = (x, y))) by done.
      cbn [andb Z.b2z]. case_decide as Heq.
      - rewrite Heq, Z.eqb_refl. cbn. lia.
      - apply Z.eqb_neq in Heq. rewrite Heq. cbn. lia. }
    destruct (IH s4 s' Hrun Hnd Hwf4) as (Hwf' & Hv' & Hzero' & Hcc' & Hcons' & Hdig').
    + intros k' Hk' Hs. rewrite Hval by done. case_decide as Hkk; [lia|].
      apply Hv; [done|]. by rewrite <- Hoff.
    + intros k' Hk'. rewrite Hcands. by apply Hzero.
    + intros k' Hin Hk'. rewrite Hoff; [by apply Hfree; [right|]|done|].
      intros ->. done.
    + split; [exact Hwf'|]. split; [exact Hv'|]. split; [exact Hzero'|].
      split; [intros h d; by rewrite Hcc'|]. split.
      * intros Hg Hcons. apply Hcons'; [|by apply Hcons4].
        intros k' Hk'. rewrite Hgr. by apply Hg.
      * intros d Hd. by rewrite Hdig', Hdig4.
Qed.






(** * The digit counters and the getters *)

Lemma same_values_refl (s : SudokuStateObject) : same_values s s.
Proof. by split. Qed.

Lemma same_values_trans (s1 s2 s3 : SudokuStateObject) :
  same_values s1 s2 → same_values s2 s3 → same_values s1 s3.
Proof. intros [D1 V1] [D2 V2]. split; [congruence|]. intros k. by rewrite V2. Qed.

Lemma same_clues_same_values (s s' : SudokuStateObject) :
  same_clues s s' → same_values s s'.
Proof. intros (_ & D & _ & _ & _ & _ & _ & V & _). by split. Qed.

Lemma digits_off_frame (s s' : SudokuStateObject) (d : Z) :
  same_values s s' → digits_off s' d = digits_off s d.
Proof.
  intros [D V]. unfold digits_off, cells_with. rewrite D.
  assert (List.filter (λ k, solved_at s' k && (value_at s' k =? d)) all_keys
          = List.filter (λ k, solved_at s k && (value_at s k =? d)) all_keys) as ->; [|done].
  apply List.filter_ext. intros k. by rewrite (solved_at_value s s' k (V k)), V.
Qed.

(** The primitives that touch counters of houses and candidate masks. *)
Lemma same_values_adjust (s0 s : SudokuStateObject) (delta x y set : Z) :
  same_values s0 s →
  same_values s0 (for_loop 0 NUMROWS (house_adjust_cand_count_step delta x y set) s).
Proof.
  intros H. eapply same_values_trans; [exact H|]. apply same_clues_same_values.
  by destruct (house_adjust_cand_count_same delta x y set s) as (? & _).
Qed.

Lemma same_values_set_CELL_CANDS (s0 s : SudokuStateObject) (x y v : Z) :
  same_values s0 s → same_values s0 (set_CELL_CANDS s x y v).
Proof.
  intros H. eapply same_values_trans; [exact H|]. apply same_clues_same_values.
  by destruct (set_CELL_CANDS_spec s x y v) as (? & _).
Qed.

Lemma same_values_add_candidates (change : list (key * pyobject)) :
  ∀ s0 s, same_values s0 s → same_values s0 (data_State_add_candidates s change).1.
Proof.
  induction change as [|[k v] rest IH]; intros s0 s H; [done|].
  cbn [data_State_add_candidates].
  destruct v as [c|]; [|done]. destruct (UNPACK_KEY k) as [[x y]|e]; [|done].
  destruct (CELL_FILLED (ss_grid s) x y); [done|].
  apply IH. unfold add_candidates_entry.
  apply same_values_set_CELL_CANDS, same_values_adjust.
  destruct (negb _); [by apply same_values_adjust|done].
Qed.

Lemma same_values_remove_candidates (change : list (key * pyobject))
    (s0 s : SudokuStateObject) :
  same_values s0 s → same_values s0 (data_State_remove_candidates s change).1.
Proof.
  intros H.
  assert (∀ raise, same_values s0 (data_State_remove_candidates_loop s change raise).1)
    as Hloop.
  { revert s H. induction change as [|[k v] rest IH]; intros s H raise; [done|].
    cbn [data_State_remove_candidates_loop].
    destruct v as [c|]; [|done]. destruct (UNPACK_KEY k) as [[x y]|e]; [|done].
    destruct (CELL_FILLED (ss_grid s) x y); [done|].
    apply IH. unfold remove_candidates_entry.
    apply same_values_set_CELL_CANDS, same_values_adjust.
    destruct (negb _); [by apply same_values_adjust|done]. }
  unfold data_State_remove_candidates. specialize (Hloop None).
  destruct (data_State_remove_candidates_loop s change None) as [s' [[[rx ry]|]|e]];
    done.
Qed.

Lemma same_values_candidates_ass_sub (s : SudokuStateObject) (k : key)
    (cands : option pyobject) :
  same_values s (data_candidates_ass_sub s k cands).1.
Proof.
  unfold data_candidates_ass_sub.
  destruct (match cands with Some c => c | None => _ end) as [c|];
    [|apply same_values_refl].
  destruct (UNPACK_KEY k) as [[x y]|e]; [|apply same_values_refl].
  destruct (CELL_FILLED (ss_grid s) x y); [apply same_values_refl|]. cbn [fst].
  apply same_values_set_CELL_CANDS, same_values_adjust, same_values_adjust,
    same_values_refl.
Qed.

Lemma same_values_clear (s : SudokuStateObject) :
  same_values s (data_state_candidates_clear_impl s).
Proof.
  unfold data_state_candidates_clear_impl.
  apply (for_loop_ind (same_values s)); [apply same_values_refl|]. intros i s0 _ H0.
  apply (for_loop_ind (same_values s)); [done|]. intros j s1 _ H1.
  destruct (CELL_CANDS (ss_grid s1) i j >? 0); [|done].
  apply same_values_set_CELL_CANDS.
  destruct (negb _); [by apply same_values_adjust|done].
Qed.

Lemma same_values_fill (s : SudokuStateObject) :
  same_values s (fill_in_pencilmarks s).1.
Proof.
  unfold fill_in_pencilmarks.
  apply (for_loop_r_ind (same_values s)).
  { apply (for_loop_ind (same_values s)); [apply same_values_refl|].
    intros n s0 _ [D V]. by split. }
  intros n s0 _ H0. apply (for_loop_r_ind (same_values s)); [done|]. intros m s1 _ H1.
  unfold fill_in_pencilmarks_cell.
  destruct (CELL_FILLED (ss_grid s1) n m); [done|].
  destruct (ss_peers s1 !! Z.to_nat (INDEX n m)) as [keyset|]; [|done].
  destruct (negb _); [done|]. cbn [fst].
  by apply same_values_adjust, same_values_set_CELL_CANDS.
Qed.

Lemma same_values_setstate (cands : list (key * pyobject)) (hook : option Z)
    (dict : option (list (Z * Z))) (s : SudokuStateObject) :
  same_values s (data_State___setstate__ s cands hook dict).1.
Proof.
  assert (∀ s0 s, same_values s0 s →
            same_values s0 (data_State___setstate___loop s cands).1) as Hloop.
  { induction cands as [|[k v] rest IH]; intros s0 s1 H; [done|].
    cbn [data_State___setstate___loop].
    destruct v as [c|]; [|done]. destruct (UNPACK_KEY k) as [[x y]|e]; [|done].
    apply IH. destruct (negb _).
    - by apply same_values_adjust, same_values_set_CELL_CANDS.
    - by apply same_values_set_CELL_CANDS. }
  specialize (Hloop s s (same_values_refl s)).
  unfold data_State___setstate__.
  destruct (data_State___setstate___loop s cands) as [s' [[]|e]]; [|done].
  cbn [fst] in *. destruct Hloop as [D V]. by destruct dict, hook; split.
Qed.

(** ** Assignment through the clues view *)

Lemma data_clues_ass_sub_digits_off (s : SudokuStateObject) (k : key)
    (value : option Z) (d : Z) :
  wf_state s → 0 ≤ d < NUMROWS →
  digits_off (data_clues_ass_sub s k value).1 d = digits_off s d.
Proof.
  intros Hwf Hd. unfold data_clues_ass_sub. destruct value as [digit|].
  - destruct (Z.ltb_spec digit 0); [done|].
    destruct (Z.geb_spec digit NUMROWS); [done|]. cbn [orb].
    destruct (decide (valid_key k)) as [Hk|Hk];
      [|unfold assign_clue; by rewrite (UNPACK_KEY_invalid k Hk)].
    destruct (solved_at s k) eqn:Hs.
    { unfold assign_clue. rewrite (UNPACK_KEY_valid k Hk). destruct k as [x y].
      unfold solved_at in Hs. cbn [fst snd] in Hs. by rewrite Hs. }
    destruct (assign_clue_ok s k digit Hwf Hk Hs ltac:(lia))
      as (s1 & Hrun & Hwf1 & V1 & D1 & K1 & G1 & C1 & Val1 & CC1 & SC1).
    rewrite Hrun. cbn [fst]. unfold digits_off.
    assert (value_at s1 k = digit) as Hvk
      by (rewrite Val1 by done; by rewrite decide_True).
    assert (solved_at s1 k = true) as Hs1
      by (apply solved_at_digit; rewrite Hvk; lia).
    rewrite (cells_with_update s s1 k d Hk)
      by (intros k' Hk' Hne; rewrite Val1 by done; by rewrite decide_False).
    rewrite D1, zget_digits_zupd, Hs1, Hs, Hvk by (done || by destruct Hwf).
    cbn [andb Z.b2z]. case_decide as Heq.
    + subst. rewrite Z.eqb_refl. cbn. lia.
    + apply Z.eqb_neq in Heq. rewrite Heq. cbn. lia.
  - destruct (decide (valid_key k)) as [Hk|Hk];
      [|unfold delete_clue; by rewrite (UNPACK_KEY_invalid k Hk)].
    destruct (solved_at s k) eqn:Hs.
    2:{ unfold delete_clue. rewrite (UNPACK_KEY_valid k Hk). destruct k as [x y].
        unfold solved_at in Hs. cbn [fst snd] in Hs. by rewrite Hs. }
    destruct (delete_clue_ok s k Hwf Hk Hs)
      as (s2 & Hrun & Hwf2 & V2 & D2 & K2 & G2 & C2 & Val2 & CC2 & SC2).
    rewrite Hrun. cbn [fst]. unfold digits_off.
    assert (solved_at s2 k = false) as Hs2.
    { unfold solved_at, CELL_FILLED. fold (value_at s2 k). rewrite Val2 by done.
      by rewrite decide_True. }
    rewrite (cells_with_update s s2 k d Hk)
      by (intros k' Hk' Hne; rewrite Val2 by done; by rewrite decide_False).
    rewrite D2. change (λ n : Z, n - 1) with (λ n : Z, n + -1).
    rewrite zget_digits_zupd, Hs2, Hs by (done || by destruct Hwf).
    cbn [andb Z.b2z]. case_decide as Heq.
    + rewrite Heq, Z.eqb_refl. cbn. lia.
    + apply Z.eqb_neq in Heq. rewrite Heq. cbn. lia.
Qed.

(** No public mutation, whatever its outcome, changes what a digit counter
    has above the number of cells set to its digit. *)
Lemma apply_mutation_digits_off (s : SudokuStateObject) (m : mutation) (d : Z) :
  wf_state s → 0 ≤ d < NUMROWS → digits_off (apply_mutation s m) d = digits_off s d.
Proof.
  intros Hwf Hd.
  destruct m as [k digit|k|change|change|k cands| | |cands hook dict];
    cbn [apply_mutation].
  - by apply data_clues_ass_sub_digits_off.
  - by apply data_clues_ass_sub_digits_off.
  - apply digits_off_frame, same_values_add_candidates, same_values_refl.
  - apply digits_off_frame, same_values_remove_candidates, same_values_refl.
  - apply digits_off_frame, same_values_candidates_ass_sub.
  - apply digits_off_frame, same_values_clear.
  - apply digits_off_frame, same_values_fill.
  - apply digits_off_frame, same_values_setstate.
Qed.

Lemma mutations_digits_off (ms : list mutation) (s : SudokuStateObject) (d : Z) :
  Forall mutation_ok ms → state_inv s → 0 ≤ d < NUMROWS →
  state_inv (fold_left apply_mutation ms s)
  ∧ digits_off (fold_left apply_mutation ms s) d = digits_off s d.
Proof.
  intros Hms. revert s. induction Hms as [|m ms Hm Hms IH]; intros s Hinv Hd; [done|].
  cbn [fold_left].
  destruct (IH (apply_mutation s m) (apply_mutation_inv s m Hm Hinv) Hd) as [Hinv' Hoff].
  split; [done|]. rewrite Hoff. apply apply_mutation_digits_off; [|done].
  by destruct Hinv.
Qed.

(** ** [__init__], on fresh memory or on a live object *)

(** [set_defaults] leaves every cell of a full grid unsolved and without
    candidates. *)
Lemma set_defaults_fold (l : list Z) (grid : list cell_info) (n : nat) (c : cell_info) :
  (fold_left (λ grid i, zupd grid i (λ c, mkCell (ci_group c) ERRORBIT 0)) l grid) !! n
  = Some c →
  cell_blank c ∨ ((Z.of_nat n ∉ l) ∧ grid !! n = Some c).
Proof.
  revert grid. induction l as [|i l IH]; intros grid Hc; cbn [fold_left] in Hc.
  - right. split; [by intros ?%elem_of_nil|done].
  - destruct (IH _ Hc) as [Hb|[Hnin Hlook]]; [by left|].
    unfold zupd in Hlook. destruct (Z.ltb_spec i 0) as [Hneg|Hpos].
    + right. split; [|done]. intros [?|?]%elem_of_cons; [lia|done].
    + destruct (decide (Z.to_nat i = n)) as [Heq|Hne].
      * left. rewrite <- Heq, list_lookup_alter_eq in Hlook.
        destruct (grid !! Z.to_nat i) as [c0|]; [|done].
        cbn in Hlook. injection Hlook as <-. done.
      * right. rewrite list_lookup_alter_ne in Hlook by done. split; [|done].
        intros [?|?]%elem_of_cons; [lia|done].
Qed.

Lemma set_defaults_blank_any (grid : list cell_info) :
  length grid = 81%nat →
  Forall cell_blank (set_defaults grid) ∧ length (set_defaults grid) = 81%nat.
Proof.
  intros Hlen.
  assert (length (set_defaults grid) = 81%nat) as Hlen'.
  { unfold set_defaults. apply (for_loop_ind (λ g, length g = 81%nat)); [done|].
    intros i g _ Hg. by rewrite length_zupd. }
  split; [|done]. apply Forall_lookup. intros n c Hc.
  pose proof (lookup_lt_Some _ _ _ Hc) as Hn. rewrite Hlen' in Hn.
  unfold set_defaults, for_loop in Hc.
  destruct (set_defaults_fold _ _ _ _ Hc) as [Hb|[Hnin _]]; [done|].
  exfalso. apply Hnin, elem_of_seqZ. clia.
Qed.

(** A successful [__init__] from distinct keys establishes the invariants
    and counts the new clues on top of the digit counters it finds. *)
Lemma data_State___init___impl_spec (self : SudokuStateObject)
    (clues : list (key * Z)) (dofill : bool) (grconfig : option (list Z))
    (s : SudokuStateObject) :
  wf_state self → NoDup clues.*1 →
  data_State___init___impl self clues dofill grconfig = (s, Ok tt) →
  state_inv s ∧ ∀ d, 0 ≤ d < NUMROWS → digits_off s d = zget (ss_digits self) d.
Proof.
  intros Hwfs Hnd. unfold data_State___init___impl.
  set (s0 := set_python_calculated_attrs _ _).
  assert (ss_grid s0 = set_defaults (ss_grid self) ∧ ss_houses s0 = zero_houses
          ∧ ss_digits s0 = ss_digits self) as (Hg0 & Hh0 & Hd0).
  { unfold s0, set_python_calculated_attrs.
    destruct grconfig as [g|]; [destruct (decide _)|]; done. }
  cbn [ss_grid ss_grconfig set_ss_skeys]. rewrite Hg0.
  destruct (set_defaults_blank_any (ss_grid self)) as [Hblank0 Hlen0];
    [by destruct Hwfs|].
  destruct (set_groups_in_cells _ _) as [grid|e] eqn:Hgroups; [|done].
  apply set_groups_in_cells_loop_blank in Hgroups as [Hblank Hlen]; [|done|done].
  set (s1 := set_ss_grid _ grid).
  assert (ss_grid s1 = grid ∧ ss_digits s1 = ss_digits self) as (Hg1 & Hd1) by done.
  destruct (blank_state_inv s1) as (Hwf1 & Hmasks1 & Hfree1); try done.
  { rewrite Hd1. by destruct Hwfs. }
  assert (∀ k, valid_key k → cands_at s1 k = 0) as Hzero1.
  { intros k Hk. pose proof (INDEX_range k Hk) as Hr. unfold cands_at, CELL_CANDS.
    rewrite Hg1.
    assert (cell_blank (zget grid (INDEX k.1 k.2))) as [_ ->]; [|done].
    rewrite Forall_forall in Hblank. apply Hblank, zget_elem_of; lia. }
  assert (∀ d, digits_off s1 d = zget (ss_digits self) d) as Hoff1.
  { intros d. unfold digits_off, cells_with. rewrite Hd1.
    rewrite filter_false_length
      by (intros k Hk%elem_of_all_keys; by rewrite (Hfree1 k Hk)).
    lia. }
  clearbody s1.
  destruct (put_givens s1 clues) as [s2 [[]|e]] eqn:Hput; [|done].
  pose proof Hput as Hput'.
  apply put_givens_inv in Hput' as (Hwf2 & Hmasks2 & Hcount); try done;
    [|by intros k _; apply Hfree1].
  rewrite (filter_false_length (solved_at s1)) in Hcount
    by (by intros k Hk%elem_of_all_keys; apply Hfree1).
  apply put_givens_consistent in Hput as (_ & _ & _ & _ & _ & Hoff2); try done;
    [|by intros k Hk Hs; rewrite Hfree1 in Hs|by intros k _; apply Hfree1].
  assert (state_inv (set_ss_solved s2 (Z.of_nat (length clues)))
          ∧ ∀ d, 0 ≤ d < NUMROWS →
              digits_off (set_ss_solved s2 (Z.of_nat (length clues))) d
              = zget (ss_digits self) d) as [Hinv Hoff].
  { split.
    - split_and!; [by destruct Hwf2|done|].
      unfold solved_ok. cbn [ss_solved set_ss_solved].
      change (solved_at (set_ss_solved _ _)) with (solved_at s2). by rewrite Hcount.
    - intros d Hd. rewrite <- Hoff1, <- (Hoff2 d Hd). by apply digits_off_frame. }
  destruct dofill.
  - pose proof (fill_in_pencilmarks_inv _ Hinv) as Hfill.
    pose proof (same_values_fill (set_ss_solved s2 (Z.of_nat (length clues)))) as Hsv.
    destruct (fill_in_pencilmarks _) as [s3 [[]|e]]; [|done].
    intros [= <-]. split; [done|]. intros d Hd. rewrite <- (Hoff d Hd).
    by apply digits_off_frame.
  - by intros [= <-].
Qed.

Lemma filter_all_length {A} (P : A → bool) (l : list A) :
  length (List.filter P l) = length l ↔ ∀ a, a ∈ l → P a = true.
Proof.
  induction l as [|a l IH]; cbn [List.filter].
  - split; [by intros _ a ?%elem_of_nil|done].
  - pose proof (List.filter_length_le P l) as Hle. destruct (P a) eqn:Ha; cbn [length].
    + split.
      * intros [= Hlen]. pose proof (proj1 IH Hlen) as Hl.
        intros b [->|Hb]%elem_of_cons; auto.
      * intros Hall. f_equal. apply (proj2 IH). intros b Hb. apply Hall. by right.
    + split; [lia|]. intros Hall. specialize (Hall a ltac:(left)). congruence.
Qed.

(** X20: after a successful [__init__] from distinct keys, on fresh memory
    or on a live object, and any public mutations after it, [num_remaining]
    is the number of unsolved cells and [done] is true exactly when all 81
    cells are solved; [num_values] is a 9-tuple whose entry [d] is the number
    of cells set to [d] plus the entry [d] the object had before that
    [__init__], which never clears [ss_digits].  So [num_values] counts the
    cells on an object initialised once, whose counters start at zero, and
    carries the old counts along after a re-initialisation. *)
Theorem getters_spec (self : SudokuStateObject) (clues : list (key * Z))
    (dofill : bool) (grconfig : option (list Z)) (ms : list mutation) :
  wf_state self → NoDup clues.*1 → Forall mutation_ok ms →
  (data_State___init___impl self clues dofill grconfig).2 = Ok tt →
  let s := fold_left apply_mutation ms
             (data_State___init___impl self clues dofill grconfig).1 in
  data_State_num_remaining_getter s
  = Z.of_nat (length (List.filter (λ k, negb (solved_at s k)) all_keys))
  ∧ (data_State_done_getter s = true ↔ ∀ k, valid_key k → solved_at s k = true)
  ∧ length (data_State_num_values_getter s) = 9%nat
  ∧ (∀ d, 0 ≤ d < NUMROWS →
       zget (data_State_num_values_getter s) d
       = cells_with s d + zget (data_State_num_values_getter self) d)
  ∧ (self = State_alloc → ∀ d, 0 ≤ d < NUMROWS →
       zget (data_State_num_values_getter s) d = cells_with s d).
Proof.
  intros Hwfs Hnd Hms Hok.
  destruct (data_State___init___impl self clues dofill grconfig) as [s0 r] eqn:Hinit.
  cbn [fst snd] in *. subst r.
  destruct (data_State___init___impl_spec self clues dofill grconfig s0 Hwfs Hnd Hinit)
    as [Hinv0 Hoff0].
  cbn zeta.
  assert (state_inv (fold_left apply_mutation ms s0)
          ∧ ∀ d, 0 ≤ d < NUMROWS →
              zget (ss_digits (fold_left apply_mutation ms s0)) d
              = cells_with (fold_left apply_mutation ms s0) d + zget (ss_digits self) d)
    as [(Hwf & _ & Hsolved) Hdig].
  { split; [by destruct (mutations_digits_off ms s0 0 Hms Hinv0 ltac:(clia))|].
    intros d Hd. destruct (mutations_digits_off ms s0 d Hms Hinv0 Hd) as [_ Hoff].
    rewrite (Hoff0 d Hd) in Hoff. unfold digits_off in Hoff. lia. }
  set (s := fold_left apply_mutation ms s0) in *. clearbody s.
  assert (length all_keys = 81%nat) as H81 by (vm_compute; reflexivity).
  pose proof (List.filter_length (solved_at s) all_keys) as Hfl. rewrite H81 in Hfl.
  unfold solved_ok in Hsolved.
  assert (∀ s' d, 0 ≤ d < NUMROWS →
            zget (data_State_num_values_getter s') d = zget (ss_digits s') d) as Hnv.
  { intros s' d Hd. unfold data_State_num_values_getter. by rewrite zget_fmap_seqZ. }
  split; [|split; [|split; [|split]]].
  - unfold data_State_num_remaining_getter. rewrite Hsolved.
    enough (∀ a b : nat, (a + b = 81)%nat → GRIDSIZE - Z.of_nat a = Z.of_nat b) as Hen
      by (eapply Hen; exact Hfl).
    intros a b Hab. clia.
  - unfold data_State_done_getter. rewrite Hsolved, Z.eqb_eq. split.
    + intros Hlen k Hk. apply (filter_all_length (solved_at s) all_keys).
      * rewrite H81. clia.
      * by apply elem_of_all_keys.
    + intros Hall.
      assert (length (List.filter (solved_at s) all_keys) = length all_keys) as ->.
      { apply filter_all_length. intros k Hk%elem_of_all_keys. by apply Hall. }
      by rewrite H81.
  - unfold data_State_num_values_getter. by rewrite length_fmap, length_seqZ.
  - intros d Hd. rewrite !Hnv by done. by apply Hdig.
  - intros -> d Hd. rewrite Hnv, (Hdig d Hd) by done.
    assert (Forall (λ d, zget (ss_digits State_alloc) d = 0) (seqZ 0 9)) as Hall
      by (apply (bool_decide_unpack _); by vm_compute).
    rewrite Forall_forall in Hall. rewrite (Hall d); [lia|]. apply elem_of_seqZ. clia.
Qed.

Lemma getters_spec_witness :
  let s := fold_left apply_mutation [M_assign_clue (4, 4) 5]
             (data_State___init___impl state_E1 [((0, 0), 0); ((2, 2), 3)] true None).1 in
  data_State_num_remaining_getter s
  = Z.of_nat (length (List.filter (λ k, negb (solved_at s k)) all_keys))
  ∧ (data_State_done_getter s = true ↔ ∀ k, valid_key k → solved_at s k = true)
  ∧ length (data_State_num_values_getter s) = 9%nat
  ∧ (∀ d, 0 ≤ d < NUMROWS →
       zget (data_State_num_values_getter s) d
       = cells_with s d + zget (data_State_num_values_getter state_E1) d)
  ∧ (state_E1 = State_alloc → ∀ d, 0 ≤ d < NUMROWS →
       zget (data_State_num_values_getter s) d = cells_with s d).
Proof.
  apply (getters_spec state_E1 [((0, 0), 0); ((2, 2), 3)] true None
           [M_assign_clue (4, 4) 5] wf_state_state_E1).
  - apply (bool_decide_unpack _). by vm_compute.
  - repeat constructor.
  - vm_compute. reflexivity.
Defined.

(** * Serialization of a CandidateSet *)

Lemma testbit_lower_bound (a d : Z) : 0 ≤ a → 0 ≤ d → Z.testbit a d = true → 2 ^ d ≤ a.
Proof.
  intros Ha Hd Hb. destruct (Z.le_gt_cases (2 ^ d) a) as [|Hlt]; [done|].
  destruct (Z.eq_dec a 0) as [->|Hne]; [by rewrite Z.bits_0 in Hb|].
  rewrite Z.bits_above_log2 in Hb; [done|lia|].
  apply Z.log2_lt_pow2; lia.
Qed.

(** X21: what [__getstate__] returns is accepted by [__setstate__] exactly
    when the mask is below 9: such a set is restored with its mask and its
    iteration position, every other set is refused with a value error, the
    target left as it was.  In particular no set with a digit from 4 to 8 can
    be restored from its own state. *)
Theorem CandidateSet_pickle_round_trip (c self : CandidateSetObject) :
  cs_ok c → 0 ≤ cs_iterpos c →
  let r := data_CandidateSet___setstate__ self (data_CandidateSet___getstate___impl c) in
  (cs_set c < NUMROWS → r = (c, Ok tt))
  ∧ (NUMROWS ≤ cs_set c → r = (self, Err BadState))
  ∧ (∀ d, 4 ≤ d < 9 → cs_mem d c = true → r = (self, Err BadState)).
Proof.
  intros [Hlo Hhi] Hpos. cbn zeta.
  unfold data_CandidateSet___setstate__, data_CandidateSet___getstate___impl.
  assert (NUMROWS ≤ cs_set c →
          (if (cs_set c >=? NUMROWS) || (cs_set c <? 0) || (cs_iterpos c <? 0)
           then (self, Err BadState)
           else ({| cs_iterpos := cs_iterpos c; cs_set := uint16 (cs_set c) |}, Ok tt))
          = (self, Err BadState)) as Hbad.
  { intros Hge. by destruct (Z.geb_spec (cs_set c) NUMROWS); [|lia]. }
  split; [|split].
  - intros Hlt.
    destruct (Z.geb_spec (cs_set c) NUMROWS), (Z.ltb_spec (cs_set c) 0),
      (Z.ltb_spec (cs_iterpos c) 0); try lia.
    cbn [orb]. rewrite uint16_small by clia. by destruct c.
  - exact Hbad.
  - intros d Hd Hmem. apply Hbad. rewrite cs_mem_testbit in Hmem by lia.
    apply andb_true_iff in Hmem as [_ Hb].
    pose proof (testbit_lower_bound (cs_set c) d Hlo ltac:(lia) Hb) as Hpow.
    assert (2 ^ 4 ≤ 2 ^ d) by (apply Z.pow_le_mono_r; lia). clia.
Qed.

Lemma CandidateSet_pickle_round_trip_witness :
  let c := {| cs_iterpos := 2; cs_set := 5 |} in
  let r := data_CandidateSet___setstate__ (build_set 0)
             (data_CandidateSet___getstate___impl c) in
  (cs_set c < NUMROWS → r = (c, Ok tt))
  ∧ (NUMROWS ≤ cs_set c → r = (build_set 0, Err BadState))
  ∧ (∀ d, 4 ≤ d < 9 → cs_mem d c = true → r = (build_set 0, Err BadState)).
Proof.
  apply (CandidateSet_pickle_round_trip {| cs_iterpos := 2; cs_set := 5 |} (build_set 0)).
  - unfold cs_ok. cbn [cs_set]. clia.
  - cbn [cs_iterpos]. lia.
Defined.

(** * [candidates.clear()] *)

Lemma same_clues_clear (s : SudokuStateObject) :
  same_clues s (data_state_candidates_clear_impl s).
Proof.
  unfold data_state_candidates_clear_impl.
  apply (for_loop_ind (same_clues s)); [apply same_clues_refl|]. intros i s0 _ H0.
  apply (for_loop_ind (same_clues s)); [done|]. intros j s1 _ H1.
  destruct (CELL_CANDS (ss_grid s1) i j >? 0); [|done].
  eapply same_clues_trans; [|by destruct (set_CELL_CANDS_spec
    (if negb (CELL_FILLED (ss_grid s1) i j)
     then house_adjust_cand_count_down s1 i j (CELL_CANDS (ss_grid s1) i j) else s1)
    i j 0) as (? & _)].
  destruct (negb _); [|done]. eapply same_clues_trans; [exact H1|].
  by destruct (house_adjust_cand_count_same (-1) i j (CELL_CANDS (ss_grid s1) i j) s1)
    as (? & _).
Qed.

Lemma clear_unfold (s : SudokuStateObject) :
  data_state_candidates_clear_impl s = fold_left (λ st k, clear_cell k st) all_keys s.
Proof. exact (nested_for_loop_all_keys (λ i j st, clear_cell (i, j) st) s). Qed.

(** The double loop of [candidates.clear()] over a list of distinct keys. *)
Lemma clear_fold (l : list key) (s : SudokuStateObject) :
  Forall valid_key l → state_inv s →
  let s' := fold_left (λ st k, clear_cell k st) l s in
  state_inv s'
  ∧ ∀ k, valid_key k → cands_at s' k = if decide (k ∈ l) then 0 else cands_at s k.
Proof.
  intros Hl. revert s. induction Hl as [|k0 l Hk0 Hl IH]; intros s Hinv; cbn [fold_left].
  - split; [done|]. intros k _. rewrite decide_False; [done|]. by intros ?%elem_of_nil.
  - assert (state_inv (clear_cell k0 s) ∧ ∀ k, valid_key k →
              cands_at (clear_cell k0 s) k = if decide (k = k0) then 0 else cands_at s k)
      as [Hinv1 Hc1].
    { unfold clear_cell. cbn zeta. destruct (Z.gtb_spec (CELL_CANDS (ss_grid s) k0.1 k0.2) 0) as [Hpos|Hle].
      - set (s0 := if negb _ then _ else s).
        assert (state_inv s0 ∧ ss_grid s0 = ss_grid s) as [Hinv0 Hg0].
        { unfold s0. destruct (negb _); [|done].
          split; [by apply house_adjust_cand_count_inv|
                  apply house_adjust_cand_count_grid]. }
        split; [apply set_CELL_CANDS_inv; [clia|done]|].
        intros k Hk. destruct k0 as [x y]. cbn [fst snd].
        destruct (set_CELL_CANDS_spec s0 x y 0) as (_ & _ & _ & Hc).
        rewrite Hc; [|by destruct Hinv0|done|done].
        case_decide; [done|]. unfold cands_at. by rewrite Hg0.
      - split; [done|]. intros k Hk. case_decide as Heq; [|done]. subst k.
        destruct Hinv as (_ & Hmasks & _).
        pose proof (masks_ok_cands s k0.1 k0.2 Hmasks). unfold cands_at. lia. }
    destruct (IH (clear_cell k0 s) Hinv1) as [Hinv' Hc']. split; [done|].
    intros k Hk. rewrite Hc', Hc1 by done.
    destruct (decide (k = k0)) as [->|Hne].
    + rewrite (decide_True (P := k0 ∈ k0 :: l)) by left. by case_decide.
    + destruct (decide (k ∈ l)) as [Hin|Hnin].
      * by rewrite decide_True by (by right).
      * rewrite decide_False; [done|]. by intros [?|?]%elem_of_cons.
Qed.

(** X22: [candidates.clear()] leaves the clues alone and empties the mask of
    every cell, solved cells with a preserved mask included; the keys of the
    candidates view read as the empty set afterwards, a second [clear()]
    changes nothing, and if the counters of the houses were right before,
    every candidate counter is zero afterwards. *)
Theorem candidates_clear_spec (s : SudokuStateObject) :
  state_inv s →
  let s' := data_state_candidates_clear_impl s in
  same_clues s s'
  ∧ (∀ k, valid_key k → cands_at s' k = 0)
  ∧ (∀ k, valid_key k → solved_at s k = false →
       data_candidates_subscript s' k = Ok (build_set 0))
  ∧ data_state_candidates_clear_impl s' = s'
  ∧ (houses_inv s → ∀ h d, 0 ≤ h < 27 → 0 ≤ d < 9 → cand_count s' h d = 0).
Proof.
  intros Hinv. cbn zeta. pose proof (same_clues_clear s) as Hsame.
  assert (Forall valid_key all_keys) as Hall
    by (apply Forall_forall; intros k; apply elem_of_all_keys).
  assert (∀ k, valid_key k → cands_at (data_state_candidates_clear_impl s) k = 0) as Hzero.
  { intros k Hk. rewrite clear_unfold.
    destruct (clear_fold all_keys s Hall Hinv) as [_ Hc]. rewrite (Hc k Hk).
    rewrite decide_True; [done|]. by apply elem_of_all_keys. }
  pose proof (data_state_candidates_clear_impl_consistent s) as Hkeep.
  set (s' := data_state_candidates_clear_impl s) in *. clearbody s'.
  split; [done|]. split; [done|]. split; [|split].
  - intros k Hk Hu. rewrite data_candidates_subscript_spec, decide_True by done.
    by rewrite (same_clues_solved_at s s' k Hsame), Hu, (Hzero k Hk).
  - unfold data_state_candidates_clear_impl.
    apply (for_loop_ind (λ st, st = s')); [done|]. intros i st Hi ->.
    apply (for_loop_ind (λ st, st = s')); [done|]. intros j st Hj ->.
    assert (valid_key (i, j)) as Hij by (split; cbn [fst snd]; lia).
    specialize (Hzero (i, j) Hij). unfold cands_at in Hzero. cbn [fst snd] in Hzero.
    by rewrite Hzero.
  - intros Hhinv h d Hh Hd. destruct (Hkeep Hhinv) as (_ & _ & Hcons).
    destruct (Hcons h Hh) as [_ Hc]. rewrite (Hc d Hd). unfold cands_in_house.
    rewrite filter_false_length; [done|].
    intros k Hk%elem_of_all_keys. by rewrite (Hzero k Hk), Z.bits_0, andb_false_r.
Qed.

Lemma candidates_clear_spec_witness :
  let s' := data_state_candidates_clear_impl state_E1 in
  same_clues state_E1 s'
  ∧ (∀ k, valid_key k → cands_at s' k = 0)
  ∧ (∀ k, valid_key k → solved_at state_E1 k = false →
       data_candidates_subscript s' k = Ok (build_set 0))
  ∧ data_state_candidates_clear_impl s' = s'
  ∧ (houses_inv state_E1 → ∀ h d, 0 ≤ h < 27 → 0 ≤ d < 9 → cand_count s' h d = 0).
Proof.
  apply (candidates_clear_spec state_E1).
  split; [apply wf_state_state_E1|]. split; [apply masks_ok_state_E1|].
  apply solved_ok_state_E1.
Defined.
